(* ===== verification/_CoqProject ===== *)
-Q . S2P
Prelude.v
ProgLogic.v
CString.v
Backlog.v
Engine.v
Threads.v
Config.v
Instance.v
Argv.v
Geometry.v
Waiter.v
Start.v
Options.v
Multisense.v
Main.v
