(* ===== verification/Prelude.v ===== *)
(** * Terminology start-up and scrollback engine: a verification development

    ** The program

    The sources are [src/src/bin/main.c] (the entry point of the
    Terminology terminal emulator) and [src/src/bin/backlog.h] (the
    interface of the scrollback engine, with its row-addressing macro).

    [elm_main] sets Elementary up, loads the configuration and the key
    bindings, lets [ecore_getopt_parse] store the command line into its
    locals and into an [Ipc_Instance] (the description of one terminal
    window), assembles the command after [-e], probes the audio library
    ([_check_multisense]), folds the description into a [Config]
    ([_set_instance_theme], [_configure_instance]), reads the geometry
    with a cascade of [sscanf] calls, and starts the window either in
    this process ([_start]) or by handing the description to a running
    process ([_start_multi], [_instance_add_waiter], with a watchdog
    thread [_instance_sleep]); after the main loop, or at the label
    [end], it shuts everything down.  A process that serves such
    requests rebuilds an argument vector from the description
    ([main_ipc_new]), printing the geometry with [snprintf].

    [backlog.h] declares the operations of the scrollback store
    (registration, rows, capacity, the memory query, the lock) and
    defines [BACKLOG_ROW_GET], the circular-index arithmetic they are
    built on.  The bodies of the operations are not part of the sources:
    they are modelled from the specification of the engine, on the slot
    array the macro addresses.

    ** The files

    - [Prelude] (this file): machine integers at their C width ([int],
      [long], [size_t], [Eina_Bool]) with wrap-around written out; the
      type [prog] of programs with a state, an early return and a halt,
      with its notation (scope [prog_scope]) and laws; the tactics
      [zbool] and [zmod]; the hint databases [cmodel] and [cmodel_rw];
      lemmas on integers and lists shared by the components.
    - [ProgLogic]: a program logic for [prog]: weakest preconditions
      with one postcondition for each way a program ends ([wp]), what a
      program leaves unchanged ([unchanged], [preserved]), their rules
      and the tactics that apply them.
    - [CString]: the C string routines [main.c] calls ([strlen],
      [strchr], [eina_str_has_suffix], the truncation of [eina_strlcpy]
      and [snprintf], [strncasecmp], [atoi]) and the two directions of
      ["%i"]: printing a decimal ([print_int]) and scanning with base
      detection ([scan_int]).
    - [Backlog]: [BACKLOG_ROW_GET] as the header writes it: [size_t]
      arithmetic, the remainder by 0 as an error, the cursor read from
      the variable [ty] of the expanding scope.
    - [Engine]: the scrollback engine in three layers.  The session
      buffer is a class ([SessionBuffer]) with the laws of the
      specification on the list of rows, most recent first
      ([SessionBufferLaws]), and a bounded list as reference
      ([Bounded]).  The ring of a terminal ([ring_push], [ring_clear],
      [ring_resize], [ring_replace], on the [Termpty] of [Backlog]) is
      read through the macro ([row_at], [backlog_rows], [backlog_ref])
      and is an instance of the laws.  The engine ([Engine]) holds the
      registered terminals, the ledger and the lock; each operation of
      the header ([termpty_save_register], [termpty_clear_backlog],
      [termpty_backlog_size_set], [termpty_backlog_memory_get], ...) is
      a function on it that runs between [termpty_backlog_lock] and
      [termpty_backlog_unlock] and returns a result or an [error];
      [serve] runs one call ([request]) and [engine_step] is the step
      relation of the calls the callers may make.
    - [Threads]: the threads of the process as lists of instructions
      (lock, unlock, read and write of the ledger) run one instruction
      at a time in any order ([thread_step], [schedule]).
    - [Config]: the record [Config] (module [Cfg]) with the fields
      [main.c] reads or writes, and one setter for each assignment.
    - [Instance]: the record [Ipc_Instance] as [elm_main] initialises
      it, one setter for each field written, [_set_instance_theme] and
      [_configure_instance]; the theme path, the colour-scheme
      computation and the listing of the font directory are parameters
      of the section.
    - [Argv]: the first half of [main_ipc_new]: the count [nargc_of],
      the entries written [nargv_of], the array allocated
      [nargv_array], and the geometry string [geom_of] with its eight
      [snprintf] formats.
    - [Geometry]: [sscanf] over the formats [elm_main] uses, the cascade
      of nine patterns as a table of arms ([geometry_arms], [run_arms])
      that keeps the stores of the calls that failed, and the default
      size.
    - [Waiter]: [_instance_add_waiter], [_instance_sleep] and
      [_instance_add_free] as an interleaving semantics: a state holds
      the shared [Instance_Add], the program counter and the locals of
      each thread; one action is one statement; the outcomes of [calloc],
      [pthread_create], [ipc_instance_add] and [execv] are carried by the
      actions.
    - [Start]: [_start], the whole of [main_ipc_new] and [_start_multi]
      as programs of type [prog] over the instance, the global
      [terminology_starting_up] and the trace of library calls; each
      [goto exit], [goto end] and [return] is an early return.
    - [Options]: the table of options and the table of values of
      [elm_main] as data in the order of the source, the loop of
      [_translate_options] up to the sentinel, and the flags
      [main_ipc_new] writes, compared with the table.
    - [Multisense]: [_check_multisense] over an audio library given as a
      class ([Channel]) with the two functions the probe calls; a
      library with the multisense code and one without are two sets of
      laws.
    - [Main]: [elm_main] as a program over its locals, the instance, the
      globals and the trace of library calls, written as the parts of
      the source in their order ([elm_main_start], [load_config],
      [init_ipc], [parse_command_line], [apply_options], [command],
      [setup_instance], [start_window], [main_loop], [elm_main_end]);
      [goto end] is an early return of the body.

    ** What the theorems show

    - [CString]: scanning what [print_int] printed gives the number back
      ([scan_int_print_int]); a printed [int] has at most 11 characters.
    - [Backlog]: the index of the macro is a slot of the ring and its
      address is inside the array; on the offsets of one window it is
      [(backpos - 1 - Y) mod backsize], injective within one turn; for a
      size that divides [2 ^ 64] this holds for every offset, and for
      other sizes offsets beyond the window wrap to another slot; the
      macro is undefined for size 0 and reads the cursor of the caller's
      [ty].
    - [Engine]: the ring keeps the laws of the interface ([ring_laws]),
      so after any sequence of operations its rows and capacity are
      those of the bounded list ([ring_refines_bounded]); against the
      laws: the number of rows after pushes, the eviction of the oldest
      row, most recent first, clear and shrink; through the macro: the
      row at each offset, references that outlive a push and the one
      that does not, the expansion of a row.  For the engine: every
      call keeps the invariant of the ledger ([serve_wf]), so that in
      every reachable state the memory query is what a full rescan
      counts; a failed call changes nothing; the lock is free after
      every call; unregistering a terminal with rows leaves their cost
      in the ledger.
    - [Threads]: with every change of the ledger between lock and
      unlock, no change is lost in any schedule, two threads are never
      both inside, and some thread can always make a step; without the
      lock a schedule loses a change.
    - [Instance]: every override of [_configure_instance] marks the
      configuration temporary; an instance with nothing set leaves it
      untouched; the three outcomes of the font lookup.
    - [Argv]: [main_ipc_new] never writes past the [nargc + 1] slots it
      allocated; [nargc] exceeds the arguments written by the number of
      tri-state options left at [IPC_INSTANCE_OPT_UNSET], which leaves
      [NULL] entries below [nargc]; the geometry string fits its buffer.
    - [Geometry]: the geometry [main_ipc_new] prints is read back by the
      cascade of [elm_main] to the same position and size, except a
      width of 0.
    - [Waiter]: mutual exclusion; the mutex is held by the thread in its
      critical section; the record is freed at most once, and exactly
      once when both threads ran to their end; the value returned;
      every run has at most 28 statements and can always be continued
      to a final state; a run exists in which the watchdog reads the
      record after the waiter freed it, and one in which the record is
      never freed.
    - [Start]: the outcome, the calls and the final instance of
      [_start] on its success path and on each error exit; the
      commands given to the splits; [main_ipc_new] puts the arguments
      of the process back on every exit but the one after a failed
      [win_term_set]; [_start_multi] makes at most two attempts and
      creates the window exactly when it returns [EINA_FALSE].
    - [Options]: the two tables agree entry by entry; the translation
      stops at the sentinel; which flags [main_ipc_new] writes in a way
      the table does not parse back.
    - [Multisense]: the probe leaves [multisense_available] and the
      mute as they were with a library that has the code, and clears
      the global with one that ignores the writes.
    - [Main]: one lemma ([elm_main_paths]) lists the seven ways out of
      [elm_main] with the condition, the calls and the status of each;
      from it: when the status is [EXIT_FAILURE], that the
      configuration of the instance is deleted exactly once, the calls
      after [-e] without a command and after an option that only
      prints, which shutdown calls a [goto end] skips, and that
      [elm_main] returns whenever the parser's index is inside [argv];
      the loops that assemble the command are the functions on lists
      ([assemble_spec]).

    ** Bounds, fuel and conventions

    [int] is 32 bits two's complement, [long] 64 bits, [size_t] 64 bits
    unsigned, [Eina_Bool] one unsigned byte; [PATH_MAX] is 4096.  A call
    into a library that is not part of the sources is a parameter of the
    section that makes it (or, in [Waiter], the label of an action, and
    in [Main] an event of the trace), so a theorem holds for every
    behaviour of that library.  [print_nat] takes its fuel from the
    binary logarithm of the number, which [print_nat_fuel] shows to be
    enough.  [multi_loop] runs with fuel 2, and [multi_loop_run] shows
    that any fuel from 2 on gives the same result; [probe_loop] runs
    with fuel 2 ([probe_loop_fuel]).  The loops of [assemble] run with
    fuel [argc]; [assemble_spec] shows that they end within it when
    [argc] fits an [int].  The reachable states of [Waiter] are computed
    by [explore] to a depth of [steps_left init] + 1;
    [reach_list_closed] checks that the set is closed under every
    action, so the depth is enough.  A call of [ipc_instance_add] that
    blocks for ever is a run in which its action is never taken.  In
    [Engine] the capacity of a ring is at most [2 ^ 63] slots, the bound
    under which the sum of the macro does not wrap; the ledger is an
    unbounded integer; the byte cost of a row is a parameter; whether an
    allocation succeeds is an argument of the call.

    ** Not modelled

    The bodies of the operations [backlog.h] declares are not under
    [src/]: [Engine] and [Threads] follow the specification, and say
    nothing of code that is not there.  [ecore_getopt_parse] is a
    library: what it returns and stores is a parameter of [elm_main],
    and the tables it is given are data ([Options]).  Window and widget
    creation, the IPC transport, the configuration store and the main
    loop of Elementary are libraries the sources only call; the
    preprocessor branches of [BINARY_TYFUZZ] and [BINARY_TYTEST] are
    not part of the program modelled. *)

From Stdlib Require Import ZArith Lia Bool List.
From stdpp Require Import base tactics option list.

#[global] Open Scope Z_scope.

(** ** Hint database and tactics *)

Create HintDb cmodel discriminated.
Create Rewrite HintDb cmodel_rw.

(** [zbool]: turn the boolean comparisons on [Z] in context and goal into
    propositions and close the goal by linear arithmetic. *)
Ltac zbool :=
  repeat match goal with
  | H : (_ <? _) = true |- _ => apply Z.ltb_lt in H
  | H : (_ <? _) = false |- _ => apply Z.ltb_ge in H
  | H : (_ <=? _) = true |- _ => apply Z.leb_le in H
  | H : (_ <=? _) = false |- _ => apply Z.leb_gt in H
  | H : (_ =? _) = true |- _ => apply Z.eqb_eq in H
  | H : (_ =? _) = false |- _ => apply Z.eqb_neq in H
  end;
  try lia.

(** [zmod]: linear arithmetic that knows the equations of [/] and [mod]. *)
Ltac zmod := Z.div_mod_to_equations; lia.

(** ** Machine integers *)

(** C's [int]: 32 bits, two's complement. *)
Definition INT_MIN : Z := - 2 ^ 31.
Definition INT_MAX : Z := 2 ^ 31 - 1.
Definition in_int (z : Z) : Prop := INT_MIN <= z <= INT_MAX.
Definition wrap_int (z : Z) : Z := (z + 2 ^ 31) mod 2 ^ 32 - 2 ^ 31.

(** C's [long]: 64 bits; [strtol] saturates at its ends. *)
Definition LONG_MIN : Z := - 2 ^ 63.
Definition LONG_MAX : Z := 2 ^ 63 - 1.
Definition clamp_long (z : Z) : Z := Z.max LONG_MIN (Z.min LONG_MAX z).

(** C's [size_t]: 64 bits, unsigned, every operation modulo [2 ^ 64]. *)
Definition SIZE_MOD : Z := 2 ^ 64.
Definition in_size (z : Z) : Prop := 0 <= z < SIZE_MOD.
Definition to_size (z : Z) : Z := z mod SIZE_MOD.
Definition size_add (a b : Z) : Z := to_size (a + b).
Definition size_sub (a b : Z) : Z := to_size (a - b).

(** Unsigned remainder; the divisor 0 is an error (undefined in C). *)
Definition size_rem (a b : Z) : option Z :=
  if decide (b = 0) then None else Some (a mod b).

(** [Eina_Bool] is an unsigned byte; the tri-state options of the
    instance use 0, 1 and [IPC_INSTANCE_OPT_UNSET]. *)
Definition in_byte (z : Z) : Prop := 0 <= z < 256.

Definition EINA_FALSE : Z := 0.
Definition EINA_TRUE : Z := 1.

(** C's truth: a value is true when it is not 0; [!] and [!!]. *)
Definition truthy (z : Z) : bool := negb (z =? 0).
Definition c_not (z : Z) : Z := if z =? 0 then 1 else 0.
Definition c_notnot (z : Z) : Z := if z =? 0 then 0 else 1.
Definition of_bool (b : bool) : Z := if b then 1 else 0.

#[global] Instance in_int_dec z : Decision (in_int z).
Proof. unfold in_int. apply _. Defined.
#[global] Instance in_size_dec z : Decision (in_size z).
Proof. unfold in_size. apply _. Defined.
#[global] Instance in_byte_dec z : Decision (in_byte z).
Proof. unfold in_byte. apply _. Defined.

(** ** Programs with a state and an early return

    A C function that threads a state through its calls and leaves by
    [return] or [goto] from the middle: a program takes the state and
    gives the new state with a value, or says that the function has
    returned, or that the process has ended. *)

Inductive outcome (A : Type) : Type :=
| Value (a : A)
| Returned
| Halted.
Arguments Value {A} a.
Arguments Returned {A}.
Arguments Halted {A}.

Definition prog (S A : Type) : Type := S -> S * outcome A.

Definition prog_ret {S A} (a : A) : prog S A := fun s => (s, Value a).

Definition prog_bind {S A B} (m : prog S A) (f : A -> prog S B) : prog S B :=
  fun s =>
    match m s with
    | (s', Value a) => f a s'
    | (s', Returned) => (s', Returned)
    | (s', Halted) => (s', Halted)
    end.

(** C's [return]: what follows in the function does not run. *)
Definition leave {S A} : prog S A := fun s => (s, Returned).

(** The end of the process: nothing of the program runs after it. *)
Definition halt {S A} : prog S A := fun s => (s, Halted).

(** A call of a function whose body is [m]: its [return] ends the
    call, not the caller; [d] is the value of a body that returned. *)
Definition call {S A} (d : A) (m : prog S A) : prog S A :=
  fun s =>
    match m s with
    | (s', Returned) => (s', Value d)
    | r => r
    end.

Definition gets {S A} (f : S -> A) : prog S A := fun s => (s, Value (f s)).

Definition modify {S} (f : S -> S) : prog S unit := fun s => (f s, Value tt).

(** [if (b) m]: a statement guarded by a condition. *)
Definition when {S} (b : bool) (m : prog S unit) : prog S unit :=
  if b then m else prog_ret tt.

(** The state a program ends in, and whether it ran to its end. *)
Definition exec {S A} (m : prog S A) (s : S) : S := fst (m s).
Definition completes {S A} (m : prog S A) (s : S) : bool :=
  match snd (m s) with Value _ => true | _ => false end.

(** Two programs are equal when they agree on every state. *)
Definition prog_eq {S A} (m1 m2 : prog S A) : Prop := forall s, m1 s = m2 s.

Declare Scope prog_scope.
Delimit Scope prog_scope with prog.
Notation "x <- m ;; k" := (prog_bind m (fun x => k))
  (at level 100, m at next level, k at level 200, right associativity) : prog_scope.
Notation "m ;; k" := (prog_bind m (fun _ => k))
  (at level 100, k at level 200, right associativity) : prog_scope.

(** ** Lemmas on machine integers *)

Lemma SIZE_MOD_pos : 0 < SIZE_MOD.
Proof. reflexivity. Qed.

Lemma wrap_int_id z : in_int z -> wrap_int z = z.
Proof.
  unfold in_int, wrap_int, INT_MIN, INT_MAX. intros H.
  rewrite Z.mod_small; lia.
Qed.

Lemma wrap_int_range z : in_int (wrap_int z).
Proof.
  unfold in_int, wrap_int, INT_MIN, INT_MAX.
  pose proof (Z.mod_pos_bound (z + 2 ^ 31) (2 ^ 32) eq_refl). lia.
Qed.

Lemma wrap_int_idem z : wrap_int (wrap_int z) = wrap_int z.
Proof. apply wrap_int_id, wrap_int_range. Qed.

Lemma clamp_long_id z : LONG_MIN <= z <= LONG_MAX -> clamp_long z = z.
Proof. unfold clamp_long. lia. Qed.

Lemma clamp_long_range z : LONG_MIN <= clamp_long z <= LONG_MAX.
Proof. unfold clamp_long, LONG_MIN, LONG_MAX. lia. Qed.

Lemma to_size_range z : in_size (to_size z).
Proof. apply Z.mod_pos_bound, SIZE_MOD_pos. Qed.

Lemma to_size_id z : in_size z -> to_size z = z.
Proof. intros H. apply Z.mod_small, H. Qed.

Lemma to_size_idem z : to_size (to_size z) = to_size z.
Proof. apply to_size_id, to_size_range. Qed.

(** A chain of [size_t] additions and subtractions is the wrap of the
    mathematical result: the intermediate wraps cancel. *)
Lemma size_add_to_size_l a b : size_add (to_size a) b = to_size (a + b).
Proof. unfold size_add, to_size. apply Zplus_mod_idemp_l. Qed.

Lemma size_sub_to_size_l a b : size_sub (to_size a) b = to_size (a - b).
Proof. unfold size_sub, to_size. apply Zminus_mod_idemp_l. Qed.

Lemma size_sub_to_size_r a b : size_sub a (to_size b) = to_size (a - b).
Proof. unfold size_sub, to_size. apply Zminus_mod_idemp_r. Qed.

Lemma size_rem_Some a b : b <> 0 -> size_rem a b = Some (a mod b).
Proof. intros H. unfold size_rem. by rewrite decide_False. Qed.

Lemma size_rem_zero a : size_rem a 0 = None.
Proof. reflexivity. Qed.

Lemma truthy_true z : truthy z = true <-> z <> 0.
Proof. unfold truthy. destruct (Z.eqb_spec z 0); split; (done || lia). Qed.

Lemma truthy_false z : truthy z = false <-> z = 0.
Proof. unfold truthy. destruct (Z.eqb_spec z 0); split; (done || lia). Qed.

Lemma c_not_byte z : in_byte (c_not z).
Proof. unfold c_not, in_byte. destruct (z =? 0); lia. Qed.

Lemma c_notnot_truthy z : c_notnot z = of_bool (truthy z).
Proof. unfold c_notnot, truthy. by destruct (z =? 0). Qed.

#[export] Hint Resolve wrap_int_range to_size_range clamp_long_range : cmodel.
#[export] Hint Rewrite wrap_int_idem to_size_idem size_add_to_size_l
  size_sub_to_size_l size_sub_to_size_r : cmodel_rw.

(** ** Lemmas on lists and options shared by the components *)

Lemma length_filter_le {A} (p : A -> bool) (l : list A) :
  (length (List.filter p l) <= length l)%nat.
Proof. induction l as [|a l IH]; simpl; [lia|]. destruct (p a); simpl; lia. Qed.

Lemma option_bind_Some {A B} (o : option A) (f : A -> option B) (b : B) :
  o ≫= f = Some b <-> exists a, o = Some a /\ f a = Some b.
Proof.
  destruct o as [a|]; simpl; split.
  - eauto.
  - by intros (a' & [= ->] & H).
  - discriminate.
  - by intros (a' & ? & _).
Qed.

(** A boolean check that passed on a list holds of each element. *)
Lemma forallb_elem_of {A} (p : A -> bool) (l : list A) (x : A) :
  forallb p l = true -> x ∈ l -> p x = true.
Proof. rewrite forallb_forall. intros H Hin. by apply H, list_elem_of_In. Qed.

(** No element of a list passes a test that none satisfies. *)
Lemma filter_existsb_nil {A} (p : A -> bool) (l : list A) :
  existsb p l = false -> filter (fun a => p a = true) l = [].
Proof.
  induction l as [|a l IH]; simpl; [done|]. intros [Ha Hl]%orb_false_iff.
  rewrite filter_cons, decide_False by (by rewrite Ha). by apply IH.
Qed.

(** ** Laws of programs *)

#[global] Instance prog_eq_equiv {S A} : Equivalence (@prog_eq S A).
Proof.
  split; [by intros m s | by intros m1 m2 H s | ].
  intros m1 m2 m3 H1 H2 s. by rewrite H1.
Qed.

#[global] Instance prog_bind_proper {S A B} :
  Proper (prog_eq ==> pointwise_relation A prog_eq ==> prog_eq) (@prog_bind S A B).
Proof.
  intros m1 m2 Hm f1 f2 Hf s. unfold prog_bind. rewrite Hm.
  destruct (m2 s) as [s' [a| |]]; [apply Hf | done..].
Qed.

#[global] Instance exec_proper {S A} : Proper (prog_eq ==> eq ==> eq) (@exec S A).
Proof. intros m1 m2 Hm s ? <-. unfold exec. by rewrite Hm. Qed.

#[global] Instance call_proper {S A} (d : A) : Proper (prog_eq ==> prog_eq) (@call S A d).
Proof. intros m1 m2 Hm s. unfold call. by rewrite Hm. Qed.

Lemma prog_bind_ret_l {S A B} (a : A) (f : A -> prog S B) :
  prog_eq (prog_bind (prog_ret a) f) (f a).
Proof. by intros s. Qed.

Lemma prog_bind_ret_r {S A} (m : prog S A) : prog_eq (prog_bind m prog_ret) m.
Proof. intros s. unfold prog_bind. by destruct (m s) as [s' [a| |]]. Qed.

Lemma prog_bind_assoc {S A B C} (m : prog S A) (f : A -> prog S B) (g : B -> prog S C) :
  prog_eq (prog_bind (prog_bind m f) g) (prog_bind m (fun a => prog_bind (f a) g)).
Proof. intros s. unfold prog_bind. by destruct (m s) as [s' [a| |]]. Qed.

(** Nothing runs after a [return], nor after the end of the process. *)
Lemma prog_bind_leave {S A B} (f : A -> prog S B) : prog_eq (prog_bind leave f) leave.
Proof. by intros s. Qed.

Lemma prog_bind_halt {S A B} (f : A -> prog S B) : prog_eq (prog_bind halt f) halt.
Proof. by intros s. Qed.

(** A call never passes a [return] on to its caller. *)
Lemma call_not_returned {S A} (d : A) (m : prog S A) s : snd (call d m s) <> Returned.
Proof. unfold call. by destruct (m s) as [s' [a| |]]. Qed.

Lemma exec_call {S A} (d : A) (m : prog S A) s : exec (call d m) s = exec m s.
Proof. unfold exec, call. by destruct (m s) as [s' [a| |]]. Qed.

Lemma exec_bind {S A B} (m : prog S A) (f : A -> prog S B) s :
  exec (prog_bind m f) s =
  match snd (m s) with
  | Value a => exec (f a) (exec m s)
  | _ => exec m s
  end.
Proof. unfold exec, prog_bind. by destruct (m s) as [s' [a| |]]. Qed.
