(* ===== verification/ProgLogic.v ===== *)
(** * ProgLogic: postconditions of programs

    A program of type [prog] ends in one of three ways: with a value,
    by [leave] (a [return] or [goto] out of the block) or by [halt].
    [wp m Q R H s] says that [m], run from [s], ends in a state where
    [Q] holds of its value, or [R] when it left, or [H] when it halted.
    The rules below let a proof walk through a program one statement at
    a time; [unchanged p m] says that [m] leaves the part [p] of the
    state as it was, whatever way it ends, and is what carries a fact
    over the statements that have nothing to do with it. *)

From Stdlib Require Import ZArith Lia List.
From stdpp Require Import base tactics.
From S2P Require Import Prelude.

Section Wp.

Context {S : Type}.

Definition wp {A} (m : prog S A) (Q : A -> S -> Prop) (R H : S -> Prop)
    (s : S) : Prop :=
  match (m s).2 with
  | Value a => Q a (m s).1
  | Returned => R (m s).1
  | Halted => H (m s).1
  end.

(** The part [p] of the state is the same after [m]. *)
Definition unchanged {A B} (p : S -> B) (m : prog S A) : Prop :=
  forall s, p (m s).1 = p s.

(** What holds of the state before [m] holds after it. *)
Definition preserved {A} (P : S -> Prop) (m : prog S A) : Prop :=
  forall s, P s -> P (m s).1.

(** ** The rules *)

Lemma wp_ret {A} (a : A) Q R H s : Q a s -> wp (prog_ret a) Q R H s.
Proof. done. Qed.

Lemma wp_leave {A} (Q : A -> S -> Prop) R H s : R s -> wp leave Q R H s.
Proof. done. Qed.

Lemma wp_halt {A} (Q : A -> S -> Prop) R H s : H s -> wp halt Q R H s.
Proof. done. Qed.

Lemma wp_gets {A} (f : S -> A) Q R H s : Q (f s) s -> wp (gets f) Q R H s.
Proof. done. Qed.

Lemma wp_modify (f : S -> S) Q R H s : Q tt (f s) -> wp (modify f) Q R H s.
Proof. done. Qed.

Lemma wp_bind {A B} (m : prog S A) (k : A -> prog S B) Q R H s :
  wp m (fun a s' => wp (k a) Q R H s') R H s -> wp (prog_bind m k) Q R H s.
Proof. unfold wp, prog_bind. by destruct (m s) as [s' [a| |]]. Qed.

Lemma wp_when b (m : prog S unit) Q R H s :
  (b = true -> wp m Q R H s) -> (b = false -> Q tt s) -> wp (when b m) Q R H s.
Proof. destruct b; intros H1 H2; [by apply H1 | by apply wp_ret, H2]. Qed.

(** A call: the callee's [return] is the caller's next statement. *)
Lemma wp_call {A} (d : A) (m : prog S A) Q R H s :
  wp m Q (Q d) H s -> wp (call d m) Q R H s.
Proof. unfold wp, call. by destruct (m s) as [s' [a| |]]. Qed.

(** Weakening. *)
Lemma wp_mono {A} (m : prog S A) (Q Q' : A -> S -> Prop) (R R' H H' : S -> Prop) s :
  wp m Q R H s ->
  (forall a s', Q a s' -> Q' a s') -> (forall s', R s' -> R' s') ->
  (forall s', H s' -> H' s') ->
  wp m Q' R' H' s.
Proof. unfold wp. destruct (m s) as [s' [a| |]]; simpl; auto. Qed.

(** A program that is known by what it computes. *)
Lemma wp_run {A} (m : prog S A) Q R H s s' o :
  m s = (s', o) ->
  match o with Value a => Q a s' | Returned => R s' | Halted => H s' end ->
  wp m Q R H s.
Proof. unfold wp. by intros ->. Qed.

(** What a postcondition says of a result. *)
Lemma wp_value {A} (m : prog S A) Q R H s a :
  wp m Q R H s -> (m s).2 = Value a -> Q a (exec m s).
Proof. unfold wp, exec. destruct (m s) as [s' o]. simpl. by intros Hw ->. Qed.

Lemma wp_returned {A} (m : prog S A) Q R H s :
  wp m Q R H s -> (m s).2 = Returned -> R (exec m s).
Proof. unfold wp, exec. destruct (m s) as [s' o]. simpl. by intros Hw ->. Qed.

(** ** What a program leaves unchanged *)

Section Unchanged.

Context {B : Type} (p : S -> B).

Lemma unchanged_ret {A} (a : A) : unchanged p (prog_ret a).
Proof. done. Qed.

Lemma unchanged_leave {A} : unchanged p (@leave S A).
Proof. done. Qed.

Lemma unchanged_halt {A} : unchanged p (@halt S A).
Proof. done. Qed.

Lemma unchanged_gets {A} (f : S -> A) : unchanged p (gets f).
Proof. done. Qed.

Lemma unchanged_modify (f : S -> S) :
  (forall s, p (f s) = p s) -> unchanged p (modify f).
Proof. intros Hf s. apply Hf. Qed.

Lemma unchanged_bind {A C} (m : prog S A) (k : A -> prog S C) :
  unchanged p m -> (forall a, unchanged p (k a)) -> unchanged p (prog_bind m k).
Proof.
  intros Hm Hk s. unfold prog_bind. specialize (Hm s).
  destruct (m s) as [s' [a| |]]; simpl in *; try done.
  by rewrite Hk.
Qed.

Lemma unchanged_when b (m : prog S unit) :
  unchanged p m -> unchanged p (when b m).
Proof. by destruct b. Qed.

Lemma unchanged_call {A} (d : A) (m : prog S A) :
  unchanged p m -> unchanged p (call d m).
Proof. intros Hm s. unfold call. specialize (Hm s). by destruct (m s) as [s' [a| |]]. Qed.

Lemma unchanged_if {A} (b : bool) (m1 m2 : prog S A) :
  unchanged p m1 -> unchanged p m2 -> unchanged p (if b then m1 else m2).
Proof. by destruct b. Qed.

(** What holds of [p] before holds after, however the program ends. *)
Lemma wp_unchanged {A} (m : prog S A) (Q : A -> S -> Prop) (R H : S -> Prop) s :
  unchanged p m ->
  (forall a s', p s' = p s -> Q a s') ->
  (forall s', p s' = p s -> R s') ->
  (forall s', p s' = p s -> H s') ->
  wp m Q R H s.
Proof.
  intros Hm HQ HR HH. unfold wp. specialize (Hm s).
  destruct (m s) as [s' [a| |]]; simpl in *; auto.
Qed.

(** A part of the state that does not change can be added to any
    postcondition. *)
Lemma wp_frame {A} (m : prog S A) (Q : A -> S -> Prop) (R H : S -> Prop) s :
  unchanged p m -> wp m Q R H s ->
  wp m (fun a s' => p s' = p s /\ Q a s') (fun s' => p s' = p s /\ R s')
    (fun s' => p s' = p s /\ H s') s.
Proof.
  intros Hm. unfold wp. specialize (Hm s).
  by destruct (m s) as [s' [a| |]].
Qed.

End Unchanged.

(** ** What a program preserves *)

Section Preserved.

Context (P : S -> Prop).

Lemma preserved_ret {A} (a : A) : preserved P (prog_ret a).
Proof. by intros s. Qed.

Lemma preserved_leave {A} : preserved P (@leave S A).
Proof. by intros s. Qed.

Lemma preserved_halt {A} : preserved P (@halt S A).
Proof. by intros s. Qed.

Lemma preserved_gets {A} (f : S -> A) : preserved P (gets f).
Proof. by intros s. Qed.

Lemma preserved_modify (f : S -> S) :
  (forall s, P s -> P (f s)) -> preserved P (modify f).
Proof. intros Hf s. apply Hf. Qed.

Lemma preserved_bind {A C} (m : prog S A) (k : A -> prog S C) :
  preserved P m -> (forall a, preserved P (k a)) -> preserved P (prog_bind m k).
Proof.
  intros Hm Hk s Hs. unfold prog_bind. specialize (Hm s Hs).
  destruct (m s) as [s' [a| |]]; simpl in *; try done.
  by apply Hk.
Qed.

Lemma preserved_when b (m : prog S unit) :
  preserved P m -> preserved P (when b m).
Proof. destruct b; [done|]. by intros _ s. Qed.

Lemma preserved_call {A} (d : A) (m : prog S A) :
  preserved P m -> preserved P (call d m).
Proof.
  intros Hm s Hs. unfold call. specialize (Hm s Hs).
  by destruct (m s) as [s' [a| |]].
Qed.

(** What is preserved holds at the end, however the program ends. *)
Lemma wp_preserved {A} (m : prog S A) (Q : A -> S -> Prop) (R H : S -> Prop) s :
  preserved P m -> P s ->
  (forall a s', P s' -> Q a s') -> (forall s', P s' -> R s') ->
  (forall s', P s' -> H s') ->
  wp m Q R H s.
Proof.
  intros Hm Hs HQ HR HH. unfold wp. specialize (Hm s Hs).
  destruct (m s) as [s' [a| |]]; simpl in *; auto.
Qed.

End Preserved.

(** A fact about a part of the state that does not change. *)
Lemma unchanged_preserved {A B} (p : S -> B) (Q : B -> Prop) (m : prog S A) :
  unchanged p m -> preserved (fun s => Q (p s)) m.
Proof. intros Hm s. by rewrite Hm. Qed.

End Wp.

(** ** Automation *)

(** [frame_step tac]: one rule for a program that keeps a part of the
    state, or a fact about it; [tac] is for the statements that change
    the state.  A program with a name is unfolded. *)
Ltac frame_step tac :=
  lazymatch goal with
  | |- unchanged _ (prog_bind _ _) => apply unchanged_bind; [|intros ?]
  | |- unchanged _ (prog_ret _) => apply unchanged_ret
  | |- unchanged _ leave => apply unchanged_leave
  | |- unchanged _ halt => apply unchanged_halt
  | |- unchanged _ (gets _) => apply unchanged_gets
  | |- unchanged _ (modify _) => apply unchanged_modify; intros; tac
  | |- unchanged _ (when _ _) => apply unchanged_when
  | |- unchanged _ (call _ _) => apply unchanged_call
  | |- unchanged _ (if ?b then _ else _) => destruct b
  | |- unchanged _ (match ?x with _ => _ end) => destruct x
  | |- unchanged ?p ?m => let m' := eval red in m in change (unchanged p m')
  | |- preserved _ (prog_bind _ _) => apply preserved_bind; [|intros ?]
  | |- preserved _ (prog_ret _) => apply preserved_ret
  | |- preserved _ leave => apply preserved_leave
  | |- preserved _ halt => apply preserved_halt
  | |- preserved _ (gets _) => apply preserved_gets
  | |- preserved _ (modify _) => apply preserved_modify; intros; tac
  | |- preserved _ (when _ _) => apply preserved_when
  | |- preserved _ (call _ _) => apply preserved_call
  | |- preserved _ (if ?b then _ else _) => destruct b
  | |- preserved _ (match ?x with _ => _ end) => destruct x
  | |- preserved ?P ?m => let m' := eval red in m in change (preserved P m')
  end.

(** [wp_atom]: the rule of a statement that is one of the combinators. *)
Ltac wp_atom :=
  lazymatch goal with
  | |- wp (prog_ret _) _ _ _ _ => apply wp_ret
  | |- wp (gets _) _ _ _ _ => apply wp_gets
  | |- wp (modify _) _ _ _ _ => apply wp_modify
  | |- wp leave _ _ _ _ => apply wp_leave
  | |- wp halt _ _ _ _ => apply wp_halt
  | |- wp (call _ _) _ _ _ _ => apply wp_call
  | |- wp (when _ _) _ _ _ _ => apply wp_when; intros ?
  | |- wp (if ?b then _ else _) _ _ _ _ => destruct b eqn:?
  | |- wp (match ?x with _ => _ end) _ _ _ _ => destruct x eqn:?
  | |- wp (prog_bind (prog_bind _ _) _) _ _ _ _ => apply wp_bind
  end; cbv beta.

(** [wp_step]: one statement of the program; a statement that is a
    program with a name is left for its lemma. *)
Ltac wp_step := first [ wp_atom | apply wp_bind; wp_atom ].

Ltac wp_steps := repeat wp_step.

(** [wp_use L]: the next statement has the postcondition of lemma [L];
    what is left to show are the premises of [L] and that its three
    postconditions give what the rest of the program needs. *)
Ltac wp_use L :=
  lazymatch goal with
  | |- wp (prog_bind _ _) _ _ _ _ => apply wp_bind
  | _ => idtac
  end;
  eapply wp_mono; [apply L|cbv beta..].
