(* ===== verification/CString.v ===== *)
(** * CString: the C string routines [main.c] calls

    Models of the library routines the sources call on strings, each
    following the C standard's description of it: [strchr],
    [eina_str_has_suffix], [eina_strlcpy] and the truncation of
    [snprintf], [strncasecmp], [atoi], and the two directions of the
    conversion ["%i"]: [print_int] (what [snprintf] writes) and [scan_int]
    (what [sscanf] reads: optional white space, a sign, a base chosen by
    the prefix, then the digits, saturating like [strtol] and stored in an
    [int]).  The round trip between the last two is what lets a geometry
    string be read back. *)

From Stdlib Require Import ZArith Lia List Ascii String.
From stdpp Require Import base tactics option list strings.
From S2P Require Import Prelude.

(** ** Characters *)

Definition code (c : ascii) : Z := Z.of_N (N_of_ascii c).

(** The value of a character as a digit of a base up to 16: the
    digits from [0], the letters from [a] or [A] on. *)
Definition char_val (c : ascii) : option Z :=
  let n := code c in
  if (48 <=? n) && (n <=? 57) then Some (n - 48)
  else if (97 <=? n) && (n <=? 102) then Some (n - 87)
  else if (65 <=? n) && (n <=? 70) then Some (n - 55)
  else None.

(** The value of [c] as a digit of [base], when it is one. *)
Definition digit_in (base : Z) (c : ascii) : option Z :=
  match char_val c with
  | Some v => if v <? base then Some v else None
  | None => None
  end.

(** The character of a decimal digit. *)
Definition digit_char (d : Z) : ascii := ascii_of_N (Z.to_N (48 + d)).

(** [tolower] on the letters of ASCII. *)
Definition tolower (c : ascii) : ascii :=
  if (65 <=? code c) && (code c <=? 90)
  then ascii_of_N (Z.to_N (code c + 32)) else c.

(** ** Strings *)

Definition strlen (s : string) : nat := String.length s.

Fixpoint str_take (n : nat) (s : string) : string :=
  match n, s with
  | S n', String c s' => String c (str_take n' s')
  | _, _ => ""
  end.

Fixpoint str_drop (n : nat) (s : string) : string :=
  match n, s with
  | S n', String _ s' => str_drop n' s'
  | _, _ => s
  end.

(** [strchr]: the position of the first [c] in [s]. *)
Fixpoint strchr (s : string) (c : ascii) : option nat :=
  match s with
  | "" => None
  | String a s' => if decide (a = c) then Some O else S <$> strchr s' c
  end.

(** [eina_str_has_suffix]: [suffix] is no longer than [str] and the tail
    of [str] of that length equals it. *)
Definition eina_str_has_suffix (str suffix : string) : bool :=
  bool_decide (strlen suffix <= strlen str)%nat &&
  bool_decide (str_drop (strlen str - strlen suffix) str = suffix).

(** What a copy into a buffer of [size] bytes leaves there: at most
    [size - 1] characters, then the terminator.  This is the content
    [eina_strlcpy] and [snprintf] write. *)
Definition c_truncate (size : nat) (s : string) : string :=
  str_take (size - 1) s.

(** [strncasecmp (a, b, n) == 0]: the first [n] characters agree up to
    case, or both strings end together before that. *)
Fixpoint strncasecmp_eq (n : nat) (a b : string) : bool :=
  match n with
  | O => true
  | S n' =>
    match a, b with
    | "", "" => true
    | String x a', String y b' =>
      bool_decide (tolower x = tolower y) && strncasecmp_eq n' a' b'
    | _, _ => false
    end
  end.

Fixpoint skip_space (s : string) : string :=
  match s with
  | String c s' => if Ascii.is_space c then skip_space s' else s
  | "" => ""
  end.

(** ** Reading numbers *)

(** The longest run of digits of [base] at the head of [s], accumulated
    on [acc], and what follows it. *)
Fixpoint scan_digits (base : Z) (s : string) (acc : Z) : Z * string :=
  match s with
  | String c s' =>
    match digit_in base c with
    | Some v => scan_digits base s' (acc * base + v)
    | None => (acc, s)
    end
  | "" => (acc, "")
  end.

(** A sign, if there is one: the factor and the rest. *)
Definition scan_sign (s : string) : Z * string :=
  match s with
  | String "-" s' => (-1, s')
  | String "+" s' => (1, s')
  | _ => (1, s)
  end.

(** The base ["%i"] chooses from the prefix, and the digits to read:
    [0x] or [0X] announces base 16 and is skipped, a 0 announces base 8,
    anything else is decimal. *)
Definition scan_base (s : string) : Z * string :=
  match s with
  | String "0" (String "x" s') | String "0" (String "X" s') => (16, s')
  | String "0" _ => (8, s)
  | _ => (10, s)
  end.

(** Does [s] start with a digit of [base]? *)
Definition starts_digit (base : Z) (s : string) : bool :=
  match s with
  | String c _ => bool_decide (is_Some (digit_in base c))
  | "" => false
  end.

(** The conversion ["%i"] of [sscanf]: the [int] stored and the input
    left, or nothing when no number is there. *)
Definition scan_int (s : string) : option (Z * string) :=
  let '(sign, s1) := scan_sign (skip_space s) in
  let '(base, s2) := scan_base s1 in
  if starts_digit base s2 then
    let '(v, rest) := scan_digits base s2 0 in
    Some (wrap_int (clamp_long (sign * v)), rest)
  else None.

(** [atoi]: white space, a sign and decimal digits; 0 without digits. *)
Definition atoi (s : string) : Z :=
  let '(sign, s1) := scan_sign (skip_space s) in
  wrap_int (clamp_long (sign * fst (scan_digits 10 s1 0))).

(** ** Printing numbers *)

(** The decimal digits of [n], most significant first, in front of
    [acc].  The fuel bounds the number of digits after the first. *)
Fixpoint print_digits (fuel : nat) (n : Z) (acc : string) : string :=
  let acc' := String (digit_char (n mod 10)) acc in
  match fuel with
  | O => acc'
  | S f => if n <? 10 then acc' else print_digits f (n / 10) acc'
  end.

(** A number has at most [log2 n + 1] decimal digits. *)
Definition print_nat (n : Z) : string :=
  print_digits (Z.to_nat (Z.log2 n)) n "".

(** The conversion ["%i"] of [snprintf]. *)
Definition print_int (z : Z) : string :=
  if z <? 0 then String "-" (print_nat (- z)) else print_nat z.

(** Does [s] start with a digit from 1 to 9? *)
Definition starts_nz_digit (s : string) : bool :=
  match s with
  | String c _ =>
    match char_val c with Some v => (0 <? v) && (v <? 10) | None => false end
  | "" => false
  end.

(** Does [s] start with the [x] of a hexadecimal prefix? *)
Definition starts_x (s : string) : bool :=
  match s with
  | String "x" _ | String "X" _ => true
  | _ => false
  end.

Example print_int_ex : print_int (-1024) = "-1024" /\ print_int 0 = "0" /\ print_int 80 = "80".
Proof. by vm_compute. Qed.

Example scan_int_ex :
  scan_int "80x24" = Some (80, "x24") /\ scan_int "-5+7" = Some (-5, "+7") /\
  scan_int "0x1f!" = Some (31, "!") /\ scan_int "017" = Some (15, "") /\
  scan_int "x" = None /\ scan_int "0x" = None /\ scan_int "  +12" = Some (12, "").
Proof. by vm_compute. Qed.

(** ** Lemmas on strings *)

Lemma append_cons c s t : String c s +:+ t = String c (s +:+ t).
Proof. reflexivity. Qed.

Lemma append_nil_l t : "" +:+ t = t.
Proof. reflexivity. Qed.

Lemma append_nil_r s : s +:+ "" = s.
Proof. induction s as [|c s IH]; [done|]. by rewrite append_cons, IH. Qed.

Lemma append_assoc s t u : (s +:+ t) +:+ u = s +:+ (t +:+ u).
Proof. induction s as [|c s IH]; [done|]. by rewrite !append_cons, IH. Qed.

Lemma strlen_append s t : strlen (s +:+ t) = (strlen s + strlen t)%nat.
Proof.
  induction s as [|c s IH]; [done|].
  rewrite append_cons. unfold strlen in *. simpl. by rewrite IH.
Qed.

Lemma strlen_str_take n s : strlen (str_take n s) = Nat.min n (strlen s).
Proof.
  revert s. induction n as [|n IH]; intros [|c s]; try done.
  unfold strlen in *. simpl. by rewrite IH.
Qed.

Lemma str_take_all n s : (strlen s <= n)%nat -> str_take n s = s.
Proof.
  revert s. induction n as [|n IH]; intros [|c s]; unfold strlen; simpl;
    try done; try lia.
  intros H. f_equal. apply IH. unfold strlen. lia.
Qed.

Lemma str_take_drop n s : str_take n s +:+ str_drop n s = s.
Proof.
  revert s. induction n as [|n IH]; intros [|c s]; try done.
  simpl. by rewrite append_cons, IH.
Qed.

Lemma str_drop_append s t : str_drop (strlen s) (s +:+ t) = t.
Proof. induction s as [|c s IH]; [by destruct t|]. by rewrite append_cons. Qed.

(** A truncated copy fits its buffer with the terminator. *)
Lemma c_truncate_fits size s :
  (0 < size)%nat -> (strlen (c_truncate size s) < size)%nat.
Proof. intros H. unfold c_truncate. rewrite strlen_str_take. lia. Qed.

Lemma c_truncate_id size s :
  (strlen s < size)%nat -> c_truncate size s = s.
Proof. intros H. apply str_take_all. lia. Qed.

Lemma strchr_Some s c i :
  strchr s c = Some i ->
  String.get i s = Some c /\ strchr (str_take i s) c = None.
Proof.
  revert i. induction s as [|a s IH]; intros i; simpl; [done|].
  case_decide as Ha; [intros [= <-]; by subst|].
  destruct (strchr s c) as [j|] eqn:E; intros [= <-]; simpl.
  destruct (IH j eq_refl) as [-> ->]. by rewrite decide_False.
Qed.

Lemma strchr_append_sep s c t :
  strchr s c = None -> strchr (s +:+ String c t) c = Some (strlen s).
Proof.
  induction s as [|a s IH]; simpl.
  - intros _. by rewrite decide_True.
  - case_decide; [done|]. destruct (strchr s c); [done|]. intros _.
    by rewrite IH.
Qed.

Lemma eina_str_has_suffix_append s suf :
  eina_str_has_suffix (s +:+ suf) suf = true.
Proof.
  unfold eina_str_has_suffix. rewrite strlen_append.
  rewrite bool_decide_eq_true_2 by lia.
  replace (strlen s + strlen suf - strlen suf)%nat with (strlen s) by lia.
  by rewrite str_drop_append, bool_decide_eq_true_2.
Qed.

Lemma eina_str_has_suffix_inv s suf :
  eina_str_has_suffix s suf = true -> exists p, s = p +:+ suf.
Proof.
  unfold eina_str_has_suffix. intros [_ H%bool_decide_eq_true]%andb_prop.
  exists (str_take (strlen s - strlen suf) s).
  rewrite <- H at 2. by rewrite str_take_drop.
Qed.

(** ** Lemmas on numbers *)

Lemma digit_in_digit_char d :
  0 <= d < 10 -> digit_in 10 (digit_char d) = Some d.
Proof.
  intros H.
  assert (d = 0 \/ d = 1 \/ d = 2 \/ d = 3 \/ d = 4 \/ d = 5 \/ d = 6
          \/ d = 7 \/ d = 8 \/ d = 9) as Hd by lia.
  by destruct_or!; subst.
Qed.

Lemma scan_digits_stop base s acc :
  starts_digit base s = false -> scan_digits base s acc = (acc, s).
Proof.
  destruct s as [|c s]; [done|]. simpl. intros H%bool_decide_eq_false.
  destruct (digit_in base c); [|done]. by destruct H.
Qed.

(** Reading the digits [print_digits] wrote continues from their value. *)
Lemma scan_digits_print_digits fuel n acc :
  0 <= n < 10 ^ (Z.of_nat fuel + 1) ->
  scan_digits 10 (print_digits fuel n acc) 0 = scan_digits 10 acc n.
Proof.
  assert (forall m a, 0 <= m < 10 ->
    scan_digits 10 (String (digit_char (m mod 10)) a) 0 = scan_digits 10 a m)
    as Hone.
  { intros m a Hm. simpl. by rewrite Z.mod_small, digit_in_digit_char by lia. }
  revert n acc. induction fuel as [|f IH]; intros n acc Hn.
  - apply Hone. simpl in Hn. lia.
  - simpl print_digits. destruct (Z.ltb_spec n 10) as [Hlt|Hge].
    + apply Hone. lia.
    + rewrite IH.
      * simpl. rewrite digit_in_digit_char by (apply Z.mod_pos_bound; lia).
        f_equal. zmod.
      * rewrite Nat2Z.inj_succ, Z.add_succ_l, Z.pow_succ_r in Hn by lia.
        zmod.
Qed.

(** The fuel [print_nat] takes covers every digit. *)
Lemma print_nat_fuel n :
  0 <= n -> n < 10 ^ (Z.of_nat (Z.to_nat (Z.log2 n)) + 1).
Proof.
  intros H. rewrite Z2Nat.id by apply Z.log2_nonneg.
  destruct (decide (n = 0)) as [->|Hn]; [done|].
  pose proof (Z.log2_nonneg n).
  destruct (Z.log2_spec n) as [_ Hlt]; [lia|].
  eapply Z.lt_le_trans; [exact Hlt|].
  rewrite <- Z.add_1_r. apply Z.pow_le_mono_l. lia.
Qed.

Lemma print_digits_append fuel n acc rest :
  print_digits fuel n acc +:+ rest = print_digits fuel n (acc +:+ rest).
Proof.
  revert n acc. induction fuel as [|f IH]; intros n acc; simpl; [done|].
  destruct (n <? 10); [done|]. by rewrite IH.
Qed.

(** A positive number is printed with a leading digit from 1 to 9. *)

Lemma print_digits_head fuel n acc :
  0 < n < 10 ^ (Z.of_nat fuel + 1) ->
  starts_nz_digit (print_digits fuel n acc) = true.
Proof.
  assert (forall m a, 0 < m < 10 ->
    starts_nz_digit (String (digit_char (m mod 10)) a) = true) as Hone.
  { intros m a Hm. rewrite Z.mod_small by lia.
    assert (m = 1 \/ m = 2 \/ m = 3 \/ m = 4 \/ m = 5 \/ m = 6
            \/ m = 7 \/ m = 8 \/ m = 9) as Hd by lia.
    by destruct_or!; subst. }
  revert n acc. induction fuel as [|f IH]; intros n acc Hn.
  - apply Hone. simpl in Hn. lia.
  - simpl print_digits. destruct (Z.ltb_spec n 10) as [Hlt|Hge].
    + apply Hone. lia.
    + apply IH.
      rewrite Nat2Z.inj_succ, Z.add_succ_l, Z.pow_succ_r in Hn by lia. zmod.
Qed.

(** Before such a digit, ["%i"] skips nothing, finds no sign and reads
    in base 10. *)
Lemma starts_nz_digit_scan s :
  starts_nz_digit s = true ->
  skip_space s = s /\ scan_sign s = (1, s) /\ scan_base s = (10, s)
  /\ starts_digit 10 s = true.
Proof.
  destruct s as [|c s]; [done|].
  destruct c as [[] [] [] [] [] [] [] []]; try discriminate; done.
Qed.

Lemma scan_int_eq s sign s1 base s2 v rest :
  scan_sign (skip_space s) = (sign, s1) -> scan_base s1 = (base, s2) ->
  starts_digit base s2 = true -> scan_digits base s2 0 = (v, rest) ->
  scan_int s = Some (wrap_int (clamp_long (sign * v)), rest).
Proof. unfold scan_int. by intros -> -> -> ->. Qed.

(** What follows a printed positive number is read back from it. *)
Lemma scan_print_nat n rest :
  0 < n -> starts_digit 10 rest = false ->
  starts_nz_digit (print_nat n +:+ rest) = true /\
  scan_digits 10 (print_nat n +:+ rest) 0 = (n, rest).
Proof.
  intros Hn Hrest. unfold print_nat. rewrite print_digits_append.
  pose proof (print_nat_fuel n). split.
  - apply print_digits_head. lia.
  - rewrite scan_digits_print_digits by lia. by apply scan_digits_stop.
Qed.

Lemma scan_int_print_nat sign n rest :
  0 < n -> starts_digit 10 rest = false ->
  scan_sign (skip_space (print_nat n +:+ rest)) = (1, print_nat n +:+ rest) /\
  forall s, scan_sign (skip_space s) = (sign, print_nat n +:+ rest) ->
    scan_int s = Some (wrap_int (clamp_long (sign * n)), rest).
Proof.
  intros Hn Hrest. destruct (scan_print_nat n rest Hn Hrest) as [Hd Hs].
  destruct (starts_nz_digit_scan _ Hd) as (Hsp & Hsg & Hb & Hsd).
  split; [by rewrite Hsp|]. intros s Hsign. by eapply scan_int_eq.
Qed.

Lemma starts_digit_8_10 s : starts_digit 10 s = false -> starts_digit 8 s = false.
Proof.
  destruct s as [|c s]; [done|].
  destruct c as [[] [] [] [] [] [] [] []]; done.
Qed.

Lemma scan_int_zero rest :
  starts_digit 10 rest = false -> starts_x rest = false ->
  scan_int (String "0" rest) = Some (0, rest).
Proof.
  intros Hd Hx.
  apply (scan_int_eq _ 1 (String "0" rest) 8 (String "0" rest) 0 rest);
    try done.
  - destruct rest as [|c r]; [done|].
    destruct c as [[] [] [] [] [] [] [] []]; done.
  - simpl. by apply scan_digits_stop, starts_digit_8_10.
Qed.

(** Reading what ["%i"] printed gives the number back, whenever what
    follows cannot be taken for more of it. *)
Theorem scan_int_print_int z rest :
  in_int z -> starts_digit 10 rest = false ->
  (z = 0 -> starts_x rest = false) ->
  scan_int (print_int z +:+ rest) = Some (z, rest).
Proof.
  intros Hz Hrest Hx. pose proof (wrap_int_id z Hz) as Hw.
  assert (clamp_long z = z) as Hc.
  { apply clamp_long_id. unfold in_int, INT_MIN, INT_MAX, LONG_MIN, LONG_MAX in *. lia. }
  unfold print_int. destruct (Z.ltb_spec z 0) as [Hneg|Hpos].
  - destruct (scan_int_print_nat (-1) (- z) rest) as [_ ->]; try done; try lia.
    by replace (-1 * - z) with z by lia; rewrite Hc, Hw.
  - destruct (decide (z = 0)) as [->|Hnz]; [by apply scan_int_zero; auto|].
    destruct (scan_int_print_nat 1 z rest) as [H1 ->]; try done; try lia.
    by replace (1 * z) with z by lia; rewrite Hc, Hw.
Qed.

(** ** The length of a printed number *)

Lemma strlen_print_digits fuel n acc k :
  (1 <= k)%nat -> 0 <= n < 10 ^ Z.of_nat k ->
  (strlen (print_digits fuel n acc) <= k + strlen acc)%nat.
Proof.
  revert n acc k. induction fuel as [|f IH]; intros n acc k Hk Hn.
  - unfold strlen. simpl. lia.
  - simpl print_digits. destruct (Z.ltb_spec n 10) as [Hlt|Hge].
    + unfold strlen. simpl. lia.
    + destruct k as [|[|k]]; [lia|simpl in Hn; lia|].
      etrans; [apply (IH _ _ (S k)); [lia|]|].
      * rewrite Nat2Z.inj_succ, Z.pow_succ_r in Hn by lia. zmod.
      * unfold strlen. simpl. lia.
Qed.

Lemma strlen_print_int z : in_int z -> (strlen (print_int z) <= 11)%nat.
Proof.
  unfold in_int, INT_MIN, INT_MAX. intros Hz. unfold print_int, print_nat.
  destruct (Z.ltb_spec z 0) as [Hneg|Hpos].
  - pose proof (strlen_print_digits (Z.to_nat (Z.log2 (- z))) (- z) "" 10).
    unfold strlen in *. simpl in *. lia.
  - pose proof (strlen_print_digits (Z.to_nat (Z.log2 z)) z "" 10).
    unfold strlen in *. simpl in *. lia.
Qed.

(** [atoi] reads back a printed [int]; it has no base detection, so the
    number 0 needs no proviso. *)
Lemma atoi_print_int z rest :
  in_int z -> starts_digit 10 rest = false -> atoi (print_int z +:+ rest) = z.
Proof.
  intros Hz Hrest. pose proof (wrap_int_id z Hz) as Hw.
  assert (clamp_long z = z) as Hc.
  { apply clamp_long_id. unfold in_int, INT_MIN, INT_MAX, LONG_MIN, LONG_MAX in *. lia. }
  unfold atoi, print_int. destruct (Z.ltb_spec z 0) as [Hneg|Hpos].
  - destruct (scan_print_nat (- z) rest) as [_ Hs]; [lia|done|].
    simpl. rewrite Hs. simpl. by replace (-1 * - z) with z by lia; rewrite Hc, Hw.
  - destruct (decide (z = 0)) as [->|Hnz].
    + simpl. by rewrite (scan_digits_stop _ _ _ Hrest).
    + destruct (scan_print_nat z rest) as [Hd Hs]; [lia|done|].
      destruct (starts_nz_digit_scan _ Hd) as (-> & -> & _).
      rewrite Hs. simpl. by replace (1 * z) with z by lia; rewrite Hc, Hw.
Qed.

Lemma str_take_append s t : str_take (strlen s) (s +:+ t) = s.
Proof. induction s as [|c s IH]; [by destruct t|]. simpl. by rewrite IH. Qed.

Lemma str_drop_append_sep s c t : str_drop (S (strlen s)) (s +:+ String c t) = t.
Proof. induction s as [|a s IH]; [done|]. apply IH. Qed.

(** *** Numbers behind an explicit sign *)

(** Any digit string [print_int n] of a number that is not negative,
    read after a sign that [scan_sign] found. *)
Lemma scan_int_signed s sign n rest :
  scan_sign (skip_space s) = (sign, print_int n +:+ rest) ->
  0 <= n -> in_int (sign * n) ->
  starts_digit 10 rest = false -> (n = 0 -> starts_x rest = false) ->
  scan_int s = Some (sign * n, rest).
Proof.
  intros Hs Hn Hin Hrest Hx.
  assert (wrap_int (clamp_long (sign * n)) = sign * n) as Hw.
  { rewrite clamp_long_id, wrap_int_id; [done..|].
    unfold in_int, INT_MIN, INT_MAX, LONG_MIN, LONG_MAX in *. lia. }
  unfold print_int in Hs. rewrite (proj2 (Z.ltb_ge n 0) Hn) in Hs.
  destruct (decide (n = 0)) as [->|Hnz].
  - rewrite <- Hw.
    apply (scan_int_eq s sign (String "0" rest) 8 (String "0" rest) 0 rest);
      try done.
    + specialize (Hx eq_refl). destruct rest as [|c r]; [done|].
      destruct c as [[] [] [] [] [] [] [] []]; done.
    + simpl. by apply scan_digits_stop, starts_digit_8_10.
  - rewrite <- Hw.
    destruct (scan_int_print_nat sign n rest) as [_ H]; [lia|done|]. by apply H.
Qed.

Lemma print_int_neg z : z < 0 -> print_int z = String "-" (print_int (- z)).
Proof.
  intros Hz. unfold print_int.
  by rewrite (proj2 (Z.ltb_lt z 0) Hz), (proj2 (Z.ltb_ge (- z) 0)) by lia.
Qed.

(** The three places a number of a geometry stands in: bare, behind a
    [+], behind a [-]. *)
Lemma scan_int_bare n rest :
  0 <= n -> in_int n -> starts_digit 10 rest = false ->
  (n = 0 -> starts_x rest = false) ->
  scan_int (print_int n +:+ rest) = Some (n, rest).
Proof. intros. by apply scan_int_print_int. Qed.

Lemma scan_int_plus n rest :
  0 <= n -> in_int n -> starts_digit 10 rest = false ->
  (n = 0 -> starts_x rest = false) ->
  scan_int (String "+" (print_int n +:+ rest)) = Some (n, rest).
Proof.
  intros. rewrite <- (Z.mul_1_l n) at 2.
  apply scan_int_signed; try done. by rewrite Z.mul_1_l.
Qed.

Lemma scan_int_minus n rest :
  0 <= n -> in_int n -> starts_digit 10 rest = false ->
  (n = 0 -> starts_x rest = false) ->
  scan_int (String "-" (print_int n +:+ rest)) = Some (- n, rest).
Proof.
  intros Hn Hin ??. replace (- n) with (-1 * n) by lia.
  apply scan_int_signed; try done.
  unfold in_int, INT_MIN, INT_MAX in *. lia.
Qed.
