(* ===== verification/Backlog.v ===== *)
(** * Backlog: the row-addressing macro of [backlog.h]

    [BACKLOG_ROW_GET(Ty, Y)] addresses the row at backward offset [Y] of
    the circular array [Ty->back].  The macro is modelled as the header
    writes it: the operands are [size_t] (the type [backlog.h] gives the
    backlog size in [termpty_backlog_size_set]), so every operation wraps
    modulo [2 ^ 64], the remainder by a zero size is an error, and the
    cursor is read from the variable [ty] of the calling scope. *)

From Stdlib Require Import ZArith Lia List.
From stdpp Require Import base tactics option list.
From S2P Require Import Prelude.

(** ** Data *)

(** One cell of a row: a character and its display attributes. *)
Record Termcell := mkTermcell { codepoint : Z; att : Z }.

(** One saved row: its width and its cells. *)
Record Termsave := mkTermsave { w : Z; cells : list Termcell }.

(** The fields of a terminal the backlog uses: the slot array [back],
    its size [backsize] and the cursor [backpos]. *)
Record Termpty := mkTermpty {
  back : list (option Termsave);
  backsize : Z;
  backpos : Z
}.

#[global] Instance Termcell_eq_dec : EqDecision Termcell.
Proof. solve_decision. Defined.
#[global] Instance Termsave_eq_dec : EqDecision Termsave.
Proof. solve_decision. Defined.
#[global] Instance Termpty_eq_dec : EqDecision Termpty.
Proof. solve_decision. Defined.

(** ** The macro *)

(** The index [(Ty->backsize - 1 + ty->backpos - Y) % Ty->backsize].
    [Ty] is the macro's argument, [ty] the variable of that name where
    the macro is expanded. *)
Definition BACKLOG_ROW_GET (Ty ty : Termpty) (Y : Z) : option Z :=
  size_rem
    (size_sub (size_add (size_sub (backsize Ty) 1) (backpos ty)) (to_size Y))
    (backsize Ty).

(** The slot the macro's address designates. *)
Definition BACKLOG_ROW_GET_slot (Ty ty : Termpty) (Y : Z) : option (option Termsave) :=
  i ← BACKLOG_ROW_GET Ty ty Y; back Ty !! Z.to_nat i.

(** The cursor and size of a terminal are those of a [size_t], and the
    slot array has [backsize] slots. *)
Record Termpty_wf (ty : Termpty) : Prop := mkTermpty_wf {
  wf_backsize : in_size (backsize ty);
  wf_backpos : 0 <= backpos ty < Z.max 1 (backsize ty);
  wf_back : Z.of_nat (length (back ty)) = backsize ty
}.

#[global] Instance Termpty_wf_dec ty : Decision (Termpty_wf ty).
Proof.
  refine (cast_if (decide (in_size (backsize ty)
    /\ 0 <= backpos ty < Z.max 1 (backsize ty)
    /\ Z.of_nat (length (back ty)) = backsize ty)));
  abstract (first [ by destruct_and?; constructor
                  | intros [? ? ?]; tauto ]).
Defined.

(** A ring of three empty slots with the cursor at [p]. *)
Definition ring3 (p : Z) : Termpty := mkTermpty [None; None; None] 3 p.

(** A ring of four empty slots with the cursor at [p]. *)
Definition ring4 (p : Z) : Termpty := mkTermpty [None; None; None; None] 4 p.

(** ** Lemmas *)

(** The chain of unsigned operations is one wrap of the integer sum. *)
Lemma BACKLOG_ROW_GET_unfold Ty ty Y :
  BACKLOG_ROW_GET Ty ty Y =
  size_rem (to_size (backsize Ty - 1 + backpos ty - Y)) (backsize Ty).
Proof.
  unfold BACKLOG_ROW_GET. f_equal. unfold size_sub at 2.
  rewrite size_add_to_size_l, size_sub_to_size_l.
  exact (size_sub_to_size_r _ _).
Qed.

(** Inside the window [0 <= Y <= backsize - 1 + backpos] nothing wraps. *)
Lemma BACKLOG_ROW_GET_no_wrap Ty ty Y :
  in_size (backsize Ty) -> in_size (backpos ty) -> backsize Ty <> 0 ->
  backsize Ty - 1 + backpos ty < SIZE_MOD ->
  0 <= Y <= backsize Ty - 1 + backpos ty ->
  BACKLOG_ROW_GET Ty ty Y = Some ((backsize Ty - 1 + backpos ty - Y) mod backsize Ty).
Proof.
  intros HS HP Hnz Hsum HY. rewrite BACKLOG_ROW_GET_unfold.
  rewrite to_size_id by (unfold in_size in *; lia).
  by apply size_rem_Some.
Qed.

(** Reducing modulo [2 ^ 64] first changes nothing for a divisor of
    [2 ^ 64]. *)
Lemma to_size_mod_divide z n : (n | SIZE_MOD) -> to_size z mod n = z mod n.
Proof. intros Hd. unfold to_size. by apply Z.mod_mod_divide. Qed.

(** The sum [backsize - 1 + backpos - Y] and [backpos - 1 - Y] differ by
    one turn of the ring. *)
Lemma ring_turn n p Y : n <> 0 -> (n - 1 + p - Y) mod n = (p - 1 - Y) mod n.
Proof.
  intros Hn. replace (n - 1 + p - Y) with (p - 1 - Y + 1 * n) by lia.
  by apply Z.mod_add.
Qed.

(** Going back by two offsets of one turn from the same slot ends in
    the same slot only when the offsets are equal. *)
Lemma ring_back_inj n c a b :
  0 < n -> 0 <= a < n -> 0 <= b < n ->
  (c - a) mod n = (c - b) mod n -> a = b.
Proof.
  intros Hn Ha Hb Heq. assert (H : (b - a) mod n = 0).
  { replace (b - a) with ((c - a) - (c - b)) by lia.
    rewrite Zminus_mod, Heq, Z.sub_diag. by apply Z.mod_0_l, Z.neq_sym, Z.lt_neq. }
  apply Z.mod_divide in H as [k Hk]; [|lia]. assert (k = 0) by nia. lia.
Qed.

(** Within one turn of a well-formed ring the macro addresses the slot
    [Y + 1] places before the cursor. *)
Lemma BACKLOG_ROW_GET_turn ty Y :
  Termpty_wf ty -> 0 < backsize ty <= 2 ^ 63 -> 0 <= Y < backsize ty ->
  BACKLOG_ROW_GET ty ty Y = Some ((backpos ty - 1 - Y) mod backsize ty).
Proof.
  intros [HS HP _] Hpos HY. unfold in_size, SIZE_MOD in *.
  rewrite BACKLOG_ROW_GET_no_wrap; unfold in_size, SIZE_MOD; try lia.
  f_equal. apply ring_turn. lia.
Qed.

(** The offset [-1] is the slot at the cursor: the one written next. *)
Lemma BACKLOG_ROW_GET_next ty :
  Termpty_wf ty -> 0 < backsize ty <= 2 ^ 63 ->
  BACKLOG_ROW_GET ty ty (-1) = Some (backpos ty).
Proof.
  intros [HS HP _] Hpos. unfold in_size, SIZE_MOD in *.
  rewrite BACKLOG_ROW_GET_unfold, size_rem_Some by lia. f_equal.
  rewrite to_size_id by (unfold in_size, SIZE_MOD; lia).
  replace (backsize ty - 1 + backpos ty - -1) with (backpos ty + 1 * backsize ty)
    by lia.
  rewrite Z.mod_add by lia. apply Z.mod_small. lia.
Qed.

(** C35: whatever the offset and the cursor, the index the macro computes
    for a non-empty ring is one of its slots: [0 <= i < backsize]. *)
Theorem BACKLOG_ROW_GET_in_range Ty ty Y :
  0 < backsize Ty ->
  exists i, BACKLOG_ROW_GET Ty ty Y = Some i /\ 0 <= i < backsize Ty.
Proof.
  intros Hpos. rewrite BACKLOG_ROW_GET_unfold.
  rewrite size_rem_Some by lia. eexists; split; [done|].
  by apply Z.mod_pos_bound.
Qed.

Lemma BACKLOG_ROW_GET_in_range_witness :
  0 < backsize (mkTermpty [None; None; None] 3 1) /\
  exists i, BACKLOG_ROW_GET (mkTermpty [None; None; None] 3 1)
              (mkTermpty [None; None; None] 3 1) 5 = Some i /\ 0 <= i < 3.
Proof.
  split; [reflexivity|].
  apply (BACKLOG_ROW_GET_in_range (mkTermpty [None; None; None] 3 1)
           (mkTermpty [None; None; None] 3 1) 5).
  reflexivity.
Defined.

(** C34: for a well-formed terminal of at most [2 ^ 63] rows and an offset
    that does not reach behind the start of the array twice, the macro
    addresses slot [(backpos - 1 - Y) mod backsize]: offset 0 is the slot
    before the cursor, and offsets grow backwards. *)
Theorem BACKLOG_ROW_GET_exact ty Y :
  Termpty_wf ty -> 0 < backsize ty <= 2 ^ 63 ->
  0 <= Y <= backsize ty - 1 + backpos ty ->
  BACKLOG_ROW_GET ty ty Y = Some ((backpos ty - 1 - Y) mod backsize ty).
Proof.
  intros [HS HP _] Hpos HY. unfold in_size, SIZE_MOD in *.
  rewrite BACKLOG_ROW_GET_no_wrap; unfold in_size, SIZE_MOD; try lia.
  f_equal. apply ring_turn. lia.
Qed.

Lemma BACKLOG_ROW_GET_exact_witness :
  BACKLOG_ROW_GET (mkTermpty [None; None; None] 3 1)
    (mkTermpty [None; None; None] 3 1) 2 = Some ((1 - 1 - 2) mod 3).
Proof.
  apply (BACKLOG_ROW_GET_exact (mkTermpty [None; None; None] 3 1) 2);
    [split; unfold in_size, SIZE_MOD; simpl; lia | simpl; lia | simpl; lia].
Defined.

(** The macro computes an index exactly when the ring has a size
    other than 0; for a ring of size 0 the remainder is undefined. *)
Theorem BACKLOG_ROW_GET_defined Ty ty Y :
  is_Some (BACKLOG_ROW_GET Ty ty Y) <-> backsize Ty <> 0.
Proof. unfold BACKLOG_ROW_GET, size_rem. by case_decide; split. Qed.

(** For a well-formed terminal with a non-empty ring the address the
    macro computes is inside the slot array, for every offset. *)
Theorem BACKLOG_ROW_GET_slot_defined ty Y :
  Termpty_wf ty -> 0 < backsize ty -> is_Some (BACKLOG_ROW_GET_slot ty ty Y).
Proof.
  intros Hwf Hpos. unfold BACKLOG_ROW_GET_slot.
  rewrite BACKLOG_ROW_GET_unfold, size_rem_Some by lia. simpl.
  apply lookup_lt_is_Some. pose proof (wf_back _ Hwf).
  pose proof (Z.mod_pos_bound (to_size (backsize ty - 1 + backpos ty - Y))
                (backsize ty) Hpos). lia.
Qed.

Lemma BACKLOG_ROW_GET_slot_defined_witness :
  is_Some (BACKLOG_ROW_GET_slot (ring3 1) (ring3 1) 7).
Proof.
  apply (BACKLOG_ROW_GET_slot_defined (ring3 1) 7); [|reflexivity].
  split; unfold in_size, SIZE_MOD; simpl; lia.
Defined.

(** Within one turn of the ring, two offsets that the macro sends to
    the same slot are equal: no two rows of the window share a slot. *)
Theorem BACKLOG_ROW_GET_inj ty Y1 Y2 :
  Termpty_wf ty -> 0 < backsize ty <= 2 ^ 63 ->
  0 <= Y1 < backsize ty -> 0 <= Y2 < backsize ty ->
  BACKLOG_ROW_GET ty ty Y1 = BACKLOG_ROW_GET ty ty Y2 -> Y1 = Y2.
Proof.
  intros [HS HP _] Hpos H1 H2. unfold in_size, SIZE_MOD in *.
  rewrite !BACKLOG_ROW_GET_no_wrap; unfold in_size, SIZE_MOD; try lia.
  intros [= Heq]. apply ring_back_inj in Heq; lia.
Qed.

Lemma BACKLOG_ROW_GET_inj_witness : 2 = 2.
Proof.
  apply (BACKLOG_ROW_GET_inj (ring3 1) 2 2);
    [split; unfold in_size, SIZE_MOD; simpl; lia | simpl; lia.. | reflexivity].
Defined.

(** C36: when the size of the ring divides [2 ^ 64] (a power of two), the
    unsigned arithmetic of the macro agrees with the arithmetic modulo
    the size for every offset and cursor, also beyond one turn. *)
Theorem BACKLOG_ROW_GET_pow2 Ty ty Y :
  0 < backsize Ty -> (backsize Ty | SIZE_MOD) ->
  BACKLOG_ROW_GET Ty ty Y = Some ((backpos ty - 1 - Y) mod backsize Ty).
Proof.
  intros Hpos Hd. rewrite BACKLOG_ROW_GET_unfold, size_rem_Some by lia.
  rewrite to_size_mod_divide by done. f_equal. apply ring_turn. lia.
Qed.

Lemma BACKLOG_ROW_GET_pow2_witness :
  BACKLOG_ROW_GET (ring4 1) (ring4 1) 9 = Some ((1 - 1 - 9) mod 4).
Proof.
  apply (BACKLOG_ROW_GET_pow2 (ring4 1) (ring4 1) 9); [reflexivity|].
  exists (2 ^ 62). reflexivity.
Defined.

(** For a size that does not divide [2 ^ 64] an offset beyond the
    window wraps: in a ring of 3 with the cursor at 0, offset 3 is sent
    to slot 0, where the arithmetic modulo 3 gives slot 2. *)
Theorem BACKLOG_ROW_GET_wraps :
  Termpty_wf (ring3 0) /\
  BACKLOG_ROW_GET (ring3 0) (ring3 0) 3 = Some 0 /\
  (backpos (ring3 0) - 1 - 3) mod backsize (ring3 0) = 2.
Proof. by repeat split. Qed.

(** The macro reads the cursor of the variable [ty] of the scope
    where it is expanded: applied to a terminal [Ty] other than that
    [ty], it addresses a slot that is not the one of [Ty]'s own cursor. *)
Theorem BACKLOG_ROW_GET_hygiene :
  BACKLOG_ROW_GET (ring3 1) (ring3 2) 0 = Some 1 /\
  BACKLOG_ROW_GET (ring3 1) (ring3 1) 0 = Some 0.
Proof. done. Qed.
