(* ===== verification/Engine.v ===== *)
(** * Engine: the backlog engine

    The operations [backlog.h] declares keep, for each terminal, the
    rows that scrolled off its screen in the circular array that
    [BACKLOG_ROW_GET] addresses, and keep one count of the memory of all
    rows of all terminals.  Their bodies are not part of the sources
    here: the operations are modelled from their specification, on the
    slot array of [Backlog] and through the macro, which is.

    The file has three layers.  A session buffer is an interface (a
    class) with the laws the specification gives its operations on the
    list of rows, most recent first.  The ring of a terminal implements
    it: the rows are read through the macro, and each operation on the
    slot array is shown to do on that list what the interface says.  The
    engine holds the registered terminals, the ledger and the lock. *)

From Stdlib Require Import ZArith Lia List.
From stdpp Require Import base tactics option list gmap.
From S2P Require Import Prelude Backlog.

(** ** Data *)

(** The errors of the operations. *)
Inductive error := OutOfRange | WidthMismatch | AllocationFailure.

#[global] Instance error_eq_dec : EqDecision error.
Proof. solve_decision. Defined.

(** A row made of cells: its width is their number. *)
Definition row_of (cs : list Termcell) : Termsave :=
  mkTermsave (Z.of_nat (length cs)) cs.

(** A row is fully populated: [w] is the number of its cells. *)
Definition row_wf (ts : Termsave) : Prop := w ts = Z.of_nat (length (cells ts)).

#[global] Instance row_wf_dec ts : Decision (row_wf ts).
Proof. unfold row_wf. apply _. Defined.

(** ** The session buffer as an interface *)

(** What a session buffer is to its callers: a capacity and the rows
    it holds, most recent first, with the operations on them. *)
Class SessionBuffer (B : Type) := {
  valid : B -> Prop;
  fits : nat -> Prop;
  capacity : B -> nat;
  rows : B -> list Termsave;
  push : Termsave -> B -> B;
  clear : B -> B;
  resize_capacity : nat -> B -> B;
  replace_row : nat -> Termsave -> B -> B
}.

(** The laws of the specification: a push puts the row first and evicts
    the oldest when the buffer is full; a clear leaves no row; a change
    of capacity, to one the buffer can have, keeps the most recent rows
    in their order; a replaced row (an expansion) changes that row
    only. *)
Class SessionBufferLaws (B : Type) `{SessionBuffer B} := {
  rows_capacity b : valid b -> (length (rows b) <= capacity b)%nat;
  push_valid r b : valid b -> valid (push r b);
  push_capacity r b : valid b -> capacity (push r b) = capacity b;
  push_rows r b : valid b -> rows (push r b) = take (capacity b) (r :: rows b);
  clear_valid b : valid b -> valid (clear b);
  clear_capacity b : valid b -> capacity (clear b) = capacity b;
  clear_rows b : valid b -> rows (clear b) = [];
  resize_valid n b : valid b -> fits n -> valid (resize_capacity n b);
  resize_capacity_eq n b : valid b -> capacity (resize_capacity n b) = n;
  resize_rows n b :
    valid b -> fits n -> rows (resize_capacity n b) = take n (rows b);
  replace_valid k r b : valid b -> valid (replace_row k r b);
  replace_capacity k r b : valid b -> capacity (replace_row k r b) = capacity b;
  replace_rows k r b : valid b -> rows (replace_row k r b) = <[k := r]> (rows b)
}.

(** *** The reference: a bounded list *)

(** The rows, most recent first, with the capacity. *)
Record Bounded := mkBounded { b_capacity : nat; b_rows : list Termsave }.

#[global] Instance bounded_buffer : SessionBuffer Bounded := {
  valid b := (length (b_rows b) <= b_capacity b)%nat;
  fits _ := True;
  capacity := b_capacity;
  rows := b_rows;
  push r b := mkBounded (b_capacity b) (take (b_capacity b) (r :: b_rows b));
  clear b := mkBounded (b_capacity b) [];
  resize_capacity n b := mkBounded n (take n (b_rows b));
  replace_row k r b := mkBounded (b_capacity b) (<[k := r]> (b_rows b))
}.

(** ** The ring of a terminal *)

(** The row at a backward offset, read through the macro; none in an
    empty slot. *)
Definition row_at (ty : Termpty) (k : Z) : option Termsave :=
  match BACKLOG_ROW_GET_slot ty ty k with
  | Some (Some ts) => Some ts
  | _ => None
  end.

(** The slots in the order of their offsets, from the most recent. *)
Definition offsets (ty : Termpty) : list (option Termsave) :=
  (fun k => row_at ty (Z.of_nat k)) <$> seq 0 (Z.to_nat (backsize ty)).

(** The rows a terminal holds, most recent first. *)
Definition backlog_rows (ty : Termpty) : list Termsave := omap id (offsets ty).

(** The number of rows a terminal holds. *)
Definition ring_length (ty : Termpty) : Z :=
  Z.of_nat (length (backlog_rows ty)).

(** A terminal the engine keeps: well formed, of at most [2 ^ 63]
    rows, its rows fully populated and in the slots of the most recent
    offsets. *)
Record Buffer_wf (ty : Termpty) : Prop := mkBuffer_wf {
  bwf_ty : Termpty_wf ty;
  bwf_size : backsize ty <= 2 ^ 63;
  bwf_prefix :
    offsets ty =
    (Some <$> backlog_rows ty)
    ++ replicate (Z.to_nat (backsize ty) - length (backlog_rows ty)) None
}.

#[global] Instance Buffer_wf_dec ty : Decision (Buffer_wf ty).
Proof.
  refine (cast_if (decide (Termpty_wf ty /\ backsize ty <= 2 ^ 63
    /\ offsets ty = (Some <$> backlog_rows ty)
       ++ replicate (Z.to_nat (backsize ty) - length (backlog_rows ty)) None)));
  abstract (first [ by destruct_and?; constructor
                  | intros [? ? ?]; tauto ]).
Defined.

(** What the macro gives its caller: the address of a slot, here its
    index, for an offset that is one of a row; [OutOfRange] for
    another. *)
Definition backlog_ref (ty : Termpty) (k : Z) : Z + error :=
  if decide (0 <= k < ring_length ty)
  then match BACKLOG_ROW_GET ty ty k with
       | Some i => inl i
       | None => inr OutOfRange
       end
  else inr OutOfRange.

(** The row a reference designates now. *)
Definition deref (ty : Termpty) (i : Z) : option Termsave :=
  back ty !! Z.to_nat i ≫= id.

(** The row at an offset, or [OutOfRange]. *)
Definition backlog_get (ty : Termpty) (k : Z) : Termsave + error :=
  match backlog_ref ty k with
  | inl i => match deref ty i with
             | Some ts => inl ts
             | None => inr OutOfRange
             end
  | inr err => inr err
  end.

(** [termpty_save_extract]: a copy of the row, with cells of its own. *)
Definition termpty_save_extract (ts : Termsave) : Termsave :=
  mkTermsave (w ts) (cells ts).

(** A slot of the array is given a new content. *)
Definition set_slot (i : Z) (x : option Termsave) (ty : Termpty) : Termpty :=
  mkTermpty (<[Z.to_nat i := x]> (back ty)) (backsize ty) (backpos ty).

(** The cursor moves to the next slot, and from the last to the
    first. *)
Definition advance (ty : Termpty) : Termpty :=
  mkTermpty (back ty) (backsize ty)
    (if backsize ty <=? backpos ty + 1 then 0 else backpos ty + 1).

(** A row is archived: it is written into the slot at the cursor, the
    one of offset [-1], and the cursor moves on.  A terminal without
    backlog keeps nothing. *)
Definition ring_push (ts : Termsave) (ty : Termpty) : Termpty :=
  match BACKLOG_ROW_GET ty ty (-1) with
  | Some i => advance (set_slot i (Some ts) ty)
  | None => ty
  end.

(** The terminal of [n] slots that holds the rows [l], the oldest in
    the first slot. *)
Definition ring_of (n : nat) (l : list Termsave) : Termpty :=
  mkTermpty (reverse (Some <$> l) ++ replicate (n - length l) None)
    (Z.of_nat n)
    (if decide (length l < n)%nat then Z.of_nat (length l) else 0).

(** Every slot is emptied and the cursor is back at the first slot. *)
Definition ring_clear (ty : Termpty) : Termpty :=
  mkTermpty (replicate (Z.to_nat (backsize ty)) None) (backsize ty) 0.

(** The array is reshaped to [n] slots and keeps the most recent
    rows. *)
Definition ring_resize (n : nat) (ty : Termpty) : Termpty :=
  ring_of n (take n (backlog_rows ty)).

(** No row and no array. *)
Definition ring_free (ty : Termpty) : Termpty := mkTermpty [] 0 0.

(** The row at offset [k] is replaced, in its slot; an offset that is
    not one of a row changes nothing. *)
Definition ring_replace (k : nat) (ts : Termsave) (ty : Termpty) : Termpty :=
  if decide (Z.of_nat k < ring_length ty)
  then match BACKLOG_ROW_GET ty ty (Z.of_nat k) with
       | Some i => set_slot i (Some ts) ty
       | None => ty
       end
  else ty.

(** [termpty_save_expand]: the row grows by [delta] cells, which are
    appended to it; [WidthMismatch] when the cells are not [delta]. *)
Definition termpty_save_expand (ts : Termsave) (cs : list Termcell) (delta : Z)
    : Termsave + error :=
  if decide (Z.of_nat (length cs) = delta)
  then inl (mkTermsave (w ts + delta) (cells ts ++ cs))
  else inr WidthMismatch.

#[global] Instance ring_buffer : SessionBuffer Termpty := {
  valid := Buffer_wf;
  fits n := Z.of_nat n <= 2 ^ 63;
  capacity ty := Z.to_nat (backsize ty);
  rows := backlog_rows;
  push := ring_push;
  clear := ring_clear;
  resize_capacity := ring_resize;
  replace_row := ring_replace
}.

(** ** Sequences of pushes *)

(** The rows [rs] are archived one after the other, the first of the
    list first. *)
Definition pushes {B} `{SessionBuffer B} (rs : list Termsave) (b : B) : B :=
  foldl (fun b r => push r b) b rs.

(** The operations that change a buffer, as data. *)
Inductive op :=
  | OPush (r : Termsave)
  | OClear
  | OResize (n : nat)
  | OReplace (k : nat) (r : Termsave).

Definition run_op {B} `{SessionBuffer B} (o : op) (b : B) : B :=
  match o with
  | OPush r => push r b
  | OClear => clear b
  | OResize n => resize_capacity n b
  | OReplace k r => replace_row k r b
  end.

Definition run_ops {B} `{SessionBuffer B} (os : list op) (b : B) : B :=
  foldl (fun b o => run_op o b) b os.

(** A capacity the operation asks for is one the buffer can have. *)
Definition op_fits {B} `{SessionBuffer B} (o : op) : Prop :=
  match o with OResize n => fits n | _ => True end.

(** What a buffer is in the reference: its capacity and its rows. *)
Definition abstract {B} `{SessionBuffer B} (b : B) : Bounded :=
  mkBounded (capacity b) (rows b).

(** ** The engine: registry, ledger and lock *)

(** [termpty_save_new]: a row of [w] cells, when the cells are [w]. *)
Definition termpty_save_new (w : Z) (cs : list Termcell) : option Termsave :=
  if decide (Z.of_nat (length cs) = w) then Some (mkTermsave w cs) else None.

(** The state of the process: the registered terminals by their
    identity, the running total of the memory of their rows, and the
    lock. *)
Record Engine := mkEngine {
  sessions : gmap nat Termpty;
  ledger : Z;
  locked : bool
}.

(** Before any terminal registers. *)
Definition engine_init : Engine := mkEngine ∅ 0 false.

(** What an operation answers: its result, an error, or nothing for a
    terminal that is not registered. *)
Inductive reply (A : Type) := Done (a : A) | Failed (err : error) | Unknown.

Arguments Done {A} a.
Arguments Failed {A} err.
Arguments Unknown {A}.

(** [termpty_backlog_lock] and [termpty_backlog_unlock]. *)
Definition termpty_backlog_lock (e : Engine) : Engine :=
  mkEngine (sessions e) (ledger e) true.

Definition termpty_backlog_unlock (e : Engine) : Engine :=
  mkEngine (sessions e) (ledger e) false.

(** An operation between the lock and the unlock. *)
Definition scoped {A} (f : Engine -> Engine * A) (e : Engine) : Engine * A :=
  let r := f (termpty_backlog_lock e) in (termpty_backlog_unlock r.1, r.2).

(** The ledger changes by [delta]. *)
Definition account (delta : Z) (e : Engine) : Engine :=
  mkEngine (sessions e) (ledger e + delta) (locked e).

(** The terminal [id] is now [ty]. *)
Definition store_session (id : nat) (ty : Termpty) (e : Engine) : Engine :=
  mkEngine (<[id := ty]> (sessions e)) (ledger e) (locked e).

(** An operation on one registered terminal: it gives the terminal
    after it, the change of the ledger and its result, or an error, and
    then nothing changes. *)
Definition on_session {A} (id : nat) (f : Termpty -> Termpty * Z * A + error)
    (e : Engine) : Engine * reply A :=
  match sessions e !! id with
  | None => (e, Unknown)
  | Some ty =>
    match f ty with
    | inl (ty', delta, a) => (account delta (store_session id ty' e), Done a)
    | inr err => (e, Failed err)
    end
  end.

Section Ledger.

(** The byte cost of a row. *)
Context (cost : Termsave -> Z).

(** The cost of what a slot holds. *)
Definition slot_cost (o : option Termsave) : Z := from_option cost 0 o.

Definition total (l : list Termsave) : Z :=
  foldr (fun ts acc => cost ts + acc) 0 l.

(** The cost of the rows of a terminal, and of all registered
    terminals: the full rescan the ledger is checked against. *)
Definition buffer_cost (ty : Termpty) : Z := total (backlog_rows ty).

Definition rescan (m : gmap nat Termpty) : Z :=
  map_fold (fun _ ty acc => buffer_cost ty + acc) 0 m.

(** What freeing every slot gives back: the slots are visited by their
    offsets. *)
Definition freed (ty : Termpty) : Z :=
  foldr (fun o acc => slot_cost o + acc) 0 (offsets ty).

(** *** The operations on a terminal, with their accounting *)

(** A push: the row of the slot at the cursor is evicted and the new
    one written; without backlog the new row is evicted at once.  When
    the row cannot be allocated nothing changes. *)
Definition push_body (ok : bool) (ts : Termsave) (ty : Termpty)
    : Termpty * Z * unit + error :=
  if ok then
    match BACKLOG_ROW_GET_slot ty ty (-1) with
    | Some old => inl (ring_push ts ty, cost ts - slot_cost old, tt)
    | None => inl (ty, 0, tt)
    end
  else inr AllocationFailure.

Definition get_body (k : nat) (ty : Termpty) : Termpty * Z * Termsave + error :=
  match backlog_get ty (Z.of_nat k) with
  | inl ts => inl (ty, 0, ts)
  | inr err => inr err
  end.

Definition extract_body (k : nat) (ty : Termpty)
    : Termpty * Z * Termsave + error :=
  match backlog_get ty (Z.of_nat k) with
  | inl ts => inl (ty, 0, termpty_save_extract ts)
  | inr err => inr err
  end.

(** An expansion: the row at the offset grows in its slot, and the
    ledger by the cost of the growth. *)
Definition expand_body (ok : bool) (k : nat) (cs : list Termcell) (delta : Z)
    (ty : Termpty) : Termpty * Z * Termsave + error :=
  match backlog_get ty (Z.of_nat k) with
  | inl ts =>
    match termpty_save_expand ts cs delta with
    | inl ts' =>
      if ok then inl (ring_replace k ts' ty, cost ts' - cost ts, ts')
      else inr AllocationFailure
    | inr err => inr err
    end
  | inr err => inr err
  end.

Definition clear_body (ty : Termpty) : Termpty * Z * unit + error :=
  inl (ring_clear ty, - freed ty, tt).

(** A change of capacity: the rows beyond the new capacity, the oldest,
    are evicted. *)
Definition size_set_body (ok : bool) (n : nat) (ty : Termpty)
    : Termpty * Z * unit + error :=
  if ok then inl (ring_resize n ty, - total (drop n (backlog_rows ty)), tt)
  else inr AllocationFailure.

Definition free_body (ty : Termpty) : Termpty * Z * unit + error :=
  inl (ring_free ty, - freed ty, tt).

Definition length_body (ty : Termpty) : Termpty * Z * Z + error :=
  inl (ty, 0, ring_length ty).

(** *** The operations of the header *)

(** [termpty_save_register]: the terminal is a member from now on;
    nothing changes for one that is. *)
Definition termpty_save_register (id : nat) (ty : Termpty)
    : Engine -> Engine * unit :=
  scoped (fun e =>
    match sessions e !! id with
    | Some _ => (e, tt)
    | None => (store_session id ty e, tt)
    end).

(** [termpty_save_unregister]: the terminal is no member any more; the
    ledger is left as it is. *)
Definition termpty_save_unregister (id : nat) : Engine -> Engine * unit :=
  scoped (fun e =>
    (mkEngine (delete id (sessions e)) (ledger e) (locked e), tt)).

Definition backlog_push (ok : bool) (id : nat) (ts : Termsave) :=
  scoped (on_session id (push_body ok ts)).

Definition backlog_row (id k : nat) := scoped (on_session id (get_body k)).

Definition backlog_extract (id k : nat) :=
  scoped (on_session id (extract_body k)).

Definition backlog_expand (ok : bool) (id k : nat) (cs : list Termcell)
    (delta : Z) :=
  scoped (on_session id (expand_body ok k cs delta)).

Definition termpty_clear_backlog (id : nat) :=
  scoped (on_session id clear_body).

Definition termpty_backlog_size_set (ok : bool) (id n : nat) :=
  scoped (on_session id (size_set_body ok n)).

Definition termpty_backlog_free (id : nat) := scoped (on_session id free_body).

Definition termpty_backlog_length (id : nat) :=
  scoped (on_session id length_body).

(** [termpty_backlog_memory_get]: the ledger, read under the lock. *)
Definition termpty_backlog_memory_get : Engine -> Engine * Z :=
  scoped (fun e => (e, ledger e)).

(** *** Requests *)

(** The calls of the terminals and of the threads of the process; [ok]
    says whether the allocation of the call succeeds. *)
Inductive request :=
  | Register (id : nat) (ty : Termpty)
  | Unregister (id : nat)
  | Push (ok : bool) (id : nat) (ts : Termsave)
  | Row (id k : nat)
  | Extract (id k : nat)
  | Expand (ok : bool) (id k : nat) (cs : list Termcell) (delta : Z)
  | Clear (id : nat)
  | SizeSet (ok : bool) (id n : nat)
  | Free (id : nat)
  | Length (id : nat)
  | MemoryGet.

(** The engine after a call. *)
Definition serve (r : request) (e : Engine) : Engine :=
  match r with
  | Register id ty => (termpty_save_register id ty e).1
  | Unregister id => (termpty_save_unregister id e).1
  | Push ok id ts => (backlog_push ok id ts e).1
  | Row id k => (backlog_row id k e).1
  | Extract id k => (backlog_extract id k e).1
  | Expand ok id k cs delta => (backlog_expand ok id k cs delta e).1
  | Clear id => (termpty_clear_backlog id e).1
  | SizeSet ok id n => (termpty_backlog_size_set ok id n e).1
  | Free id => (termpty_backlog_free id e).1
  | Length id => (termpty_backlog_length id e).1
  | MemoryGet => (termpty_backlog_memory_get e).1
  end.



(** What the callers owe the engine: a terminal registers and
    unregisters without rows, a row that is archived is fully
    populated, and a capacity is one the macro can address. *)
Definition allowed (r : request) (e : Engine) : Prop :=
  match r with
  | Register id ty => Buffer_wf ty /\ backlog_rows ty = []
  | Unregister id =>
    forall ty, sessions e !! id = Some ty -> backlog_rows ty = []
  | Push _ _ ts => row_wf ts
  | SizeSet _ _ n => Z.of_nat n <= 2 ^ 63
  | _ => True
  end.

(** The calls one after the other, as the lock serialises them. *)
Definition serve_all (rs : list request) (e : Engine) : Engine :=
  foldl (fun e r => serve r e) e rs.

(** Each call of the sequence is one the callers may make when its
    turn comes. *)
Fixpoint allowed_all (rs : list request) (e : Engine) : Prop :=
  match rs with
  | [] => True
  | r :: rs => allowed r e /\ allowed_all rs (serve r e)
  end.

(** The states of the engine: from the initial one by calls the callers
    may make. *)
Inductive engine_step : Engine -> Engine -> Prop :=
  | step_serve r e : allowed r e -> engine_step e (serve r e).

Definition engine_reachable (e : Engine) : Prop :=
  rtc engine_step engine_init e.

(** What an operation on a terminal owes the ledger: the terminal
    after it is one the engine keeps, its rows are fully populated, and
    the change it reports is the change of the cost of its rows. *)
Definition accounts {A} (f : Termpty -> Termpty * Z * A + error) : Prop :=
  forall ty, Buffer_wf ty -> Forall row_wf (backlog_rows ty) ->
    match f ty with
    | inl (ty', delta, _) =>
      Buffer_wf ty' /\ Forall row_wf (backlog_rows ty') /\
      buffer_cost ty' = buffer_cost ty + delta
    | inr _ => True
    end.

(** The invariant of the ledger: every registered terminal is one the
    engine keeps, its rows are fully populated, and the ledger is what
    a full rescan counts. *)
Record Ledger_ok (e : Engine) : Prop := mkLedger_ok {
  lok_sessions : forall id ty, sessions e !! id = Some ty -> Buffer_wf ty;
  lok_rows :
    forall id ty, sessions e !! id = Some ty -> Forall row_wf (backlog_rows ty);
  lok_ledger : ledger e = rescan (sessions e)
}.

(** The invariant of the engine between calls: the lock is free and
    the ledger is right. *)
Definition Engine_wf (e : Engine) : Prop := locked e = false /\ Ledger_ok e.

End Ledger.

(** ** Examples *)

(** A row of one cell, a cost of eight bytes a cell, a terminal of two
    slots, and the engine after it registered and archived three
    rows. *)
Definition demo_row (c : Z) : Termsave := row_of [mkTermcell c 0].

Definition demo_cost (ts : Termsave) : Z := 8 * w ts.

Definition demo_ring : Termpty := ring_of 2 [].

Definition demo_rows : list Termsave := [demo_row 1; demo_row 2; demo_row 3].

Definition demo_calls : list request :=
  Register 0 demo_ring :: (Push true 0 <$> demo_rows).

Definition demo_engine : Engine := serve_all demo_cost demo_calls engine_init.

(** ** Lists of slots *)

Section Slots.

Context {A : Type}.
Implicit Types (l : list A) (os : list (option A)).

(** The filled slots of a list whose filled slots come first. *)
Lemma omap_prefix l m : omap id ((Some <$> l) ++ replicate m None) = l.
Proof.
  rewrite omap_app. replace (omap id (replicate m (@None A))) with (@nil A).
  - rewrite app_nil_r. induction l as [|a l IH]; [done|]. by rewrite <- IH at 2.
  - by induction m.
Qed.

(** A part of such a list, from its start, is such a list. *)
Lemma take_prefix j l m :
  take j ((Some <$> l) ++ replicate m None) =
  (Some <$> take j l) ++ replicate (min (j - length l) m) None.
Proof.
  rewrite take_app, length_fmap, fmap_take. f_equal.
  by rewrite take_replicate.
Qed.

End Slots.

(** ** The ring *)

Section Ring.

Implicit Types (ty : Termpty) (ts : Termsave).

(** The slot of an offset within one turn. *)
Lemma row_at_index ty k :
  Termpty_wf ty -> 0 < backsize ty <= 2 ^ 63 -> 0 <= k < backsize ty ->
  row_at ty k =
  back ty !! Z.to_nat ((backpos ty - 1 - k) mod backsize ty) ≫= id.
Proof.
  intros Hwf Hn Hk. unfold row_at, BACKLOG_ROW_GET_slot.
  rewrite BACKLOG_ROW_GET_turn by done. simpl.
  by destruct (back ty !! _) as [[?|]|].
Qed.

Lemma length_offsets ty : length (offsets ty) = Z.to_nat (backsize ty).
Proof. unfold offsets. by rewrite length_fmap, length_seq. Qed.

Lemma offsets_lookup ty (k : nat) :
  (k < Z.to_nat (backsize ty))%nat ->
  offsets ty !! k = Some (row_at ty (Z.of_nat k)).
Proof.
  intros Hk. unfold offsets. rewrite list_lookup_fmap, lookup_seq_lt by done.
  done.
Qed.

(** A terminal whose slots, in the order of the offsets, are the rows
    [l] and then empty slots is one the engine keeps, and holds [l]. *)
Lemma buffer_wf_intro ty l :
  Termpty_wf ty -> backsize ty <= 2 ^ 63 ->
  offsets ty =
    (Some <$> l) ++ replicate (Z.to_nat (backsize ty) - length l) None ->
  Buffer_wf ty /\ backlog_rows ty = l.
Proof.
  intros Hwf Hn Ho. assert (Hl : backlog_rows ty = l).
  { unfold backlog_rows. by rewrite Ho, omap_prefix. }
  split; [|done]. split; [done..|]. by rewrite Hl.
Qed.

(** The rows are never more than the slots. *)
Lemma length_backlog_rows ty :
  (length (backlog_rows ty) <= Z.to_nat (backsize ty))%nat.
Proof.
  unfold backlog_rows. rewrite <- length_offsets.
  induction (offsets ty) as [|[a|] l IH]; cbn in *; lia.
Qed.


(** *** A slot is written *)

Lemma set_slot_wf i x ty : Termpty_wf ty -> Termpty_wf (set_slot i x ty).
Proof. intros [? ? ?]. split; simpl; by rewrite ?length_insert. Qed.

(** The slot of an offset is not the slot of another one. *)
Lemma ring_slot_ne n p (j k : Z) :
  0 < n -> 0 <= j < n -> 0 <= k < n -> j <> k ->
  Z.to_nat ((p - 1 - j) mod n) <> Z.to_nat ((p - 1 - k) mod n).
Proof.
  intros Hn Hj Hk Hjk Heq. apply Hjk.
  pose proof (Z.mod_pos_bound (p - 1 - j) n Hn).
  pose proof (Z.mod_pos_bound (p - 1 - k) n Hn).
  apply (ring_back_inj n (p - 1)); [done..|lia].
Qed.

(** Writing the slot of offset [k] changes the row at that offset
    only. *)
Lemma offsets_set_slot ty (k : nat) x :
  Termpty_wf ty -> 0 < backsize ty <= 2 ^ 63 ->
  (k < Z.to_nat (backsize ty))%nat ->
  offsets
    (set_slot ((backpos ty - 1 - Z.of_nat k) mod backsize ty) x ty) =
  <[k := x]> (offsets ty).
Proof.
  intros Hwf Hn Hk. pose proof (set_slot_wf
    ((backpos ty - 1 - Z.of_nat k) mod backsize ty) x ty Hwf) as Hwf'.
  pose proof (wf_back _ Hwf) as Hlen.
  pose proof (Z.mod_pos_bound (backpos ty - 1 - Z.of_nat k) (backsize ty)).
  apply list_eq. intros i. destruct (decide (i < Z.to_nat (backsize ty))%nat).
  - rewrite offsets_lookup by done.
    rewrite row_at_index by (done || simpl; lia). simpl.
    destruct (decide (i = k)) as [->|Hne].
    + rewrite list_lookup_insert_eq by lia.
      rewrite list_lookup_insert_eq by (rewrite length_offsets; lia). done.
    + rewrite list_lookup_insert_ne by (apply ring_slot_ne; lia).
      rewrite list_lookup_insert_ne by done.
      rewrite offsets_lookup, row_at_index by (done || lia). done.
  - rewrite !lookup_ge_None_2; [done|..];
      rewrite ?length_insert, length_offsets; simpl; lia.
Qed.


(** *** A row is archived *)

Lemma advance_wf ty : Termpty_wf ty -> 0 < backsize ty -> Termpty_wf (advance ty).
Proof.
  intros [? ? ?] Hn. split; simpl; try done.
  destruct (Z.leb_spec (backsize ty) (backpos ty + 1)); lia.
Qed.

(** The cursor after a push is one slot further on the ring. *)
Lemma advance_index n p i :
  0 < n -> 0 <= p < n ->
  ((if n <=? p + 1 then 0 else p + 1) - 1 - i) mod n = (p - i) mod n.
Proof.
  intros Hn Hp. destruct (Z.leb_spec n (p + 1)).
  - replace (0 - 1 - i) with (p - i + (-1) * n) by lia. by rewrite Z.mod_add by lia.
  - f_equal. lia.
Qed.

(** After a push the new row is at offset 0, and every row is one
    offset further back; the row of the last offset is gone. *)
Lemma offsets_push ty ts :
  Termpty_wf ty -> 0 < backsize ty <= 2 ^ 63 ->
  offsets (ring_push ts ty) =
  Some ts :: take (Z.to_nat (backsize ty) - 1) (offsets ty).
Proof.
  intros Hwf Hn. unfold ring_push. rewrite BACKLOG_ROW_GET_next by done.
  pose proof (wf_back _ Hwf) as Hlen. pose proof (wf_backpos _ Hwf) as Hp.
  assert (Hwf' : Termpty_wf (advance (set_slot (backpos ty) (Some ts) ty)))
    by (apply advance_wf; [by apply set_slot_wf|simpl; lia]).
  apply list_eq. intros i. destruct (decide (i < Z.to_nat (backsize ty))%nat).
  - rewrite offsets_lookup, row_at_index by (done || simpl; lia). simpl.
    rewrite advance_index by lia. destruct i as [|j]; simpl.
    + rewrite Z.sub_0_r, Z.mod_small by lia.
      by rewrite list_lookup_insert_eq by lia.
    + rewrite lookup_take_lt by lia.
      rewrite offsets_lookup, row_at_index by (done || lia).
      replace (backpos ty - Z.of_nat (Datatypes.S j))
        with (backpos ty - 1 - Z.of_nat j) by lia.
      rewrite list_lookup_insert_ne; [done|]. intros Heq.
      pose proof (Z.mod_pos_bound (backpos ty - 1 - Z.of_nat j) (backsize ty)).
      assert (Hm : (backpos ty - (Z.of_nat j + 1)) mod backsize ty
                   = (backpos ty - 0) mod backsize ty).
      { rewrite Z.sub_0_r, (Z.mod_small (backpos ty)) by lia.
        replace (backpos ty - (Z.of_nat j + 1))
          with (backpos ty - 1 - Z.of_nat j) by lia. lia. }
      apply ring_back_inj in Hm; lia.
  - rewrite !lookup_ge_None_2; [done|..]; simpl;
      rewrite ?length_take, length_offsets; simpl; lia.
Qed.

(** A terminal without backlog has no row and archives none. *)
Lemma ring_push_none ty ts : backsize ty = 0 -> ring_push ts ty = ty.
Proof.
  intros Hn. unfold ring_push, BACKLOG_ROW_GET. by rewrite Hn, size_rem_zero.
Qed.

Lemma backlog_rows_none ty : backsize ty = 0 -> backlog_rows ty = [].
Proof.
  intros Hn. pose proof (length_backlog_rows ty) as Hl. rewrite Hn in Hl.
  destruct (backlog_rows ty); [done|simpl in Hl; lia].
Qed.

Lemma backsize_nonneg ty : Termpty_wf ty -> 0 <= backsize ty.
Proof. intros [? ? Hb]. lia. Qed.

(** The push of the interface, on the ring. *)
Lemma ring_push_spec ty ts :
  Buffer_wf ty ->
  Buffer_wf (ring_push ts ty) /\
  backlog_rows (ring_push ts ty) =
  take (Z.to_nat (backsize ty)) (ts :: backlog_rows ty).
Proof.
  intros Hb. pose proof (bwf_ty _ Hb) as Hwf. pose proof (bwf_size _ Hb).
  pose proof (backsize_nonneg _ Hwf).
  destruct (decide (backsize ty = 0)) as [Hz|Hz].
  { rewrite ring_push_none, backlog_rows_none, Hz by done. by split. }
  assert (Hs : backsize (ring_push ts ty) = backsize ty).
  { unfold ring_push. by rewrite BACKLOG_ROW_GET_next by (done || lia). }
  apply buffer_wf_intro.
  - unfold ring_push. rewrite BACKLOG_ROW_GET_next by (done || lia).
    apply advance_wf; [by apply set_slot_wf|simpl; lia].
  - by rewrite Hs.
  - rewrite offsets_push, (bwf_prefix _ Hb), take_prefix, Hs by (done || lia).
    destruct (Z.to_nat (backsize ty)) as [|m] eqn:Hm; [lia|]. simpl.
    rewrite Nat.sub_0_r, length_take. do 3 f_equal. lia.
Qed.

(** *** A ring made of a list of rows *)

Lemma ring_of_wf n l :
  (length l <= n)%nat -> Z.of_nat n <= 2 ^ 63 -> Termpty_wf (ring_of n l).
Proof.
  intros Hl Hn. split; simpl.
  - unfold in_size, SIZE_MOD. lia.
  - case_decide; lia.
  - rewrite length_app, length_reverse, length_fmap, length_replicate. lia.
Qed.

(** The slot of offset [i] in the ring of [c] rows among [n] slots:
    among the rows counted from the last, or among the empty slots. *)
Lemma ring_of_index (n c i : Z) :
  0 <= c <= n -> 0 <= i < n ->
  ((if decide (c < n) then c else 0) - 1 - i) mod n =
  if decide (i < c) then c - 1 - i else n + c - 1 - i.
Proof.
  intros Hc Hi. repeat case_decide.
  - apply Z.mod_small. lia.
  - replace (c - 1 - i) with (n + c - 1 - i + (-1) * n) by lia.
    rewrite Z.mod_add by lia. apply Z.mod_small. lia.
  - replace (0 - 1 - i) with (c - 1 - i + (-1) * n) by lia.
    rewrite Z.mod_add by lia. apply Z.mod_small. lia.
  - lia.
Qed.

(** Read through the macro, the ring of a list holds the list, most
    recent first, in its first offsets. *)
Lemma offsets_ring_of n l :
  (length l <= n)%nat -> Z.of_nat n <= 2 ^ 63 ->
  offsets (ring_of n l) = (Some <$> l) ++ replicate (n - length l) None.
Proof.
  intros Hl Hn. pose proof (ring_of_wf n l Hl Hn) as Hwf.
  apply list_eq. intros i. destruct (decide (i < n)%nat) as [Hi|Hi].
  - rewrite offsets_lookup, row_at_index by (done || simpl; lia). simpl.
    replace (if decide (length l < n)%nat then Z.of_nat (length l) else 0)
      with (if decide (Z.of_nat (length l) < Z.of_nat n)
            then Z.of_nat (length l) else 0) by (repeat case_decide; lia).
    rewrite ring_of_index by lia. case_decide.
    + rewrite lookup_app_l, reverse_lookup
        by (rewrite ?length_reverse, length_fmap; lia).
      rewrite length_fmap, lookup_app_l by (rewrite length_fmap; lia).
      replace (length l - Datatypes.S (Z.to_nat (Z.of_nat (length l) - 1 - Z.of_nat i)))%nat
        with i by lia.
      rewrite list_lookup_fmap.
      by destruct (lookup_lt_is_Some_2 l i) as [x ->]; [lia|].
    + rewrite !lookup_app_r by (rewrite ?length_reverse, length_fmap; lia).
      rewrite !lookup_replicate_2; [done|..];
        rewrite ?length_reverse, length_fmap; lia.
  - rewrite !lookup_ge_None_2; [done|..];
      rewrite ?length_offsets, ?length_app, ?length_fmap, ?length_replicate;
      simpl; lia.
Qed.

(** The ring of a list is a terminal the engine keeps, and holds the
    list. *)
Lemma ring_of_spec n l :
  (length l <= n)%nat -> Z.of_nat n <= 2 ^ 63 ->
  Buffer_wf (ring_of n l) /\ backlog_rows (ring_of n l) = l.
Proof.
  intros Hl Hn. apply buffer_wf_intro; simpl; [by apply ring_of_wf|done|].
  rewrite offsets_ring_of, Nat2Z.id by done. done.
Qed.

Lemma ring_clear_ring_of ty :
  0 <= backsize ty ->
  ring_clear ty = ring_of (Z.to_nat (backsize ty)) [].
Proof.
  intros Hn. unfold ring_clear, ring_of. simpl.
  rewrite Nat.sub_0_r, Z2Nat.id by done. f_equal. by case_decide.
Qed.

(** *** A row is replaced *)

Lemma ring_replace_spec ty k ts :
  Buffer_wf ty ->
  Buffer_wf (ring_replace k ts ty) /\
  backlog_rows (ring_replace k ts ty) = <[k := ts]> (backlog_rows ty).
Proof.
  intros Hb. pose proof (bwf_ty _ Hb) as Hwf. pose proof (bwf_size _ Hb).
  pose proof (length_backlog_rows ty). unfold ring_replace, ring_length.
  case_decide; [|by rewrite list_insert_ge by lia].
  rewrite BACKLOG_ROW_GET_turn by (done || lia).
  apply buffer_wf_intro; [by apply set_slot_wf|done|]. simpl.
  rewrite offsets_set_slot, (bwf_prefix _ Hb) by (done || lia).
  rewrite insert_app_l, list_fmap_insert, length_insert
    by (rewrite length_fmap; lia).
  done.
Qed.

End Ring.

(** ** The laws *)

(** The reference keeps the laws. *)
#[global] Instance bounded_laws : SessionBufferLaws Bounded.
Proof.
  split; simpl; intros; try done; rewrite ?length_take, ?length_insert; lia.
Qed.

(** The ring of a terminal keeps them: read through the macro, each
    operation on the slots is the operation of the interface. *)
#[global] Instance ring_laws : SessionBufferLaws Termpty.
Proof.
  split; simpl.
  - intros b _. apply length_backlog_rows.
  - intros r b Hb. by apply ring_push_spec.
  - intros r b Hb. destruct (decide (backsize b = 0)).
    + by rewrite ring_push_none.
    + unfold ring_push. rewrite BACKLOG_ROW_GET_next; [done|by destruct Hb|].
      pose proof (backsize_nonneg _ (bwf_ty _ Hb)). destruct Hb. lia.
  - intros r b Hb. by apply ring_push_spec.
  - intros b Hb. pose proof (backsize_nonneg _ (bwf_ty _ Hb)).
    rewrite ring_clear_ring_of by done.
    apply ring_of_spec; [simpl; lia|]. destruct Hb. lia.
  - done.
  - intros b Hb. pose proof (backsize_nonneg _ (bwf_ty _ Hb)).
    rewrite ring_clear_ring_of by done.
    apply ring_of_spec; [simpl; lia|]. destruct Hb. lia.
  - intros n b Hb Hn. apply ring_of_spec; [|done]. rewrite length_take. lia.
  - intros n b _. simpl. lia.
  - intros n b Hb Hn. apply ring_of_spec; [|done]. rewrite length_take. lia.
  - intros k r b Hb. by apply ring_replace_spec.
  - intros k r b Hb. unfold ring_replace. case_decide; [|done].
    by destruct (BACKLOG_ROW_GET _ _ _).
  - intros k r b Hb. by apply ring_replace_spec.
Qed.

(** ** What the laws give the callers *)

Section Client.

Context {B : Type} `{SessionBufferLaws B}.

Implicit Types (b : B) (r : Termsave) (rs : list Termsave).

(** Rows that are cut off are cut off whether or not the older ones
    were cut before. *)
Lemma take_app_take {A} c (l1 l2 : list A) :
  take c (l1 ++ take c l2) = take c (l1 ++ l2).
Proof.
  rewrite !take_app, take_take. do 2 f_equal. lia.
Qed.

Lemma pushes_valid rs b : valid b -> valid (pushes rs b).
Proof.
  revert b. induction rs as [|r rs IH]; intros b Hb; [done|].
  apply IH. by apply push_valid.
Qed.

Lemma pushes_capacity rs b : valid b -> capacity (pushes rs b) = capacity b.
Proof.
  revert b. induction rs as [|r rs IH]; intros b Hb; [done|]. simpl.
  rewrite IH by (by apply push_valid). by apply push_capacity.
Qed.

(** After a sequence of pushes the buffer holds the rows pushed, the
    last first, then the rows it held, as many as its capacity. *)
Lemma pushes_rows rs b :
  valid b -> rows (pushes rs b) = take (capacity b) (reverse rs ++ rows b).
Proof.
  revert b. induction rs as [|r rs IH]; intros b Hb; simpl.
  - rewrite take_ge; [done|]. by apply rows_capacity.
  - rewrite IH, push_capacity, push_rows by (by try apply push_valid).
    by rewrite take_app_take, reverse_cons, <- app_assoc.
Qed.

(** One operation is one operation of the reference. *)
Lemma run_op_abstract o b :
  valid b -> op_fits o ->
  valid (run_op o b) /\ abstract (run_op o b) = run_op o (abstract b).
Proof.
  intros Hb Ho. unfold abstract. destruct o as [r| |n|k r]; simpl.
  - by rewrite push_capacity, push_rows; auto using push_valid.
  - by rewrite clear_capacity, clear_rows; auto using clear_valid.
  - by rewrite resize_capacity_eq, resize_rows; auto using resize_valid.
  - by rewrite replace_capacity, replace_rows; auto using replace_valid.
Qed.

(** A buffer that keeps the laws implements the bounded list: after any
    sequence of operations it is valid, and its capacity and rows are
    those of the reference after the same sequence. *)
Lemma run_ops_refines os b :
  valid b -> Forall op_fits os ->
  valid (run_ops os b) /\ abstract (run_ops os b) = run_ops os (abstract b).
Proof.
  intros Hb Hos. revert b Hb.
  induction Hos as [|o os Ho _ IH]; intros b Hb; [done|]. simpl.
  destruct (run_op_abstract o b Hb Ho) as [Hv <-]. by apply IH.
Qed.

(** The capacity invariant: after any sequence of pushes the rows
    held are the rows pushed and the rows held before, as many of them
    as the capacity, which no push changes. *)
Theorem pushes_count rs b :
  valid b ->
  length (rows (pushes rs b)) =
    Nat.min (capacity b) (length rs + length (rows b)) /\
  capacity (pushes rs b) = capacity b.
Proof.
  intros Hb. rewrite pushes_rows, pushes_capacity by done.
  by rewrite length_take, length_app, length_reverse.
Qed.


(** Most recent first: after a sequence of pushes, the row at
    offset [k] within the capacity is the [k]-th of the rows pushed,
    counted from the last. *)
Theorem pushes_most_recent_first rs b k :
  valid b -> (k < length rs)%nat -> (k < capacity b)%nat ->
  rows (pushes rs b) !! k = reverse rs !! k.
Proof.
  intros Hb Hk Hc. rewrite pushes_rows, lookup_take_lt by done.
  by rewrite lookup_app_l by (by rewrite length_reverse).
Qed.

(** Clearing twice is clearing once: no row either time, and the
    capacity of before. *)
Theorem clear_idempotent b :
  valid b ->
  abstract (clear (clear b)) = abstract (clear b) /\ rows (clear b) = [].
Proof.
  intros Hb. unfold abstract.
  by rewrite !clear_capacity, !clear_rows by auto using clear_valid.
Qed.

(** A buffer shrunk to [n] rows keeps the [n] most recent ones in
    their order, whatever is pushed afterwards up to the new
    capacity. *)
Theorem resize_keeps_recent n rs b :
  valid b -> fits n ->
  rows (pushes rs (resize_capacity n b)) = take n (reverse rs ++ rows b).
Proof.
  intros Hb Hn.
  rewrite pushes_rows, resize_capacity_eq, resize_rows
    by auto using resize_valid.
  apply take_app_take.
Qed.

End Client.

(** ** The ring behind the interface *)

Section RingFacts.

Implicit Types (ty : Termpty) (ts : Termsave).

(** Reading a row through the macro is reading the list of rows. *)
Lemma backlog_get_rows ty (k : nat) :
  Buffer_wf ty ->
  backlog_get ty (Z.of_nat k) =
  match backlog_rows ty !! k with
  | Some ts => inl ts
  | None => inr OutOfRange
  end.
Proof.
  intros Hb. pose proof (bwf_ty _ Hb) as Hwf. pose proof (bwf_size _ Hb).
  pose proof (length_backlog_rows ty).
  unfold backlog_get, backlog_ref, ring_length. case_decide.
  - rewrite BACKLOG_ROW_GET_turn by (done || lia).
    assert (Hk : (k < Z.to_nat (backsize ty))%nat) by lia.
    pose proof (offsets_lookup ty k Hk) as Ho.
    rewrite row_at_index, (bwf_prefix _ Hb) in Ho by (done || lia).
    rewrite lookup_app_l, list_lookup_fmap in Ho by (rewrite length_fmap; lia).
    unfold deref. destruct (backlog_rows ty !! k) as [x|] eqn:Hx.
    + simpl in Ho. injection Ho as <-. done.
    + apply lookup_ge_None_1 in Hx. lia.
  - rewrite lookup_ge_None_2; [done|lia].
Qed.

(** A negative offset is no offset of a row. *)
Lemma backlog_get_negative ty k : k < 0 -> backlog_get ty k = inr OutOfRange.
Proof.
  intros Hk. unfold backlog_get, backlog_ref. by rewrite decide_False by lia.
Qed.

(** C19: the ring of a terminal implements the bounded list: after any
    sequence of pushes, clears, changes of capacity to at most [2 ^ 63]
    slots and replacements, the terminal is one the engine keeps, and
    its size and the rows read through [BACKLOG_ROW_GET] are the
    capacity and the rows of the reference after the same sequence. *)
Theorem ring_refines_bounded os ty :
  Buffer_wf ty -> Forall (op_fits (B := Termpty)) os ->
  Buffer_wf (run_ops os ty) /\
  mkBounded (Z.to_nat (backsize (run_ops os ty))) (backlog_rows (run_ops os ty))
  = run_ops os (mkBounded (Z.to_nat (backsize ty)) (backlog_rows ty)).
Proof. intros Hb Hos. exact (run_ops_refines os ty Hb Hos). Qed.

(** C8: most recent first, through the macro: after the rows [rs] are
    archived, the oldest first, the row at offset [k] is the [k]-th of
    them counted from the last. *)
Theorem backlog_get_most_recent_first rs ty (k : nat) ts :
  Buffer_wf ty -> Z.of_nat k < backsize ty -> reverse rs !! k = Some ts ->
  backlog_get (pushes rs ty) (Z.of_nat k) = inl ts.
Proof.
  intros Hb Hk Hts. pose proof (lookup_lt_Some _ _ _ Hts) as Hlen.
  rewrite length_reverse in Hlen.
  rewrite backlog_get_rows by exact (pushes_valid rs ty Hb).
  pose proof (pushes_rows rs ty Hb) as Hr. simpl in Hr. rewrite Hr.
  rewrite lookup_take_lt, lookup_app_l, Hts by (rewrite ?length_reverse; lia).
  done.
Qed.

(** An offset that is not one of a row is [OutOfRange], whatever
    the slot the macro would address holds. *)
Theorem backlog_get_out_of_range ty k :
  Buffer_wf ty -> ~ 0 <= k < ring_length ty ->
  backlog_get ty k = inr OutOfRange.
Proof.
  intros _ Hk. unfold backlog_get, backlog_ref. by rewrite decide_False.
Qed.

(** *** References and copies *)

(** A reference to a row is the slot of its offset. *)
Lemma backlog_ref_inv ty k i :
  Buffer_wf ty -> backlog_ref ty k = inl i ->
  0 <= k < ring_length ty /\ i = (backpos ty - 1 - k) mod backsize ty.
Proof.
  intros Hb. pose proof (bwf_ty _ Hb). pose proof (bwf_size _ Hb).
  pose proof (length_backlog_rows ty). unfold backlog_ref, ring_length.
  case_decide; [|done]. rewrite BACKLOG_ROW_GET_turn by (done || lia).
  intros [= <-]. done.
Qed.

Lemma ring_push_length ty ts :
  Buffer_wf ty ->
  ring_length (ring_push ts ty) =
  Z.min (backsize ty) (ring_length ty + 1).
Proof.
  intros Hb. pose proof (backsize_nonneg _ (bwf_ty _ Hb)). unfold ring_length.
  destruct (ring_push_spec ty ts Hb) as [_ ->]. rewrite length_take. simpl. lia.
Qed.

Lemma ring_push_unfold ty ts :
  Termpty_wf ty -> 0 < backsize ty <= 2 ^ 63 ->
  ring_push ts ty = advance (set_slot (backpos ty) (Some ts) ty).
Proof. intros. unfold ring_push. by rewrite BACKLOG_ROW_GET_next. Qed.

Lemma push_wf ty ts :
  Termpty_wf ty -> 0 < backsize ty ->
  Termpty_wf (advance (set_slot (backpos ty) (Some ts) ty)).
Proof. intros. apply advance_wf; [by apply set_slot_wf|done]. Qed.

(** A reference outlives a push that does not reuse its slot: it
    designates the same row, which is one offset further back. *)
Theorem backlog_ref_after_push ty ts k i :
  Buffer_wf ty -> backlog_ref ty k = inl i -> k + 1 < backsize ty ->
  backlog_ref (ring_push ts ty) (k + 1) = inl i /\
  deref (ring_push ts ty) i = deref ty i.
Proof.
  intros Hb Hi Hk. destruct (backlog_ref_inv _ _ _ Hb Hi) as [Hr ->].
  pose proof (bwf_ty _ Hb) as Hwf. pose proof (bwf_size _ Hb).
  pose proof (wf_backpos _ Hwf). split.
  - unfold backlog_ref. rewrite ring_push_length, decide_True by (done || lia).
    rewrite ring_push_unfold by (done || lia).
    rewrite BACKLOG_ROW_GET_turn; simpl; [|apply push_wf|lia..]; [|done|lia].
    rewrite advance_index by lia. do 2 f_equal. lia.
  - rewrite ring_push_unfold by (done || lia). unfold deref. simpl.
    rewrite list_lookup_insert_ne; [done|].
    rewrite <- (Z.mod_small (backpos ty) (backsize ty)) at 1 by lia.
    replace (backpos ty) with (backpos ty - 1 - (-1)) at 1 by lia.
    intros Heq. apply Z2Nat.inj in Heq;
      try (apply Z.mod_pos_bound; lia).
    replace (backpos ty - 1 - -1) with (backpos ty - 1 - (backsize ty - 1)
      + 1 * backsize ty) in Heq by lia.
    rewrite Z.mod_add in Heq by lia.
    apply (ring_back_inj (backsize ty) (backpos ty - 1)) in Heq; lia.
Qed.

(** C25: a reference does not outlive the push that evicts its row: on a
    full buffer the reference to the oldest row designates the new row
    afterwards, while a copy taken before is the row as it was. *)
Theorem termpty_save_extract_independent ty ts old :
  Buffer_wf ty -> backlog_get ty (backsize ty - 1) = inl old ->
  exists i,
    backlog_ref ty (backsize ty - 1) = inl i /\
    deref ty i = Some old /\
    deref (ring_push ts ty) i = Some ts /\
    termpty_save_extract old = old.
Proof.
  intros Hb Hget. unfold backlog_get in Hget.
  destruct (backlog_ref ty _) as [i|] eqn:Hi; [|done]. exists i.
  destruct (deref ty i) as [x|] eqn:Hx; [|done]. injection Hget as ->.
  destruct (backlog_ref_inv _ _ _ Hb Hi) as [Hr ->].
  pose proof (bwf_ty _ Hb) as Hwf. pose proof (bwf_size _ Hb).
  pose proof (wf_backpos _ Hwf). pose proof (wf_back _ Hwf).
  repeat split; [|by destruct old].
  rewrite ring_push_unfold by (done || lia). unfold deref. simpl.
  replace (backpos ty - 1 - (backsize ty - 1))
    with (backpos ty + (-1) * backsize ty) by lia.
  rewrite Z.mod_add, Z.mod_small by lia.
  by rewrite list_lookup_insert_eq by lia.
Qed.

(** *** Expansion of a row *)


(** An expansion whose cells are not [delta] fails with
    [WidthMismatch]. *)
Theorem termpty_save_expand_mismatch ts cs delta :
  Z.of_nat (length cs) <> delta ->
  termpty_save_expand ts cs delta = inr WidthMismatch.
Proof. intros Hcs. unfold termpty_save_expand. by rewrite decide_False. Qed.

End RingFacts.

(** ** The ledger *)

Section LedgerFacts.

Context (cost : Termsave -> Z).

Implicit Types (ty : Termpty) (ts : Termsave) (e : Engine)
  (m : gmap nat Termpty).

#[local] Abbreviation total := (total cost).
#[local] Abbreviation buffer_cost := (buffer_cost cost).
#[local] Abbreviation rescan := (rescan cost).

(** *** Sums of costs *)

Lemma total_app l1 l2 : total (l1 ++ l2) = total l1 + total l2.
Proof. induction l1 as [|x l1 IH]; simpl; lia. Qed.

Lemma total_take_drop n l : total (take n l) = total l - total (drop n l).
Proof. rewrite <- (take_drop n l) at 2. rewrite total_app. lia. Qed.

Lemma total_insert l k ts ts' :
  l !! k = Some ts -> total (<[k := ts']> l) = total l + (cost ts' - cost ts).
Proof.
  revert k. induction l as [|x l IH]; intros [|k] Hk; simplify_eq/=; [lia|].
  rewrite (IH k) by done. lia.
Qed.

(** Freeing the slots one by one gives back the cost of the rows. *)
Lemma freed_total ty : freed cost ty = buffer_cost ty.
Proof.
  unfold freed, Engine.buffer_cost, backlog_rows.
  unfold Engine.total, slot_cost.
  induction (offsets ty) as [|[x|] os IH]; cbn in *; lia.
Qed.

(** The row a push evicts is the row of the last offset: the rows that
    stay are the others. *)
Lemma total_push (l : list Termsave) (j : nat) ts old :
  ((Some <$> l) ++ replicate j None) !! (length l + j - 1)%nat = Some old ->
  (0 < length l + j)%nat ->
  total (take (length l + j) (ts :: l)) = total l + (cost ts - slot_cost cost old).
Proof.
  intros Hold Hn. destruct j as [|j].
  - destruct l as [|x l _] using rev_ind; [simpl in *; lia|].
    rewrite length_app in *. simpl in *. rewrite app_nil_r in Hold.
    rewrite fmap_app, lookup_app_r in Hold by (rewrite length_fmap; lia).
    rewrite length_fmap in Hold.
    replace (length l + 1 + 0 - 1 - length l)%nat with 0%nat in Hold by lia.
    injection Hold as <-. rewrite app_comm_cons, take_app_length'
      by (simpl; lia).
    rewrite total_app. simpl. lia.
  - rewrite lookup_app_r in Hold by (rewrite length_fmap; lia).
    apply lookup_replicate in Hold as [-> _].
    rewrite take_ge by (simpl; lia). simpl. lia.
Qed.

(** *** The rescan *)

Lemma rescan_comm (j1 j2 : nat) (z1 z2 : Termpty) (y : Z) :
  buffer_cost z1 + (buffer_cost z2 + y) = buffer_cost z2 + (buffer_cost z1 + y).
Proof. lia. Qed.

Lemma rescan_insert_new m id ty :
  m !! id = None -> rescan (<[id := ty]> m) = buffer_cost ty + rescan m.
Proof.
  intros Hid. unfold Engine.rescan.
  rewrite map_fold_insert_L; [done|intros; apply rescan_comm; done|done].
Qed.

Lemma rescan_delete m id ty :
  m !! id = Some ty -> rescan m = buffer_cost ty + rescan (delete id m).
Proof.
  intros Hid. unfold Engine.rescan.
  rewrite (map_fold_delete_L _ _ id ty m);
    [done|intros; apply rescan_comm; done|done].
Qed.

Lemma rescan_insert m id ty ty' :
  m !! id = Some ty ->
  rescan (<[id := ty']> m) = rescan m + (buffer_cost ty' - buffer_cost ty).
Proof.
  intros Hid. rewrite (rescan_delete m id ty Hid), <- insert_delete_eq.
  rewrite rescan_insert_new by apply lookup_delete_eq. lia.
Qed.

(** *** Each operation accounts for what it does *)

Lemma termpty_save_expand_inl ts cs delta ts' :
  termpty_save_expand ts cs delta = inl ts' ->
  ts' = mkTermsave (w ts + delta) (cells ts ++ cs) /\
  Z.of_nat (length cs) = delta.
Proof. unfold termpty_save_expand. case_decide; naive_solver. Qed.

(** The slot at the cursor is the row of the last offset. *)
Lemma slot_next_last ty old :
  Buffer_wf ty -> BACKLOG_ROW_GET_slot ty ty (-1) = Some old ->
  0 < backsize ty /\
  offsets ty !! (Z.to_nat (backsize ty) - 1)%nat = Some old.
Proof.
  intros Hb Hold. pose proof (bwf_ty _ Hb) as Hwf. pose proof (bwf_size _ Hb).
  pose proof (backsize_nonneg _ Hwf). pose proof (wf_backpos _ Hwf).
  unfold BACKLOG_ROW_GET_slot in Hold.
  destruct (decide (backsize ty = 0)) as [Hz|Hz].
  { unfold BACKLOG_ROW_GET in Hold. by rewrite Hz, size_rem_zero in Hold. }
  rewrite BACKLOG_ROW_GET_next in Hold by (done || lia). simpl in Hold.
  split; [lia|]. rewrite offsets_lookup, row_at_index by (done || lia).
  replace (backpos ty - 1 - Z.of_nat (Z.to_nat (backsize ty) - 1))
    with (backpos ty + (-1) * backsize ty) by lia.
  rewrite Z.mod_add, Z.mod_small, Hold by lia. by destruct old.
Qed.

Lemma push_body_accounts ok ts : row_wf ts -> accounts cost (push_body cost ok ts).
Proof.
  intros Hts ty Hb Hrows. unfold push_body. destruct ok; [|done].
  destruct (BACKLOG_ROW_GET_slot ty ty (-1)) as [old|] eqn:Hold.
  - destruct (ring_push_spec ty ts Hb) as [Hb' Hr]. split; [done|].
    unfold Engine.buffer_cost. rewrite Hr. split.
    + apply Forall_take. by constructor.
    + destruct (slot_next_last ty old Hb Hold) as [Hn Hlast].
      pose proof (length_backlog_rows ty) as Hlen.
      rewrite (bwf_prefix _ Hb) in Hlast.
      set (j := (Z.to_nat (backsize ty) - length (backlog_rows ty))%nat) in *.
      assert (Hj : Z.to_nat (backsize ty) = (length (backlog_rows ty) + j)%nat)
        by lia.
      clearbody j. rewrite Hj in Hlast |- *. apply total_push; [done|lia].
  - split; [done|split; [done|lia]].
Qed.

Lemma get_body_accounts k : accounts cost (get_body k).
Proof.
  intros ty Hb Hrows. unfold get_body.
  destruct (backlog_get _ _); [|done]. split; [done|split; [done|lia]].
Qed.

Lemma extract_body_accounts k : accounts cost (extract_body k).
Proof.
  intros ty Hb Hrows. unfold extract_body.
  destruct (backlog_get _ _); [|done]. split; [done|split; [done|lia]].
Qed.

Lemma expand_body_accounts ok k cs delta :
  accounts cost (expand_body cost ok k cs delta).
Proof.
  intros ty Hb Hrows. unfold expand_body.
  destruct (backlog_get _ _) as [ts|] eqn:Hget; [|done].
  destruct (termpty_save_expand _ _ _) as [ts'|] eqn:Hexp; [|done].
  destruct ok; [|done]. rewrite backlog_get_rows in Hget by done.
  destruct (backlog_rows ty !! k) as [x|] eqn:Hk; [|done].
  injection Hget as ->. destruct (ring_replace_spec ty k ts' Hb) as [Hb' Hr].
  split; [done|]. unfold Engine.buffer_cost. rewrite Hr. split.
  - apply Forall_insert; [done|].
    apply termpty_save_expand_inl in Hexp as [-> Hd].
    pose proof (Forall_lookup_1 _ _ _ _ Hrows Hk) as Hw.
    unfold row_wf in *. simpl. rewrite length_app. lia.
  - by apply total_insert.
Qed.

Lemma clear_body_accounts : accounts cost (clear_body cost).
Proof.
  intros ty Hb Hrows. unfold clear_body, Engine.buffer_cost.
  pose proof (clear_rows (B := Termpty) ty Hb) as Hr. simpl in Hr.
  rewrite Hr, freed_total. split; [exact (clear_valid ty Hb)|].
  split; [done|]. unfold Engine.buffer_cost. simpl. lia.
Qed.

Lemma size_set_body_accounts ok n :
  Z.of_nat n <= 2 ^ 63 -> accounts cost (size_set_body cost ok n).
Proof.
  intros Hn ty Hb Hrows. unfold size_set_body. destruct ok; [|done].
  pose proof (resize_rows (B := Termpty) n ty Hb Hn) as Hr. simpl in Hr.
  unfold Engine.buffer_cost. rewrite Hr.
  split; [exact (resize_valid n ty Hb Hn)|]. split; [by apply Forall_take|].
  rewrite total_take_drop. lia.
Qed.

Lemma free_body_accounts : accounts cost (free_body cost).
Proof.
  intros ty Hb Hrows. unfold free_body. rewrite freed_total.
  destruct (ring_of_spec 0 []) as [Hb' Hr]; [done..|].
  split; [done|]. unfold Engine.buffer_cost.
  change (ring_free ty) with (ring_of 0 []). rewrite Hr.
  split; [done|]. simpl. lia.
Qed.

Lemma length_body_accounts : accounts cost length_body.
Proof. intros ty Hb Hrows. split; [done|split; [done|lia]]. Qed.

(** *** The invariant *)

Lemma ledger_ok_locked e b :
  Ledger_ok cost e -> Ledger_ok cost (mkEngine (sessions e) (ledger e) b).
Proof. by intros [? ? ?]. Qed.

(** Between the lock and the unlock the ledger is kept; afterwards the
    lock is free. *)
Lemma scoped_wf {A} (f : Engine -> Engine * A) e :
  Ledger_ok cost (f (termpty_backlog_lock e)).1 -> Engine_wf cost (scoped f e).1.
Proof. intros Hf. split; [done|]. by apply ledger_ok_locked. Qed.

Lemma on_session_ok {A} id (f : Termpty -> Termpty * Z * A + error) e :
  accounts cost f -> Ledger_ok cost e -> Ledger_ok cost (on_session id f e).1.
Proof.
  intros Hf Hok. unfold on_session.
  destruct (sessions e !! id) as [ty|] eqn:Hid; [|done].
  pose proof (Hf ty (lok_sessions _ _ Hok _ _ Hid) (lok_rows _ _ Hok _ _ Hid))
    as Hty.
  destruct (f ty) as [[[ty' delta] a]|]; [|done]. destruct Hty as (? & ? & Hc).
  split; simpl.
  - intros j tj [[-> <-]|[_ Hj]]%lookup_insert_Some; [done|].
    by apply (lok_sessions _ _ Hok j).
  - intros j tj [[-> <-]|[_ Hj]]%lookup_insert_Some; [done|].
    by apply (lok_rows _ _ Hok j).
  - rewrite (rescan_insert _ _ ty) by done. rewrite (lok_ledger _ _ Hok). lia.
Qed.

Lemma session_op_wf {A} id (f : Termpty -> Termpty * Z * A + error) e :
  accounts cost f -> Engine_wf cost e ->
  Engine_wf cost (scoped (on_session id f) e).1.
Proof.
  intros Hf [_ Hok]. by apply scoped_wf, on_session_ok, ledger_ok_locked.
Qed.

Lemma init_wf : Engine_wf cost engine_init.
Proof. split; [done|]. by split. Qed.

Lemma register_ok id ty e :
  sessions e !! id = None -> Buffer_wf ty -> backlog_rows ty = [] ->
  Ledger_ok cost e -> Ledger_ok cost (store_session id ty e).
Proof.
  intros Hid Hb Hr Hok. split; simpl.
  - intros j tj [[-> <-]|[_ Hj]]%lookup_insert_Some; [done|].
    by apply (lok_sessions _ _ Hok j).
  - intros j tj [[-> <-]|[_ Hj]]%lookup_insert_Some; [by rewrite Hr|].
    by apply (lok_rows _ _ Hok j).
  - rewrite rescan_insert_new, (lok_ledger _ _ Hok) by done.
    unfold Engine.buffer_cost. rewrite Hr. simpl. lia.
Qed.

Lemma unregister_ok id e :
  (forall ty, sessions e !! id = Some ty -> backlog_rows ty = []) ->
  Ledger_ok cost e ->
  Ledger_ok cost (mkEngine (delete id (sessions e)) (ledger e) (locked e)).
Proof.
  intros Hr Hok. split; simpl.
  - intros j tj [_ Hj]%lookup_delete_Some. by apply (lok_sessions _ _ Hok j).
  - intros j tj [_ Hj]%lookup_delete_Some. by apply (lok_rows _ _ Hok j).
  - rewrite (lok_ledger _ _ Hok).
    destruct (sessions e !! id) as [ty|] eqn:Hid; [|by rewrite delete_id].
    rewrite (rescan_delete _ id ty Hid). unfold Engine.buffer_cost.
    rewrite (Hr ty eq_refl). simpl. lia.
Qed.

(** Every call the callers may make keeps the invariant. *)
Lemma serve_wf r e :
  Engine_wf cost e -> allowed r e -> Engine_wf cost (serve cost r e).
Proof.
  intros He Hr.
  destruct r; cbn [serve allowed] in *;
    try (apply session_op_wf;
         eauto using push_body_accounts, get_body_accounts,
           extract_body_accounts, expand_body_accounts, clear_body_accounts,
           size_set_body_accounts, free_body_accounts, length_body_accounts).
  - destruct Hr, He as [_ Hok]. apply scoped_wf. simpl.
    destruct (sessions e !! id) eqn:Hid; [by apply ledger_ok_locked|].
    by apply register_ok; [..|apply ledger_ok_locked].
  - destruct He as [_ Hok]. apply scoped_wf.
    by apply (unregister_ok id (termpty_backlog_lock e)), ledger_ok_locked.
  - destruct He as [_ Hok]. by apply scoped_wf, ledger_ok_locked.
Qed.

(** ... and so does every sequence of them. *)
Lemma reachable_wf e : engine_reachable cost e -> Engine_wf cost e.
Proof.
  revert e. apply (rtc_ind_r (Engine_wf cost) engine_init); [apply init_wf|].
  intros e1 e2 _ [r e Ha] IH. by apply serve_wf.
Qed.


(** C1: ledger consistency: in every state the engine reaches from its
    initial one by calls its callers may make, successful or failed, the
    lock is free, every registered terminal is well formed with fully
    populated rows, and [termpty_backlog_memory_get] gives what a full
    rescan of the rows of all registered terminals counts. *)
Theorem termpty_backlog_memory_get_rescan e :
  engine_reachable cost e ->
  Engine_wf cost e /\
  (termpty_backlog_memory_get e).2 = rescan (sessions e).
Proof.
  intros He. apply reachable_wf in He as Hwf. split; [done|].
  destruct Hwf as [_ Hok]. apply (lok_ledger _ _ Hok).
Qed.


(** The lock is released on every exit: after any call, successful
    or not, on a registered terminal or not, the lock is free. *)
Theorem serve_releases_lock r e : locked (serve cost r e) = false.
Proof. by destruct r. Qed.

Lemma reachable_serve r e :
  engine_reachable cost e -> allowed r e ->
  engine_reachable cost (serve cost r e).
Proof. intros He Hr. eapply rtc_r; [done|by constructor]. Qed.

Lemma reachable_serve_all rs e :
  engine_reachable cost e -> allowed_all cost rs e ->
  engine_reachable cost (serve_all cost rs e).
Proof.
  revert e. induction rs as [|r rs IH]; intros e He Hrs; [done|].
  destruct Hrs as [Hr Hrs]. by apply IH; [apply reachable_serve|].
Qed.

(** C26: shrink eviction order: a change of capacity to [n] keeps the
    [n] most recent rows of the terminal in their order, and the ledger
    decreases by the cost of the rows beyond them. *)
Theorem termpty_backlog_size_set_evicts id n ty e :
  Engine_wf cost e -> sessions e !! id = Some ty -> Z.of_nat n <= 2 ^ 63 ->
  (termpty_backlog_size_set cost true id n e).2 = Done tt /\
  ledger (termpty_backlog_size_set cost true id n e).1 =
    ledger e - total (drop n (backlog_rows ty)) /\
  exists ty',
    sessions (termpty_backlog_size_set cost true id n e).1 !! id = Some ty' /\
    backsize ty' = Z.of_nat n /\
    backlog_rows ty' = take n (backlog_rows ty).
Proof.
  intros [_ Hok] Hid Hn. unfold termpty_backlog_size_set, scoped, on_session.
  simpl. rewrite Hid. simpl. split; [done|]. split; [lia|].
  eexists. rewrite lookup_insert_eq. split; [done|]. split; [done|].
  exact (resize_rows (B := Termpty) n ty (lok_sessions _ _ Hok _ _ Hid) Hn).
Qed.

(** Clear idempotence: after [termpty_clear_backlog] the terminal
    holds no row, and a second clear changes neither the terminals nor
    the ledger. *)
Theorem termpty_clear_backlog_idempotent id e :
  Engine_wf cost e ->
  (termpty_clear_backlog cost id (termpty_clear_backlog cost id e).1).1 =
    (termpty_clear_backlog cost id e).1 /\
  forall ty,
    sessions (termpty_clear_backlog cost id e).1 !! id = Some ty ->
    ring_length ty = 0.
Proof.
  intros [_ Hok]. unfold termpty_clear_backlog, scoped, on_session. simpl.
  destruct (sessions e !! id) as [ty|] eqn:Hid; simpl; [|by rewrite Hid].
  pose proof (clear_rows (B := Termpty) ty (lok_sessions _ _ Hok _ _ Hid))
    as Hr. simpl in Hr.
  rewrite lookup_insert_eq. simpl. split.
  - unfold termpty_backlog_unlock, account, store_session. simpl.
    rewrite insert_insert_eq, (freed_total (ring_clear ty)).
    unfold Engine.buffer_cost. rewrite Hr. simpl. f_equal. lia.
  - intros ? [= <-]. unfold ring_length. by rewrite Hr.
Qed.

(** A terminal that unregisters while it holds rows leaves their
    cost in the ledger: afterwards the ledger is what a rescan counts
    and the cost of the rows of that terminal. *)
Theorem termpty_save_unregister_drift id ty e :
  Engine_wf cost e -> sessions e !! id = Some ty ->
  ledger (termpty_save_unregister id e).1 =
  rescan (sessions (termpty_save_unregister id e).1) + buffer_cost ty.
Proof.
  intros [_ Hok] Hid. simpl. rewrite (lok_ledger _ _ Hok).
  rewrite (rescan_delete _ id ty Hid). lia.
Qed.

(** Registering is idempotent: for a terminal that is registered
    nothing changes. *)
Theorem termpty_save_register_idempotent id ty ty' e :
  locked e = false -> sessions e !! id = Some ty ->
  (termpty_save_register id ty' e).1 = e.
Proof.
  intros Hl Hid. unfold termpty_save_register, scoped. simpl. rewrite Hid.
  destruct e. simpl in *. by subst.
Qed.

End LedgerFacts.

(** ** The theorems at work *)

(** A closed decidable proposition is proved by evaluating it. *)
Ltac by_decide :=
  lazymatch goal with
  | |- ?P => refine (@bool_decide_unpack P _ _); vm_compute; exact I
  end.

Lemma demo_ring_wf : Buffer_wf demo_ring.
Proof. by_decide. Qed.

Lemma demo_reachable : engine_reachable demo_cost demo_engine.
Proof.
  apply reachable_serve_all; [apply rtc_refl|].
  split; [split; [apply demo_ring_wf|done]|done].
Qed.

Lemma pushes_count_witness :
  length (rows (pushes demo_rows demo_ring)) =
    Nat.min (capacity demo_ring) (length demo_rows + length (rows demo_ring)) /\
  capacity (pushes demo_rows demo_ring) = capacity demo_ring.
Proof. apply (pushes_count demo_rows demo_ring), demo_ring_wf. Defined.


Lemma pushes_most_recent_first_witness :
  rows (pushes demo_rows demo_ring) !! 1%nat = reverse demo_rows !! 1%nat.
Proof.
  apply (pushes_most_recent_first demo_rows demo_ring 1);
    [apply demo_ring_wf|simpl; lia..].
Defined.

Lemma clear_idempotent_witness :
  abstract (clear (clear (pushes demo_rows demo_ring))) =
    abstract (clear (pushes demo_rows demo_ring)) /\
  rows (clear (pushes demo_rows demo_ring)) = [].
Proof.
  apply (clear_idempotent (pushes demo_rows demo_ring)).
  exact (pushes_valid demo_rows demo_ring demo_ring_wf).
Defined.

Lemma resize_keeps_recent_witness :
  rows (pushes [demo_row 4] (resize_capacity 3 (pushes demo_rows demo_ring))) =
  take 3 (reverse [demo_row 4] ++ rows (pushes demo_rows demo_ring)).
Proof.
  apply (resize_keeps_recent 3 [demo_row 4] (pushes demo_rows demo_ring));
    [exact (pushes_valid demo_rows demo_ring demo_ring_wf)|simpl; lia].
Defined.

Lemma ring_refines_bounded_witness :
  Buffer_wf (run_ops [OPush (demo_row 1); OPush (demo_row 2); OResize 1;
                      OPush (demo_row 3); OReplace 0 (demo_row 4)] demo_ring) /\
  mkBounded
    (Z.to_nat (backsize (run_ops [OPush (demo_row 1); OPush (demo_row 2);
       OResize 1; OPush (demo_row 3); OReplace 0 (demo_row 4)] demo_ring)))
    (backlog_rows (run_ops [OPush (demo_row 1); OPush (demo_row 2);
       OResize 1; OPush (demo_row 3); OReplace 0 (demo_row 4)] demo_ring))
  = run_ops [OPush (demo_row 1); OPush (demo_row 2); OResize 1;
             OPush (demo_row 3); OReplace 0 (demo_row 4)]
      (mkBounded (Z.to_nat (backsize demo_ring)) (backlog_rows demo_ring)).
Proof.
  apply ring_refines_bounded; [apply demo_ring_wf|].
  repeat constructor. simpl. lia.
Defined.

Lemma backlog_get_most_recent_first_witness :
  backlog_get (pushes demo_rows (ring_of 3 [])) (Z.of_nat 2) = inl (demo_row 1).
Proof.
  apply backlog_get_most_recent_first; [by_decide|simpl; lia|done].
Defined.

Lemma backlog_get_out_of_range_witness :
  backlog_get (pushes demo_rows demo_ring) 2 = inr OutOfRange.
Proof.
  apply backlog_get_out_of_range;
    [exact (pushes_valid demo_rows demo_ring demo_ring_wf)|].
  intros [_ Hk]. by vm_compute in Hk.
Defined.

Lemma backlog_ref_after_push_witness :
  backlog_ref (ring_push (demo_row 2) (ring_push (demo_row 1) demo_ring)) (0 + 1)
    = inl 0 /\
  deref (ring_push (demo_row 2) (ring_push (demo_row 1) demo_ring)) 0 =
    deref (ring_push (demo_row 1) demo_ring) 0.
Proof. apply backlog_ref_after_push; [by_decide|done|simpl; lia]. Defined.

Lemma termpty_save_extract_independent_witness :
  exists i,
    backlog_ref (pushes demo_rows demo_ring) (backsize (pushes demo_rows demo_ring) - 1)
      = inl i /\
    deref (pushes demo_rows demo_ring) i = Some (demo_row 2) /\
    deref (ring_push (demo_row 4) (pushes demo_rows demo_ring)) i
      = Some (demo_row 4) /\
    termpty_save_extract (demo_row 2) = demo_row 2.
Proof. apply termpty_save_extract_independent; [by_decide|done]. Defined.


Lemma termpty_save_expand_mismatch_witness :
  termpty_save_expand (demo_row 1) [mkTermcell 2 0] 2 = inr WidthMismatch.
Proof. by apply termpty_save_expand_mismatch. Defined.

Lemma termpty_backlog_memory_get_rescan_witness :
  Engine_wf demo_cost demo_engine /\
  (termpty_backlog_memory_get demo_engine).2 =
    rescan demo_cost (sessions demo_engine).
Proof. apply termpty_backlog_memory_get_rescan, demo_reachable. Defined.


Lemma termpty_backlog_size_set_evicts_witness :
  (termpty_backlog_size_set demo_cost true 0 1 demo_engine).2 = Done tt /\
  ledger (termpty_backlog_size_set demo_cost true 0 1 demo_engine).1 =
    ledger demo_engine
    - total demo_cost (drop 1 (backlog_rows (pushes demo_rows demo_ring))) /\
  exists ty',
    sessions (termpty_backlog_size_set demo_cost true 0 1 demo_engine).1 !! 0%nat
      = Some ty' /\
    backsize ty' = Z.of_nat 1 /\
    backlog_rows ty' = take 1 (backlog_rows (pushes demo_rows demo_ring)).
Proof.
  apply termpty_backlog_size_set_evicts;
    [apply reachable_wf, demo_reachable|done|simpl; lia].
Defined.

Lemma termpty_clear_backlog_idempotent_witness :
  (termpty_clear_backlog demo_cost 0
     (termpty_clear_backlog demo_cost 0 demo_engine).1).1 =
    (termpty_clear_backlog demo_cost 0 demo_engine).1 /\
  forall ty,
    sessions (termpty_clear_backlog demo_cost 0 demo_engine).1 !! 0%nat = Some ty ->
    ring_length ty = 0.
Proof.
  apply termpty_clear_backlog_idempotent, reachable_wf, demo_reachable.
Defined.

Lemma termpty_save_unregister_drift_witness :
  ledger (termpty_save_unregister 0 demo_engine).1 =
  rescan demo_cost (sessions (termpty_save_unregister 0 demo_engine).1)
  + buffer_cost demo_cost (pushes demo_rows demo_ring).
Proof.
  apply (termpty_save_unregister_drift demo_cost 0 (pushes demo_rows demo_ring));
    [apply reachable_wf, demo_reachable|done].
Defined.

Lemma termpty_save_register_idempotent_witness :
  (termpty_save_register 0 demo_ring demo_engine).1 = demo_engine.
Proof.
  by apply (termpty_save_register_idempotent 0 (pushes demo_rows demo_ring)).
Defined.
