(* ===== verification/Threads.v ===== *)
(** * Threads: the ledger under the lock

    The ledger of the backlog engine is changed by a read and a write:
    the total is loaded, the cost of a row is added, and the sum is
    stored.  The threads of the process run such changes between
    [termpty_backlog_lock] and [termpty_backlog_unlock].  This file
    models the threads as lists of instructions over the shared total
    and the lock, one instruction of one thread at a time in any order,
    and shows what the lock gives: no change is lost, two threads are
    never both between the lock and the unlock, and some thread can
    always go on.  Without the lock a change is lost. *)

From Stdlib Require Import ZArith Lia List.
From stdpp Require Import base tactics option list.
From S2P Require Import Prelude.

(** ** Threads *)

(** The instructions of a thread: the lock and the unlock, the read of
    the ledger into a register of the thread, and the write of the
    register plus a change. *)
Inductive instr := ILock | IUnlock | ILoad | IStore (delta : Z).

#[global] Instance instr_eq_dec : EqDecision instr.
Proof. solve_decision. Defined.

(** A thread: what it has still to run, and its register. *)
Record thread := mkThread { t_code : list instr; t_reg : Z }.

(** The process: the ledger, the thread that holds the lock, and the
    threads. *)
Record shared := mkShared {
  sh_ledger : Z;
  sh_holder : option nat;
  sh_threads : list thread
}.

(** A change of the ledger by [delta], and the same under the lock. *)
Definition account_code (delta : Z) : list instr := [ILoad; IStore delta].

Definition locked_code (delta : Z) : list instr :=
  ILock :: account_code delta ++ [IUnlock].

(** A thread that makes the changes [ds], each under the lock. *)
Fixpoint program (ds : list Z) : list instr :=
  match ds with
  | [] => []
  | d :: ds => locked_code d ++ program ds
  end.

(** The process before any thread ran. *)
Definition start (l : Z) (codes : list (list instr)) : shared :=
  mkShared l None ((fun c => mkThread c 0) <$> codes).

(** Thread [t] runs [c] next, with [r] in its register. *)
Definition continue (t : nat) (c : list instr) (r : Z) (s : shared)
    : list thread :=
  <[t := mkThread c r]> (sh_threads s).

(** One instruction of thread [t]; a thread that has finished, or
    waits for the lock, makes no step. *)
Definition thread_step (t : nat) (s : shared) : option shared :=
  th ← sh_threads s !! t;
  match t_code th with
  | [] => None
  | ILock :: c =>
    match sh_holder s with
    | None => Some (mkShared (sh_ledger s) (Some t) (continue t c (t_reg th) s))
    | Some _ => None
    end
  | IUnlock :: c =>
    if decide (sh_holder s = Some t)
    then Some (mkShared (sh_ledger s) None (continue t c (t_reg th) s))
    else None
  | ILoad :: c =>
    Some (mkShared (sh_ledger s) (sh_holder s) (continue t c (sh_ledger s) s))
  | IStore d :: c =>
    Some (mkShared (t_reg th + d) (sh_holder s) (continue t c (t_reg th) s))
  end.

(** A schedule: the threads that make the steps, in their order. *)
Fixpoint schedule (sched : list nat) (s : shared) : option shared :=
  match sched with
  | [] => Some s
  | t :: sched => s' ← thread_step t s; schedule sched s'
  end.

(** The changes a list of instructions has still to make, and those of
    all threads. *)
Definition pending (c : list instr) : Z :=
  foldr (fun i acc => match i with IStore d => d + acc | _ => acc end) 0 c.

Definition owed (ths : list thread) : Z :=
  foldr (fun th acc => pending (t_code th) + acc) 0 ths.

Definition sum (ds : list Z) : Z := foldr Z.add 0 ds.

Definition finished (s : shared) : bool :=
  forallb (fun th => bool_decide (t_code th = [])) (sh_threads s).

(** A thread is between the lock and the unlock. *)
Definition inside (th : thread) : bool :=
  match t_code th with
  | ILoad :: _ | IStore _ :: _ | IUnlock :: _ => true
  | _ => false
  end.

(** Where a thread of locked changes is: outside, with the lock and
    the read to come, with the ledger in its register, or with the
    unlock to come. *)
Inductive thread_ok (s : shared) (t : nat) (th : thread) : Prop :=
  | ok_outside ds :
      sh_holder s <> Some t -> t_code th = program ds -> thread_ok s t th
  | ok_locked d ds :
      sh_holder s = Some t ->
      t_code th = ILoad :: IStore d :: IUnlock :: program ds ->
      thread_ok s t th
  | ok_loaded d ds :
      sh_holder s = Some t -> t_reg th = sh_ledger s ->
      t_code th = IStore d :: IUnlock :: program ds ->
      thread_ok s t th
  | ok_stored ds :
      sh_holder s = Some t -> t_code th = IUnlock :: program ds ->
      thread_ok s t th.

(** The invariant of the process: every thread is at such a place. *)
Definition shared_ok (s : shared) : Prop :=
  forall t th, sh_threads s !! t = Some th -> thread_ok s t th.

(** The thread that holds the lock is one of the threads, and is
    between the lock and the unlock. *)
Definition holder_ok (s : shared) : Prop :=
  forall t, sh_holder s = Some t ->
    exists th, sh_threads s !! t = Some th /\ inside th = true.

(** The invariant of the process: its threads are at their places, and
    the ledger with the changes still owed is [l]. *)
Definition invariant (l : Z) (s : shared) : Prop :=
  shared_ok s /\ holder_ok s /\ sh_ledger s + owed (sh_threads s) = l.

(** Two threads that change the ledger by 5 and by 7, with the lock
    and without. *)
Definition demo_locked : shared := start 0 [program [5]; program [7]].

Definition demo_unlocked : shared := start 0 [account_code 5; account_code 7].

(** The process after a schedule; as it was where the schedule asks a
    thread for a step it cannot make. *)
Definition after (sched : list nat) (s : shared) : shared :=
  default s (schedule sched s).

(** ** The changes owed *)

Lemma owed_insert ths t th th' :
  ths !! t = Some th ->
  owed (<[t := th']> ths) = owed ths - pending (t_code th) + pending (t_code th').
Proof.
  revert t. induction ths as [|x ths IH]; intros [|t] Ht; simplify_eq/=; [lia|].
  rewrite (IH t) by done. lia.
Qed.

Lemma owed_finished s : finished s = true -> owed (sh_threads s) = 0.
Proof.
  unfold finished. induction (sh_threads s) as [|th ths IH]; [done|]. simpl.
  intros [Hth Hths]%andb_prop. apply bool_decide_eq_true in Hth.
  rewrite Hth, IH by done. done.
Qed.

Lemma pending_program ds : pending (program ds) = sum ds.
Proof. induction ds as [|d ds IH]; simpl; [done|]. rewrite <- IH. done. Qed.

Lemma owed_start l dss :
  owed (sh_threads (start l (program <$> dss))) = sum (sum <$> dss).
Proof.
  induction dss as [|ds dss IH]; [done|].
  change (pending (program ds)
          + owed (sh_threads (start l (program <$> dss)))
          = sum ds + sum (sum <$> dss)).
  by rewrite pending_program, IH.
Qed.

(** ** The invariant *)

Lemma start_ok l dss : shared_ok (start l (program <$> dss)).
Proof.
  intros t th Ht. simpl in Ht. rewrite !list_lookup_fmap in Ht.
  destruct (dss !! t) as [ds|]; simplify_eq/=. by apply (ok_outside _ _ _ ds).
Qed.

(** A thread that is at one of the four places and has the lock, or
    has not. *)
Lemma thread_ok_holder s t th :
  thread_ok s t th -> inside th = true -> sh_holder s = Some t.
Proof.
  unfold inside. intros [ds Hh Hc|d ds Hh Hc|d ds Hh Hr Hc|ds Hh Hc]; try done.
  rewrite Hc. by destruct ds.
Qed.

(** A thread another one steps beside stays where it is. *)
Lemma thread_ok_other s s' t t' th :
  t <> t' -> thread_ok s t' th ->
  (sh_holder s' = sh_holder s \/
   (sh_holder s = None /\ sh_holder s' = Some t) \/
   (sh_holder s = Some t /\ sh_holder s' = None)) ->
  (sh_ledger s' = sh_ledger s \/ sh_holder s = Some t) ->
  thread_ok s' t' th.
Proof.
  intros Htt Hok Hhold Hled.
  assert (sh_holder s = Some t' -> sh_holder s' = Some t') as Hkeep.
  { intros Hh. destruct Hhold as [Hh'|[[? Hh']|[? Hh']]]; congruence. }
  destruct Hok as [ds Hh Hc|d ds Hh Hc|d ds Hh Hr Hc|ds Hh Hc].
  - apply (ok_outside _ _ _ ds); [|done].
    destruct Hhold as [Hh'|[[? Hh']|[? Hh']]]; congruence.
  - apply (ok_locked _ _ _ d ds); auto.
  - apply (ok_loaded _ _ _ d ds); auto. destruct Hled; congruence.
  - apply (ok_stored _ _ _ ds); auto.
Qed.

(** The lookup of a thread after a step of thread [t]. *)
Lemma continue_lookup s t c r t' th' :
  continue t c r s !! t' = Some th' ->
  (t' = t /\ th' = mkThread c r) \/ (t' <> t /\ sh_threads s !! t' = Some th').
Proof.
  unfold continue. intros Ht'. destruct (decide (t' = t)) as [->|Hne].
  - left. by apply list_lookup_insert_Some in Ht' as [(_ & <- & _)|[? _]].
  - right. by rewrite list_lookup_insert_ne in Ht'.
Qed.

(** What the steps of a thread look like from where it is. *)
Lemma program_cases ds :
  program ds = [] \/
  exists d ds', program ds = ILock :: ILoad :: IStore d :: IUnlock :: program ds'.
Proof. destruct ds as [|d ds]; [by left|right]. by exists d, ds. Qed.

(** A step keeps the invariant, and the ledger and the changes owed
    together are what they were. *)
Lemma thread_step_ok t s s' :
  shared_ok s -> thread_step t s = Some s' ->
  shared_ok s' /\
  sh_ledger s' + owed (sh_threads s') = sh_ledger s + owed (sh_threads s).
Proof.
  intros Hok Hstep. unfold thread_step in Hstep.
  destruct (sh_threads s !! t) as [th|] eqn:Ht; [|done]. simpl in Hstep.
  pose proof (Hok t th Ht) as Hth.
  assert (forall c r hold led,
    (hold = sh_holder s \/ (sh_holder s = None /\ hold = Some t)
     \/ (sh_holder s = Some t /\ hold = None)) ->
    (led = sh_ledger s \/ sh_holder s = Some t) ->
    thread_ok (mkShared led hold (continue t c r s)) t (mkThread c r) ->
    shared_ok (mkShared led hold (continue t c r s))) as Hrest.
  { intros c r hold led Hhold Hled Hme t' th' [[-> ->]|[Hne Ht']]%continue_lookup;
      [done|]. eapply (thread_ok_other s); eauto. }
  destruct Hth as [ds Hh Hc|d ds Hh Hc|d ds Hh Hr Hc|ds Hh Hc];
    rewrite Hc in Hstep.
  - destruct (program_cases ds) as [Hds|(d & ds' & Hds)];
      rewrite Hds in Hstep; [done|].
    destruct (sh_holder s) eqn:Hhold; [done|]. injection Hstep as <-.
    split; [|simpl; unfold continue; rewrite (owed_insert _ _ th) by done;
             rewrite Hc, Hds; simpl; lia].
    apply Hrest; auto. by apply (ok_locked _ _ _ d ds').
  - injection Hstep as <-.
    split; [|simpl; unfold continue; rewrite (owed_insert _ _ th) by done;
             rewrite Hc; simpl; lia].
    apply Hrest; auto. by apply (ok_loaded _ _ _ d ds).
  - injection Hstep as <-.
    split; [|simpl; unfold continue; rewrite (owed_insert _ _ th) by done;
             rewrite Hc; simpl; lia].
    apply Hrest; auto. by apply (ok_stored _ _ _ ds).
  - rewrite decide_True in Hstep by done. injection Hstep as <-.
    split; [|simpl; unfold continue; rewrite (owed_insert _ _ th) by done;
             rewrite Hc; simpl; lia].
    apply Hrest; auto. by apply (ok_outside _ _ _ ds).
Qed.

(** A step keeps the thread that holds the lock between the lock and
    the unlock. *)
Lemma thread_step_holder t s s' :
  shared_ok s -> thread_step t s = Some s' -> holder_ok s'.
Proof.
  intros Hok Hstep. unfold thread_step in Hstep.
  destruct (sh_threads s !! t) as [th|] eqn:Ht; [|done]. simpl in Hstep.
  pose proof (lookup_lt_Some _ _ _ Ht) as Hlt.
  assert (forall c r led, inside (mkThread c r) = true ->
    holder_ok (mkShared led (Some t) (continue t c r s))) as Hme.
  { intros c r led Hin t' [= <-]. eexists. split; [|done].
    by apply list_lookup_insert_eq. }
  destruct (Hok t th Ht) as [ds Hh Hc|d ds Hh Hc|d ds Hh Hr Hc|ds Hh Hc];
    rewrite Hc in Hstep.
  - destruct (program_cases ds) as [Hds|(d & ds' & Hds)];
      rewrite Hds in Hstep; [done|].
    destruct (sh_holder s); [done|]. injection Hstep as <-. by apply Hme.
  - injection Hstep as <-. rewrite Hh. by apply Hme.
  - injection Hstep as <-. rewrite Hh. by apply Hme.
  - rewrite decide_True in Hstep by done. injection Hstep as <-. by intros t'.
Qed.

Lemma start_invariant l dss :
  invariant (l + sum (sum <$> dss)) (start l (program <$> dss)).
Proof.
  split; [apply start_ok|]. split; [by intros t|].
  by rewrite owed_start.
Qed.

Lemma schedule_invariant sched l s s' :
  invariant l s -> schedule sched s = Some s' -> invariant l s'.
Proof.
  revert s. induction sched as [|t sched IH]; intros s Hs Hrun; simpl in Hrun.
  - by injection Hrun as <-.
  - destruct (thread_step t s) as [s1|] eqn:Hstep; [|done]. simpl in Hrun.
    destruct Hs as (Hok & _ & Heq).
    destruct (thread_step_ok _ _ _ Hok Hstep) as [Hok1 Heq1].
    apply (IH s1); [|done]. split; [done|].
    split; [by apply (thread_step_holder t s)|lia].
Qed.

Lemma forallb_false {A} (f : A -> bool) (l : list A) :
  forallb f l = false -> exists i x, l !! i = Some x /\ f x = false.
Proof.
  induction l as [|a l IH]; simpl; [done|]. destruct (f a) eqn:Ha.
  - intros (i & x & ? & ?)%IH. by exists (S i), x.
  - intros _. by exists 0%nat, a.
Qed.

(** A thread that has instructions left and is not kept waiting makes
    a step. *)
Lemma thread_step_inside s t th :
  sh_threads s !! t = Some th -> sh_holder s = Some t -> inside th = true ->
  is_Some (thread_step t s).
Proof.
  intros Ht Hh Hin. unfold thread_step, inside in *. rewrite Ht. simpl.
  destruct (t_code th) as [|[| | |d] c]; try done.
  by rewrite decide_True.
Qed.

Lemma thread_step_free s t th :
  shared_ok s -> sh_threads s !! t = Some th -> sh_holder s = None ->
  t_code th <> [] -> is_Some (thread_step t s).
Proof.
  intros Hok Ht Hh Hc. unfold thread_step. rewrite Ht. simpl.
  destruct (Hok t th Ht) as [ds _ Hds|d ds Hh'|d ds Hh'|ds Hh']; [|congruence..].
  rewrite Hds in *. destruct (program_cases ds) as [Hnil|(d & ds' & Hcons)];
    [done|]. by rewrite Hcons, Hh.
Qed.

(** C6: no change is lost under the lock: when threads that make their
    changes of the ledger between the lock and the unlock have all
    finished, in whatever order their instructions ran, the ledger is
    the one of the start and all their changes. *)
Theorem schedule_no_lost_update sched l dss s' :
  schedule sched (start l (program <$> dss)) = Some s' ->
  finished s' = true ->
  sh_ledger s' = l + sum (sum <$> dss).
Proof.
  intros Hrun Hfin.
  destruct (schedule_invariant _ _ _ _ (start_invariant l dss) Hrun)
    as (_ & _ & Heq).
  rewrite owed_finished in Heq by done. lia.
Qed.

(** C28: mutual exclusion: in every state the threads reach, two
    threads that are both between the lock and the unlock are the same
    thread. *)
Theorem schedule_mutual_exclusion sched l dss s' t1 t2 th1 th2 :
  schedule sched (start l (program <$> dss)) = Some s' ->
  sh_threads s' !! t1 = Some th1 -> sh_threads s' !! t2 = Some th2 ->
  inside th1 = true -> inside th2 = true ->
  t1 = t2.
Proof.
  intros Hrun H1 H2 Hi1 Hi2.
  destruct (schedule_invariant _ _ _ _ (start_invariant l dss) Hrun)
    as (Hok & _ & _).
  pose proof (thread_ok_holder _ _ _ (Hok _ _ H1) Hi1).
  pose proof (thread_ok_holder _ _ _ (Hok _ _ H2) Hi2). congruence.
Qed.

(** C29: no deadlock: in every state the threads reach, as long as a
    thread has instructions left some thread can make a step. *)
Theorem schedule_progress sched l dss s' :
  schedule sched (start l (program <$> dss)) = Some s' ->
  finished s' = false ->
  exists t, is_Some (thread_step t s').
Proof.
  intros Hrun Hfin.
  destruct (schedule_invariant _ _ _ _ (start_invariant l dss) Hrun)
    as (Hok & Hhold & _).
  destruct (sh_holder s') as [t|] eqn:Hh.
  - destruct (Hhold t Hh) as (th & Ht & Hin). exists t.
    by apply (thread_step_inside _ _ th).
  - apply forallb_false in Hfin as (t & th & Ht & Hth).
    exists t. apply (thread_step_free _ _ th); try done.
    intros Hnil. by rewrite Hnil in Hth.
Qed.

(** Without the lock a change is lost: two threads that change the
    ledger by 5 and by 7 and both read it before either writes leave it
    changed by 7 only. *)
Theorem unlocked_lost_update :
  sh_ledger <$> schedule [0; 1; 0; 1]%nat demo_unlocked = Some 7 /\
  finished <$> schedule [0; 1; 0; 1]%nat demo_unlocked = Some true.
Proof. by vm_compute. Qed.

(** ** The theorems at work *)

Lemma schedule_no_lost_update_witness :
  sh_ledger (after [0; 0; 0; 0; 1; 1; 1; 1]%nat demo_locked) =
  0 + sum (sum <$> [[5]; [7]]).
Proof.
  by apply (schedule_no_lost_update [0; 0; 0; 0; 1; 1; 1; 1]%nat 0 [[5]; [7]]).
Defined.

Lemma schedule_mutual_exclusion_witness : 0%nat = 0%nat.
Proof.
  by apply (schedule_mutual_exclusion [0; 0]%nat 0 [[5]; [7]]
              (after [0; 0]%nat demo_locked) 0 0
              (mkThread [IStore 5; IUnlock] 0) (mkThread [IStore 5; IUnlock] 0)).
Defined.

Lemma schedule_progress_witness :
  exists t, is_Some (thread_step t (after [0; 0]%nat demo_locked)).
Proof. by apply (schedule_progress [0; 0]%nat 0 [[5]; [7]]). Defined.
