(* ===== verification/Config.v ===== *)
(** * Config: the configuration record

    The fields of [Config] that [main.c] reads or writes, with one setter
    per field the sources assign.  A boolean of the configuration is an
    [Eina_Bool], kept as the byte the sources store in it.  The strings
    are shared strings that may be [NULL], hence options. *)

From Stdlib Require Import ZArith String.
From stdpp Require Import base tactics strings.
From S2P Require Import Prelude.

Module Cfg.

Record Config := mk {
  theme : option string;
  temporary : Z;
  color_scheme_name : option string;
  background : option string;
  font_size : Z;
  font_name : option string;
  font_bitmap : Z;
  font_set : Z;
  login_shell : Z;
  xterm_256color : Z;
  mute : Z;
  disable_cursor_blink : Z;
  disable_visual_bell : Z;
  active_links : Z;
  active_links_email : Z;
  active_links_file : Z;
  active_links_url : Z;
  active_links_escape : Z;
  custom_geometry : Z;
  cg_width : Z;
  cg_height : Z;
  multi_instance : Z
}.

#[global] Instance Config_eq_dec : EqDecision Config.
Proof. solve_decision. Defined.

(** A configuration for the examples. *)
Definition demo_config : Config :=
  mk None 0 None None 10 (Some "nexus.pcf") 1 0 0 0 0 0 0 1 1 1 1 1 0 80 24 1.

(** ** Assignments to one field *)

Definition set_theme (v : option string) (c : Config) : Config :=
  mk v (temporary c) (color_scheme_name c) (background c) (font_size c)
    (font_name c) (font_bitmap c) (font_set c) (login_shell c)
    (xterm_256color c) (mute c) (disable_cursor_blink c)
    (disable_visual_bell c) (active_links c) (active_links_email c)
    (active_links_file c) (active_links_url c) (active_links_escape c)
    (custom_geometry c) (cg_width c) (cg_height c) (multi_instance c).

Definition set_temporary (v : Z) (c : Config) : Config :=
  mk (theme c) v (color_scheme_name c) (background c) (font_size c)
    (font_name c) (font_bitmap c) (font_set c) (login_shell c)
    (xterm_256color c) (mute c) (disable_cursor_blink c)
    (disable_visual_bell c) (active_links c) (active_links_email c)
    (active_links_file c) (active_links_url c) (active_links_escape c)
    (custom_geometry c) (cg_width c) (cg_height c) (multi_instance c).

Definition set_color_scheme_name (v : option string) (c : Config) : Config :=
  mk (theme c) (temporary c) v (background c) (font_size c) (font_name c)
    (font_bitmap c) (font_set c) (login_shell c) (xterm_256color c) (mute c)
    (disable_cursor_blink c) (disable_visual_bell c) (active_links c)
    (active_links_email c) (active_links_file c) (active_links_url c)
    (active_links_escape c) (custom_geometry c) (cg_width c) (cg_height c)
    (multi_instance c).

Definition set_background (v : option string) (c : Config) : Config :=
  mk (theme c) (temporary c) (color_scheme_name c) v (font_size c)
    (font_name c) (font_bitmap c) (font_set c) (login_shell c)
    (xterm_256color c) (mute c) (disable_cursor_blink c)
    (disable_visual_bell c) (active_links c) (active_links_email c)
    (active_links_file c) (active_links_url c) (active_links_escape c)
    (custom_geometry c) (cg_width c) (cg_height c) (multi_instance c).

Definition set_font_size (v : Z) (c : Config) : Config :=
  mk (theme c) (temporary c) (color_scheme_name c) (background c) v
    (font_name c) (font_bitmap c) (font_set c) (login_shell c)
    (xterm_256color c) (mute c) (disable_cursor_blink c)
    (disable_visual_bell c) (active_links c) (active_links_email c)
    (active_links_file c) (active_links_url c) (active_links_escape c)
    (custom_geometry c) (cg_width c) (cg_height c) (multi_instance c).

Definition set_font_name (v : option string) (c : Config) : Config :=
  mk (theme c) (temporary c) (color_scheme_name c) (background c) (font_size
    c) v (font_bitmap c) (font_set c) (login_shell c) (xterm_256color c)
    (mute c) (disable_cursor_blink c) (disable_visual_bell c) (active_links
    c) (active_links_email c) (active_links_file c) (active_links_url c)
    (active_links_escape c) (custom_geometry c) (cg_width c) (cg_height c)
    (multi_instance c).

Definition set_font_bitmap (v : Z) (c : Config) : Config :=
  mk (theme c) (temporary c) (color_scheme_name c) (background c) (font_size
    c) (font_name c) v (font_set c) (login_shell c) (xterm_256color c) (mute
    c) (disable_cursor_blink c) (disable_visual_bell c) (active_links c)
    (active_links_email c) (active_links_file c) (active_links_url c)
    (active_links_escape c) (custom_geometry c) (cg_width c) (cg_height c)
    (multi_instance c).

Definition set_font_set (v : Z) (c : Config) : Config :=
  mk (theme c) (temporary c) (color_scheme_name c) (background c) (font_size
    c) (font_name c) (font_bitmap c) v (login_shell c) (xterm_256color c)
    (mute c) (disable_cursor_blink c) (disable_visual_bell c) (active_links
    c) (active_links_email c) (active_links_file c) (active_links_url c)
    (active_links_escape c) (custom_geometry c) (cg_width c) (cg_height c)
    (multi_instance c).

Definition set_login_shell (v : Z) (c : Config) : Config :=
  mk (theme c) (temporary c) (color_scheme_name c) (background c) (font_size
    c) (font_name c) (font_bitmap c) (font_set c) v (xterm_256color c) (mute
    c) (disable_cursor_blink c) (disable_visual_bell c) (active_links c)
    (active_links_email c) (active_links_file c) (active_links_url c)
    (active_links_escape c) (custom_geometry c) (cg_width c) (cg_height c)
    (multi_instance c).

Definition set_xterm_256color (v : Z) (c : Config) : Config :=
  mk (theme c) (temporary c) (color_scheme_name c) (background c) (font_size
    c) (font_name c) (font_bitmap c) (font_set c) (login_shell c) v (mute c)
    (disable_cursor_blink c) (disable_visual_bell c) (active_links c)
    (active_links_email c) (active_links_file c) (active_links_url c)
    (active_links_escape c) (custom_geometry c) (cg_width c) (cg_height c)
    (multi_instance c).

Definition set_mute (v : Z) (c : Config) : Config :=
  mk (theme c) (temporary c) (color_scheme_name c) (background c) (font_size
    c) (font_name c) (font_bitmap c) (font_set c) (login_shell c)
    (xterm_256color c) v (disable_cursor_blink c) (disable_visual_bell c)
    (active_links c) (active_links_email c) (active_links_file c)
    (active_links_url c) (active_links_escape c) (custom_geometry c)
    (cg_width c) (cg_height c) (multi_instance c).

Definition set_disable_cursor_blink (v : Z) (c : Config) : Config :=
  mk (theme c) (temporary c) (color_scheme_name c) (background c) (font_size
    c) (font_name c) (font_bitmap c) (font_set c) (login_shell c)
    (xterm_256color c) (mute c) v (disable_visual_bell c) (active_links c)
    (active_links_email c) (active_links_file c) (active_links_url c)
    (active_links_escape c) (custom_geometry c) (cg_width c) (cg_height c)
    (multi_instance c).

Definition set_disable_visual_bell (v : Z) (c : Config) : Config :=
  mk (theme c) (temporary c) (color_scheme_name c) (background c) (font_size
    c) (font_name c) (font_bitmap c) (font_set c) (login_shell c)
    (xterm_256color c) (mute c) (disable_cursor_blink c) v (active_links c)
    (active_links_email c) (active_links_file c) (active_links_url c)
    (active_links_escape c) (custom_geometry c) (cg_width c) (cg_height c)
    (multi_instance c).

Definition set_active_links (v : Z) (c : Config) : Config :=
  mk (theme c) (temporary c) (color_scheme_name c) (background c) (font_size
    c) (font_name c) (font_bitmap c) (font_set c) (login_shell c)
    (xterm_256color c) (mute c) (disable_cursor_blink c)
    (disable_visual_bell c) v (active_links_email c) (active_links_file c)
    (active_links_url c) (active_links_escape c) (custom_geometry c)
    (cg_width c) (cg_height c) (multi_instance c).

Definition set_active_links_email (v : Z) (c : Config) : Config :=
  mk (theme c) (temporary c) (color_scheme_name c) (background c) (font_size
    c) (font_name c) (font_bitmap c) (font_set c) (login_shell c)
    (xterm_256color c) (mute c) (disable_cursor_blink c)
    (disable_visual_bell c) (active_links c) v (active_links_file c)
    (active_links_url c) (active_links_escape c) (custom_geometry c)
    (cg_width c) (cg_height c) (multi_instance c).

Definition set_active_links_file (v : Z) (c : Config) : Config :=
  mk (theme c) (temporary c) (color_scheme_name c) (background c) (font_size
    c) (font_name c) (font_bitmap c) (font_set c) (login_shell c)
    (xterm_256color c) (mute c) (disable_cursor_blink c)
    (disable_visual_bell c) (active_links c) (active_links_email c) v
    (active_links_url c) (active_links_escape c) (custom_geometry c)
    (cg_width c) (cg_height c) (multi_instance c).

Definition set_active_links_url (v : Z) (c : Config) : Config :=
  mk (theme c) (temporary c) (color_scheme_name c) (background c) (font_size
    c) (font_name c) (font_bitmap c) (font_set c) (login_shell c)
    (xterm_256color c) (mute c) (disable_cursor_blink c)
    (disable_visual_bell c) (active_links c) (active_links_email c)
    (active_links_file c) v (active_links_escape c) (custom_geometry c)
    (cg_width c) (cg_height c) (multi_instance c).

Definition set_active_links_escape (v : Z) (c : Config) : Config :=
  mk (theme c) (temporary c) (color_scheme_name c) (background c) (font_size
    c) (font_name c) (font_bitmap c) (font_set c) (login_shell c)
    (xterm_256color c) (mute c) (disable_cursor_blink c)
    (disable_visual_bell c) (active_links c) (active_links_email c)
    (active_links_file c) (active_links_url c) v (custom_geometry c)
    (cg_width c) (cg_height c) (multi_instance c).

End Cfg.
