(* ===== verification/Instance.v ===== *)
(** * Instance: the description of a window and how it configures it

    [Ipc_Instance] holds what the command line (or a request from another
    process) asks of one terminal window; [_set_instance_theme] and
    [_configure_instance] of [main.c] fold it into the window's [Config].
    A string of the instance is a [char *] that may be [NULL]; a boolean is
    an [Eina_Bool] byte, five of them tri-state with
    [IPC_INSTANCE_OPT_UNSET] for "not given".  [inst->config] points to
    the configuration being built; the model keeps that configuration in
    the instance, so the local [config] of [_configure_instance] and
    [inst->config] are the one object they are in the sources.

    The theme directory, the colour-scheme computation and the listing of
    the font directory are outside the sources: they are the parameters
    [theme_path_get], [config_compute_color_scheme] and [font_files]. *)

From Stdlib Require Import ZArith Lia List Ascii String.
From stdpp Require Import base tactics option list strings.
From S2P Require Import Prelude CString Config.

(** ** Data *)

Definition IPC_INSTANCE_OPT_UNSET : Z := 255.
Definition PATH_MAX : nat := 4096.

Record Ipc_Instance := mkInstance {
  cmd : option string;
  cd : option string;
  background : option string;
  name : option string;
  theme : option string;
  colorscheme : option string;
  role : option string;
  title : option string;
  icon_name : option string;
  font : option string;
  startup_id : option string;
  startup_split : option string;
  x : Z;
  y : Z;
  w : Z;
  h : Z;
  pos : Z;
  login_shell : Z;
  fullscreen : Z;
  iconic : Z;
  borderless : Z;
  override : Z;
  maximized : Z;
  hold : Z;
  nowm : Z;
  xterm_256color : Z;
  active_links : Z;
  video_mute : Z;
  cursor_blink : Z;
  visual_bell : Z;
  cmds : list string;
  config : Cfg.Config
}.

#[global] Instance Ipc_Instance_eq_dec : EqDecision Ipc_Instance.
Proof. solve_decision. Defined.

(** ** Assignments to one field of the instance *)

Definition set_cmd (v : option string) (i : Ipc_Instance) : Ipc_Instance :=
  mkInstance v (cd i) (background i) (name i) (theme i) (colorscheme i)
    (role i) (title i) (icon_name i) (font i) (startup_id i)
    (startup_split i) (x i) (y i) (w i) (h i) (pos i) (login_shell i)
    (fullscreen i) (iconic i) (borderless i) (override i) (maximized i)
    (hold i) (nowm i) (xterm_256color i) (active_links i) (video_mute i)
    (cursor_blink i) (visual_bell i) (cmds i) (config i).

Definition set_cd (v : option string) (i : Ipc_Instance) : Ipc_Instance :=
  mkInstance (cmd i) v (background i) (name i) (theme i) (colorscheme i)
    (role i) (title i) (icon_name i) (font i) (startup_id i)
    (startup_split i) (x i) (y i) (w i) (h i) (pos i) (login_shell i)
    (fullscreen i) (iconic i) (borderless i) (override i) (maximized i)
    (hold i) (nowm i) (xterm_256color i) (active_links i) (video_mute i)
    (cursor_blink i) (visual_bell i) (cmds i) (config i).

Definition set_x (v : Z) (i : Ipc_Instance) : Ipc_Instance :=
  mkInstance (cmd i) (cd i) (background i) (name i) (theme i)
    (colorscheme i) (role i) (title i) (icon_name i) (font i) (startup_id i)
    (startup_split i) v (y i) (w i) (h i) (pos i) (login_shell i)
    (fullscreen i) (iconic i) (borderless i) (override i) (maximized i)
    (hold i) (nowm i) (xterm_256color i) (active_links i) (video_mute i)
    (cursor_blink i) (visual_bell i) (cmds i) (config i).

Definition set_y (v : Z) (i : Ipc_Instance) : Ipc_Instance :=
  mkInstance (cmd i) (cd i) (background i) (name i) (theme i)
    (colorscheme i) (role i) (title i) (icon_name i) (font i) (startup_id i)
    (startup_split i) (x i) v (w i) (h i) (pos i) (login_shell i)
    (fullscreen i) (iconic i) (borderless i) (override i) (maximized i)
    (hold i) (nowm i) (xterm_256color i) (active_links i) (video_mute i)
    (cursor_blink i) (visual_bell i) (cmds i) (config i).

Definition set_w (v : Z) (i : Ipc_Instance) : Ipc_Instance :=
  mkInstance (cmd i) (cd i) (background i) (name i) (theme i)
    (colorscheme i) (role i) (title i) (icon_name i) (font i) (startup_id i)
    (startup_split i) (x i) (y i) v (h i) (pos i) (login_shell i)
    (fullscreen i) (iconic i) (borderless i) (override i) (maximized i)
    (hold i) (nowm i) (xterm_256color i) (active_links i) (video_mute i)
    (cursor_blink i) (visual_bell i) (cmds i) (config i).

Definition set_h (v : Z) (i : Ipc_Instance) : Ipc_Instance :=
  mkInstance (cmd i) (cd i) (background i) (name i) (theme i)
    (colorscheme i) (role i) (title i) (icon_name i) (font i) (startup_id i)
    (startup_split i) (x i) (y i) (w i) v (pos i) (login_shell i)
    (fullscreen i) (iconic i) (borderless i) (override i) (maximized i)
    (hold i) (nowm i) (xterm_256color i) (active_links i) (video_mute i)
    (cursor_blink i) (visual_bell i) (cmds i) (config i).

Definition set_pos (v : Z) (i : Ipc_Instance) : Ipc_Instance :=
  mkInstance (cmd i) (cd i) (background i) (name i) (theme i)
    (colorscheme i) (role i) (title i) (icon_name i) (font i) (startup_id i)
    (startup_split i) (x i) (y i) (w i) (h i) v (login_shell i)
    (fullscreen i) (iconic i) (borderless i) (override i) (maximized i)
    (hold i) (nowm i) (xterm_256color i) (active_links i) (video_mute i)
    (cursor_blink i) (visual_bell i) (cmds i) (config i).

Definition set_login_shell (v : Z) (i : Ipc_Instance) : Ipc_Instance :=
  mkInstance (cmd i) (cd i) (background i) (name i) (theme i)
    (colorscheme i) (role i) (title i) (icon_name i) (font i) (startup_id i)
    (startup_split i) (x i) (y i) (w i) (h i) (pos i) v (fullscreen i)
    (iconic i) (borderless i) (override i) (maximized i) (hold i) (nowm i)
    (xterm_256color i) (active_links i) (video_mute i) (cursor_blink i)
    (visual_bell i) (cmds i) (config i).

Definition set_cmds (v : list string) (i : Ipc_Instance) : Ipc_Instance :=
  mkInstance (cmd i) (cd i) (background i) (name i) (theme i)
    (colorscheme i) (role i) (title i) (icon_name i) (font i) (startup_id i)
    (startup_split i) (x i) (y i) (w i) (h i) (pos i) (login_shell i)
    (fullscreen i) (iconic i) (borderless i) (override i) (maximized i)
    (hold i) (nowm i) (xterm_256color i) (active_links i) (video_mute i)
    (cursor_blink i) (visual_bell i) v (config i).

Definition set_config (v : Cfg.Config) (i : Ipc_Instance) : Ipc_Instance :=
  mkInstance (cmd i) (cd i) (background i) (name i) (theme i)
    (colorscheme i) (role i) (title i) (icon_name i) (font i) (startup_id i)
    (startup_split i) (x i) (y i) (w i) (h i) (pos i) (login_shell i)
    (fullscreen i) (iconic i) (borderless i) (override i) (maximized i)
    (hold i) (nowm i) (xterm_256color i) (active_links i) (video_mute i)
    (cursor_blink i) (visual_bell i) (cmds i) v.

(** The fields the command-line parser stores into. *)

Definition set_background (v : option string) (i : Ipc_Instance) : Ipc_Instance :=
  mkInstance (cmd i) (cd i) v (name i) (theme i) (colorscheme i) (role i)
    (title i) (icon_name i) (font i) (startup_id i) (startup_split i) (x i)
    (y i) (w i) (h i) (pos i) (login_shell i) (fullscreen i) (iconic i)
    (borderless i) (override i) (maximized i) (hold i) (nowm i)
    (xterm_256color i) (active_links i) (video_mute i) (cursor_blink i)
    (visual_bell i) (cmds i) (config i).

Definition set_name (v : option string) (i : Ipc_Instance) : Ipc_Instance :=
  mkInstance (cmd i) (cd i) (background i) v (theme i) (colorscheme i) (role
    i) (title i) (icon_name i) (font i) (startup_id i) (startup_split i) (x
    i) (y i) (w i) (h i) (pos i) (login_shell i) (fullscreen i) (iconic i)
    (borderless i) (override i) (maximized i) (hold i) (nowm i)
    (xterm_256color i) (active_links i) (video_mute i) (cursor_blink i)
    (visual_bell i) (cmds i) (config i).

Definition set_theme (v : option string) (i : Ipc_Instance) : Ipc_Instance :=
  mkInstance (cmd i) (cd i) (background i) (name i) v (colorscheme i) (role
    i) (title i) (icon_name i) (font i) (startup_id i) (startup_split i) (x
    i) (y i) (w i) (h i) (pos i) (login_shell i) (fullscreen i) (iconic i)
    (borderless i) (override i) (maximized i) (hold i) (nowm i)
    (xterm_256color i) (active_links i) (video_mute i) (cursor_blink i)
    (visual_bell i) (cmds i) (config i).

Definition set_colorscheme (v : option string) (i : Ipc_Instance) : Ipc_Instance :=
  mkInstance (cmd i) (cd i) (background i) (name i) (theme i) v (role i)
    (title i) (icon_name i) (font i) (startup_id i) (startup_split i) (x i)
    (y i) (w i) (h i) (pos i) (login_shell i) (fullscreen i) (iconic i)
    (borderless i) (override i) (maximized i) (hold i) (nowm i)
    (xterm_256color i) (active_links i) (video_mute i) (cursor_blink i)
    (visual_bell i) (cmds i) (config i).

Definition set_role (v : option string) (i : Ipc_Instance) : Ipc_Instance :=
  mkInstance (cmd i) (cd i) (background i) (name i) (theme i) (colorscheme
    i) v (title i) (icon_name i) (font i) (startup_id i) (startup_split i)
    (x i) (y i) (w i) (h i) (pos i) (login_shell i) (fullscreen i) (iconic
    i) (borderless i) (override i) (maximized i) (hold i) (nowm i)
    (xterm_256color i) (active_links i) (video_mute i) (cursor_blink i)
    (visual_bell i) (cmds i) (config i).

Definition set_title (v : option string) (i : Ipc_Instance) : Ipc_Instance :=
  mkInstance (cmd i) (cd i) (background i) (name i) (theme i) (colorscheme
    i) (role i) v (icon_name i) (font i) (startup_id i) (startup_split i) (x
    i) (y i) (w i) (h i) (pos i) (login_shell i) (fullscreen i) (iconic i)
    (borderless i) (override i) (maximized i) (hold i) (nowm i)
    (xterm_256color i) (active_links i) (video_mute i) (cursor_blink i)
    (visual_bell i) (cmds i) (config i).

Definition set_icon_name (v : option string) (i : Ipc_Instance) : Ipc_Instance :=
  mkInstance (cmd i) (cd i) (background i) (name i) (theme i) (colorscheme
    i) (role i) (title i) v (font i) (startup_id i) (startup_split i) (x i)
    (y i) (w i) (h i) (pos i) (login_shell i) (fullscreen i) (iconic i)
    (borderless i) (override i) (maximized i) (hold i) (nowm i)
    (xterm_256color i) (active_links i) (video_mute i) (cursor_blink i)
    (visual_bell i) (cmds i) (config i).

Definition set_font (v : option string) (i : Ipc_Instance) : Ipc_Instance :=
  mkInstance (cmd i) (cd i) (background i) (name i) (theme i) (colorscheme
    i) (role i) (title i) (icon_name i) v (startup_id i) (startup_split i)
    (x i) (y i) (w i) (h i) (pos i) (login_shell i) (fullscreen i) (iconic
    i) (borderless i) (override i) (maximized i) (hold i) (nowm i)
    (xterm_256color i) (active_links i) (video_mute i) (cursor_blink i)
    (visual_bell i) (cmds i) (config i).

Definition set_startup_split (v : option string) (i : Ipc_Instance) : Ipc_Instance :=
  mkInstance (cmd i) (cd i) (background i) (name i) (theme i) (colorscheme
    i) (role i) (title i) (icon_name i) (font i) (startup_id i) v (x i) (y
    i) (w i) (h i) (pos i) (login_shell i) (fullscreen i) (iconic i)
    (borderless i) (override i) (maximized i) (hold i) (nowm i)
    (xterm_256color i) (active_links i) (video_mute i) (cursor_blink i)
    (visual_bell i) (cmds i) (config i).

Definition set_fullscreen (v : Z) (i : Ipc_Instance) : Ipc_Instance :=
  mkInstance (cmd i) (cd i) (background i) (name i) (theme i) (colorscheme
    i) (role i) (title i) (icon_name i) (font i) (startup_id i)
    (startup_split i) (x i) (y i) (w i) (h i) (pos i) (login_shell i) v
    (iconic i) (borderless i) (override i) (maximized i) (hold i) (nowm i)
    (xterm_256color i) (active_links i) (video_mute i) (cursor_blink i)
    (visual_bell i) (cmds i) (config i).

Definition set_iconic (v : Z) (i : Ipc_Instance) : Ipc_Instance :=
  mkInstance (cmd i) (cd i) (background i) (name i) (theme i) (colorscheme
    i) (role i) (title i) (icon_name i) (font i) (startup_id i)
    (startup_split i) (x i) (y i) (w i) (h i) (pos i) (login_shell i)
    (fullscreen i) v (borderless i) (override i) (maximized i) (hold i)
    (nowm i) (xterm_256color i) (active_links i) (video_mute i)
    (cursor_blink i) (visual_bell i) (cmds i) (config i).

Definition set_borderless (v : Z) (i : Ipc_Instance) : Ipc_Instance :=
  mkInstance (cmd i) (cd i) (background i) (name i) (theme i) (colorscheme
    i) (role i) (title i) (icon_name i) (font i) (startup_id i)
    (startup_split i) (x i) (y i) (w i) (h i) (pos i) (login_shell i)
    (fullscreen i) (iconic i) v (override i) (maximized i) (hold i) (nowm i)
    (xterm_256color i) (active_links i) (video_mute i) (cursor_blink i)
    (visual_bell i) (cmds i) (config i).

Definition set_override (v : Z) (i : Ipc_Instance) : Ipc_Instance :=
  mkInstance (cmd i) (cd i) (background i) (name i) (theme i) (colorscheme
    i) (role i) (title i) (icon_name i) (font i) (startup_id i)
    (startup_split i) (x i) (y i) (w i) (h i) (pos i) (login_shell i)
    (fullscreen i) (iconic i) (borderless i) v (maximized i) (hold i) (nowm
    i) (xterm_256color i) (active_links i) (video_mute i) (cursor_blink i)
    (visual_bell i) (cmds i) (config i).

Definition set_maximized (v : Z) (i : Ipc_Instance) : Ipc_Instance :=
  mkInstance (cmd i) (cd i) (background i) (name i) (theme i) (colorscheme
    i) (role i) (title i) (icon_name i) (font i) (startup_id i)
    (startup_split i) (x i) (y i) (w i) (h i) (pos i) (login_shell i)
    (fullscreen i) (iconic i) (borderless i) (override i) v (hold i) (nowm
    i) (xterm_256color i) (active_links i) (video_mute i) (cursor_blink i)
    (visual_bell i) (cmds i) (config i).

Definition set_hold (v : Z) (i : Ipc_Instance) : Ipc_Instance :=
  mkInstance (cmd i) (cd i) (background i) (name i) (theme i) (colorscheme
    i) (role i) (title i) (icon_name i) (font i) (startup_id i)
    (startup_split i) (x i) (y i) (w i) (h i) (pos i) (login_shell i)
    (fullscreen i) (iconic i) (borderless i) (override i) (maximized i) v
    (nowm i) (xterm_256color i) (active_links i) (video_mute i)
    (cursor_blink i) (visual_bell i) (cmds i) (config i).

Definition set_nowm (v : Z) (i : Ipc_Instance) : Ipc_Instance :=
  mkInstance (cmd i) (cd i) (background i) (name i) (theme i) (colorscheme
    i) (role i) (title i) (icon_name i) (font i) (startup_id i)
    (startup_split i) (x i) (y i) (w i) (h i) (pos i) (login_shell i)
    (fullscreen i) (iconic i) (borderless i) (override i) (maximized i)
    (hold i) v (xterm_256color i) (active_links i) (video_mute i)
    (cursor_blink i) (visual_bell i) (cmds i) (config i).

Definition set_xterm_256color (v : Z) (i : Ipc_Instance) : Ipc_Instance :=
  mkInstance (cmd i) (cd i) (background i) (name i) (theme i) (colorscheme
    i) (role i) (title i) (icon_name i) (font i) (startup_id i)
    (startup_split i) (x i) (y i) (w i) (h i) (pos i) (login_shell i)
    (fullscreen i) (iconic i) (borderless i) (override i) (maximized i)
    (hold i) (nowm i) v (active_links i) (video_mute i) (cursor_blink i)
    (visual_bell i) (cmds i) (config i).

Definition set_active_links (v : Z) (i : Ipc_Instance) : Ipc_Instance :=
  mkInstance (cmd i) (cd i) (background i) (name i) (theme i) (colorscheme
    i) (role i) (title i) (icon_name i) (font i) (startup_id i)
    (startup_split i) (x i) (y i) (w i) (h i) (pos i) (login_shell i)
    (fullscreen i) (iconic i) (borderless i) (override i) (maximized i)
    (hold i) (nowm i) (xterm_256color i) v (video_mute i) (cursor_blink i)
    (visual_bell i) (cmds i) (config i).

Definition set_video_mute (v : Z) (i : Ipc_Instance) : Ipc_Instance :=
  mkInstance (cmd i) (cd i) (background i) (name i) (theme i) (colorscheme
    i) (role i) (title i) (icon_name i) (font i) (startup_id i)
    (startup_split i) (x i) (y i) (w i) (h i) (pos i) (login_shell i)
    (fullscreen i) (iconic i) (borderless i) (override i) (maximized i)
    (hold i) (nowm i) (xterm_256color i) (active_links i) v (cursor_blink i)
    (visual_bell i) (cmds i) (config i).

Definition set_cursor_blink (v : Z) (i : Ipc_Instance) : Ipc_Instance :=
  mkInstance (cmd i) (cd i) (background i) (name i) (theme i) (colorscheme
    i) (role i) (title i) (icon_name i) (font i) (startup_id i)
    (startup_split i) (x i) (y i) (w i) (h i) (pos i) (login_shell i)
    (fullscreen i) (iconic i) (borderless i) (override i) (maximized i)
    (hold i) (nowm i) (xterm_256color i) (active_links i) (video_mute i) v
    (visual_bell i) (cmds i) (config i).

Definition set_visual_bell (v : Z) (i : Ipc_Instance) : Ipc_Instance :=
  mkInstance (cmd i) (cd i) (background i) (name i) (theme i) (colorscheme
    i) (role i) (title i) (icon_name i) (font i) (startup_id i)
    (startup_split i) (x i) (y i) (w i) (h i) (pos i) (login_shell i)
    (fullscreen i) (iconic i) (borderless i) (override i) (maximized i)
    (hold i) (nowm i) (xterm_256color i) (active_links i) (video_mute i)
    (cursor_blink i) v (cmds i) (config i).

(** The instance [elm_main] starts from, once [config_fork] has given it
    a configuration: the tri-state options unset, a size of 1 by 1. *)
Definition initial_instance (startup : option string) (c : Cfg.Config) : Ipc_Instance :=
  mkInstance None None None None None None None None None None startup None
    0 0 1 1
    0 IPC_INSTANCE_OPT_UNSET 0 0 0 0 0 0 0 0
    IPC_INSTANCE_OPT_UNSET IPC_INSTANCE_OPT_UNSET IPC_INSTANCE_OPT_UNSET
    IPC_INSTANCE_OPT_UNSET
    [] c.

(** Apply an update to the configuration the instance points to. *)
Definition upd_config (f : Cfg.Config -> Cfg.Config) (i : Ipc_Instance) : Ipc_Instance :=
  set_config (f (config i)) i.

(** An instance that asks for nothing [_configure_instance] acts on. *)
Definition no_override (i : Ipc_Instance) : Prop :=
  theme i = None /\ colorscheme i = None /\ background i = None /\
  font i = None /\ login_shell i = IPC_INSTANCE_OPT_UNSET /\
  xterm_256color i = 0 /\ video_mute i = IPC_INSTANCE_OPT_UNSET /\
  cursor_blink i = IPC_INSTANCE_OPT_UNSET /\
  visual_bell i = IPC_INSTANCE_OPT_UNSET /\
  active_links i = IPC_INSTANCE_OPT_UNSET.

#[global] Instance no_override_dec i : Decision (no_override i).
Proof. unfold no_override. apply _. Defined.

(** The configuration is marked as overridden for this run. *)
Definition marked_temporary (c : Cfg.Config) : Prop :=
  Cfg.temporary c = EINA_TRUE.

(** A file of the font directory does not start with the font's name. *)
Definition font_no_match (fnt : string) (n : Z) (file : string) : Prop :=
  strncasecmp_eq (Z.to_nat n) file fnt = false.

(** An instance for the examples: [terminology -e htop -d /tmp -n term
    -t dark -T T -f Mono/12 -g 80x24+5-7 -l -B -H -2 -G]. *)
Definition demo_instance : Ipc_Instance :=
  mkInstance (Some "htop") (Some "/tmp") None (Some "term") (Some "dark")
    None None (Some "T") None (Some "Mono/12") None None
    5 (-7) 80 24
    1 1 0 0 1 0 0 1 0 1
    IPC_INSTANCE_OPT_UNSET 0 IPC_INSTANCE_OPT_UNSET 1
    [] Cfg.demo_config.

(** ** Operations *)

Section Configure.
Context (theme_path_get : string -> string).
Context (config_compute_color_scheme : Cfg.Config -> Cfg.Config).
Context (font_files : list string).

(** The file name [_set_instance_theme] builds in [theme_name]: the
    theme itself when it ends in [.edj], with [.edj] appended otherwise,
    cut to the buffer. *)
Definition theme_name_of (th : string) : string :=
  if eina_str_has_suffix th ".edj" then c_truncate PATH_MAX th
  else c_truncate PATH_MAX (th +:+ ".edj").

(** The path stored in the configuration: the name itself when it holds
    a [/], the theme directory's answer otherwise. *)
Definition theme_path_of (theme_name : string) : string :=
  match strchr theme_name "/" with
  | Some _ => c_truncate PATH_MAX theme_name
  | None => theme_path_get theme_name
  end.

Definition _set_instance_theme (inst : Ipc_Instance) : Ipc_Instance :=
  match theme inst with
  | None => inst
  | Some th =>
    upd_config (fun c =>
      Cfg.set_temporary EINA_TRUE
        (Cfg.set_theme (Some (theme_path_of (theme_name_of th))) c)) inst
  end.

(** [NAME/SIZE]: the name before the [/] at position [p], the size after
    it when [atoi] finds a positive one; a scalable font. *)
Definition font_scalable (fnt : string) (p : nat) (c : Cfg.Config) : Cfg.Config :=
  let fname := str_take p fnt in
  let sz := atoi (str_drop (S p) fnt) in
  let c := if 0 <? sz then Cfg.set_font_size sz c else c in
  Cfg.set_font_bitmap EINA_FALSE (Cfg.set_font_name (Some fname) c).

(** The loop over the font directory: the first file whose first [n]
    characters are those of the font up to case is taken, and [n] is
    set to -1 so that no later file is. *)
Fixpoint font_bitmap_scan (files : list string) (fnt : string) (n : Z)
    (found : Z) (c : Cfg.Config) : Z * Cfg.Config :=
  match files with
  | [] => (found, c)
  | file :: files' =>
    if (0 <? n) && strncasecmp_eq (Z.to_nat n) file fnt
    then font_bitmap_scan files' fnt (-1) EINA_TRUE
           (Cfg.set_font_bitmap EINA_TRUE (Cfg.set_font_name (Some file) c))
    else font_bitmap_scan files' fnt n found c
  end.

(** The font of the instance: the configuration and whether the error
    "font not found" is logged. *)
Definition configure_font (fnt : string) (c : Cfg.Config) : Cfg.Config * bool :=
  let '(c, err) :=
    match strchr fnt "/" with
    | Some p => (font_scalable fnt p c, false)
    | None =>
      let '(found, c) :=
        font_bitmap_scan font_files fnt
          (wrap_int (Z.of_nat (strlen fnt))) EINA_FALSE c in
      (c, negb (truthy found))
    end in
  (Cfg.set_temporary EINA_TRUE (Cfg.set_font_set EINA_TRUE c), err).

(** A tri-state option overrides the configuration when it was given. *)
Definition override_tri (v : Z) (f : Z -> Cfg.Config -> Cfg.Config)
    (c : Cfg.Config) : Cfg.Config :=
  if decide (v = IPC_INSTANCE_OPT_UNSET) then c
  else Cfg.set_temporary EINA_TRUE (f v c).

Definition set_all_active_links (v : Z) (c : Cfg.Config) : Cfg.Config :=
  let c := Cfg.set_active_links (c_notnot v) c in
  let c := Cfg.set_active_links_email (Cfg.active_links c) c in
  let c := Cfg.set_active_links_file (Cfg.active_links c) c in
  let c := Cfg.set_active_links_url (Cfg.active_links c) c in
  Cfg.set_active_links_escape (Cfg.active_links c) c.

(** The steps of [_configure_instance] after the theme, in the order
    of the sources. *)
Definition configure_colorscheme (inst : Ipc_Instance) (c : Cfg.Config) : Cfg.Config :=
  match colorscheme inst with
  | Some cs =>
    Cfg.set_temporary EINA_TRUE
      (config_compute_color_scheme (Cfg.set_color_scheme_name (Some cs) c))
  | None => c
  end.

Definition configure_background (inst : Ipc_Instance) (c : Cfg.Config) : Cfg.Config :=
  match background inst with
  | Some bg => Cfg.set_temporary EINA_TRUE (Cfg.set_background (Some bg) c)
  | None => c
  end.

Definition configure_font_opt (inst : Ipc_Instance) (c : Cfg.Config) : Cfg.Config * bool :=
  match font inst with
  | Some fnt => configure_font fnt c
  | None => (c, false)
  end.

Definition configure_xterm_256color (inst : Ipc_Instance) (c : Cfg.Config) : Cfg.Config :=
  if truthy (xterm_256color inst)
  then Cfg.set_temporary EINA_TRUE (Cfg.set_xterm_256color EINA_TRUE c)
  else c.

Definition configure_flags (inst : Ipc_Instance) (c : Cfg.Config) : Cfg.Config :=
  let c := override_tri (login_shell inst) Cfg.set_login_shell c in
  let c := configure_xterm_256color inst c in
  let c := override_tri (video_mute inst) Cfg.set_mute c in
  let c := override_tri (cursor_blink inst)
             (fun v => Cfg.set_disable_cursor_blink (c_not v)) c in
  let c := override_tri (visual_bell inst)
             (fun v => Cfg.set_disable_visual_bell (c_not v)) c in
  override_tri (active_links inst) set_all_active_links c.

(** [_configure_instance]: the instance with its configuration
    overridden, and whether a font error was logged. *)
Definition _configure_instance (inst : Ipc_Instance) : Ipc_Instance * bool :=
  let inst := _set_instance_theme inst in
  let cf :=
    configure_font_opt inst
      (configure_background inst (configure_colorscheme inst (config inst))) in
  (set_config (configure_flags inst cf.1) inst, cf.2).

End Configure.

(** ** Lemmas *)

Lemma set_config_id i : set_config (config i) i = i.
Proof. by destruct i. Qed.

Lemma set_config_set_config c c' i :
  set_config c (set_config c' i) = set_config c i.
Proof. done. Qed.

Section ConfigureFacts.
Context (theme_path_get : string -> string).
Context (config_compute_color_scheme : Cfg.Config -> Cfg.Config).
Context (font_files : list string).

#[local] Abbreviation configure :=
  (_configure_instance theme_path_get config_compute_color_scheme font_files).
#[local] Abbreviation set_theme := (_set_instance_theme theme_path_get).

(** The name handed to the theme directory fits [theme_name]. *)
Lemma theme_name_of_fits th : (strlen (theme_name_of th) < PATH_MAX)%nat.
Proof.
  unfold theme_name_of.
  destruct (eina_str_has_suffix th ".edj"); apply c_truncate_fits;
    unfold PATH_MAX; lia.
Qed.

(** When nothing is cut, the name ends in [.edj]. *)
Lemma theme_name_of_suffix th :
  (strlen th + 4 < PATH_MAX)%nat ->
  eina_str_has_suffix (theme_name_of th) ".edj" = true.
Proof.
  intros H. unfold theme_name_of.
  destruct (eina_str_has_suffix th ".edj") eqn:E.
  - rewrite c_truncate_id by lia. done.
  - rewrite c_truncate_id by (rewrite strlen_append; simpl; lia).
    apply eina_str_has_suffix_append.
Qed.

(** *** Each step keeps the mark, and sets it when its option is given *)

Lemma override_tri_temporary v f c :
  marked_temporary c \/ v <> IPC_INSTANCE_OPT_UNSET ->
  marked_temporary (override_tri v f c).
Proof. unfold override_tri. case_decide; [|done]. by intros [?|?]. Qed.

Lemma configure_font_temporary fnt c :
  marked_temporary (configure_font font_files fnt c).1.
Proof.
  unfold configure_font. destruct (strchr fnt "/"); [done|].
  by destruct (font_bitmap_scan _ _ _ _ _).
Qed.

Lemma _set_instance_theme_temporary inst :
  marked_temporary (config inst) \/ theme inst <> None ->
  marked_temporary (config (set_theme inst)).
Proof.
  unfold _set_instance_theme. destruct (theme inst); [done|]. by intros [?|?].
Qed.

Lemma configure_colorscheme_temporary i c :
  marked_temporary c \/ colorscheme i <> None ->
  marked_temporary (configure_colorscheme config_compute_color_scheme i c).
Proof. unfold configure_colorscheme. destruct (colorscheme i); [done|]. by intros [?|?]. Qed.

Lemma configure_background_temporary i c :
  marked_temporary c \/ background i <> None ->
  marked_temporary (configure_background i c).
Proof. unfold configure_background. destruct (background i); [done|]. by intros [?|?]. Qed.

Lemma configure_font_opt_temporary i c :
  marked_temporary c \/ font i <> None ->
  marked_temporary (configure_font_opt font_files i c).1.
Proof.
  unfold configure_font_opt. destruct (font i).
  - intros _. apply configure_font_temporary.
  - by intros [?|?].
Qed.

Lemma configure_xterm_256color_temporary i c :
  marked_temporary c \/ xterm_256color i <> 0 ->
  marked_temporary (configure_xterm_256color i c).
Proof.
  unfold configure_xterm_256color. destruct (truthy _) eqn:E; [done|].
  apply truthy_false in E. by intros [?|?].
Qed.

(** The fields of the instance other than the configuration are those
    it had. *)
Lemma _set_instance_theme_fields inst :
  set_config (config inst) (set_theme inst) = inst.
Proof. unfold _set_instance_theme. destruct inst; simpl. by case_match. Qed.

Lemma _set_instance_theme_proj inst :
  let i := set_theme inst in
  theme i = theme inst /\ colorscheme i = colorscheme inst /\
  background i = background inst /\ font i = font inst /\
  login_shell i = login_shell inst /\ xterm_256color i = xterm_256color inst /\
  video_mute i = video_mute inst /\ cursor_blink i = cursor_blink inst /\
  visual_bell i = visual_bell inst /\ active_links i = active_links inst.
Proof.
  unfold _set_instance_theme. destruct (theme inst) eqn:E; simpl; by rewrite ?E.
Qed.

Ltac temporary_step :=
  first
  [ apply override_tri_temporary
  | apply configure_xterm_256color_temporary
  | apply configure_font_opt_temporary
  | apply configure_background_temporary
  | apply configure_colorscheme_temporary
  | apply _set_instance_theme_temporary ].

Ltac temporary_chain :=
  repeat (temporary_step; first [ by right; congruence | left ]).

(** C33: an instance that overrides anything leaves the configuration
    marked temporary, whatever the colour-scheme computation and the font
    directory do. *)
Theorem _configure_instance_temporary inst :
  ~ no_override inst -> marked_temporary (config (configure inst).1).
Proof.
  intros H. destruct (_set_instance_theme_proj inst)
    as (Ht & Hc & Hb & Hf & Hl & Hx & Hv & Hcb & Hvb & Ha).
  unfold _configure_instance, configure_flags. simpl.
  unfold no_override in H.
  repeat (apply not_and_l in H; destruct H as [H|H]);
    temporary_chain.
Qed.

(** An instance that overrides nothing leaves its configuration as
    it was and logs nothing. *)
Theorem _configure_instance_no_override inst :
  no_override inst -> configure inst = (inst, false).
Proof.
  unfold no_override. destruct inst. simpl.
  intros (-> & -> & -> & -> & -> & -> & -> & -> & -> & ->). done.
Qed.

End ConfigureFacts.

Lemma _configure_instance_temporary_witness :
  marked_temporary
    (config (_configure_instance id id [] demo_instance).1).
Proof.
  apply (_configure_instance_temporary id id [] demo_instance).
  intros [H _]. discriminate H.
Defined.

Lemma _configure_instance_no_override_witness :
  _configure_instance id id [] (initial_instance None Cfg.demo_config) =
  (initial_instance None Cfg.demo_config, false).
Proof.
  apply (_configure_instance_no_override id id []
           (initial_instance None Cfg.demo_config)).
  by repeat split.
Defined.

(** *** The font *)

Lemma font_bitmap_scan_done files fnt found c :
  font_bitmap_scan files fnt (-1) found c = (found, c).
Proof. revert found c. induction files as [|f l IH]; intros; simpl; [done|apply IH]. Qed.

Lemma font_bitmap_scan_none files fnt n found c :
  Forall (font_no_match fnt n) files ->
  font_bitmap_scan files fnt n found c = (found, c).
Proof.
  induction 1 as [|f l Hf _ IH]; simpl; [done|].
  unfold font_no_match in Hf. by rewrite Hf, andb_false_r.
Qed.

Lemma font_bitmap_scan_first l1 f l2 fnt n found c :
  0 < n -> Forall (font_no_match fnt n) l1 ->
  strncasecmp_eq (Z.to_nat n) f fnt = true ->
  font_bitmap_scan (l1 ++ f :: l2) fnt n found c =
  (EINA_TRUE, Cfg.set_font_bitmap EINA_TRUE (Cfg.set_font_name (Some f) c)).
Proof.
  intros Hn Hl Hf. induction Hl as [|x l Hx _ IH]; simpl.
  - rewrite Hf, (proj2 (Z.ltb_lt 0 n) Hn). simpl. apply font_bitmap_scan_done.
  - unfold font_no_match in Hx. by rewrite Hx, andb_false_r.
Qed.

Section FontFacts.
Context (font_files : list string).

(** A font given as [NAME/SIZE] with a positive size makes the
    configuration use the scalable font [NAME] at that size. *)
Theorem configure_font_scalable name sz c :
  strchr name "/" = None -> in_int sz -> 0 < sz ->
  configure_font font_files (name +:+ String "/" (print_int sz)) c =
  (Cfg.set_temporary EINA_TRUE (Cfg.set_font_set EINA_TRUE
     (Cfg.set_font_bitmap EINA_FALSE (Cfg.set_font_name (Some name)
        (Cfg.set_font_size sz c)))), false).
Proof.
  intros Hname Hsz Hpos. unfold configure_font, font_scalable.
  rewrite (strchr_append_sep _ _ _ Hname).
  rewrite str_take_append, str_drop_append_sep.
  rewrite <- (append_nil_r (print_int sz)), atoi_print_int by done.
  by rewrite (proj2 (Z.ltb_lt 0 sz) Hpos).
Qed.

(** A font given by name takes the first file of the font directory
    that starts with that name, up to case, as a bitmap font. *)
Theorem configure_font_bitmap_first l1 f l2 fnt c :
  font_files = l1 ++ f :: l2 ->
  strchr fnt "/" = None -> (0 < strlen fnt)%nat -> in_int (Z.of_nat (strlen fnt)) ->
  Forall (font_no_match fnt (Z.of_nat (strlen fnt))) l1 ->
  strncasecmp_eq (strlen fnt) f fnt = true ->
  configure_font font_files fnt c =
  (Cfg.set_temporary EINA_TRUE (Cfg.set_font_set EINA_TRUE
     (Cfg.set_font_bitmap EINA_TRUE (Cfg.set_font_name (Some f) c))), false).
Proof.
  intros -> Hs Hlen Hint Hl Hf. unfold configure_font. rewrite Hs.
  rewrite (wrap_int_id _ Hint).
  rewrite (font_bitmap_scan_first l1 f l2); try done; try lia.
  by rewrite Nat2Z.id.
Qed.

(** When no file of the font directory matches, the error is logged
    and the font is left as it was, but the configuration still records
    that a font was set. *)
Theorem configure_font_not_found fnt c :
  strchr fnt "/" = None ->
  Forall (font_no_match fnt (wrap_int (Z.of_nat (strlen fnt)))) font_files ->
  configure_font font_files fnt c =
  (Cfg.set_temporary EINA_TRUE (Cfg.set_font_set EINA_TRUE c), true).
Proof.
  intros Hs Hl. unfold configure_font. rewrite Hs.
  by rewrite (font_bitmap_scan_none _ _ _ _ _ Hl).
Qed.

End FontFacts.

Lemma configure_font_scalable_witness :
  configure_font [] ("Mono" +:+ String "/" (print_int 12)) Cfg.demo_config =
  (Cfg.set_temporary EINA_TRUE (Cfg.set_font_set EINA_TRUE
     (Cfg.set_font_bitmap EINA_FALSE (Cfg.set_font_name (Some "Mono")
        (Cfg.set_font_size 12 Cfg.demo_config)))), false).
Proof.
  apply (configure_font_scalable [] "Mono" 12 Cfg.demo_config);
    [reflexivity | unfold in_int, INT_MIN, INT_MAX; lia | lia].
Defined.

Lemma configure_font_bitmap_first_witness :
  configure_font ["10x20.pcf"; "Nexus.pcf"; "nexus-bold.pcf"] "nexus"
    Cfg.demo_config =
  (Cfg.set_temporary EINA_TRUE (Cfg.set_font_set EINA_TRUE
     (Cfg.set_font_bitmap EINA_TRUE (Cfg.set_font_name (Some "Nexus.pcf")
        Cfg.demo_config))), false).
Proof.
  apply (configure_font_bitmap_first _ ["10x20.pcf"] "Nexus.pcf"
           ["nexus-bold.pcf"] "nexus" Cfg.demo_config);
    [reflexivity | reflexivity | simpl; lia
    | unfold in_int, INT_MIN, INT_MAX; simpl; lia
    | by repeat constructor | reflexivity].
Defined.

Lemma configure_font_not_found_witness :
  configure_font ["10x20.pcf"] "nexus" Cfg.demo_config =
  (Cfg.set_temporary EINA_TRUE (Cfg.set_font_set EINA_TRUE Cfg.demo_config),
   true).
Proof.
  apply (configure_font_not_found ["10x20.pcf"] "nexus" Cfg.demo_config);
    [reflexivity | by repeat constructor].
Defined.
