(* ===== verification/Argv.v ===== *)
(** * Argv: the argument vector [main_ipc_new] rebuilds

    A process that serves window requests receives an [Ipc_Instance] and,
    before it creates the window, rebuilds the command line that would
    have produced it: it counts the arguments ([nargc]), allocates
    [nargc + 1] pointers with [calloc], writes the arguments one after the
    other ([nargv[i++] = ...]) and hands [nargc] and the array to
    [ecore_app_args_set].  The geometry is printed into a buffer of 256
    bytes by one of eight [snprintf] formats.

    The array is modelled as the list of the entries written, in order;
    [nargv_array] lays them out in the allocated block, and is an error
    when an entry would fall outside it. *)

From Stdlib Require Import ZArith Lia List Ascii String.
From stdpp Require Import base tactics option list strings.
From S2P Require Import Prelude CString Config Instance.

(** ** Formatted output *)

(** One piece of a format: literal text or a ["%i"] with its argument. *)
Inductive fmt_item :=
| Lit (s : string)
| Int (z : Z).

(** What the format expands to, before the buffer cuts it. *)
Fixpoint sprintf (items : list fmt_item) : string :=
  match items with
  | [] => ""
  | Lit s :: items' => s +:+ sprintf items'
  | Int z :: items' => print_int z +:+ sprintf items'
  end.

(** [snprintf (buf, size, ...)]: the content of the buffer. *)
Definition snprintf (size : nat) (items : list fmt_item) : string :=
  c_truncate size (sprintf items).

(** The arguments of a format are [int]s. *)
Definition fmt_item_ok (it : fmt_item) : Prop :=
  match it with
  | Lit _ => True
  | Int z => in_int z
  end.

(** An upper bound of the length of the expansion: a number of 32 bits
    prints in at most 11 characters. *)
Fixpoint fmt_bound (items : list fmt_item) : nat :=
  match items with
  | [] => 0
  | Lit s :: items' => strlen s + fmt_bound items'
  | Int _ :: items' => 11 + fmt_bound items'
  end.

(** ** The geometry string *)

(** The size of the buffer [geom]. *)
Definition GEOM_SIZE : nat := 256.

(** Does the instance carry a geometry to pass on? *)
Definition has_geometry (inst : Ipc_Instance) : bool :=
  truthy (pos inst) || (0 <? w inst) || (0 <? h inst).

(** The format chosen and its arguments, as the nest of tests of
    [main_ipc_new] chooses them. *)
Definition geom_items (inst : Ipc_Instance) : list fmt_item :=
  let W := Int (w inst) in let H := Int (h inst) in
  let X := Int (x inst) in let Y := Int (y inst) in
  if negb (truthy (pos inst)) then [W; Lit "x"; H]
  else if (0 <? w inst) && (0 <? h inst) then
    if 0 <=? x inst then
      if 0 <=? y inst then [W; Lit "x"; H; Lit "+"; X; Lit "+"; Y]
      else [W; Lit "x"; H; Lit "+"; X; Y]
    else
      if 0 <=? y inst then [W; Lit "x"; H; X; Lit "+"; Y]
      else [W; Lit "x"; H; X; Y]
  else
    if 0 <=? x inst then
      if 0 <=? y inst then [Lit "+"; X; Lit "+"; Y]
      else [Lit "+"; X; Y]
    else
      if 0 <=? y inst then [X; Lit "+"; Y]
      else [X; Y].

Definition geom_of (inst : Ipc_Instance) : string :=
  snprintf GEOM_SIZE (geom_items inst).

(** ** The count *)

Definition add_if (b : bool) (k : Z) : Z := if b then k else 0.

(** A string option is given. *)
Definition given (o : option string) : bool := bool_decide (is_Some o).

(** [nargc]: 1 for the program, 2 for each option with a value that is
    given, 1 for each flag that is not 0. *)
Definition nargc_of (inst : Ipc_Instance) : Z :=
  1 + add_if (given (cd inst)) 2 + add_if (given (background inst)) 2
  + add_if (given (name inst)) 2 + add_if (given (role inst)) 2
  + add_if (given (title inst)) 2 + add_if (given (font inst)) 2
  + add_if (given (startup_split inst)) 2 + add_if (has_geometry inst) 2
  + add_if (truthy (login_shell inst)) 1 + add_if (truthy (fullscreen inst)) 1
  + add_if (truthy (iconic inst)) 1 + add_if (truthy (borderless inst)) 1
  + add_if (truthy (override inst)) 1 + add_if (truthy (maximized inst)) 1
  + add_if (truthy (hold inst)) 1 + add_if (truthy (nowm inst)) 1
  + add_if (truthy (xterm_256color inst)) 1
  + add_if (truthy (active_links inst)) 1
  + add_if (truthy (video_mute inst)) 1
  + add_if (truthy (cursor_blink inst)) 1
  + add_if (truthy (visual_bell inst)) 1
  + add_if (given (cmd inst)) 2 + add_if (given (theme inst)) 2
  + add_if (given (colorscheme inst)) 2.

(** ** The vector *)

(** An option with a value: the flag and the value, when it is given. *)
Definition arg_str (flag : string) (o : option string) : list string :=
  match o with
  | Some v => [flag; v]
  | None => []
  end.

(** A flag that is written when its byte is not 0. *)
Definition arg_flag (flag : string) (v : Z) : list string :=
  if truthy v then [flag] else [].

(** A tri-state flag: written when it was given and is not 0. *)
Definition arg_tri (flag : string) (v : Z) : list string :=
  if bool_decide (v <> IPC_INSTANCE_OPT_UNSET) && truthy v then [flag] else [].

(** The entries [main_ipc_new] writes, in the order it writes them;
    [argv0] is [pargv[0]]. *)
Definition nargv_of (argv0 : string) (inst : Ipc_Instance) : list string :=
  [argv0]
  ++ arg_str "-d" (cd inst) ++ arg_str "-b" (background inst)
  ++ arg_str "-n" (name inst) ++ arg_str "-t" (theme inst)
  ++ arg_str "--colorscheme" (colorscheme inst)
  ++ arg_str "-r" (role inst) ++ arg_str "-T" (title inst)
  ++ arg_str "-f" (font inst) ++ arg_str "-S" (startup_split inst)
  ++ (if has_geometry inst then ["-g"; geom_of inst] else [])
  ++ arg_tri "-l" (login_shell inst)
  ++ arg_flag "-F" (fullscreen inst) ++ arg_flag "-I" (iconic inst)
  ++ arg_flag "-B" (borderless inst) ++ arg_flag "-O" (override inst)
  ++ arg_flag "-M" (maximized inst) ++ arg_flag "-H" (hold inst)
  ++ arg_flag "-W" (nowm inst) ++ arg_flag "-2" (xterm_256color inst)
  ++ arg_tri "--active-links" (active_links inst)
  ++ arg_str "-e" (cmd inst)
  ++ arg_tri "-m" (video_mute inst) ++ arg_tri "-c" (cursor_blink inst)
  ++ arg_tri "-G" (visual_bell inst).

(** The block [calloc (nargc + 1, sizeof (char * ))] after the writes:
    the entries, then the pointers still [NULL].  An entry outside the
    block is an error. *)
Definition nargv_array (argv0 : string) (inst : Ipc_Instance) : option (list (option string)) :=
  let entries := nargv_of argv0 inst in
  let slots := Z.to_nat (nargc_of inst + 1) in
  if decide (length entries <= slots)%nat
  then Some ((Some <$> entries) ++ replicate (slots - length entries) None)
  else None.

(** The tri-state options that were not given. *)
Definition unset_count (inst : Ipc_Instance) : Z :=
  let u v := add_if (bool_decide (v = IPC_INSTANCE_OPT_UNSET)) 1 in
  u (login_shell inst) + u (active_links inst) + u (video_mute inst)
  + u (cursor_blink inst) + u (visual_bell inst).

(** The components of the geometry are [int]s. *)
Definition geometry_ints (inst : Ipc_Instance) : Prop :=
  in_int (w inst) /\ in_int (h inst) /\ in_int (x inst) /\ in_int (y inst).

#[global] Instance geometry_ints_dec inst : Decision (geometry_ints inst).
Proof. unfold geometry_ints. apply _. Defined.

Example nargv_demo :
  nargv_of "terminology" demo_instance =
  ["terminology"; "-d"; "/tmp"; "-n"; "term"; "-t"; "dark"; "-T"; "T";
   "-f"; "Mono/12"; "-g"; "80x24+5-7"; "-l"; "-B"; "-H"; "-2";
   "-e"; "htop"; "-G"]
  /\ nargc_of demo_instance = 22.
Proof. by vm_compute. Qed.

(** ** Lemmas *)

Lemma add_if_nonneg b k : 0 <= k -> 0 <= add_if b k.
Proof. destruct b; simpl; lia. Qed.

Lemma length_arg_str flag o :
  Z.of_nat (length (arg_str flag o)) = add_if (given o) 2.
Proof. by destruct o. Qed.

Lemma length_arg_flag flag v :
  Z.of_nat (length (arg_flag flag v)) = add_if (truthy v) 1.
Proof. unfold arg_flag. by destruct (truthy v). Qed.

(** A tri-state option is counted when it is not 0, and written when it
    is neither 0 nor unset. *)
Lemma length_arg_tri flag v :
  Z.of_nat (length (arg_tri flag v))
  + add_if (bool_decide (v = IPC_INSTANCE_OPT_UNSET)) 1
  = add_if (truthy v) 1.
Proof.
  unfold arg_tri. case_bool_decide as Hv; simpl.
  - rewrite bool_decide_eq_false_2 by done. by destruct (truthy v).
  - by subst.
Qed.

Lemma unset_count_range inst : 0 <= unset_count inst <= 5.
Proof. unfold unset_count. repeat case_bool_decide; simpl; lia. Qed.

Lemma strlen_sprintf_bound items :
  Forall fmt_item_ok items -> (strlen (sprintf items) <= fmt_bound items)%nat.
Proof.
  induction 1 as [|[s|z] items Hi _ IH]; simpl; [done|..];
    rewrite strlen_append; [lia|].
  pose proof (strlen_print_int z Hi). lia.
Qed.

Lemma geom_items_ok inst : geometry_ints inst -> Forall fmt_item_ok (geom_items inst).
Proof.
  intros (Hw & Hh & Hx & Hy). unfold geom_items.
  repeat case_match; repeat (apply Forall_cons_2; [done|]); apply Forall_nil_2.
Qed.

(** The longest geometry: four numbers of 11 characters and three
    separators. *)
Lemma strlen_geom_items inst :
  geometry_ints inst -> (strlen (sprintf (geom_items inst)) <= 47)%nat.
Proof.
  intros H. etrans; [by apply strlen_sprintf_bound, geom_items_ok|].
  unfold geom_items. repeat case_match; simpl; lia.
Qed.

(** The number of arguments written is the count less the tri-state
    options left unset. *)
Lemma length_nargv_of argv0 inst :
  Z.of_nat (length (nargv_of argv0 inst)) = nargc_of inst - unset_count inst.
Proof.
  unfold nargv_of, nargc_of, unset_count.
  rewrite !length_app, !Nat2Z.inj_add, !length_arg_str, !length_arg_flag.
  pose proof (length_arg_tri "-l" (login_shell inst)).
  pose proof (length_arg_tri "--active-links" (active_links inst)).
  pose proof (length_arg_tri "-m" (video_mute inst)).
  pose proof (length_arg_tri "-c" (cursor_blink inst)).
  pose proof (length_arg_tri "-G" (visual_bell inst)).
  destruct (has_geometry inst); simpl length; simpl add_if; lia.
Qed.

(** The array is always allocated large enough for the writes. *)
Lemma nargv_array_eq argv0 inst :
  nargv_array argv0 inst =
  Some ((Some <$> nargv_of argv0 inst)
        ++ replicate (Z.to_nat (nargc_of inst + 1) - length (nargv_of argv0 inst)) None).
Proof.
  pose proof (length_nargv_of argv0 inst). pose proof (unset_count_range inst).
  unfold nargv_array. by rewrite decide_True by lia.
Qed.

(** Without truncation [snprintf] is [sprintf]. *)
Lemma geom_of_sprintf inst :
  geometry_ints inst -> geom_of inst = sprintf (geom_items inst).
Proof.
  intros H. pose proof (strlen_geom_items inst H).
  unfold geom_of, snprintf. by rewrite c_truncate_id by (unfold GEOM_SIZE; lia).
Qed.

(** C12: the number of arguments counted is the number written plus the
    number of tri-state options left unset. *)
Theorem nargc_of_written argv0 inst :
  nargc_of inst = Z.of_nat (length (nargv_of argv0 inst)) + unset_count inst.
Proof. rewrite length_nargv_of. lia. Qed.

(** C4: [main_ipc_new] never writes outside the block it allocated: the
    array has [nargc + 1] entries, and the one after the last argument
    written is still [NULL]. *)
Theorem nargv_array_safe argv0 inst :
  exists arr, nargv_array argv0 inst = Some arr
    /\ Z.of_nat (length arr) = nargc_of inst + 1
    /\ arr !! length (nargv_of argv0 inst) = Some None.
Proof.
  pose proof (length_nargv_of argv0 inst) as Hn.
  pose proof (unset_count_range inst) as Hu.
  rewrite nargv_array_eq. eexists; split; [done|split].
  - rewrite length_app, length_fmap, length_replicate. lia.
  - rewrite lookup_app_r, length_fmap, Nat.sub_diag by (by rewrite length_fmap).
    apply lookup_replicate_2. lia.
Qed.

(** C15: when a tri-state option of the instance is unset, the count handed
    to [ecore_app_args_set] exceeds the arguments written: the entry at
    [nargc - 1] is [NULL]. *)
Theorem nargv_array_hole argv0 inst :
  0 < unset_count inst ->
  exists arr, nargv_array argv0 inst = Some arr
    /\ arr !! Z.to_nat (nargc_of inst - 1) = Some None.
Proof.
  intros Hu. pose proof (length_nargv_of argv0 inst) as Hn.
  rewrite nargv_array_eq. eexists; split; [done|].
  rewrite lookup_app_r; rewrite length_fmap; [|lia].
  apply lookup_replicate_2. lia.
Qed.

Lemma nargv_array_hole_witness :
  exists arr, nargv_array "terminology" demo_instance = Some arr
    /\ arr !! Z.to_nat (nargc_of demo_instance - 1) = Some None.
Proof. apply (nargv_array_hole "terminology" demo_instance). reflexivity. Defined.

(** The geometry of an instance whose size and position are [int]s
    fits the buffer [geom]: nothing is cut. *)
Theorem geom_of_fits inst :
  geometry_ints inst ->
  geom_of inst = sprintf (geom_items inst)
  /\ (strlen (geom_of inst) < GEOM_SIZE)%nat.
Proof.
  intros H. pose proof (strlen_geom_items inst H) as Hlen.
  split; [by apply geom_of_sprintf|].
  rewrite geom_of_sprintf by done. unfold GEOM_SIZE. lia.
Qed.

Lemma geom_of_fits_witness :
  geom_of demo_instance = sprintf (geom_items demo_instance)
  /\ (strlen (geom_of demo_instance) < GEOM_SIZE)%nat.
Proof.
  apply (geom_of_fits demo_instance).
  unfold geometry_ints, in_int, INT_MIN, INT_MAX. simpl. lia.
Defined.
