(* ===== verification/Geometry.v ===== *)
(** * Geometry: reading a geometry in [elm_main]

    [elm_main] reads the argument of [-g] with a cascade of nine [sscanf]
    calls, each with its own format, and keeps the first that converts
    every number.  A call that fails has still stored the numbers it
    converted before it failed; the model keeps those stores.  After the
    cascade, a geometry that gave no size takes the size of the
    configuration or 80 by 24.

    [sscanf] is modelled over the two directives the formats use: a
    literal character, which must be the next character of the input, and
    ["%i"], which is [scan_int] of [CString]. *)

From Stdlib Require Import ZArith Lia List Ascii String.
From stdpp Require Import base tactics option list strings.
From S2P Require Import Prelude CString Config Instance Argv.

(** ** [sscanf] *)

Inductive scan_item :=
| SLit (c : ascii)
| SInt.

(** The numbers a call converts, in order; the call returns their
    count. *)
Fixpoint sscanf (input : string) (fmt : list scan_item) : list Z :=
  match fmt with
  | [] => []
  | SLit c :: fmt' =>
    match input with
    | String a rest => if decide (a = c) then sscanf rest fmt' else []
    | "" => []
    end
  | SInt :: fmt' =>
    match scan_int input with
    | Some (v, rest) => v :: sscanf rest fmt'
    | None => []
    end
  end.

(** The formats of the cascade. *)
Definition fmt_wh_xy (sx sy : ascii) : list scan_item :=
  [SInt; SLit "x"; SInt; SLit sx; SInt; SLit sy; SInt].
Definition fmt_wh : list scan_item := [SInt; SLit "x"; SInt].
Definition fmt_xy (sx sy : ascii) : list scan_item :=
  [SLit sx; SInt; SLit sy; SInt].

(** ** Stores *)

(** The variables a conversion is stored in. *)
Inductive target := TW | TH | TX | TY.

Definition store (t : target) (v : Z) (inst : Ipc_Instance) : Ipc_Instance :=
  match t with
  | TW => set_w v inst
  | TH => set_h v inst
  | TX => set_x v inst
  | TY => set_y v inst
  end.

(** The numbers converted go to the first targets. *)
Fixpoint store_all (ts : list target) (vs : list Z) (inst : Ipc_Instance) : Ipc_Instance :=
  match ts, vs with
  | t :: ts', v :: vs' => store_all ts' vs' (store t v inst)
  | _, _ => inst
  end.

(** One call: the count returned and the instance after the stores. *)
Definition try_scan (geometry : string) (fmt : list scan_item)
    (ts : list target) (inst : Ipc_Instance) : nat * Ipc_Instance :=
  let vs := sscanf geometry fmt in (length vs, store_all ts vs inst).

(** [instance.x = -instance.x] on an [int]. *)
Definition neg_x (inst : Ipc_Instance) : Ipc_Instance :=
  set_x (wrap_int (- x inst)) inst.
Definition neg_y (inst : Ipc_Instance) : Ipc_Instance :=
  set_y (wrap_int (- y inst)) inst.
Definition mark_pos (inst : Ipc_Instance) : Ipc_Instance :=
  set_pos EINA_TRUE inst.

(** ** The cascade *)

(** One arm of the cascade: the format, its targets, the count that
    makes it succeed, what is done on success and whether the size is
    then set. *)
Record arm := mkArm {
  arm_fmt : list scan_item;
  arm_targets : list target;
  arm_count : nat;
  arm_fix : Ipc_Instance -> Ipc_Instance;
  arm_size_set : bool
}.

Definition geometry_arms : list arm :=
  [ mkArm (fmt_wh_xy "+" "+") [TW; TH; TX; TY] 4 mark_pos true;
    mkArm (fmt_wh_xy "-" "+") [TW; TH; TX; TY] 4
      (fun i => mark_pos (neg_x i)) true;
    mkArm (fmt_wh_xy "-" "-") [TW; TH; TX; TY] 4
      (fun i => mark_pos (neg_y (neg_x i))) true;
    mkArm (fmt_wh_xy "+" "-") [TW; TH; TX; TY] 4
      (fun i => mark_pos (neg_y i)) true;
    mkArm fmt_wh [TW; TH] 2 id true;
    mkArm (fmt_xy "+" "+") [TX; TY] 2 mark_pos false;
    mkArm (fmt_xy "-" "+") [TX; TY] 2 (fun i => mark_pos (neg_x i)) false;
    mkArm (fmt_xy "+" "-") [TX; TY] 2 (fun i => mark_pos (neg_y i)) false;
    mkArm (fmt_xy "-" "-") [TX; TY] 2
      (fun i => mark_pos (neg_y (neg_x i))) false ].

(** The [if ... else if ...] chain: the first arm whose call converts
    every number ends it; the stores of the calls before it stay. *)
Fixpoint run_arms (arms : list arm) (geometry : string)
    (inst : Ipc_Instance) : Ipc_Instance * bool :=
  match arms with
  | [] => (inst, false)
  | a :: arms' =>
    let '(n, inst') := try_scan geometry (arm_fmt a) (arm_targets a) inst in
    if decide (n = arm_count a) then (arm_fix a inst', arm_size_set a)
    else run_arms arms' geometry inst'
  end.

Definition parse_geometry (geometry : string) (inst : Ipc_Instance) : Ipc_Instance * bool :=
  run_arms geometry_arms geometry inst.

(** The size when the geometry gave none: the custom geometry of the
    configuration, or 80 by 24. *)
Definition default_size (inst : Ipc_Instance) : Ipc_Instance :=
  if truthy (Cfg.custom_geometry (config inst))
  then set_h (Cfg.cg_height (config inst)) (set_w (Cfg.cg_width (config inst)) inst)
  else set_h 24 (set_w 80 inst).

(** The geometry part of [elm_main]: the cascade when [-g] was given,
    then the default size unless a size was read. *)
Definition elm_main_geometry (geometry : option string) (inst : Ipc_Instance) : Ipc_Instance :=
  let '(inst, size_set) :=
    match geometry with
    | Some g => parse_geometry g inst
    | None => (inst, false)
    end in
  if size_set then inst else default_size inst.

(** ** The shapes of a printed geometry *)

(** The sign a number is printed after. *)
Definition sign_char (neg : bool) : ascii := if neg then "-"%char else "+"%char.

(** [WxH] followed by a signed position; the numbers after the signs
    are magnitudes. *)
Definition full_str (W H : Z) (nx : bool) (X : Z) (ny : bool) (Y : Z) : string :=
  print_int W +:+ String "x" (print_int H +:+
    String (sign_char nx) (print_int X +:+ String (sign_char ny) (print_int Y))).

Definition pos_str (nx : bool) (X : Z) (ny : bool) (Y : Z) : string :=
  String (sign_char nx) (print_int X +:+ String (sign_char ny) (print_int Y)).

Definition size_str (W H : Z) : string :=
  print_int W +:+ String "x" (print_int H).

(** A magnitude of an [int] other than [INT_MIN]. *)
Definition magnitude (n : Z) : Prop := 0 <= n <= INT_MAX.

(** What a geometry is read for: size and position. *)
Definition geom_fields (inst : Ipc_Instance) : Z * Z * Z * Z * Z :=
  (w inst, h inst, x inst, y inst, pos inst).

Example elm_main_geometry_ex :
  let i0 := initial_instance None Cfg.demo_config in
  geom_fields (elm_main_geometry (Some "80x24+5-7") i0) = (80, 24, 5, -7, 1) /\
  geom_fields (elm_main_geometry (Some "100x30") i0) = (100, 30, 0, 0, 0) /\
  geom_fields (elm_main_geometry (Some "-5+7") i0) = (80, 24, -5, 7, 1) /\
  geom_fields (elm_main_geometry (Some "+0-0") i0) = (80, 24, 0, 0, 1) /\
  geom_fields (elm_main_geometry (Some "0x10+1+1") i0) = (80, 24, 0, 0, 0) /\
  geom_fields (elm_main_geometry (Some "bogus") i0) = (80, 24, 0, 0, 0) /\
  geom_fields (elm_main_geometry None i0) = (80, 24, 0, 0, 0).
Proof. by vm_compute. Qed.

(** ** Lemmas *)

Lemma magnitude_abs z : in_int z -> INT_MIN < z -> magnitude (Z.abs z).
Proof. unfold in_int, magnitude, INT_MIN, INT_MAX. lia. Qed.

Lemma magnitude_in_int n : magnitude n -> in_int n /\ 0 <= n.
Proof. unfold in_int, magnitude, INT_MIN, INT_MAX. lia. Qed.

(** The last number of a geometry, at the end of the input. *)
Lemma scan_int_last n :
  magnitude n -> scan_int (print_int n) = Some (n, "").
Proof.
  intros [Hin Hn]%magnitude_in_int.
  rewrite <- (append_nil_r (print_int n)) at 1. by apply scan_int_bare.
Qed.

(** A number before a sign. *)
Lemma scan_int_before_sign n neg rest :
  magnitude n ->
  scan_int (print_int n +:+ String (sign_char neg) rest)
  = Some (n, String (sign_char neg) rest).
Proof. intros [Hin Hn]%magnitude_in_int. by apply scan_int_bare; destruct neg. Qed.

(** A number behind its sign: ["%i"] takes the sign with it. *)
Lemma scan_int_after_sign n neg neg' rest :
  magnitude n ->
  scan_int (String (sign_char neg) (print_int n +:+ String (sign_char neg') rest))
  = Some ((if neg then - n else n), String (sign_char neg') rest).
Proof.
  intros [Hin Hn]%magnitude_in_int.
  destruct neg; [apply scan_int_minus|apply scan_int_plus]; by destruct neg'.
Qed.

(** The width, before the [x]: it must not be 0, or [0x] would announce
    a hexadecimal number. *)
Lemma scan_int_width W rest :
  in_int W -> W <> 0 ->
  scan_int (print_int W +:+ String "x" rest) = Some (W, String "x" rest).
Proof. intros. by apply scan_int_print_int. Qed.

(** *** What each call of the cascade converts *)

(** A position [sX sY] read by the tail of a format: the signs must be
    the literals [ca] and [cb]. *)
Lemma sscanf_xy nx X ny Y ca cb :
  magnitude X -> magnitude Y ->
  sscanf (pos_str nx X ny Y) (fmt_xy ca cb) =
  if decide (sign_char nx = ca)
  then X :: (if decide (sign_char ny = cb) then [Y] else []) else [].
Proof.
  intros HX HY. unfold pos_str, fmt_xy. simpl.
  case_decide; [|done]. rewrite scan_int_before_sign by done. simpl.
  case_decide; [|done]. by rewrite scan_int_last.
Qed.

Lemma sscanf_full W H nx X ny Y ca cb :
  in_int W -> W <> 0 -> magnitude H -> magnitude X -> magnitude Y ->
  sscanf (full_str W H nx X ny Y) (fmt_wh_xy ca cb) =
  W :: H :: sscanf (pos_str nx X ny Y) (fmt_xy ca cb).
Proof.
  intros HW HW0 HH HX HY. unfold full_str, fmt_wh_xy. simpl.
  rewrite scan_int_width by done. simpl.
  by rewrite scan_int_before_sign.
Qed.

Lemma sscanf_full_wh W H nx X ny Y :
  in_int W -> W <> 0 -> magnitude H ->
  sscanf (full_str W H nx X ny Y) fmt_wh = [W; H].
Proof.
  intros HW HW0 HH. unfold full_str, fmt_wh. simpl.
  rewrite scan_int_width by done. simpl.
  by rewrite scan_int_before_sign.
Qed.

(** A size alone: both numbers are read, and a format that wants more
    stops at the end of the input. *)
Lemma sscanf_size W H fmt :
  in_int W -> W <> 0 -> in_int H ->
  sscanf (size_str W H) (SInt :: SLit "x" :: SInt :: fmt) =
  W :: H :: sscanf "" fmt.
Proof.
  intros HW HW0 HH. unfold size_str. simpl.
  rewrite scan_int_width by done. simpl.
  rewrite <- (append_nil_r (print_int H)).
  by rewrite scan_int_print_int.
Qed.

(** A position alone, read by a format that starts with the size: the
    first number is taken with its sign, and the [x] is missing. *)
Lemma sscanf_pos_wh nx X ny Y fmt :
  magnitude X ->
  sscanf (pos_str nx X ny Y) (SInt :: SLit "x" :: fmt) =
  [if nx then - X else X].
Proof.
  intros HX. unfold pos_str. simpl.
  rewrite scan_int_after_sign by done. simpl. by destruct ny.
Qed.

(** *** The cascade on each shape *)

Ltac run_cascade :=
  unfold elm_main_geometry, parse_geometry, geometry_arms;
  cbn [run_arms try_scan arm_fmt arm_targets arm_count arm_fix arm_size_set].

Lemma parse_full W H nx X ny Y inst0 :
  in_int W -> W <> 0 -> magnitude H -> magnitude X -> magnitude Y ->
  geom_fields (elm_main_geometry (Some (full_str W H nx X ny Y)) inst0) =
  (W, H, (if nx then - X else X), (if ny then - Y else Y), EINA_TRUE).
Proof.
  intros HW HW0 HH HX HY. run_cascade.
  rewrite !sscanf_full, !sscanf_xy by done.
  assert (in_int (- X) /\ in_int (- Y)) as [HnX HnY].
  { unfold magnitude, in_int, INT_MIN, INT_MAX in *. lia. }
  destruct nx, ny; simpl; unfold geom_fields; simpl;
    by rewrite ?wrap_int_id.
Qed.

Lemma parse_pos nx X ny Y inst0 :
  magnitude X -> magnitude Y ->
  geom_fields (elm_main_geometry (Some (pos_str nx X ny Y)) inst0) =
  (w (default_size inst0), h (default_size inst0),
   (if nx then - X else X), (if ny then - Y else Y), EINA_TRUE).
Proof.
  intros HX HY. run_cascade. unfold fmt_wh_xy, fmt_wh.
  rewrite !sscanf_pos_wh, !sscanf_xy by done.
  assert (in_int (- X) /\ in_int (- Y)) as [HnX HnY].
  { unfold magnitude, in_int, INT_MIN, INT_MAX in *. lia. }
  unfold default_size.
  destruct nx, ny; simpl; unfold geom_fields;
    destruct (truthy _); simpl; by rewrite ?wrap_int_id.
Qed.

Lemma parse_size W H inst0 :
  in_int W -> W <> 0 -> in_int H ->
  geom_fields (elm_main_geometry (Some (size_str W H)) inst0) =
  (W, H, x inst0, y inst0, pos inst0).
Proof.
  intros HW HW0 HH. run_cascade. unfold fmt_wh_xy, fmt_wh.
  rewrite !sscanf_size by done. by simpl.
Qed.

(** *** The shape [main_ipc_new] prints *)

(** A number printed with ["+%i"] when it is not negative and with
    ["%i"] when it is: in both cases a sign and the magnitude. *)
Lemma sprintf_signed z items :
  sprintf (if 0 <=? z then [Lit "+"; Int z] ++ items else Int z :: items) =
  String (sign_char (z <? 0)) (print_int (Z.abs z) +:+ sprintf items).
Proof.
  destruct (Z.leb_spec 0 z), (Z.ltb_spec z 0); try lia; simpl.
  - by rewrite Z.abs_eq.
  - by rewrite print_int_neg, Z.abs_neq by lia.
Qed.

Lemma geom_items_pos inst :
  truthy (pos inst) = true ->
  geom_items inst =
  (if (0 <? w inst) && (0 <? h inst)
   then [Int (w inst); Lit "x"; Int (h inst)] else []) ++
  (if 0 <=? x inst then [Lit "+"; Int (x inst)] ++
     (if 0 <=? y inst then [Lit "+"; Int (y inst)] ++ [] else [Int (y inst)])
   else Int (x inst) ::
     (if 0 <=? y inst then [Lit "+"; Int (y inst)] ++ [] else [Int (y inst)])).
Proof.
  intros Hp. unfold geom_items. rewrite Hp. simpl.
  by destruct (_ && _), (0 <=? x inst), (0 <=? y inst).
Qed.

Lemma sprintf_position inst :
  sprintf
    (if 0 <=? x inst then [Lit "+"; Int (x inst)] ++
       (if 0 <=? y inst then [Lit "+"; Int (y inst)] ++ [] else [Int (y inst)])
     else Int (x inst) ::
       (if 0 <=? y inst then [Lit "+"; Int (y inst)] ++ [] else [Int (y inst)]))
  = pos_str (x inst <? 0) (Z.abs (x inst)) (y inst <? 0) (Z.abs (y inst)).
Proof.
  rewrite sprintf_signed. unfold pos_str. do 2 f_equal.
  rewrite (sprintf_signed (y inst) []). simpl. by rewrite append_nil_r.
Qed.

Lemma sprintf_geom_full inst :
  truthy (pos inst) = true -> 0 < w inst -> 0 < h inst ->
  sprintf (geom_items inst) =
  full_str (w inst) (h inst) (x inst <? 0) (Z.abs (x inst))
    (y inst <? 0) (Z.abs (y inst)).
Proof.
  intros Hp Hw Hh. rewrite (geom_items_pos inst Hp).
  rewrite (proj2 (Z.ltb_lt 0 _) Hw), (proj2 (Z.ltb_lt 0 _) Hh).
  cbn [andb app sprintf]. by rewrite sprintf_position.
Qed.

Lemma sprintf_geom_pos inst :
  truthy (pos inst) = true -> (0 <? w inst) && (0 <? h inst) = false ->
  sprintf (geom_items inst) =
  pos_str (x inst <? 0) (Z.abs (x inst)) (y inst <? 0) (Z.abs (y inst)).
Proof.
  intros Hp Hwh. rewrite (geom_items_pos inst Hp), Hwh.
  cbn [app]. apply sprintf_position.
Qed.

Lemma sprintf_geom_size inst :
  truthy (pos inst) = false ->
  sprintf (geom_items inst) = size_str (w inst) (h inst).
Proof.
  intros Hp. unfold geom_items, size_str. rewrite Hp. simpl.
  by rewrite append_nil_r.
Qed.

(** ** The round trip *)

Lemma signed_abs z : (if z <? 0 then - Z.abs z else Z.abs z) = z.
Proof. destruct (Z.ltb_spec z 0); lia. Qed.

(** C3: a full geometry (a position and a positive size) printed by
    [main_ipc_new] is read back by the cascade of [elm_main] as the same
    size and position, whatever the instance held before. *)
Theorem geometry_roundtrip_full inst inst0 :
  geometry_ints inst -> INT_MIN < x inst -> INT_MIN < y inst ->
  truthy (pos inst) = true -> 0 < w inst -> 0 < h inst ->
  geom_fields (elm_main_geometry (Some (geom_of inst)) inst0) =
  (w inst, h inst, x inst, y inst, EINA_TRUE).
Proof.
  intros Hi Hx Hy Hp Hw Hh. rewrite (geom_of_sprintf inst Hi).
  destruct Hi as (HW & HH & HX & HY).
  rewrite sprintf_geom_full, parse_full, !signed_abs;
    auto using magnitude_abs; [lia|].
  unfold magnitude, in_int in *. lia.
Qed.

Lemma geometry_roundtrip_full_witness :
  geom_fields (elm_main_geometry (Some (geom_of demo_instance))
                 (initial_instance None Cfg.demo_config)) =
  (80, 24, 5, -7, EINA_TRUE).
Proof.
  apply (geometry_roundtrip_full demo_instance
           (initial_instance None Cfg.demo_config));
    try reflexivity.
  unfold geometry_ints, in_int, INT_MIN, INT_MAX. simpl. lia.
Defined.

(** A position without a positive size is printed without the size
    and read back as the same position; the size is then the default
    one. *)
Theorem geometry_roundtrip_pos inst inst0 :
  geometry_ints inst -> INT_MIN < x inst -> INT_MIN < y inst ->
  truthy (pos inst) = true -> (0 <? w inst) && (0 <? h inst) = false ->
  geom_fields (elm_main_geometry (Some (geom_of inst)) inst0) =
  (w (default_size inst0), h (default_size inst0), x inst, y inst, EINA_TRUE).
Proof.
  intros Hi Hx Hy Hp Hwh. rewrite (geom_of_sprintf inst Hi).
  destruct Hi as (HW & HH & HX & HY).
  by rewrite sprintf_geom_pos, parse_pos, !signed_abs;
    auto using magnitude_abs.
Qed.

Lemma geometry_roundtrip_pos_witness :
  geom_fields (elm_main_geometry
                 (Some (geom_of (set_w 0 demo_instance)))
                 (initial_instance None Cfg.demo_config)) =
  (80, 24, 5, -7, EINA_TRUE).
Proof.
  apply (geometry_roundtrip_pos (set_w 0 demo_instance)
           (initial_instance None Cfg.demo_config));
    try reflexivity.
  unfold geometry_ints, in_int, INT_MIN, INT_MAX. simpl. lia.
Defined.

(** A size without a position is read back as the same size when the
    width is not 0, and leaves the position as it was. *)
Theorem geometry_roundtrip_size inst inst0 :
  geometry_ints inst -> truthy (pos inst) = false -> w inst <> 0 ->
  geom_fields (elm_main_geometry (Some (geom_of inst)) inst0) =
  (w inst, h inst, x inst0, y inst0, pos inst0).
Proof.
  intros Hi Hp Hw. rewrite (geom_of_sprintf inst Hi).
  destruct Hi as (HW & HH & HX & HY).
  by rewrite sprintf_geom_size, parse_size.
Qed.

Lemma geometry_roundtrip_size_witness :
  geom_fields (elm_main_geometry
                 (Some (geom_of (set_pos 0 demo_instance)))
                 (initial_instance None Cfg.demo_config)) =
  (80, 24, 0, 0, 0).
Proof.
  apply (geometry_roundtrip_size (set_pos 0 demo_instance)
           (initial_instance None Cfg.demo_config));
    [|reflexivity|discriminate].
  unfold geometry_ints, in_int, INT_MIN, INT_MAX. simpl. lia.
Defined.

