(* ===== verification/Waiter.v ===== *)
(** * Waiter: asking a running process for a window, under a watchdog

    [_instance_add_waiter] allocates an [Instance_Add], starts the thread
    [_instance_sleep] on it and calls [ipc_instance_add], which may block
    on a stalled socket.  The watchdog sleeps two seconds; if the call has
    not returned by then it marks the request as timed out and replaces
    the process with a fresh one ([execv]).  The two threads share the
    record through its mutex, and exactly one of them is meant to free
    it: the watchdog when the call returned in time, the waiter when it
    did not.

    The model is an interleaving semantics: a state holds the shared
    record, the program counter and the locals of each thread, and each
    statement of the two functions is one action.  The outcomes of the
    library calls ([calloc], [ipc_instance_add], [execv]) are carried by
    the actions, so a run is a list of actions.  A state also records
    what must not happen: an access to the record after it was freed and
    a mutex destroyed while held. *)

From Stdlib Require Import ZArith Lia List.
From stdpp Require Import base tactics option list relations.
From S2P Require Import Prelude.

(** ** Data *)

Inductive tid := Waiter | Sleeper.

(** The statements of [_instance_add_waiter], by what they do. *)
Inductive wpc :=
| W_alloc | W_create | W_ipc | W_lock | W_crit | W_unlock | W_free
| W_ret | W_end.

(** The statements of [_instance_sleep]; [S_none] before the thread is
    created. *)
Inductive spc :=
| S_none | S_sleep | S_lock | S_crit | S_unlock | S_test | S_conn_free
| S_execv | S_err | S_free | S_ret | S_end.

(** The fields of [struct Instance_Add] the threads write; [lock] is the
    owner of the mutex. *)
Record Instance_Add := mkAdd {
  done : bool;
  timedout : bool;
  lock : option tid
}.

Record state := mkState {
  add : Instance_Add;
  allocated : bool;       (* [calloc] returned the record *)
  frees : nat;            (* calls of [free (add)] so far *)
  uaf : bool;             (* [add] was accessed after it was freed *)
  bad_destroy : bool;     (* the mutex was destroyed while held *)
  pcw : wpc;
  pcs : spc;
  result : bool;          (* the local [result] of the waiter *)
  w_timedout : bool;      (* the local [timedout] of the waiter *)
  s_timedout : bool;      (* the local [timedout] of the watchdog *)
  ipc_result : bool;      (* what [ipc_instance_add] returned *)
  execd : bool            (* [execv] replaced the process *)
}.

(** One statement of one thread, with the outcome of the library call
    it makes. *)
Inductive action :=
| AAlloc (ok : bool) | ACreate (ok : bool) | AIpc (r : bool) | AWLock | AWCrit
| AWUnlock | AWFree | AWRet
| ASleep | ASLock | ASCrit | ASUnlock | ASTest | AConnFree
| AExecv (ok : bool) | AErr | ASFree | ASRet.

#[global] Instance tid_eq_dec : EqDecision tid.
Proof. solve_decision. Defined.
#[global] Instance wpc_eq_dec : EqDecision wpc.
Proof. solve_decision. Defined.
#[global] Instance spc_eq_dec : EqDecision spc.
Proof. solve_decision. Defined.
#[global] Instance Instance_Add_eq_dec : EqDecision Instance_Add.
Proof. solve_decision. Defined.
#[global] Instance state_eq_dec : EqDecision state.
Proof. solve_decision. Defined.
#[global] Instance action_eq_dec : EqDecision action.
Proof. solve_decision. Defined.

Definition all_actions : list action :=
  [AAlloc true; AAlloc false; ACreate true; ACreate false; AIpc true; AIpc false; AWLock;
   AWCrit; AWUnlock; AWFree; AWRet; ASleep; ASLock; ASCrit; ASUnlock;
   ASTest; AConnFree; AExecv true; AExecv false; AErr; ASFree; ASRet].

(** ** State updates *)

Definition set_add (v : Instance_Add) (s : state) : state :=
  mkState v (allocated s) (frees s) (uaf s) (bad_destroy s) (pcw s) (pcs s) (result s)
    (w_timedout s) (s_timedout s) (ipc_result s) (execd s).
Definition set_allocated (v : bool) (s : state) : state :=
  mkState (add s) v (frees s) (uaf s) (bad_destroy s) (pcw s) (pcs s) (result s)
    (w_timedout s) (s_timedout s) (ipc_result s) (execd s).
Definition set_pcw (v : wpc) (s : state) : state :=
  mkState (add s) (allocated s) (frees s) (uaf s) (bad_destroy s) v (pcs s) (result s)
    (w_timedout s) (s_timedout s) (ipc_result s) (execd s).
Definition set_pcs (v : spc) (s : state) : state :=
  mkState (add s) (allocated s) (frees s) (uaf s) (bad_destroy s) (pcw s) v (result s)
    (w_timedout s) (s_timedout s) (ipc_result s) (execd s).
Definition set_result (v : bool) (s : state) : state :=
  mkState (add s) (allocated s) (frees s) (uaf s) (bad_destroy s) (pcw s) (pcs s) v
    (w_timedout s) (s_timedout s) (ipc_result s) (execd s).
Definition set_w_timedout (v : bool) (s : state) : state :=
  mkState (add s) (allocated s) (frees s) (uaf s) (bad_destroy s) (pcw s) (pcs s) (result s)
    v (s_timedout s) (ipc_result s) (execd s).
Definition set_s_timedout (v : bool) (s : state) : state :=
  mkState (add s) (allocated s) (frees s) (uaf s) (bad_destroy s) (pcw s) (pcs s) (result s)
    (w_timedout s) v (ipc_result s) (execd s).
Definition set_ipc_result (v : bool) (s : state) : state :=
  mkState (add s) (allocated s) (frees s) (uaf s) (bad_destroy s) (pcw s) (pcs s) (result s)
    (w_timedout s) (s_timedout s) v (execd s).
Definition set_execd (v : bool) (s : state) : state :=
  mkState (add s) (allocated s) (frees s) (uaf s) (bad_destroy s) (pcw s) (pcs s) (result s)
    (w_timedout s) (s_timedout s) (ipc_result s) v.

(** An access to a field of [add]: an error once it was freed. *)
Definition touch (s : state) : state :=
  mkState (add s) (allocated s) (frees s) (uaf s || bool_decide (0 < frees s)%nat)
    (bad_destroy s) (pcw s) (pcs s) (result s)
    (w_timedout s) (s_timedout s) (ipc_result s) (execd s).

(** [_instance_add_free]: nothing for a null pointer; otherwise the
    mutex is destroyed and the record freed. *)
Definition _instance_add_free (s : state) : state :=
  if allocated s then
    let s := touch s in
    mkState (add s) (allocated s) (S (frees s)) (uaf s)
      (bad_destroy s || bool_decide (is_Some (lock (add s))))
      (pcw s) (pcs s) (result s)
      (w_timedout s) (s_timedout s) (ipc_result s) (execd s)
  else s.

(** [pthread_mutex_lock]: enabled when nobody holds the mutex. *)
Definition mutex_lock (t : tid) (s : state) : option state :=
  match lock (add s) with
  | None => Some (set_add (mkAdd (done (add s)) (timedout (add s)) (Some t)) (touch s))
  | Some _ => None
  end.

Definition mutex_unlock (s : state) : state :=
  set_add (mkAdd (done (add s)) (timedout (add s)) None) (touch s).

(** ** The two threads *)

(** The state before [_instance_add_waiter] runs: [calloc] zeroes the
    record. *)
Definition init : state :=
  mkState (mkAdd false false None) false 0 false false W_alloc S_none
    true false false false false.

(** [_instance_add_waiter], one statement at a time. *)
Definition step_waiter (a : action) (s : state) : option state :=
  match a, pcw s with
  | AAlloc true, W_alloc => Some (set_allocated true (set_pcw W_create s))
  | AAlloc false, W_alloc => Some (set_result false (set_pcw W_end s))
  | ACreate ok, W_create =>
    Some (set_pcs (if ok then S_sleep else S_none) (set_pcw W_ipc (touch s)))
  | AIpc r, W_ipc =>
    Some (set_ipc_result r (set_result r (set_pcw W_lock (touch s))))
  | AWLock, W_lock => set_pcw W_crit <$> mutex_lock Waiter s
  | AWCrit, W_crit =>
    let s := touch s in
    let s := set_add (mkAdd true (timedout (add s)) (lock (add s))) s in
    let s :=
      if timedout (add s)
      then set_result false
             (set_w_timedout true
                (set_add (mkAdd (done (add s)) true (lock (add s))) s))
      else s in
    Some (set_pcw W_unlock s)
  | AWUnlock, W_unlock => Some (set_pcw W_free (mutex_unlock s))
  | AWFree, W_free =>
    Some (set_pcw W_ret (if w_timedout s then _instance_add_free s else s))
  | AWRet, W_ret => Some (set_pcw W_end s)
  | _, _ => None
  end.

(** [_instance_sleep], one statement at a time. *)
Definition step_sleeper (a : action) (s : state) : option state :=
  match a, pcs s with
  | ASleep, S_sleep => Some (set_pcs S_lock s)
  | ASLock, S_lock => set_pcs S_crit <$> mutex_lock Sleeper s
  | ASCrit, S_crit =>
    let s := touch s in
    let s :=
      if done (add s) then s
      else set_s_timedout true
             (set_add (mkAdd (done (add s)) true (lock (add s))) s) in
    Some (set_pcs S_unlock s)
  | ASUnlock, S_unlock => Some (set_pcs S_test (mutex_unlock s))
  | ASTest, S_test =>
    Some (set_pcs (if s_timedout s then S_conn_free else S_free) s)
  | AConnFree, S_conn_free => Some (set_pcs S_execv s)
  | AExecv true, S_execv => Some (set_execd true (set_pcs S_end (touch s)))
  | AExecv false, S_execv => Some (set_pcs S_err (touch s))
  | AErr, S_err => Some (set_pcs S_ret (touch s))
  | ASFree, S_free => Some (set_pcs S_ret (_instance_add_free s))
  | ASRet, S_ret => Some (set_pcs S_end s)
  | _, _ => None
  end.

(** One step of the process: a statement of either thread, unless
    [execv] has replaced the process. *)
Definition step (a : action) (s : state) : option state :=
  if execd s then None
  else match step_waiter a s with
       | Some s' => Some s'
       | None => step_sleeper a s
       end.

(** A run: the actions taken, in order. *)
Fixpoint run (acts : list action) (s : state) : option state :=
  match acts with
  | [] => Some s
  | a :: acts' => s' ← step a s; run acts' s'
  end.

Definition steps (s s' : state) : Prop := exists a, step a s = Some s'.

Definition reachable (s : state) : Prop := rtc steps init s.

(** The successors of a state. *)
Definition successors (s : state) : list state :=
  omap (fun a => step a s) all_actions.

(** Both threads are at their end, or the process was replaced, or the
    allocation failed. *)
Definition final (s : state) : bool :=
  execd s
  || (bool_decide (pcw s = W_end)
      && (bool_decide (pcs s = S_end) || bool_decide (pcs s = S_none))).

(** A bound on the statements still to run: each step lowers it.  The
    first two statements of the waiter weigh more than the whole
    watchdog, which the second of them starts. *)
Definition wpc_left (p : wpc) : nat :=
  match p with
  | W_alloc => 18 | W_create => 17 | W_ipc => 6 | W_lock => 5 | W_crit => 4
  | W_unlock => 3 | W_free => 2 | W_ret => 1 | W_end => 0
  end.

Definition spc_left (p : spc) : nat :=
  match p with
  | S_none => 10 | S_sleep => 9 | S_lock => 8 | S_crit => 7 | S_unlock => 6
  | S_test => 5 | S_conn_free => 4 | S_execv => 3 | S_err => 2 | S_free => 2
  | S_ret => 1 | S_end => 0
  end.

Definition steps_left (s : state) : nat := wpc_left (pcw s) + spc_left (pcs s).

(** ** The reachable states, computed *)

(** Add the states of [new] and their successors to [seen], [fuel]
    levels deep. *)
Fixpoint explore (fuel : nat) (seen new : list state) : list state :=
  match fuel with
  | O => seen
  | S fuel' =>
    let fresh := List.filter (fun s => negb (bool_decide (s ∈ seen))) new in
    match fresh with
    | [] => seen
    | _ =>
      explore fuel' (remove_dups (fresh ++ seen))
        (remove_dups (fresh ≫= successors))
    end
  end.

(** No run is longer than [steps_left init], so that many levels reach
    every state. *)
Definition reach_list : list state :=
  explore (S (steps_left init)) [] [init].

(** Every successor of a state of [l] is in [l]. *)
Definition closed (l : list state) : bool :=
  forallb (fun s => forallb (fun s' => bool_decide (s' ∈ l)) (successors s)) l.

(** ** What the two functions promise *)

(** The critical sections. *)
Definition in_crit_w (s : state) : bool :=
  bool_decide (pcw s = W_crit) || bool_decide (pcw s = W_unlock).
Definition in_crit_s (s : state) : bool :=
  bool_decide (pcs s = S_crit) || bool_decide (pcs s = S_unlock).

(** The mutex is held by the thread that is in its critical section. *)
Definition lock_owner (s : state) : option tid :=
  if in_crit_w s then Some Waiter
  else if in_crit_s s then Some Sleeper
  else None.

(** The waiter has returned. *)
Definition returned (s : state) : bool := bool_decide (pcw s = W_end).

(** The watchdog was started. *)
Definition started (s : state) : bool := negb (bool_decide (pcs s = S_none)).

(** What [_instance_add_waiter] returns: the answer of
    [ipc_instance_add] when it came before the watchdog timed out. *)
Definition waiter_spec (s : state) : bool :=
  allocated s && ipc_result s && negb (timedout (add s)).

(** The record is released as it should be once both threads are at
    their end: freed once when it was allocated, never otherwise. *)
Definition released (s : state) : bool :=
  bool_decide (frees s = if allocated s then 1%nat else 0%nat).

(** A state with a step to take, or a final one. *)
Definition live (s : state) : bool :=
  final s || negb (bool_decide (successors s = [])).

(** ** Three runs *)

(** The call answers in time: the watchdog finds [done] set and frees
    the record. *)
Definition quick_run : list action :=
  [AAlloc true; ACreate true; AIpc true; AWLock; AWCrit; AWUnlock; AWFree;
   AWRet; ASleep; ASLock; ASCrit; ASUnlock; ASTest; ASFree; ASRet].

(** The watchdog times out, the call then returns, the waiter frees the
    record, and the watchdog reads it for [execv]. *)
Definition race_run : list action :=
  [AAlloc true; ACreate true; ASleep; ASLock; ASCrit; ASUnlock; ASTest;
   AIpc true; AWLock; AWCrit; AWUnlock; AWFree; AConnFree; AExecv true].

(** [pthread_create] fails, which the code does not test: nobody is
    left to free the record. *)
Definition leak_run : list action :=
  [AAlloc true; ACreate false; AIpc true; AWLock; AWCrit; AWUnlock; AWFree;
   AWRet].

(** The watchdog is in its critical section while the call is still
    pending. *)
Definition crit_run : list action :=
  [AAlloc true; ACreate true; ASleep; ASLock].

(** The state a run from [init] ends in ([init] when it is no run). *)
Definition state_after (acts : list action) : state :=
  default init (run acts init).

(** ** Steps, runs and the computed set *)

#[local] Open Scope nat_scope.

Lemma all_actions_complete a : a ∈ all_actions.
Proof.
  apply (bool_decide_unpack _).
  by destruct a as [[]|[]|[]| | | | | | | | | | | |[]| | | ].
Qed.

Lemma successors_steps s s' : s' ∈ successors s <-> steps s s'.
Proof.
  unfold successors, steps. rewrite list_elem_of_omap. split.
  - intros (a & _ & H). by exists a.
  - intros (a & H). exists a. split; [apply all_actions_complete | done].
Qed.

Lemma closed_steps l s s' : closed l = true -> s ∈ l -> steps s s' -> s' ∈ l.
Proof.
  intros Hc Hs Hstep. apply successors_steps in Hstep.
  pose proof (forallb_elem_of _ _ _ Hc Hs) as Hs'. simpl in Hs'.
  pose proof (forallb_elem_of _ _ _ Hs' Hstep) as Hin. simpl in Hin.
  by apply bool_decide_eq_true in Hin.
Qed.

Lemma reach_list_closed : closed reach_list = true.
Proof. by vm_compute. Qed.

Lemma reach_list_init : init ∈ reach_list.
Proof. apply (bool_decide_unpack _). by vm_compute. Qed.

(** Rule induction on the runs: the computed set holds every reachable
    state. *)
Lemma reachable_in_list s : reachable s -> s ∈ reach_list.
Proof.
  apply (rtc_ind_r (fun s => s ∈ reach_list)); [apply reach_list_init|].
  intros y z _ Hstep Hy. exact (closed_steps _ _ _ reach_list_closed Hy Hstep).
Qed.

(** A boolean property checked on the computed set holds of every
    reachable state. *)
Lemma reachable_check (p : state -> bool) s :
  forallb p reach_list = true -> reachable s -> p s = true.
Proof.
  intros Hp Hs. exact (forallb_elem_of _ _ _ Hp (reachable_in_list _ Hs)).
Qed.

(** [explored p H]: replace [H : reachable s] by [H : p s = true], after
    checking [p] on the computed set. *)
Ltac explored p H :=
  apply (reachable_check p) in H; [simpl in H | by vm_compute].

Lemma run_steps acts s s' : run acts s = Some s' -> rtc steps s s'.
Proof.
  revert s. induction acts as [|a acts IH]; simpl; intros s H.
  - by simplify_eq.
  - destruct (step a s) as [s1|] eqn:E; simpl in H; [|done].
    eapply rtc_l; [by exists a | by apply IH].
Qed.

Lemma state_after_reachable acts :
  is_Some (run acts init) -> reachable (state_after acts).
Proof.
  intros [s H]. unfold state_after. rewrite H. by apply (run_steps acts).
Qed.

(** [run_reaches]: a concrete run reaches its last state. *)
Ltac run_reaches := apply state_after_reachable; vm_compute; by eexists.

(** Each statement of either thread lowers the bound. *)
Lemma step_decreases a s s' : step a s = Some s' -> steps_left s' < steps_left s.
Proof.
  unfold step, steps_left. destruct s as [[d t l] al f u b pw ps r wt st ir ex].
  destruct ex; [done|].
  destruct a as [[]|[]|?| | | | | | | | | | | |[]| | | ], pw; simpl;
    try discriminate; try (intros [= <-]; simpl; destruct ps; simpl; lia).
  all: destruct ps, l; simpl; try discriminate;
    try (intros [= <-]; simpl; lia);
    intros [= <-]; destruct al, wt, st, d, t; simpl; lia.
Qed.

(** A reachable state is final or has a step to take. *)
Lemma reachable_live s : reachable s -> final s = true \/ exists s', steps s s'.
Proof.
  intros Hr. pose proof Hr as Hl. explored live Hl.
  unfold live in Hl. apply orb_true_iff in Hl as [?|Hl]; [by left|right].
  apply negb_true_iff, bool_decide_eq_false in Hl.
  destruct (successors s) as [|s' l] eqn:E; [done|].
  exists s'. apply successors_steps. rewrite E. by left.
Qed.

(** ** Safety *)

(** C5: the waiter and the watchdog are never both between their
    [pthread_mutex_lock] and [pthread_mutex_unlock]. *)
Theorem mutual_exclusion s : reachable s -> in_crit_w s && in_crit_s s = false.
Proof.
  intros Hr. explored (fun s => negb (in_crit_w s && in_crit_s s)) Hr.
  by apply negb_true_iff.
Qed.

Lemma mutual_exclusion_witness :
  in_crit_w (state_after crit_run) && in_crit_s (state_after crit_run) = false.
Proof. apply (mutual_exclusion (state_after crit_run)). run_reaches. Defined.

(** The mutex is held exactly by the thread that is inside its
    critical section, and by nobody when neither is. *)
Theorem lock_held_by_owner s : reachable s -> lock (add s) = lock_owner s.
Proof.
  intros Hr. explored (fun s => bool_decide (lock (add s) = lock_owner s)) Hr.
  by apply bool_decide_eq_true in Hr.
Qed.

Lemma lock_held_by_owner_witness :
  lock (add (state_after crit_run)) = lock_owner (state_after crit_run).
Proof. apply (lock_held_by_owner (state_after crit_run)). run_reaches. Defined.

(** C16: in every run the record is freed at most once, and its mutex is
    never destroyed while a thread holds it. *)
Theorem add_freed_at_most_once s :
  reachable s -> frees s <= 1 /\ bad_destroy s = false.
Proof.
  intros Hr.
  explored (fun s => bool_decide (frees s <= 1) && negb (bad_destroy s)) Hr.
  by apply andb_true_iff in Hr as [H1%bool_decide_eq_true H2%negb_true_iff].
Qed.

Lemma add_freed_at_most_once_witness :
  frees (state_after race_run) <= 1 /\ bad_destroy (state_after race_run) = false.
Proof. apply (add_freed_at_most_once (state_after race_run)). run_reaches. Defined.

(** As long as the watchdog has not timed out, no thread accesses
    the record after it was freed. *)
Theorem no_uaf_without_timeout s :
  reachable s -> timedout (add s) = false -> uaf s = false.
Proof.
  intros Hr Ht. explored (fun s => timedout (add s) || negb (uaf s)) Hr.
  rewrite Ht in Hr. by apply negb_true_iff.
Qed.

Lemma no_uaf_without_timeout_witness : uaf (state_after quick_run) = false.
Proof.
  apply (no_uaf_without_timeout (state_after quick_run)); [run_reaches|].
  by vm_compute.
Defined.

(** C10: there is a run in which the watchdog times out, the waiter then
    frees the record, and the watchdog reads [add->argv] from the freed
    record to call [execv]. *)
Theorem race_use_after_free :
  exists s, reachable s /\ uaf s = true /\ frees s = 1 /\ execd s = true.
Proof.
  exists (state_after race_run). split; [run_reaches | by vm_compute].
Qed.

(** When [pthread_create] fails, which [_instance_add_waiter] does
    not test, the run ends with the record allocated and never freed. *)
Theorem leak_without_watchdog :
  exists s, reachable s /\ final s = true /\ allocated s = true /\ frees s = 0.
Proof.
  exists (state_after leak_run). split; [run_reaches | by vm_compute].
Qed.

(** ** What the waiter returns *)

(** C14: once [_instance_add_waiter] has returned, its result is the
    answer of [ipc_instance_add] if the record was allocated and the
    watchdog did not time out, and [EINA_FALSE] otherwise. *)
Theorem waiter_returns_spec s :
  reachable s -> returned s = true -> result s = waiter_spec s.
Proof.
  intros Hr Hret.
  explored (fun s => implb (returned s) (bool_decide (result s = waiter_spec s))) Hr.
  rewrite Hret in Hr. by apply bool_decide_eq_true in Hr.
Qed.

Lemma waiter_returns_spec_witness :
  result (state_after quick_run) = waiter_spec (state_after quick_run).
Proof.
  apply (waiter_returns_spec (state_after quick_run)); [run_reaches|].
  by vm_compute.
Defined.

(** When both threads have run to their end and the process was not
    replaced, the record has been freed exactly once. *)
Theorem add_released s :
  reachable s -> returned s = true -> pcs s = S_end -> execd s = false ->
  frees s = 1.
Proof.
  intros Hr Hret Hs Hex.
  explored (fun s => implb (returned s && bool_decide (pcs s = S_end)
                            && negb (execd s))
                       (bool_decide (frees s = 1))) Hr.
  rewrite Hret, Hex, bool_decide_eq_true_2 in Hr by done.
  by apply bool_decide_eq_true in Hr.
Qed.

Lemma add_released_witness : frees (state_after quick_run) = 1.
Proof.
  apply (add_released (state_after quick_run)); [run_reaches | by vm_compute..].
Defined.

(** ** Termination and progress *)

(** A run of [n] statements lowers the bound [steps_left] by at
    least [n]: no run from the start has more than 28 statements, so
    neither thread loops. *)
Theorem run_bounded acts s s' :
  run acts s = Some s' -> length acts + steps_left s' <= steps_left s.
Proof.
  revert s. induction acts as [|a acts IH]; simpl; intros s H.
  - simplify_eq. lia.
  - destruct (step a s) as [s1|] eqn:E; simpl in H; [|done].
    apply step_decreases in E. apply IH in H. lia.
Qed.

Lemma run_bounded_witness :
  length race_run + steps_left (state_after race_run) <= steps_left init.
Proof. apply (run_bounded race_run init (state_after race_run)). by vm_compute. Defined.

(** C37: from every reachable state the two threads can run to a final
    state (both returned, or the process replaced): no reachable state
    is a deadlock, whoever holds the mutex. *)
Theorem final_reachable s :
  reachable s -> exists acts s', run acts s = Some s' /\ final s' = true.
Proof.
  remember (steps_left s) as n eqn:Hn. revert s Hn.
  induction (lt_wf n) as [n _ IH]. intros s -> Hr.
  destruct (reachable_live s Hr) as [Hf|[s1 [a Ha]]].
  - by exists [], s.
  - destruct (IH (steps_left s1) (step_decreases _ _ _ Ha) s1 eq_refl)
      as (acts & s' & Hrun & Hf).
    + eapply rtc_r; [exact Hr | by exists a].
    + exists (a :: acts), s'. simpl. by rewrite Ha.
Qed.

Lemma final_reachable_witness :
  exists acts s', run acts (state_after crit_run) = Some s' /\ final s' = true.
Proof. apply (final_reachable (state_after crit_run)). run_reaches. Defined.
