(* ===== verification/Start.v ===== *)
(** * Start: creating the window of an instance

    [_start] creates the first window of a process, [main_ipc_new] the
    window of a request served for another process.  Both make the same
    chain of library calls (window, terminal widget, placement) and leave
    it at the first call that fails.  The calls are recorded as a trace
    of events; what a call returns is a parameter of the section, so the
    theorems hold for every behaviour of the libraries. *)

From Stdlib Require Import ZArith Lia List Ascii String.
From stdpp Require Import base tactics option list strings.
From S2P Require Import Prelude ProgLogic CString Config Instance Argv.

#[local] Open Scope prog_scope.

(** ** Data *)

(** A terminal widget, by the order of its creation. *)
Definition Term := nat.

(** The library calls [_start] and [main_ipc_new] make, with the
    arguments the theorems speak of. *)
Inductive event :=
| EPutenv (s : string)
| EUnsetenv (s : string)
| EAppArgsSet (argc : Z) (argv : list (option string))
| EFreeNargv
| EWinNew (name role title icon_name : option string)
    (fullscreen iconic borderless override maximized : Z)
| EWinFree
| EConfigDel
| ECritical (msg : string)
| ETermNew (cmd : option string) (login_shell : Z) (cd : option string)
    (w h : Z) (hold : Z) (title : option string)
| EWinTermSet
| ETransUpdate
| EMediaUpdate
| ESizingHandle
| EShow
| ESplit (vertical : bool) (next : Term) (cmd : option string)
| EMove (x y : Z)
| EFocus
| EControlsInit
| EScaleWizard
| EQuit
| EErr (msg : string)
| EUndefined
| EWaiter (remote_try : Z)
| ENewFuncSet
| EServe (remote_try : Z)
| ECall (f : string).

#[global] Instance event_eq_dec : EqDecision event.
Proof. solve_decision. Defined.

(** The state both functions work on: the instance, the global
    [terminology_starting_up], and the calls made so far. *)
Record world := mkWorld {
  w_inst : Ipc_Instance;
  w_starting_up : bool;
  w_trace : list event
}.

Definition set_w_inst (f : Ipc_Instance -> Ipc_Instance) (st : world) : world :=
  mkWorld (f (w_inst st)) (w_starting_up st) (w_trace st).
Definition set_w_starting_up (v : bool) (st : world) : world :=
  mkWorld (w_inst st) v (w_trace st).

(** A library call: one more event. *)
Definition emit (e : event) : prog world unit :=
  modify (fun st => mkWorld (w_inst st) (w_starting_up st) (w_trace st ++ [e])).

(** The state before a window is started. *)
Definition world_of (inst : Ipc_Instance) : world := mkWorld inst true [].

Definition is_split (e : event) : bool :=
  match e with ESplit _ _ _ => true | _ => false end.

Definition is_critical (e : event) : bool :=
  match e with ECritical _ => true | _ => false end.

Definition is_show (e : event) : bool :=
  match e with EShow => true | _ => false end.
Definition is_quit (e : event) : bool :=
  match e with EQuit => true | _ => false end.
Definition is_controls_init (e : event) : bool :=
  match e with EControlsInit => true | _ => false end.
Definition is_config_del (e : event) : bool :=
  match e with EConfigDel => true | _ => false end.
Definition is_win_new (e : event) : bool :=
  match e with EWinNew _ _ _ _ _ _ _ _ _ => true | _ => false end.
Definition is_free_nargv (e : event) : bool :=
  match e with EFreeNargv => true | _ => false end.
Definition is_undefined (e : event) : bool :=
  match e with EUndefined => true | _ => false end.
Definition is_waiter (e : event) : bool :=
  match e with EWaiter _ => true | _ => false end.

(** The name of a library call that is known by its name only. *)
Definition call_name (e : event) : option string :=
  match e with ECall f => Some f | _ => None end.

(** The calls [_start] makes once it has deleted the configuration. *)
Definition window_event (e : event) : bool :=
  match e with
  | ECritical _ | ETermNew _ _ _ _ _ _ _ | EWinTermSet | ETransUpdate
  | EMediaUpdate | ESizingHandle | EShow | ESplit _ _ _ | EMove _ _ | EFocus
  | EControlsInit | EScaleWizard | EQuit => true
  | _ => false
  end.

(** The calls of the attempts to reach a running process. *)
Definition remote_event (e : event) : bool :=
  match e with EWaiter _ | ENewFuncSet | EServe _ => true | _ => false end.

(** The calls of [_start] up to the deletion of the configuration. *)
Definition start_prefix (inst : Ipc_Instance) : list event :=
  [EWinNew (name inst) (role inst) (title inst) (icon_name inst)
     (fullscreen inst) (iconic inst) (borderless inst) (override inst)
     (maximized inst);
   EPutenv "TERMINOLOGY=1"; EConfigDel].

(** An event of the kind [p] is in the trace. *)
Definition emitted (p : event -> bool) (st : world) : bool :=
  existsb p (w_trace st).

(** The arguments the process was last given by [ecore_app_args_set]. *)
Definition app_args (e : event) : option (Z * list (option string)) :=
  match e with EAppArgsSet argc argv => Some (argc, argv) | _ => None end.

Definition last_app_args (st : world) : option (Z * list (option string)) :=
  last (omap app_args (w_trace st)).

(** The string of [-S], empty when the option was not given. *)
Definition split_string (inst : Ipc_Instance) : string :=
  default "" (startup_split inst).

(** The command a split was given. *)
Definition split_cmd (e : event) : option (option string) :=
  match e with ESplit _ _ c => Some c | _ => None end.

(** The characters [-S] accepts. *)
Definition split_char (c : ascii) : bool :=
  bool_decide (c = "v"%char) || bool_decide (c = "h"%char)
  || bool_decide (c = "-"%char).

Fixpoint forall_chars (p : ascii -> bool) (s : string) : bool :=
  match s with
  | EmptyString => true
  | String c s' => p c && forall_chars p s'
  end.

Fixpoint count_chars (p : ascii -> bool) (s : string) : nat :=
  match s with
  | EmptyString => O
  | String c s' => (if p c then 1 else 0) + count_chars p s'
  end.

(** A character that splits. *)
Definition splits (c : ascii) : bool :=
  bool_decide (c = "v"%char) || bool_decide (c = "h"%char).

Section Start.

(** What the libraries return. *)
Context (win_new_ok : bool) (term_new_ok : bool) (win_term_set_ret : Z).
Context (screen_w screen_h : Z).
Context (term_next_get : Term -> Term).
Context (win_config : Cfg.Config).
Context (theme_path_get : string -> string).
Context (config_compute_color_scheme : Cfg.Config -> Cfg.Config).
Context (font_files : list string).

(** [goto exit]: the main loop is told to quit. *)
Definition goto_exit : prog world unit := emit EQuit ;; leave.

(** The placement of a window with a position: a negative coordinate
    counts from the far edge of the screen. *)
Definition place (inst : Ipc_Instance) : Ipc_Instance :=
  let inst :=
    if x inst <? 0 then set_x (wrap_int (screen_w + x inst)) inst else inst in
  if y inst <? 0 then set_y (wrap_int (screen_h + y inst)) inst else inst.

Definition place_window : prog world unit :=
  modify (set_w_inst place) ;;
  inst <- gets w_inst ;;
  emit (EMove (x inst) (y inst)).

(** One split: the command is the first of [cmds], or none when the
    list is empty, and the list loses it. *)
Definition split_one (vertical : bool) (next : Term) : prog world unit :=
  inst <- gets w_inst ;;
  emit (ESplit vertical next (head (cmds inst))) ;;
  modify (set_w_inst (fun i => set_cmds (tail (cmds i)) i)).

(** The loop over the characters of [startup_split]. *)
Fixpoint split_loop (s : string) (next : Term) : prog world unit :=
  match s with
  | EmptyString => prog_ret tt
  | String c s' =>
    if bool_decide (c = "v"%char) then split_one true next ;; split_loop s' next
    else if bool_decide (c = "h"%char) then split_one false next ;; split_loop s' next
    else if bool_decide (c = "-"%char) then split_loop s' (term_next_get next)
    else
      emit (ECritical "invalid argument found for option -S/--split. See --help") ;;
      leave
  end.

(** The loop without the state: the events it adds, the commands it
    leaves, and whether every character was one [-S] accepts. *)
Fixpoint split_events (s : string) (next : Term) (cs : list string)
    : list event * list string * bool :=
  match s with
  | EmptyString => ([], cs, true)
  | String c s' =>
    if bool_decide (c = "v"%char) then
      let r := split_events s' next (tail cs) in
      (ESplit true next (head cs) :: r.1.1, r.1.2, r.2)
    else if bool_decide (c = "h"%char) then
      let r := split_events s' next (tail cs) in
      (ESplit false next (head cs) :: r.1.1, r.1.2, r.2)
    else if bool_decide (c = "-"%char) then
      split_events s' (term_next_get next) cs
    else
      ([ECritical "invalid argument found for option -S/--split. See --help"],
       cs, false)
  end.

Definition win_new_of (inst : Ipc_Instance) : event :=
  EWinNew (name inst) (role inst) (title inst) (icon_name inst)
    (fullscreen inst) (iconic inst) (borderless inst) (override inst)
    (maximized inst).

Definition term_new_of (inst : Ipc_Instance) : event :=
  ETermNew (cmd inst) (login_shell inst) (cd inst) (w inst) (h inst)
    (hold inst) (title inst).

(** The end of [_start], after the splits: placement, focus, controls
    and the scale wizard; the start-up is over. *)
Definition start_finish (inst : Ipc_Instance) (need_scale_wizard : Z) : prog world unit :=
  when (truthy (pos inst)) place_window ;;
  when (truthy (nowm inst)) (emit EFocus) ;;
  emit EControlsInit ;;
  when (truthy need_scale_wizard) (emit EScaleWizard) ;;
  modify (set_w_starting_up false).

(** The events of [start_finish] for an instance placed at [i]. *)
Definition finish_events (inst i : Ipc_Instance) (need_scale_wizard : Z) : list event :=
  (if truthy (pos inst) then [EMove (x i) (y i)] else [])
  ++ (if truthy (nowm inst) then [EFocus] else [])
  ++ [EControlsInit]
  ++ (if truthy need_scale_wizard then [EScaleWizard] else []).

(** The calls of [_start] when one of the three creations fails. *)
Definition failure_events (inst : Ipc_Instance) : list event :=
  [win_new_of inst; EPutenv "TERMINOLOGY=1"; EConfigDel]
  ++ (if negb win_new_ok then [ECritical "Could not create window"; EQuit]
      else term_new_of inst ::
           (if negb term_new_ok
            then [ECritical "Could not create terminal widget"; EQuit]
            else [EWinTermSet; EQuit])).

(** The calls of [_start] up to the window being shown. *)
Definition created_events (inst : Ipc_Instance) : list event :=
  [win_new_of inst; EPutenv "TERMINOLOGY=1"; EConfigDel; term_new_of inst;
   EWinTermSet; ETransUpdate; EMediaUpdate; ESizingHandle; EShow].

(** One of the three creations fails. *)
Definition creation_fails : bool :=
  negb win_new_ok || negb term_new_ok || (win_term_set_ret <? 0).

(** [_start]. *)
Definition _start (need_scale_wizard : Z) : prog world unit :=
  inst <- gets w_inst ;;
  emit (win_new_of inst) ;;
  emit (EPutenv "TERMINOLOGY=1") ;;
  emit EConfigDel ;;
  when (negb win_new_ok)
    (emit (ECritical "Could not create window") ;; goto_exit) ;;
  emit (term_new_of inst) ;;
  when (negb term_new_ok)
    (emit (ECritical "Could not create terminal widget") ;; goto_exit) ;;
  emit EWinTermSet ;;
  when (win_term_set_ret <? 0) goto_exit ;;
  emit ETransUpdate ;;
  emit EMediaUpdate ;;
  emit ESizingHandle ;;
  emit EShow ;;
  match startup_split inst with
  | Some s => split_loop s O
  | None => prog_ret tt
  end ;;
  start_finish inst need_scale_wizard.

(** ** [main_ipc_new] *)

(** The arguments of the serving process, from [ecore_app_args_get]. *)
Context (argv0 : string) (pargv_rest : list string).

Definition pargv : list (option string) := Some <$> (argv0 :: pargv_rest).

(** The two statements every exit but one ends with: the arguments of
    the process are put back and the vector is freed. *)
Definition restore_args : prog world unit :=
  emit (EAppArgsSet (Z.of_nat (length pargv)) pargv) ;;
  emit EFreeNargv.

(** [if (inst->w <= 0) inst->w = 80; if (inst->h <= 0) inst->h = 24]. *)
Definition default_wh (inst : Ipc_Instance) : Ipc_Instance :=
  let inst := if w inst <=? 0 then set_w 80 inst else inst in
  if h inst <=? 0 then set_h 24 inst else inst.

(** The window's configuration becomes the instance's and is
    overridden by it. *)
Definition configure : prog world unit :=
  modify (set_w_inst (set_config win_config)) ;;
  inst <- gets w_inst ;;
  let r := _configure_instance theme_path_get config_compute_color_scheme
             font_files inst in
  modify (set_w_inst (fun _ => r.1)) ;;
  when r.2 (emit (EErr "font not found")).

Definition main_ipc_new : prog world unit :=
  inst <- gets w_inst ;;
  match startup_id inst with
  | Some id =>
    emit (EPutenv (c_truncate 4096 ("DESKTOP_STARTUP_ID=" +:+ id)))
  | None => prog_ret tt
  end ;;
  match nargv_array argv0 inst with
  | Some nargv => emit (EAppArgsSet (nargc_of inst) nargv)
  | None => emit EUndefined ;; halt
  end ;;
  emit (win_new_of inst) ;;
  when (negb win_new_ok)
    (emit (ECritical "Could not create window") ;; restore_args ;; leave) ;;
  configure ;;
  modify (set_w_inst default_wh) ;;
  inst <- gets w_inst ;;
  emit (term_new_of inst) ;;
  when (negb term_new_ok)
    (emit (ECritical "Could not create terminal widget") ;;
     emit EWinFree ;; restore_args ;; leave) ;;
  emit EWinTermSet ;;
  when (win_term_set_ret <? 0) leave ;;
  emit ETransUpdate ;;
  emit EMediaUpdate ;;
  when (truthy (pos inst)) place_window ;;
  emit ESizingHandle ;;
  emit EShow ;;
  when (truthy (nowm inst)) (emit EFocus) ;;
  restore_args ;;
  emit (EUnsetenv "DESKTOP_STARTUP_ID").

(** ** [_start_multi] *)

(** What the [remote_try]-th call of [_instance_add_waiter] returns
    ([None] when the watchdog replaced the process), and what the
    [remote_try]-th call of [ipc_serve] returns. *)
Context (waiter_result : Z -> option bool) (ipc_serve_result : Z -> bool).

(** What the loop of [_start_multi] comes to: [None] when the watchdog
    replaced the process, [Some true] when a running process took the
    request at the first or the second attempt, [Some false] when the
    window is to be started here. *)
Definition remote_outcome : option bool :=
  match waiter_result 0 with
  | None => None
  | Some true => Some true
  | Some false =>
    if ipc_serve_result 0 then Some false
    else match waiter_result 1 with
         | None => None
         | Some r => Some r
         end
  end.

(** The calls the loop makes. *)
Definition multi_events : list event :=
  EWaiter 0 ::
  match waiter_result 0 with
  | Some false =>
    [ENewFuncSet; EServe 0]
    ++ (if ipc_serve_result 0 then []
        else EWaiter 1 ::
             match waiter_result 1 with
             | Some false => [ENewFuncSet; EServe 1]
             | _ => []
             end)
  | _ => []
  end.

(** The body of the [do ... while (remote_try <= 1)] loop, [fuel]
    times at most: [Some true] for [goto exit], [Some false] for
    [goto normal_start], [None] when the fuel ran out. *)
Fixpoint multi_loop (fuel : nat) (remote_try : Z) : prog world (option bool) :=
  match fuel with
  | O => prog_ret None
  | S fuel' =>
    emit (EWaiter remote_try) ;;
    match waiter_result remote_try with
    | None => halt
    | Some true => prog_ret (Some true)
    | Some false =>
      emit ENewFuncSet ;;
      emit (EServe remote_try) ;;
      if ipc_serve_result remote_try then prog_ret (Some false)
      else
        let remote_try := wrap_int (remote_try + 1) in
        if remote_try <=? 1 then multi_loop fuel' remote_try
        else prog_ret (Some false)
    end
  end.

(** [_start_multi]: [EINA_TRUE] when a running process took the
    request, [EINA_FALSE] after starting the window here. *)
Definition _start_multi (need_scale_wizard : Z) : prog world Z :=
  r <- multi_loop 2 0 ;;
  match r with
  | Some true => prog_ret EINA_TRUE
  | _ => call tt (_start need_scale_wizard) ;; prog_ret EINA_FALSE
  end.

End Start.

(** A terminal widget is created with a positive size. *)
Definition term_size_ok (e : event) : Prop :=
  match e with ETermNew _ _ _ w h _ _ => 0 < w /\ 0 < h | _ => True end.

(** ** Three instances *)

(** Two splits and a move to the next terminal, with one command. *)
Definition split_instance : Ipc_Instance :=
  set_cmds ["htop"] (mkInstance None None None None None None None None None
    None None (Some "v-h") 0 0 80 24 0 0 0 0 0 0 0 0 0 0 0 0 0 0 [] Cfg.demo_config).

(** A character [-S] does not accept. *)
Definition bad_split_instance : Ipc_Instance :=
  mkInstance None None None None None None None None None
    None None (Some "vx") 0 0 80 24 0 0 0 0 0 0 0 0 0 0 0 0 0 0 [] Cfg.demo_config.

(** ** Running a program *)

(** The calls on a window and the attempts to reach a process are not
    calls known by name, and none deletes a configuration. *)
Lemma window_events_quiet evs :
  forallb window_event evs = true ->
  omap call_name evs = [] /\ count_occ event_eq_dec evs EConfigDel = 0%nat.
Proof.
  induction evs as [|e evs IH]; [done|]. intros [He Hevs]%andb_prop.
  destruct (IH Hevs) as [IHn IHc]. rewrite count_occ_cons_neq by by destruct e.
  by destruct e.
Qed.

Lemma remote_events_quiet evs :
  forallb remote_event evs = true ->
  omap call_name evs = [] /\ count_occ event_eq_dec evs EConfigDel = 0%nat.
Proof.
  induction evs as [|e evs IH]; [done|]. intros [He Hevs]%andb_prop.
  destruct (IH Hevs) as [IHn IHc]. rewrite count_occ_cons_neq by by destruct e.
  by destruct e.
Qed.

Lemma set_cmds_id i : set_cmds (cmds i) i = i.
Proof. by destruct i. Qed.

(** [prog_run]: unfold the combinators of programs and compute. *)
Ltac prog_run :=
  unfold exec, completes, call, prog_bind, gets, modify, when, prog_ret, leave,
    halt, emit;
  simpl.

(** [split_ifs]: decide the conditions of the program one after the
    other. *)
Ltac split_ifs :=
  repeat (match goal with
          | |- context [if ?b then _ else _] => destruct b eqn:?
          end; simpl in *; try done).

#[local] Opaque nargv_array nargv_of nargc_of _configure_instance c_truncate.

Section StartFacts.

Context (win_new_ok : bool) (term_new_ok : bool) (win_term_set_ret : Z).
Context (screen_w screen_h : Z).
Context (term_next_get : Term -> Term).

#[local] Abbreviation split_loop' := (split_loop term_next_get).
#[local] Abbreviation split_events' := (split_events term_next_get).
#[local] Abbreviation place' := (place screen_w screen_h).
#[local] Abbreviation start_finish' := (start_finish screen_w screen_h).
#[local] Abbreviation start' :=
  (_start win_new_ok term_new_ok win_term_set_ret screen_w screen_h term_next_get).
#[local] Abbreviation creation_fails' :=
  (creation_fails win_new_ok term_new_ok win_term_set_ret).
#[local] Abbreviation failure_events' :=
  (failure_events win_new_ok term_new_ok).

(** *** The split loop *)

(** The loop is its description without the state. *)
Lemma split_loop_spec s next st :
  split_loop' s next st =
  let r := split_events' s next (cmds (w_inst st)) in
  (mkWorld (set_cmds r.1.2 (w_inst st)) (w_starting_up st) (w_trace st ++ r.1.1),
   if r.2 then Value tt else Returned).
Proof.
  revert next st. induction s as [|c s IH]; intros next [i su tr]; simpl.
  - by rewrite set_cmds_id, app_nil_r.
  - unfold split_one. repeat case_bool_decide; prog_run; rewrite ?IH; simpl;
      rewrite ?set_cmds_id, <- ?app_assoc; try done.
    all: by destruct (split_events' s next (tail (cmds i))) as [[? ?] []].
Qed.

Lemma split_events_ok s next cs :
  (split_events' s next cs).2 = forall_chars split_char s.
Proof.
  revert next cs. induction s as [|c s IH]; intros next cs; simpl; [done|].
  unfold split_char. repeat case_bool_decide; simpl; by rewrite ?IH.
Qed.

(** Each split takes the first command away. *)
Lemma split_events_cmds s next cs :
  forall_chars split_char s = true ->
  (split_events' s next cs).1.2 = drop (count_chars splits s) cs.
Proof.
  revert next cs. induction s as [|c s IH]; intros next cs; simpl; [done|].
  unfold split_char, splits. repeat case_bool_decide; simpl; try done;
    intros Hs; rewrite IH by done.
  all: destruct cs; simpl; by rewrite ?drop_nil.
Qed.

(** The [k]-th split is given the [k]-th command, or none. *)
Lemma split_events_given s next cs :
  forall_chars split_char s = true ->
  omap split_cmd (split_events' s next cs).1.1 =
  (fun k => cs !! k) <$> seq 0 (count_chars splits s).
Proof.
  revert next cs. induction s as [|c s IH]; intros next cs; simpl; [done|].
  unfold split_char, splits. repeat case_bool_decide; simpl; try done;
    intros Hs; rewrite IH by done; try done.
  all: rewrite <- fmap_S_seq, <- list_fmap_compose; by destruct cs.
Qed.

(** The loop makes no call but splits and one error message. *)
Lemma split_events_no p s next cs :
  (forall v t c, p (ESplit v t c) = false) -> (forall m, p (ECritical m) = false) ->
  existsb p (split_events' s next cs).1.1 = false.
Proof.
  intros Hs Hc. revert next cs.
  induction s as [|c s IH]; intros next cs; simpl; [done|].
  repeat case_bool_decide; simpl; rewrite ?Hs, ?Hc, ?IH; done.
Qed.

(** *** The end of [_start] *)

Lemma cmds_place i : cmds (place' i) = cmds i.
Proof. unfold place. by repeat case_match. Qed.

Lemma start_finish_spec inst n st :
  start_finish' inst n st =
  let i := if truthy (pos inst) then place' (w_inst st) else w_inst st in
  (mkWorld i false (w_trace st ++ finish_events inst i n), Value tt).
Proof.
  unfold start_finish, finish_events, place_window. prog_run.
  destruct st as [i su tr]. simpl.
  destruct (truthy (pos inst)), (truthy (nowm inst)), (truthy n); simpl;
    by rewrite <- ?app_assoc.
Qed.

Lemma finish_events_no p inst i n :
  (forall a b, p (EMove a b) = false) -> p EFocus = false ->
  p EControlsInit = false -> p EScaleWizard = false ->
  existsb p (finish_events inst i n) = false.
Proof.
  intros H1 H2 H3 H4. unfold finish_events.
  repeat case_match; simpl; by rewrite ?H1, ?H2, ?H3, ?H4.
Qed.

(** *** The two ways through [_start] *)

(** When the three creations succeed, [_start] shows the window and
    goes on with the splits. *)
Lemma _start_created n st :
  creation_fails' = false ->
  start' n st =
  (split_loop' (split_string (w_inst st)) O ;; start_finish' (w_inst st) n)%prog
    (mkWorld (w_inst st) (w_starting_up st)
       (w_trace st ++ created_events (w_inst st))).
Proof.
  unfold creation_fails, _start, split_string, created_events.
  destruct st as [i su tr], win_new_ok, term_new_ok; try done. simpl.
  intros ->. prog_run. rewrite <- !app_assoc. simpl.
  by destruct (startup_split i).
Qed.

(** When one fails, [_start] tells the main loop to quit and returns. *)
Lemma _start_failed n st :
  creation_fails' = true ->
  start' n st =
  (mkWorld (w_inst st) (w_starting_up st)
     (w_trace st ++ failure_events' (w_inst st)), Returned).
Proof.
  unfold creation_fails, _start, failure_events, goto_exit.
  destruct st as [i su tr], win_new_ok, term_new_ok; simpl; try done;
    try intros ->; prog_run; by rewrite <- !app_assoc.
Qed.

(** *** What [_start] adds to the trace *)

Lemma split_events_window s next cs :
  forallb window_event (split_events' s next cs).1.1 = true.
Proof.
  revert next cs. induction s as [|c s IH]; intros next cs; simpl; [done|].
  repeat case_bool_decide; simpl; by rewrite ?IH.
Qed.

Lemma finish_events_window inst i n :
  forallb window_event (finish_events inst i n) = true.
Proof. unfold finish_events. by repeat case_match. Qed.

(** [_start] asks for the window, sets the variable, deletes the
    configuration and goes on with calls on the window; it does not end
    the process. *)
Lemma _start_events n st :
  exists evs,
    w_trace (exec (start' n) st) = w_trace st ++ start_prefix (w_inst st) ++ evs
    /\ forallb window_event evs = true
    /\ (start' n st).2 <> Halted.
Proof.
  unfold exec. destruct creation_fails' eqn:Hc.
  - rewrite _start_failed by done. eexists. split; [done|split; [|done]].
    by repeat case_match.
  - rewrite _start_created by done. unfold prog_bind.
    rewrite split_loop_spec. simpl.
    pose proof (split_events_window (split_string (w_inst st)) 0%nat
      (cmds (w_inst st))) as Hw.
    destruct (split_events _ _ _ _) as [[evs cs] ok]. simpl in *.
    destruct ok; rewrite ?start_finish_spec; simpl; rewrite <- !app_assoc;
      simpl; (eexists; split; [done|split; [|done]]); simpl;
      rewrite ?forallb_app, Hw, ?finish_events_window; done.
Qed.

(** The same of a call of [_start]. *)
Lemma _start_call_events n st :
  wp (call tt (start' n))
    (fun _ st' => exists evs,
       w_trace st' = w_trace st ++ start_prefix (w_inst st) ++ evs /\
       forallb window_event evs = true)
    (fun _ => False) (fun _ => False) st.
Proof.
  apply wp_call. unfold wp.
  destruct (_start_events n st) as (evs & Ht & Hw & Hh). unfold exec in Ht.
  destruct (start' n st) as [st' [[]| |]]; try done; by exists evs.
Qed.

(** *** [_start] *)

(** C7: when the window, the terminal widget and their attachment
    succeed and every character of the [-S] string is one of [v], [h]
    and [-], [_start] runs to its end: the start-up is over, the
    controls are initialised, the main loop is not told to quit, each
    split was given the next command of the list (none once the list is
    empty) and the commands given are gone from the list. *)
Theorem _start_success n inst :
  creation_fails' = false ->
  forall_chars split_char (split_string inst) = true ->
  (start' n (world_of inst)).2 = Value tt /\
  w_starting_up (exec (start' n) (world_of inst)) = false /\
  emitted is_controls_init (exec (start' n) (world_of inst)) = true /\
  emitted is_quit (exec (start' n) (world_of inst)) = false /\
  cmds (w_inst (exec (start' n) (world_of inst))) =
    drop (count_chars splits (split_string inst)) (cmds inst) /\
  omap split_cmd (w_trace (exec (start' n) (world_of inst))) =
    (fun k => cmds inst !! k) <$> seq 0 (count_chars splits (split_string inst)).
Proof.
  intros Hc Hok. unfold exec, emitted. rewrite _start_created by done.
  unfold prog_bind. rewrite split_loop_spec. simpl.
  rewrite split_events_ok, Hok, start_finish_spec. simpl.
  rewrite !existsb_app, !omap_app, (split_events_no is_quit) by done.
  rewrite (finish_events_no is_quit), split_events_given by done.
  repeat split.
  - unfold finish_events. rewrite !existsb_app. simpl. by rewrite !orb_true_r.
  - case_match; rewrite ?cmds_place; simpl; by apply split_events_cmds.
  - unfold finish_events. rewrite !omap_app.
    repeat case_match; simpl; by rewrite app_nil_r.
Qed.

(** C39: when the [-S] string holds a character other than [v], [h] and
    [-], [_start] returns from the middle of the loop: the window is
    shown and the main loop is not told to quit, but the controls are
    not initialised and [terminology_starting_up] stays set. *)
Theorem _start_bad_split n inst :
  creation_fails' = false ->
  forall_chars split_char (split_string inst) = false ->
  (start' n (world_of inst)).2 = Returned /\
  emitted is_show (exec (start' n) (world_of inst)) = true /\
  emitted is_quit (exec (start' n) (world_of inst)) = false /\
  emitted is_controls_init (exec (start' n) (world_of inst)) = false /\
  w_starting_up (exec (start' n) (world_of inst)) = true.
Proof.
  intros Hc Hbad. unfold exec, emitted. rewrite _start_created by done.
  unfold prog_bind. rewrite split_loop_spec. simpl.
  rewrite split_events_ok, Hbad. simpl.
  by rewrite (split_events_no is_quit), (split_events_no is_controls_init).
Qed.

(** C38: when the window, the terminal widget or their attachment
    fails, [_start] returns after telling the main loop to quit: the
    window is not shown, no split is made, the instance is unchanged and
    [terminology_starting_up] stays set. *)
Theorem _start_error_exits n inst :
  creation_fails' = true ->
  (start' n (world_of inst)).2 = Returned /\
  last (w_trace (exec (start' n) (world_of inst))) = Some EQuit /\
  emitted is_show (exec (start' n) (world_of inst)) = false /\
  emitted is_split (exec (start' n) (world_of inst)) = false /\
  w_starting_up (exec (start' n) (world_of inst)) = true /\
  w_inst (exec (start' n) (world_of inst)) = inst.
Proof.
  intros Hc. unfold exec, emitted. rewrite _start_failed by done.
  unfold creation_fails, failure_events in *. simpl.
  by destruct win_new_ok, term_new_ok.
Qed.

(** On every path through [_start] the configuration of the
    instance is deleted, right after the window was asked for: the
    third call is [config_del]. *)
Theorem _start_config_del n inst :
  w_trace (exec (start' n) (world_of inst)) !! 2%nat = Some EConfigDel.
Proof.
  unfold exec. destruct creation_fails' eqn:Hc.
  - rewrite _start_failed by done. done.
  - rewrite _start_created by done. unfold prog_bind.
    rewrite split_loop_spec. simpl.
    destruct (split_events' _ _ _).2; [by rewrite start_finish_spec | done].
Qed.

End StartFacts.

Section IpcFacts.

Context (win_new_ok : bool) (term_new_ok : bool) (win_term_set_ret : Z).
Context (screen_w screen_h : Z).
Context (term_next_get : Term -> Term).
Context (win_config : Cfg.Config).
Context (theme_path_get : string -> string).
Context (config_compute_color_scheme : Cfg.Config -> Cfg.Config).
Context (font_files : list string).
Context (argv0 : string) (pargv_rest : list string).
Context (waiter_result : Z -> option bool) (ipc_serve_result : Z -> bool).

#[local] Abbreviation main_ipc_new' :=
  (main_ipc_new win_new_ok term_new_ok win_term_set_ret screen_w screen_h
     win_config theme_path_get config_compute_color_scheme font_files argv0
     pargv_rest).
#[local] Abbreviation pargv' := (pargv argv0 pargv_rest).
#[local] Abbreviation start2' :=
  (_start win_new_ok term_new_ok win_term_set_ret screen_w screen_h term_next_get).
#[local] Abbreviation start_multi' :=
  (_start_multi win_new_ok term_new_ok win_term_set_ret screen_w screen_h
     term_next_get waiter_result ipc_serve_result).
#[local] Abbreviation multi_loop' := (multi_loop waiter_result ipc_serve_result).
#[local] Abbreviation multi_events' := (multi_events waiter_result ipc_serve_result).
#[local] Abbreviation remote_outcome' :=
  (remote_outcome waiter_result ipc_serve_result).
#[local] Abbreviation creation_fails2' :=
  (creation_fails win_new_ok term_new_ok win_term_set_ret).

(** [ipc_run]: run [main_ipc_new] up to its first condition. *)
Ltac ipc_run :=
  unfold main_ipc_new, configure, restore_args, place_window, world_of;
  prog_run; destruct (startup_id _); simpl; rewrite nargv_array_eq; simpl.

Lemma default_wh_pos i : 0 < w (default_wh i) /\ 0 < h (default_wh i).
Proof.
  unfold default_wh.
  destruct (Z.leb_spec (w i) 0); simpl;
    (destruct (Z.leb_spec (h i) 0); simpl; lia).
Qed.

(** *** [main_ipc_new] *)

(** [main_ipc_new] never writes outside the vector it allocated,
    whatever the instance and whatever the libraries return. *)
Theorem main_ipc_new_defined inst :
  emitted is_undefined (exec main_ipc_new' (world_of inst)) = false.
Proof. unfold emitted. ipc_run. all: split_ifs. Qed.

(** When the window cannot be created, when the terminal widget
    cannot be created, and when everything succeeds, [main_ipc_new]
    ends with the arguments of the process put back and the vector
    freed once. *)
Theorem main_ipc_new_restores_args inst :
  negb win_new_ok || negb term_new_ok || (0 <=? win_term_set_ret) = true ->
  last_app_args (exec main_ipc_new' (world_of inst)) =
    Some (Z.of_nat (length pargv'), pargv') /\
  length (filter (fun e => is_free_nargv e = true)
            (w_trace (exec main_ipc_new' (world_of inst)))) = 1%nat.
Proof.
  intros H. unfold emitted, last_app_args. ipc_run.
  all: split_ifs. all: lia.
Qed.

(** C11: when the terminal widget cannot be attached to the window
    ([win_term_set] fails), [main_ipc_new] returns with the arguments of
    the process still set to the vector it built, which it does not
    free. *)
Theorem main_ipc_new_args_left inst :
  win_new_ok = true -> term_new_ok = true -> win_term_set_ret < 0 ->
  (main_ipc_new' (world_of inst)).2 = Returned /\
  last_app_args (exec main_ipc_new' (world_of inst)) =
    Some (nargc_of inst, default [] (nargv_array argv0 inst)) /\
  emitted is_free_nargv (exec main_ipc_new' (world_of inst)) = false.
Proof.
  intros -> -> Hret%Z.ltb_lt. unfold emitted, last_app_args. ipc_run.
  all: rewrite Hret. all: split_ifs.
Qed.

(** The terminal widget of a served window is created with a
    positive width and height, whatever the instance asks for. *)
Theorem main_ipc_new_term_size inst :
  Forall term_size_ok (w_trace (exec main_ipc_new' (world_of inst))).
Proof.
  ipc_run.
  all: split_ifs;
    repeat (apply Forall_cons_2 || apply Forall_app_2 || apply Forall_nil_2);
    simpl; try done.
  all: apply default_wh_pos.
Qed.

(** *** [_start_multi] *)

(** The loop of two attempts: its calls and its outcome, for any fuel
    from 2 on. *)
Lemma multi_loop_run fuel st :
  (2 <= fuel)%nat ->
  multi_loop' fuel 0 st =
  (mkWorld (w_inst st) (w_starting_up st) (w_trace st ++ multi_events'),
   match remote_outcome' with
   | None => Halted
   | Some r => Value (Some r)
   end).
Proof.
  destruct fuel as [|[|fuel]]; [lia..|]. intros _. destruct st as [i su tr].
  unfold remote_outcome, multi_events. simpl. prog_run.
  destruct (waiter_result 0) as [[]|]; simpl; try done.
  destruct (ipc_serve_result 0); simpl; rewrite <- ?app_assoc; try done.
  change (wrap_int (0 + 1)) with 1. simpl.
  destruct (waiter_result 1) as [[]|]; simpl; rewrite <- ?app_assoc; try done.
  destruct (ipc_serve_result 1); by rewrite <- ?app_assoc.
Qed.

Lemma multi_events_no_win : existsb is_win_new multi_events' = false.
Proof. unfold multi_events. by repeat case_match. Qed.

Lemma multi_events_waiter :
  (length (filter (fun e => is_waiter e = true) multi_events') <= 2)%nat.
Proof.
  unfold multi_events.
  repeat case_match; rewrite ?filter_cons; simpl; repeat case_decide; simpl; lia.
Qed.

Lemma multi_events_remote : forallb remote_event multi_events' = true.
Proof. unfold multi_events. by repeat case_match. Qed.

(** What [_start] adds to the trace starts with the creation of the
    window and holds no attempt to reach a running process; [_start]
    does not end the process. *)
Lemma _start_trace n st :
  exists evs,
    w_trace (exec (start2' n) st) = w_trace st ++ win_new_of (w_inst st) :: evs
    /\ existsb is_waiter evs = false
    /\ (start2' n st).2 <> Halted.
Proof.
  unfold exec. destruct creation_fails2' eqn:Hc.
  - rewrite _start_failed by done. eexists. split; [done|split; [|done]].
    by repeat case_match.
  - rewrite _start_created by done. unfold prog_bind.
    rewrite split_loop_spec. simpl.
    pose proof (split_events_no term_next_get is_waiter
      (split_string (w_inst st)) 0%nat (cmds (w_inst st))) as Hn.
    destruct (split_events _ _ _ _) as [[evs cs] ok]. simpl in *.
    destruct ok; rewrite ?start_finish_spec; simpl; rewrite <- !app_assoc;
      simpl; (eexists; split; [done|split; [|done]]); simpl;
      rewrite ?existsb_app, Hn, ?(finish_events_no is_waiter); done.
Qed.

(** [_start_multi] is its loop followed, when no running process took
    the request, by [_start]. *)
Lemma _start_multi_run n st :
  start_multi' n st =
  let st1 := mkWorld (w_inst st) (w_starting_up st) (w_trace st ++ multi_events') in
  match remote_outcome' with
  | None => (st1, Halted)
  | Some true => (st1, Value EINA_TRUE)
  | Some false =>
    (exec (start2' n) st1,
     match (start2' n st1).2 with Halted => Halted | _ => Value EINA_FALSE end)
  end.
Proof.
  unfold _start_multi, prog_bind, exec. rewrite multi_loop_run by done.
  destruct remote_outcome' as [[]|]; try done.
  unfold call. simpl. by destruct (start2' n _) as [? [[]| |]].
Qed.

(** What [_start_multi] adds to the trace: the attempts, and the calls
    of [_start] when it returns [EINA_FALSE]; it ends the process when
    the watchdog did. *)
Lemma _start_multi_events n st :
  wp (start_multi' n)
    (fun r st' =>
       (r = EINA_TRUE /\ w_trace st' = w_trace st ++ multi_events') \/
       (r = EINA_FALSE /\ exists evs,
          w_trace st' =
            w_trace st ++ multi_events' ++ start_prefix (w_inst st) ++ evs /\
          forallb window_event evs = true))
    (fun _ => False)
    (fun st' =>
       remote_outcome' = None /\ w_trace st' = w_trace st ++ multi_events')
    st.
Proof.
  unfold wp. rewrite _start_multi_run.
  destruct remote_outcome' as [[]|]; cbn [fst snd]; [by left| |done].
  destruct (_start_events win_new_ok term_new_ok win_term_set_ret screen_w
    screen_h term_next_get n
    (mkWorld (w_inst st) (w_starting_up st) (w_trace st ++ multi_events')))
    as (evs & Ht & Hw & Hh).
  unfold exec in *. cbn [w_trace w_inst] in Ht.
  destruct (start2' n _) as [s' [[]| |]]; try done;
    right; (split; [done|]); exists evs; by rewrite Ht, <- app_assoc.
Qed.

(** C17: [_start_multi] returns [EINA_TRUE], without creating a window,
    when a running process took the request at the first attempt, or at
    the second after [ipc_serve] failed; it returns [EINA_FALSE], after
    creating the window here, when [ipc_serve] succeeded or both
    attempts failed; it does not return when the watchdog replaced the
    process. *)
Theorem _start_multi_spec n inst :
  match remote_outcome' with
  | None =>
    (start_multi' n (world_of inst)).2 = Halted /\
    emitted is_win_new (exec (start_multi' n) (world_of inst)) = false
  | Some true =>
    (start_multi' n (world_of inst)).2 = Value EINA_TRUE /\
    emitted is_win_new (exec (start_multi' n) (world_of inst)) = false
  | Some false =>
    (start_multi' n (world_of inst)).2 = Value EINA_FALSE /\
    emitted is_win_new (exec (start_multi' n) (world_of inst)) = true
  end.
Proof.
  unfold exec, emitted. rewrite _start_multi_run.
  unfold world_of.
  destruct remote_outcome' as [[]|];
    cbn [fst snd w_trace w_inst w_starting_up app];
    rewrite ?multi_events_no_win; [done| |done].
  destruct (_start_trace n (mkWorld inst true multi_events')) as (evs & -> & _ & Hh).
  split; [by destruct (start2' n _).2|]. by rewrite existsb_app, orb_true_r.
Qed.

(** [_start_multi] calls [_instance_add_waiter] at most twice. *)
Theorem _start_multi_attempts n inst :
  (length (filter (fun e => is_waiter e = true)
             (w_trace (exec (start_multi' n) (world_of inst)))) <= 2)%nat.
Proof.
  pose proof multi_events_waiter as Hw.
  unfold exec at 1, world_of. rewrite _start_multi_run.
  destruct remote_outcome' as [[]|];
    cbn [fst snd w_trace w_inst w_starting_up app]; [done| |done].
  destruct (_start_trace n (mkWorld inst true multi_events')) as (evs & -> & He & _).
  cbn [fst snd w_trace w_inst w_starting_up app].
  rewrite filter_app, filter_cons, (filter_existsb_nil _ _ He), length_app.
  rewrite decide_False by done. change (length []) with 0%nat. lia.
Qed.

End IpcFacts.

Lemma _start_success_witness :
  (_start true true 0 1920 1080 S 0 (world_of split_instance)).2 = Value tt /\
  w_starting_up (exec (_start true true 0 1920 1080 S 0) (world_of split_instance)) = false /\
  emitted is_controls_init (exec (_start true true 0 1920 1080 S 0) (world_of split_instance)) = true /\
  emitted is_quit (exec (_start true true 0 1920 1080 S 0) (world_of split_instance)) = false /\
  cmds (w_inst (exec (_start true true 0 1920 1080 S 0) (world_of split_instance))) = [] /\
  omap split_cmd (w_trace (exec (_start true true 0 1920 1080 S 0) (world_of split_instance))) =
    [Some "htop"; None].
Proof. by apply (_start_success true true 0 1920 1080 S 0 split_instance). Defined.

Lemma _start_bad_split_witness :
  (_start true true 0 1920 1080 S 0 (world_of bad_split_instance)).2 = Returned /\
  emitted is_show (exec (_start true true 0 1920 1080 S 0) (world_of bad_split_instance)) = true /\
  emitted is_quit (exec (_start true true 0 1920 1080 S 0) (world_of bad_split_instance)) = false /\
  emitted is_controls_init (exec (_start true true 0 1920 1080 S 0) (world_of bad_split_instance)) = false /\
  w_starting_up (exec (_start true true 0 1920 1080 S 0) (world_of bad_split_instance)) = true.
Proof. by apply (_start_bad_split true true 0 1920 1080 S 0 bad_split_instance). Defined.

Lemma _start_error_exits_witness :
  (_start true false 0 1920 1080 S 0 (world_of split_instance)).2 = Returned /\
  last (w_trace (exec (_start true false 0 1920 1080 S 0) (world_of split_instance))) = Some EQuit /\
  emitted is_show (exec (_start true false 0 1920 1080 S 0) (world_of split_instance)) = false /\
  emitted is_split (exec (_start true false 0 1920 1080 S 0) (world_of split_instance)) = false /\
  w_starting_up (exec (_start true false 0 1920 1080 S 0) (world_of split_instance)) = true /\
  w_inst (exec (_start true false 0 1920 1080 S 0) (world_of split_instance)) = split_instance.
Proof. by apply (_start_error_exits true false 0 1920 1080 S 0 split_instance). Defined.

Lemma main_ipc_new_restores_args_witness :
  last_app_args
    (exec (main_ipc_new false true 0 1920 1080 Cfg.demo_config id id []
             "terminology" [])
       (world_of demo_instance)) =
    Some (Z.of_nat (length (pargv "terminology" [])), pargv "terminology" []) /\
  length (filter (fun e => is_free_nargv e = true)
            (w_trace (exec (main_ipc_new false true 0 1920 1080 Cfg.demo_config
                              id id [] "terminology" [])
                        (world_of demo_instance)))) = 1%nat.
Proof.
  by apply (main_ipc_new_restores_args false true 0 1920 1080 Cfg.demo_config
              id id [] "terminology" [] demo_instance).
Defined.

Lemma main_ipc_new_args_left_witness :
  (main_ipc_new true true (-1) 1920 1080 Cfg.demo_config id id [] "terminology" []
     (world_of demo_instance)).2 = Returned /\
  last_app_args
    (exec (main_ipc_new true true (-1) 1920 1080 Cfg.demo_config id id []
             "terminology" [])
       (world_of demo_instance)) =
    Some (nargc_of demo_instance,
          default [] (nargv_array "terminology" demo_instance)) /\
  emitted is_free_nargv
    (exec (main_ipc_new true true (-1) 1920 1080 Cfg.demo_config id id []
             "terminology" [])
       (world_of demo_instance)) = false.
Proof.
  by apply (main_ipc_new_args_left true true (-1) 1920 1080 Cfg.demo_config
              id id [] "terminology" [] demo_instance).
Defined.
