(* ===== verification/Options.v ===== *)
(** * Options: the command-line table of [main.c]

    [options] is the [Ecore_Getopt] table of the program and [values]
    the table of variables [elm_main] hands to [ecore_getopt_parse];
    the parser pairs the two by index.  [_translate_options] walks the
    table up to its sentinel and replaces each help text by its
    translation.  The file also states the argument vector of
    [main_ipc_new] as a plan of flags, to compare it with the table. *)

From Stdlib Require Import ZArith Lia List Ascii String.
From stdpp Require Import base tactics option list strings.
From S2P Require Import Prelude CString Instance Argv.

(** ** The table *)

(** The macro an entry of the table is written with. *)
Inductive macro :=
| STORE_STR | BREAK_STR | STORE_BOOL | STORE_TRUE | STORE_DOUBLE
| VERSION | COPYRIGHT | LICENSE | HELP | CATEGORY | SENTINEL.

(** One [Ecore_Getopt_Desc]: ['\0'] is [zero], [NULL] is [None]. *)
Record Desc := mkDesc {
  shortname : ascii;
  longname : option string;
  help : option string;
  act : macro
}.

(** The kind of a variable in the table of values. *)
Inductive vkind := VALUE_STR | VALUE_BOOL | VALUE_DOUBLE | VALUE_NONE.

(** The variables of [elm_main] the parser stores into. *)
Inductive var :=
| v_background | v_cd | v_cmd_options | v_theme | v_colorscheme | v_geometry
| v_name | v_role | v_title | v_icon_name | v_font | v_startup_split
| v_login_shell | v_video_mute | v_cursor_blink | v_visual_bell
| v_fullscreen | v_iconic | v_borderless | v_override | v_maximized | v_nowm
| v_hold | v_single | v_xterm_256color | v_scale | v_active_links
| v_no_wizard | v_quit_option | v_none.

(** One [Ecore_Getopt_Value], with the comment written beside it. *)
Record Value := mkValue {
  vk : vkind;
  target : var;
  comment : string
}.

(** The [Ecore_Getopt] structure. *)
Record Getopt := mkGetopt {
  prog : string;
  usage : string;
  version : string;
  copyright : string;
  license : string;
  description : string;
  strict : Z;
  descs : list Desc
}.

#[global] Instance macro_eq_dec : EqDecision macro.
Proof. solve_decision. Defined.
#[global] Instance Desc_eq_dec : EqDecision Desc.
Proof. solve_decision. Defined.
#[global] Instance vkind_eq_dec : EqDecision vkind.
Proof. solve_decision. Defined.
#[global] Instance var_eq_dec : EqDecision var.
Proof. solve_decision. Defined.
#[global] Instance Value_eq_dec : EqDecision Value.
Proof. solve_decision. Defined.

(** [ECORE_GETOPT_SENTINEL]. *)
Definition sentinel : Desc := mkDesc zero None None SENTINEL.

Section Table.

(** The help text the library's macros give the entries for the
    version, the copyright, the license and the help. *)
Context (macro_help : macro -> option string).

(** The name and the version of the package, from the build. *)
Context (PACKAGE_NAME PACKAGE_VERSION : string).

(** The entries of [options], in the order of the source. *)
Definition option_descs : list Desc :=
  [    mkDesc "b"%char (Some "background")
      (Some "Use the named file as a background wallpaper")
      STORE_STR;
    mkDesc "d"%char (Some "current-directory")
      (Some "Change to directory for execution of terminal command")
      STORE_STR;
    mkDesc "e"%char (Some "exec")
      (Some "Command to execute. Defaults to $SHELL (or passwd shell or /bin/sh)")
      BREAK_STR;
    mkDesc "t"%char (Some "theme")
      (Some "Use the named edje theme or path to theme file")
      STORE_STR;
    mkDesc "C"%char (Some "colorscheme")
      (Some "Use the named color scheme")
      STORE_STR;
    mkDesc "g"%char (Some "geometry")
      (Some "Terminal geometry to use (eg 80x24 or 80x24+50+20 etc.)")
      STORE_STR;
    mkDesc "n"%char (Some "name")
      (Some "Set window name")
      STORE_STR;
    mkDesc "r"%char (Some "role")
      (Some "Set window role")
      STORE_STR;
    mkDesc "T"%char (Some "title")
      (Some "Set window title")
      STORE_STR;
    mkDesc "i"%char (Some "icon-name")
      (Some "Set icon name")
      STORE_STR;
    mkDesc "f"%char (Some "font")
      (Some "Set font (NAME/SIZE for scalable, NAME for bitmap)")
      STORE_STR;
    mkDesc "S"%char (Some "split")
      (Some "Split the terminal window. 'v' for vertical and 'h' for horizontal. Can be used multiple times. eg -S vhvv or --split hv More description available on the man page")
      STORE_STR;
    mkDesc "l"%char (Some "login")
      (Some "Run the shell as a login shell")
      STORE_BOOL;
    mkDesc "m"%char (Some "video-mute")
      (Some "Set mute mode for video playback")
      STORE_BOOL;
    mkDesc "c"%char (Some "cursor-blink")
      (Some "Set cursor blink mode")
      STORE_BOOL;
    mkDesc "G"%char (Some "visual-bell")
      (Some "Set visual bell mode")
      STORE_BOOL;
    mkDesc "F"%char (Some "fullscreen")
      (Some "Go into the fullscreen mode from the start")
      STORE_TRUE;
    mkDesc "I"%char (Some "iconic")
      (Some "Start iconified")
      STORE_TRUE;
    mkDesc "B"%char (Some "borderless")
      (Some "Start borderless")
      STORE_TRUE;
    mkDesc "O"%char (Some "override")
      (Some "Start as a override-redirect window")
      STORE_TRUE;
    mkDesc "M"%char (Some "maximized")
      (Some "Start maximized")
      STORE_TRUE;
    mkDesc "W"%char (Some "nowm")
      (Some "Terminology is run without a window manager")
      STORE_TRUE;
    mkDesc "H"%char (Some "hold")
      (Some "Do not exit when the command process exits")
      STORE_TRUE;
    mkDesc "s"%char (Some "single")
      (Some "Force single executable if multi-instance is enabled")
      STORE_TRUE;
    mkDesc "2"%char (Some "256color")
      (Some "Set TERM to 'xterm-256color' instead of 'xterm'")
      STORE_TRUE;
    mkDesc zero (Some "scale")
      (Some "Set scaling factor")
      STORE_DOUBLE;
    mkDesc zero (Some "active-links")
      (Some "Highlight links")
      STORE_BOOL;
    mkDesc zero (Some "no-wizard")
      (Some "Do not display wizard on start up")
      STORE_BOOL;
    mkDesc "V"%char (Some "version") (macro_help VERSION) VERSION;
    mkDesc zero (Some "copyright") (macro_help COPYRIGHT) COPYRIGHT;
    mkDesc "L"%char (Some "license") (macro_help LICENSE) LICENSE;
    mkDesc "h"%char (Some "help") (macro_help HELP) HELP;
    sentinel ].

Definition options : Getopt :=
  mkGetopt PACKAGE_NAME "%prog [options]" PACKAGE_VERSION
    "(C) 2012-%d Carsten Haitzler and others" "BSD 2-Clause"
    "Terminal emulator written with Enlightenment Foundation Libraries"
    EINA_TRUE option_descs.

End Table.

(** The table of values of [elm_main], in the order of the source. *)
Definition values : list Value :=
  [    mkValue VALUE_STR v_background "-b, --background";
    mkValue VALUE_STR v_cd "-d, --current-directory";
    mkValue VALUE_BOOL v_cmd_options "-e, --exec";
    mkValue VALUE_STR v_theme "-t, --theme";
    mkValue VALUE_STR v_colorscheme "-C, --colorscheme";
    mkValue VALUE_STR v_geometry "-g, --geometry";
    mkValue VALUE_STR v_name "-n, --name";
    mkValue VALUE_STR v_role "-r, --role";
    mkValue VALUE_STR v_title "-T, --title";
    mkValue VALUE_STR v_icon_name "-i, --icon-name";
    mkValue VALUE_STR v_font "-f, --font";
    mkValue VALUE_STR v_startup_split "-S, --split";
    mkValue VALUE_BOOL v_login_shell "-l, --login";
    mkValue VALUE_BOOL v_video_mute "-m, --video-mute";
    mkValue VALUE_BOOL v_cursor_blink "-c, --cursor-blink";
    mkValue VALUE_BOOL v_visual_bell "-G, --visual-bell";
    mkValue VALUE_BOOL v_fullscreen "-F, --fullscreen";
    mkValue VALUE_BOOL v_iconic "-I, --iconic";
    mkValue VALUE_BOOL v_borderless "-B, --borderless";
    mkValue VALUE_BOOL v_override "-O, --override";
    mkValue VALUE_BOOL v_maximized "-M, --maximized";
    mkValue VALUE_BOOL v_nowm "-W, --nowm";
    mkValue VALUE_BOOL v_hold "-H, --hold";
    mkValue VALUE_BOOL v_single "-s, --single";
    mkValue VALUE_BOOL v_xterm_256color "-2, --256color";
    mkValue VALUE_DOUBLE v_scale "--scale";
    mkValue VALUE_BOOL v_active_links "--active-links";
    mkValue VALUE_BOOL v_no_wizard "--no-wizard";
    mkValue VALUE_BOOL v_quit_option "-v, --version";
    mkValue VALUE_BOOL v_quit_option "--copyright";
    mkValue VALUE_BOOL v_quit_option "-L, --license";
    mkValue VALUE_BOOL v_quit_option "-h, --help";
    mkValue VALUE_NONE v_none "" ].

(** ** What the parser does with an entry *)

(** The kind of variable an entry stores into. *)
Definition vkind_of (m : macro) : vkind :=
  match m with
  | STORE_STR => VALUE_STR
  | STORE_DOUBLE => VALUE_DOUBLE
  | BREAK_STR | STORE_BOOL | STORE_TRUE | VERSION | COPYRIGHT | LICENSE
  | HELP => VALUE_BOOL
  | CATEGORY | SENTINEL => VALUE_NONE
  end.

(** An entry whose option is followed by an argument. *)
Definition takes_arg (m : macro) : bool :=
  match m with
  | STORE_STR | STORE_BOOL | STORE_DOUBLE => true
  | _ => false
  end.

(** An entry that ends the parsing: what follows is the command. *)
Definition breaks (m : macro) : bool :=
  match m with BREAK_STR => true | _ => false end.

(** The entry and the value at the same index go together. *)
Definition aligned (d : Desc) (v : Value) : bool :=
  bool_decide (vkind_of (act d) = vk v).

(** The text [-x, --long] (or [--long] alone) of an entry. *)
Definition option_label (d : Desc) : string :=
  match longname d with
  | None => ""
  | Some l =>
    if bool_decide (shortname d = zero) then "--" +:+ l
    else "-" +:+ String (shortname d) (", --" +:+ l)
  end.

(** The entry a flag of the command line names: [-x] by its short
    name, [--long] by its long name. *)
Definition names (flag : string) (d : Desc) : bool :=
  match flag with
  | String "-" (String "-" l) => bool_decide (longname d = Some l)
  | String "-" (String c EmptyString) =>
    bool_decide (shortname d = c) && negb (bool_decide (c = zero))
  | _ => false
  end.

Definition find_option (ds : list Desc) (flag : string) : option Desc :=
  List.find (names flag) ds.

(** ** [_translate_options] *)

Section Translate.

Context (gettext : string -> string).

(** [eina_stringshare_printf] of a format with one [%d]. *)
Fixpoint format_d (fmt : string) (n : Z) : string :=
  match fmt with
  | String "%" (String "d" rest) => print_int n +:+ rest
  | String c rest => String c (format_d rest n)
  | EmptyString => EmptyString
  end.

(** The condition of the loop: the entry is not the sentinel. *)
Definition more (d : Desc) : bool :=
  negb (bool_decide (shortname d = zero))
  || bool_decide (is_Some (longname d))
  || bool_decide (act d = CATEGORY).

(** The body of the loop for one entry. *)
Definition translate_desc (d : Desc) : Desc :=
  match help d with
  | None => d
  | Some h =>
    let h' :=
      match act d with
      | VERSION => gettext "show program version"
      | COPYRIGHT => gettext "show copyright"
      | LICENSE => gettext "show license"
      | HELP => gettext "show this message"
      | _ => gettext h
      end in
    mkDesc (shortname d) (longname d) (Some h') (act d)
  end.

(** The loop over the array: [None] when it runs past its end. *)
Fixpoint translate_loop (ds : list Desc) : option (list Desc) :=
  match ds with
  | [] => None
  | d :: ds' =>
    if more d then cons (translate_desc d) <$> translate_loop ds'
    else Some ds
  end.

Definition _translate_options (g : Getopt) : option Getopt :=
  ds ← translate_loop (descs g);
  Some (mkGetopt (prog g) (usage g) (version g)
          (format_d (gettext (copyright g)) 2020)
          (license g) (description g) (strict g) ds).

End Translate.

(** Without the translations: the copyright of line 892. *)
Definition untranslated (g : Getopt) : Getopt :=
  mkGetopt (prog g) (usage g) (version g)
    "(C) 2012-2020 Carsten Haitzler and others"
    (license g) (description g) (strict g) (descs g).

(** ** The argument vector of [main_ipc_new] as a plan *)

(** An option with its value when it is given, or a flag alone when
    it is on. *)
Inductive planned :=
| PValue (flag : string) (v : option string)
| PFlag (flag : string) (on : bool).

Definition flag_of (p : planned) : string :=
  match p with PValue f _ | PFlag f _ => f end.

Definition has_value (p : planned) : bool :=
  match p with PValue _ _ => true | PFlag _ _ => false end.

Definition render (p : planned) : list string :=
  match p with
  | PValue f (Some v) => [f; v]
  | PFlag f true => [f]
  | _ => []
  end.

(** A tri-state option is written when it is neither 0 nor unset. *)
Definition tri_on (v : Z) : bool :=
  bool_decide (v <> IPC_INSTANCE_OPT_UNSET) && truthy v.

(** What [main_ipc_new] writes after [argv[0]], in its order. *)
Definition nargv_plan (inst : Ipc_Instance) : list planned :=
  [ PValue "-d" (cd inst); PValue "-b" (background inst);
    PValue "-n" (name inst); PValue "-t" (theme inst);
    PValue "--colorscheme" (colorscheme inst);
    PValue "-r" (role inst); PValue "-T" (title inst);
    PValue "-f" (font inst); PValue "-S" (startup_split inst);
    PValue "-g" (if has_geometry inst then Some (geom_of inst) else None);
    PFlag "-l" (tri_on (login_shell inst));
    PFlag "-F" (truthy (fullscreen inst)); PFlag "-I" (truthy (iconic inst));
    PFlag "-B" (truthy (borderless inst)); PFlag "-O" (truthy (override inst));
    PFlag "-M" (truthy (maximized inst)); PFlag "-H" (truthy (hold inst));
    PFlag "-W" (truthy (nowm inst)); PFlag "-2" (truthy (xterm_256color inst));
    PFlag "--active-links" (tri_on (active_links inst));
    PValue "-e" (cmd inst);
    PFlag "-m" (tri_on (video_mute inst));
    PFlag "-c" (tri_on (cursor_blink inst));
    PFlag "-G" (tri_on (visual_bell inst)) ].

(** The flags of the plan, with whether a value follows. *)
Definition plan_flags : list (string * bool) :=
  (fun p => (flag_of p, has_value p)) <$> nargv_plan demo_instance.

(** A flag of the plan is written the way its entry is parsed: with a
    value exactly when the entry takes an argument or breaks. *)
Definition written_as_parsed (ds : list Desc) (fv : string * bool) : bool :=
  match find_option ds fv.1 with
  | Some d => bool_decide (fv.2 = (takes_arg (act d) || breaks (act d)))
  | None => false
  end.

(** The flags written after the option that ends the parsing. *)
Fixpoint after_break (ds : list Desc) (fs : list (string * bool)) : list string :=
  match fs with
  | [] => []
  | fv :: fs' =>
    match find_option ds fv.1 with
    | Some d => if breaks (act d) then fst <$> fs' else after_break ds fs'
    | None => after_break ds fs'
    end
  end.

(** The indices at which the comment beside a value is not the label
    of the entry at the same index. *)
Definition comment_mismatches (ds : list Desc) (vs : list Value) : list nat :=
  (fun ndv => ndv.1) <$>
    List.filter (fun ndv => negb (bool_decide (comment ndv.2.2 = option_label ndv.2.1)))
      (zip (seq 0 (length ds)) (zip ds vs)).

(** The short names other than ['\0'], and the long names. *)
Definition short_names (ds : list Desc) : list ascii :=
  omap (fun d => if bool_decide (shortname d = zero) then None
                 else Some (shortname d)) ds.
Definition long_names (ds : list Desc) : list string := omap longname ds.

(** The four entries whose help text [_translate_options] replaces by
    a fixed message. *)
Definition fixed_help (m : macro) : bool :=
  match m with VERSION | COPYRIGHT | LICENSE | HELP => true | _ => false end.

(** ** The plan and the vector *)

Lemma render_arg_str flag o : arg_str flag o = render (PValue flag o).
Proof. by destruct o. Qed.

Lemma render_arg_flag flag v : arg_flag flag v = render (PFlag flag (truthy v)).
Proof. unfold arg_flag. by destruct (truthy v). Qed.

Lemma render_arg_tri flag v : arg_tri flag v = render (PFlag flag (tri_on v)).
Proof. unfold arg_tri, tri_on. by case_match. Qed.

(** The vector [main_ipc_new] writes is [argv[0]] followed by the
    plan, entry by entry. *)
Lemma nargv_of_plan argv0 inst :
  nargv_of argv0 inst = argv0 :: (nargv_plan inst ≫= render).
Proof.
  unfold nargv_of, nargv_plan.
  rewrite !render_arg_str, !render_arg_flag, !render_arg_tri.
  cbn [mbind list_bind app]. rewrite app_nil_r.
  by destruct (has_geometry inst).
Qed.

(** The flags of the plan do not depend on the instance. *)
Lemma plan_flags_any inst :
  (fun p => (flag_of p, has_value p)) <$> nargv_plan inst = plan_flags.
Proof. done. Qed.

(** ** The loop of [_translate_options] *)

Section TranslateFacts.

Context (gettext : string -> string).

(** The loop translates the entries before the first sentinel and
    stops there, leaving the rest of the array as it is. *)
Lemma translate_loop_app ds s rest :
  forallb more ds = true -> more s = false ->
  translate_loop gettext (ds ++ s :: rest) =
  Some ((translate_desc gettext <$> ds) ++ s :: rest).
Proof.
  intros Hds Hs. induction ds as [|d ds IH]; simpl in *.
  - by rewrite Hs.
  - apply andb_true_iff in Hds as [-> Hds]. by rewrite IH.
Qed.

(** Without a sentinel the loop runs past the end of the array. *)
Lemma translate_loop_no_sentinel ds :
  forallb more ds = true -> translate_loop gettext ds = None.
Proof.
  induction ds as [|d ds IH]; simpl; [done|].
  intros [-> Hds]%andb_true_iff. by rewrite IH.
Qed.

End TranslateFacts.

(** ** The tables *)

Section OptionFacts.

Context (macro_help : macro -> option string).
Context (PACKAGE_NAME PACKAGE_VERSION : string).

#[local] Abbreviation descs' := (option_descs macro_help).
#[local] Abbreviation options' :=
  (options macro_help PACKAGE_NAME PACKAGE_VERSION).

(** C31: the table of options and the table of values have the same
    length, and at each index the variable is of the kind the entry
    stores: a string for [STORE_STR], a double for [STORE_DOUBLE], a
    boolean for the others, and the end marker for the sentinel. *)
Theorem options_values_aligned :
  Forall2 (fun d v => aligned d v = true) descs' values.
Proof. repeat constructor. Qed.

(** The comment beside each value names the entry at its index,
    except the one for the version, which says [-v] where the table
    has [-V]. *)
Theorem values_comments : comment_mismatches descs' values = [28%nat].
Proof. by vm_compute. Qed.

(** No two entries share a short name or a long name. *)
Theorem options_distinct :
  NoDup (short_names descs') /\ NoDup (long_names descs').
Proof. split; apply (bool_decide_unpack _); by vm_compute. Qed.

(** The loop over the table stops at the sentinel, the 33rd entry. *)
Lemma translate_loop_table gettext :
  translate_loop gettext descs' =
  Some ((translate_desc gettext <$> take 32 descs') ++ [sentinel]).
Proof.
  change (translate_loop gettext descs')
    with (translate_loop gettext (take 32 descs' ++ [sentinel])).
  by rewrite (translate_loop_app gettext (take 32 descs') sentinel []).
Qed.

(** The translation of the table is defined. *)
Lemma _translate_options_defined gettext :
  is_Some (_translate_options gettext options').
Proof.
  unfold _translate_options, options. simpl descs.
  rewrite translate_loop_table. by eexists.
Qed.

(** C32: [_translate_options] stops at the sentinel, inside the array:
    it gives the table with the copyright formatted for 2020 and every
    entry before the sentinel translated, whatever the catalogue. *)
Theorem _translate_options_spec gettext :
  _translate_options gettext options' =
  Some (mkGetopt PACKAGE_NAME "%prog [options]" PACKAGE_VERSION
          (format_d (gettext "(C) 2012-%d Carsten Haitzler and others") 2020)
          "BSD 2-Clause"
          "Terminal emulator written with Enlightenment Foundation Libraries"
          EINA_TRUE
          ((translate_desc gettext <$> take 32 descs') ++ [sentinel])).
Proof.
  unfold _translate_options, options. simpl descs.
  by rewrite translate_loop_table.
Qed.

(** With the identity for a catalogue the translated copyright is the
    one the build without translations assigns. *)
Theorem copyright_identity :
  copyright <$> _translate_options id options' =
  Some (copyright (untranslated options')).
Proof.
  unfold _translate_options, options. simpl descs.
  rewrite translate_loop_table. by vm_compute.
Qed.

(** Every flag [main_ipc_new] writes names an entry of the table. *)
Theorem plan_in_table :
  forallb (fun fv => bool_decide (is_Some (find_option descs' fv.1))) plan_flags
  = true.
Proof. by vm_compute. Qed.

(** C18: the flags [main_ipc_new] writes in a way the table does not
    parse them are those of the five tri-state options: the table
    declares them [STORE_BOOL], an option followed by its value, and
    [main_ipc_new] writes the flag alone. *)
Theorem plan_bare_bool_flags :
  List.filter (fun fv => negb (written_as_parsed descs' fv)) plan_flags =
  [("-l", false); ("--active-links", false); ("-m", false); ("-c", false);
   ("-G", false)].
Proof. by vm_compute. Qed.

(** [main_ipc_new] writes three flags after [-e], the option that
    ends the parsing of options: on a command line they belong to the
    command. *)
Theorem plan_after_break : after_break descs' plan_flags = ["-m"; "-c"; "-G"].
Proof. by vm_compute. Qed.

End OptionFacts.

(** An entry that is not one of the four with a fixed message is not
    changed by the identity catalogue. *)
Theorem translate_identity d :
  fixed_help (act d) = false -> translate_desc id d = d.
Proof. destruct d as [s l [h|] []]; by intros. Qed.
