(* ===== verification/Multisense.v ===== *)
(** * Multisense: probing the audio channel

    [_check_multisense] finds out whether the audio library has its
    multisense code compiled in: it sets the mute of the effect channel
    to 0 and to 1, reads it back each time, and puts the first setting
    back.  A library without the code ignores the writes, and the global
    [multisense_available] is cleared.

    The audio library is an interface: a type of states with the two
    functions the probe calls.  The theorems are proved against the
    interface with one law or the other; two instances discharge the
    laws. *)

From Stdlib Require Import ZArith Lia List.
From stdpp Require Import base tactics option list.
From S2P Require Import Prelude.

(** ** The interface of the audio library *)

(** [edje_audio_channel_mute_get] and [edje_audio_channel_mute_set] on
    [EDJE_CHANNEL_EFFECT]. *)
Class Channel (S : Type) := {
  mute_get : S -> Z;
  mute_set : Z -> S -> S
}.

(** A library with multisense: a mute is an [Eina_Bool], and the one
    written is the one read. *)
Class Multisense (S : Type) `{Channel S} := {
  mute_bool : forall s, mute_get s = 0 \/ mute_get s = 1;
  mute_get_set : forall v s, v = 0 \/ v = 1 -> mute_get (mute_set v s) = v
}.

(** A library without it: writing changes nothing that is read. *)
Class NoMultisense (S : Type) `{Channel S} := {
  mute_ignored : forall v s, mute_get (mute_set v s) = mute_get s
}.

(** ** The probe *)

Section Probe.

Context {S : Type} `{Channel S}.

(** The body of the loop for one value of [enabled]: the channel and
    [multisense_available]. *)
Definition probe_step (sa : S * Z) (enabled : Z) : S * Z :=
  let s := mute_set enabled sa.1 in
  (s, if decide (enabled <> mute_get s) then EINA_FALSE else sa.2).

(** [for (enabled = 0; enabled < 2; enabled++)], with the fuel that
    bounds its turns. *)
Fixpoint probe_loop (fuel : nat) (enabled : Z) (sa : S * Z) : S * Z :=
  match fuel with
  | O => sa
  | Datatypes.S fuel' =>
    if enabled <? 2
    then probe_loop fuel' (wrap_int (enabled + 1)) (probe_step sa enabled)
    else sa
  end.

(** [_check_multisense]: the channel after the probe and the new value
    of [multisense_available]. *)
Definition _check_multisense (s : S) (multisense_available : Z) : S * Z :=
  let setting := mute_get s in
  let sa := probe_loop 2 0 (s, multisense_available) in
  (mute_set setting sa.1, sa.2).

End Probe.

(** ** Two libraries *)

(** With multisense: the state is the mute. *)
#[global] Instance working_channel : Channel bool := {
  mute_get s := of_bool s;
  mute_set v _ := truthy v
}.

(** Without: nothing to set. *)
#[global] Instance stub_channel : Channel unit := {
  mute_get _ := 0;
  mute_set _ s := s
}.

#[global] Instance working_multisense : Multisense bool.
Proof.
  split.
  - intros []; simpl; auto.
  - by intros v s [-> | ->].
Qed.

#[global] Instance stub_no_multisense : NoMultisense unit.
Proof. by split. Qed.

(** ** The loop *)

Section ProbeFacts.

Context {S : Type} `{Channel S}.

(** Two turns are all the loop makes: more fuel changes nothing. *)
Lemma probe_loop_fuel fuel sa :
  (2 <= fuel)%nat ->
  probe_loop fuel 0 sa = probe_step (probe_step sa 0) 1.
Proof. destruct fuel as [|[|[|fuel]]]; (lia || done). Qed.

(** With a library that has multisense the probe changes neither
    [multisense_available] nor the mute of the channel. *)
Theorem _check_multisense_available `{!Multisense S} s a :
  (_check_multisense s a).2 = a /\
  mute_get (_check_multisense s a).1 = mute_get s.
Proof.
  unfold _check_multisense. rewrite probe_loop_fuel by done.
  unfold probe_step. simpl.
  rewrite !mute_get_set by (auto using mute_bool).
  by rewrite !decide_False by (by intros []).
Qed.

(** C30: with a library that ignores the writes the probe clears
    [multisense_available], whatever the mute of the channel is. *)
Theorem _check_multisense_missing `{!NoMultisense S} s a :
  (_check_multisense s a).2 = EINA_FALSE.
Proof.
  unfold _check_multisense. rewrite probe_loop_fuel by done.
  unfold probe_step. simpl. rewrite !mute_ignored.
  repeat case_decide; try done. lia.
Qed.

End ProbeFacts.

Lemma _check_multisense_available_witness :
  (_check_multisense true EINA_TRUE).2 = EINA_TRUE /\
  mute_get (_check_multisense true EINA_TRUE).1 = mute_get true.
Proof. apply (_check_multisense_available true EINA_TRUE). Defined.

Lemma _check_multisense_missing_witness :
  (_check_multisense tt EINA_TRUE).2 = EINA_FALSE.
Proof. apply (_check_multisense_missing tt EINA_TRUE). Defined.
