(* ===== verification/Main.v ===== *)
(** * Main: [elm_main]

    [elm_main] initialises the libraries, loads the configuration,
    parses the command line into the instance, assembles the command,
    configures the instance, reads the geometry, starts the window here
    or in a running process, runs the main loop and shuts down.  Every
    error but the first leaves by [goto end], the shutdown sequence.

    The function is a program over its locals, the instance with the
    trace of library calls of [Start], and the globals it writes.  What
    the libraries return is a parameter of the section; the command-line
    parser is one of them, and gives the list of the values it stores
    and the index of the first argument it did not parse. *)

From Stdlib Require Import ZArith Lia List Ascii String QArith.
From stdpp Require Import base tactics option list strings.
From S2P Require Import Prelude ProgLogic CString Config Instance Argv Geometry Start.
From S2P Require Import Options Multisense.

#[local] Open Scope prog_scope.

(** [prog] is the type of programs here; the field of that name of the
    option table is [Options.prog]. *)
#[local] Abbreviation prog := Prelude.prog.
#[local] Abbreviation Value := Prelude.Value.

(** ** Data *)

Definition EXIT_SUCCESS : Z := 0.
Definition EXIT_FAILURE : Z := 1.

(** What the parser stores into a variable. *)
Inductive stored :=
| SStr (s : string)
| SBool (b : Z)
| SDouble (d : Q).

(** The locals of [elm_main] the parser stores into. *)
Record locals := mkLocals {
  geometry : option string;
  quit_option : Z;
  single : Z;
  no_wizard : Z;
  cmd_options : Z;
  scale : Q
}.

(** The locals as [elm_main] initialises them; [scale] is unset. *)
Definition initial_locals : locals :=
  mkLocals None EINA_FALSE EINA_FALSE EINA_FALSE EINA_FALSE (-1).

(** The state of [elm_main]: the instance and the calls made, its
    locals, whether [instance.config] is set, and the globals
    [_log_domain], [multisense_available], [options] and
    [_main_config]. *)
Record mstate := mkM {
  m_world : world;
  m_locals : locals;
  m_config_set : bool;
  m_retval : Z;
  m_need_scale_wizard : Z;
  m_args : Z;
  m_log_domain : Z;
  m_multisense_available : Z;
  m_options : Getopt;
  m_main_config : option Cfg.Config
}.

Definition set_m_world (f : world -> world) (s : mstate) : mstate :=
  mkM (f (m_world s)) (m_locals s) (m_config_set s) (m_retval s)
    (m_need_scale_wizard s) (m_args s) (m_log_domain s)
    (m_multisense_available s) (m_options s) (m_main_config s).
Definition set_m_locals (v : locals) (s : mstate) : mstate :=
  mkM (m_world s) v (m_config_set s) (m_retval s)
    (m_need_scale_wizard s) (m_args s) (m_log_domain s)
    (m_multisense_available s) (m_options s) (m_main_config s).
Definition set_m_config_set (v : bool) (s : mstate) : mstate :=
  mkM (m_world s) (m_locals s) v (m_retval s)
    (m_need_scale_wizard s) (m_args s) (m_log_domain s)
    (m_multisense_available s) (m_options s) (m_main_config s).
Definition set_m_retval (v : Z) (s : mstate) : mstate :=
  mkM (m_world s) (m_locals s) (m_config_set s) v
    (m_need_scale_wizard s) (m_args s) (m_log_domain s)
    (m_multisense_available s) (m_options s) (m_main_config s).
Definition set_m_need_scale_wizard (v : Z) (s : mstate) : mstate :=
  mkM (m_world s) (m_locals s) (m_config_set s) (m_retval s)
    v (m_args s) (m_log_domain s)
    (m_multisense_available s) (m_options s) (m_main_config s).
Definition set_m_args (v : Z) (s : mstate) : mstate :=
  mkM (m_world s) (m_locals s) (m_config_set s) (m_retval s)
    (m_need_scale_wizard s) v (m_log_domain s)
    (m_multisense_available s) (m_options s) (m_main_config s).
Definition set_m_log_domain (v : Z) (s : mstate) : mstate :=
  mkM (m_world s) (m_locals s) (m_config_set s) (m_retval s)
    (m_need_scale_wizard s) (m_args s) v
    (m_multisense_available s) (m_options s) (m_main_config s).
Definition set_m_multisense_available (v : Z) (s : mstate) : mstate :=
  mkM (m_world s) (m_locals s) (m_config_set s) (m_retval s)
    (m_need_scale_wizard s) (m_args s) (m_log_domain s)
    v (m_options s) (m_main_config s).
Definition set_m_options (v : Getopt) (s : mstate) : mstate :=
  mkM (m_world s) (m_locals s) (m_config_set s) (m_retval s)
    (m_need_scale_wizard s) (m_args s) (m_log_domain s)
    (m_multisense_available s) v (m_main_config s).

Definition set_m_main_config (v : option Cfg.Config) (s : mstate) : mstate :=
  mkM (m_world s) (m_locals s) (m_config_set s) (m_retval s)
    (m_need_scale_wizard s) (m_args s) (m_log_domain s)
    (m_multisense_available s) (m_options s) v.

(** The instance of the state. *)
Definition m_inst (s : mstate) : Ipc_Instance := w_inst (m_world s).
Definition set_m_inst (f : Ipc_Instance -> Ipc_Instance) : mstate -> mstate :=
  set_m_world (set_w_inst f).

(** The calls made. *)
Definition m_trace (s : mstate) : list event := w_trace (m_world s).

(** The library calls known by their names, in the order they were
    made. *)
Definition calls (s : mstate) : list string := omap call_name (m_trace s).

(** How often a configuration of an instance was deleted. *)
Definition config_dels (s : mstate) : nat :=
  count_occ event_eq_dec (m_trace s) EConfigDel.

(** A program of [Start] run on the state of [elm_main]. *)
Definition lift {A} (m : prog world A) : prog mstate A :=
  fun s => let r := m (m_world s) in (set_m_world (fun _ => r.1) s, r.2).

(** The state with one more call made. *)
Definition record (e : event) : mstate -> mstate :=
  set_m_world (fun w => mkWorld (w_inst w) (w_starting_up w) (w_trace w ++ [e])).

(** A library call the theorems know by its name only. *)
Definition lib (f : string) : prog mstate unit := lift (emit (ECall f)).

Definition critical (msg : string) : prog mstate unit :=
  lift (emit (ECritical msg)).

(** A read outside an array: what the process does from there on is
    not defined. *)
Definition undefined {A} : prog mstate A := lift (emit EUndefined) ;; halt.

(** ** The values of the command line *)

(** One store of the parser, into the variable the table of values
    names; a value of another kind than the variable's is not stored. *)
Definition store_value (li : locals * Ipc_Instance) (vs : var * stored)
    : locals * Ipc_Instance :=
  let '(l, i) := li in
  match vs with
  | (v_background, SStr s) => (l, set_background (Some s) i)
  | (v_cd, SStr s) => (l, set_cd (Some s) i)
  | (v_cmd_options, SBool b) =>
    (mkLocals (geometry l) (quit_option l) (single l) (no_wizard l) b (scale l), i)
  | (v_theme, SStr s) => (l, set_theme (Some s) i)
  | (v_colorscheme, SStr s) => (l, set_colorscheme (Some s) i)
  | (v_geometry, SStr s) =>
    (mkLocals (Some s) (quit_option l) (single l) (no_wizard l) (cmd_options l)
       (scale l), i)
  | (v_name, SStr s) => (l, set_name (Some s) i)
  | (v_role, SStr s) => (l, set_role (Some s) i)
  | (v_title, SStr s) => (l, set_title (Some s) i)
  | (v_icon_name, SStr s) => (l, set_icon_name (Some s) i)
  | (v_font, SStr s) => (l, set_font (Some s) i)
  | (v_startup_split, SStr s) => (l, set_startup_split (Some s) i)
  | (v_login_shell, SBool b) => (l, set_login_shell b i)
  | (v_video_mute, SBool b) => (l, set_video_mute b i)
  | (v_cursor_blink, SBool b) => (l, set_cursor_blink b i)
  | (v_visual_bell, SBool b) => (l, set_visual_bell b i)
  | (v_fullscreen, SBool b) => (l, set_fullscreen b i)
  | (v_iconic, SBool b) => (l, set_iconic b i)
  | (v_borderless, SBool b) => (l, set_borderless b i)
  | (v_override, SBool b) => (l, set_override b i)
  | (v_maximized, SBool b) => (l, set_maximized b i)
  | (v_nowm, SBool b) => (l, set_nowm b i)
  | (v_hold, SBool b) => (l, set_hold b i)
  | (v_single, SBool b) =>
    (mkLocals (geometry l) (quit_option l) b (no_wizard l) (cmd_options l)
       (scale l), i)
  | (v_xterm_256color, SBool b) => (l, set_xterm_256color b i)
  | (v_scale, SDouble d) =>
    (mkLocals (geometry l) (quit_option l) (single l) (no_wizard l)
       (cmd_options l) d, i)
  | (v_active_links, SBool b) => (l, set_active_links b i)
  | (v_no_wizard, SBool b) =>
    (mkLocals (geometry l) (quit_option l) (single l) b (cmd_options l)
       (scale l), i)
  | (v_quit_option, SBool b) =>
    (mkLocals (geometry l) b (single l) (no_wizard l) (cmd_options l)
       (scale l), i)
  | _ => li
  end.

(** The kind of a stored value. *)
Definition stored_kind (s : stored) : vkind :=
  match s with
  | SStr _ => VALUE_STR
  | SBool _ => VALUE_BOOL
  | SDouble _ => VALUE_DOUBLE
  end.

(** A store is one the table of values allows: the variable is in the
    table with the kind of the value. *)
Definition store_allowed (vs : var * stored) : bool :=
  existsb (fun v => bool_decide (Options.target v = vs.1)
                    && bool_decide (vk v = stored_kind vs.2))
    values.

(** ** The command *)

Section Command.

Context (argv : list string).

Definition argc : Z := Z.of_nat (length argv).

(** [argv[i]]; outside the array it is undefined. *)
Definition argv_at (i : Z) : option string :=
  if 0 <=? i then argv !! Z.to_nat i else None.

(** [for (i = ...; i < argc; i++) cmds = eina_list_append (cmds, argv[i])]. *)
Fixpoint append_cmds (fuel : nat) (i : Z) (cs : list string)
    : option (list string) :=
  match fuel with
  | O => Some cs
  | S fuel' =>
    if i <? argc
    then a ← argv_at i; append_cmds fuel' (wrap_int (i + 1)) (cs ++ [a])
    else Some cs
  end.

(** [for (i = ...; i < argc; i++)]: a space and [argv[i]] are appended
    to the string buffer. *)
Fixpoint append_args (fuel : nat) (i : Z) (strb : string) : option string :=
  match fuel with
  | O => Some strb
  | S fuel' =>
    if i <? argc
    then a ← argv_at i;
         append_args fuel' (wrap_int (i + 1)) (strb +:+ " " +:+ a)
    else Some strb
  end.

(** The command and the commands of the splits, from the arguments
    after [-e]: with [-S] the first argument is the command and the
    others are the commands of the splits; without it they are joined
    into one command. *)
Definition assemble (args : Z) (inst : Ipc_Instance) : option Ipc_Instance :=
  if bool_decide (is_Some (startup_split inst)) then
    cs ← append_cmds (length argv) (wrap_int (args + 1)) (cmds inst);
    a ← argv_at args;
    Some (set_cmd (Some a) (set_cmds cs inst))
  else
    a ← argv_at args;
    strb ← append_args (length argv) (wrap_int (args + 1)) a;
    Some (set_cmd (Some strb) inst).

(** The arguments joined by single spaces. *)
Fixpoint join (l : list string) : string :=
  match l with
  | [] => ""
  | [a] => a
  | a :: l' => a +:+ " " +:+ join l'
  end.

End Command.

(** ** [elm_main] *)

Section Main.

(** The build: with or without translations, the catalogue, the
    package, and the help texts of the library's macros. *)
Context (enable_nls : bool) (gettext : string -> string).
Context (macro_help : macro -> option string).
Context (PACKAGE_NAME PACKAGE_VERSION : string).

(** The environment and what the libraries return. *)
Context (getenv_startup_id : option string) (utils_need_scale_wizard : Z).
Context (eina_log_domain_register : Z).
Context (config_load : Cfg.Config) (key_bindings_load : Z).
Context (argv : list string).
Context (ecore_getopt_parse : Getopt -> list string -> Z * list (var * stored)).
Context {S : Type} `{Channel S} (chan : S).
Context (getcwd : option string).

(** What the libraries of [Start] return. *)
Context (win_new_ok : bool) (term_new_ok : bool) (win_term_set_ret : Z).
Context (screen_w screen_h : Z).
Context (term_next_get : Term -> Term).
Context (theme_path_get : string -> string).
Context (config_compute_color_scheme : Cfg.Config -> Cfg.Config).
Context (font_files : list string).
Context (waiter_result : Z -> option bool) (ipc_serve_result : Z -> bool).

(** The state [elm_main] starts in: [retval] is [EXIT_SUCCESS],
    [instance.config] is not set, [terminology_starting_up] is set. *)
Definition initial_mstate : mstate :=
  mkM (mkWorld (initial_instance getenv_startup_id config_load) true [])
    initial_locals false EXIT_SUCCESS utils_need_scale_wizard 0 (-1)
    EINA_TRUE (options macro_help PACKAGE_NAME PACKAGE_VERSION) None.

(** The set-up of Elementary, up to the translations. *)
Definition elm_setup : prog mstate unit :=
  lib "elm_config_item_select_on_focus_disabled_set" ;;
  lib "elm_language_set" ;;
  lib "elm_policy_set" ;;
  lib "elm_app_compile_bin_dir_set" ;;
  lib "elm_app_compile_lib_dir_set" ;;
  lib "elm_app_compile_data_dir_set" ;;
  when enable_nls (lib "elm_app_compile_locale_set") ;;
  lib "elm_app_info_set".

(** The translation of the table of options, or its copyright without
    translations. *)
Definition translate : prog mstate unit :=
  if enable_nls then
    lib "bindtextdomain" ;;
    lib "textdomain" ;;
    g <- gets m_options ;;
    match _translate_options gettext g with
    | Some g' => modify (set_m_options g')
    | None => undefined
    end
  else
    modify (fun s => set_m_options (untranslated (m_options s)) s).

(** The parser's stores, into the locals and the instance. *)
Definition parse : prog mstate unit :=
  g <- gets m_options ;;
  let r := ecore_getopt_parse g argv in
  modify (fun s =>
    let li := foldl store_value (m_locals s, m_inst s) r.2 in
    set_m_args r.1 (set_m_inst (fun _ => li.2) (set_m_locals li.1 s))).

(** [if (cmd_options)]: the command is assembled from the arguments
    the parser left. *)
Definition command : prog mstate unit :=
  l <- gets m_locals ;;
  args <- gets m_args ;;
  when (truthy (cmd_options l))
    (if bool_decide (args = argc argv) then
       match argv_at argv (args - 1) with
       | Some a =>
         critical ("option " +:+ a +:+ " requires an argument!") ;;
         critical "invalid options found. See --help" ;;
         leave
       | None => undefined
       end
     else
       inst <- gets m_inst ;;
       match assemble argv args inst with
       | Some inst' => modify (set_m_inst (fun _ => inst'))
       | None => undefined
       end).

(** [_check_multisense ()]. *)
Definition check_multisense : prog mstate unit :=
  modify (fun s =>
    set_m_multisense_available
      (_check_multisense chan (m_multisense_available s)).2 s).

(** [_configure_instance (&instance)]. *)
Definition configure_instance : prog mstate unit :=
  inst <- gets m_inst ;;
  let r := _configure_instance theme_path_get config_compute_color_scheme
             font_files inst in
  modify (set_m_inst (fun _ => r.1)) ;;
  when r.2 (lift (emit (EErr "font not found"))).

(** The login shell of the configuration, when the option was not
    given. *)
Definition default_login_shell (inst : Ipc_Instance) : Ipc_Instance :=
  if decide (login_shell inst = IPC_INSTANCE_OPT_UNSET)
  then set_login_shell (Cfg.login_shell (config inst)) inst
  else inst.

(** The window is started in a running process or here. *)
Definition start_window : prog mstate unit :=
  l <- gets m_locals ;;
  inst <- gets m_inst ;;
  wizard <- gets m_need_scale_wizard ;;
  if negb (truthy (single l)) && truthy (Cfg.multi_instance (config inst)) then
    when (negb (bool_decide (is_Some (cd inst))))
      (modify (set_m_inst (set_cd getcwd))) ;;
    r <- lift (_start_multi win_new_ok term_new_ok win_term_set_ret screen_w
                 screen_h term_next_get waiter_result ipc_serve_result wizard) ;;
    when (truthy r) leave
  else
    lift (call tt (_start win_new_ok term_new_ok win_term_set_ret screen_w
                     screen_h term_next_get wizard)).

(** [main_config_get]: the configuration loaded, once it is. *)
Definition main_config_get (s : mstate) : option Cfg.Config := m_main_config s.

(** The configuration and the key bindings; [leave] is [goto end]. *)
Definition load_config : prog mstate unit :=
  lib "config_init" ;;
  lib "colors_init" ;;
  lib "config_load" ;;
  modify (set_m_main_config (Some config_load)) ;;
  lib "key_bindings_load" ;;
  when (key_bindings_load <? 0)
    (critical "Could not initialize key bindings" ;;
     modify (set_m_retval EXIT_FAILURE) ;;
     leave).

(** The libraries of the connections, and the configuration of the
    instance: a copy of the one loaded. *)
Definition init_ipc : prog mstate unit :=
  lib "emile_init" ;;
  lib "ecore_con_init" ;;
  lib "ecore_con_url_init" ;;
  lib "ipc_init" ;;
  lib "config_fork" ;;
  modify (fun s => set_m_config_set true (set_m_inst (set_config config_load) s)).

(** The command line is parsed; a negative index is an error. *)
Definition parse_command_line : prog mstate unit :=
  lib "ecore_getopt_parse" ;;
  parse ;;
  args <- gets m_args ;;
  when (args <? 0)
    (critical "Could not parse command line options" ;;
     modify (set_m_retval EXIT_FAILURE) ;;
     leave).

(** The options that act at once: the scale, the wizard, and those
    that only print. *)
Definition apply_options : prog mstate unit :=
  l <- gets m_locals ;;
  when (if Qlt_le_dec 0 (scale l) then true else false)
    (lib "elm_config_scale_set" ;;
     lib "elm_config_all_flush" ;;
     modify (set_m_inst (upd_config (Cfg.set_temporary EINA_TRUE)))) ;;
  when (truthy (no_wizard l)) (modify (set_m_need_scale_wizard EINA_FALSE)) ;;
  when (truthy (quit_option l)) leave.

(** The geometry, the themes and the login shell. *)
Definition prepare_instance : prog mstate unit :=
  l <- gets m_locals ;;
  modify (set_m_inst (elm_main_geometry (geometry l))) ;;
  lib "elm_theme_extension_add" ;;
  lib "elm_theme_extension_add" ;;
  modify (set_m_inst default_login_shell).

(** The main loop and what follows it. *)
Definition main_loop : prog mstate unit :=
  lib "elm_run" ;;
  lib "ecore_con_url_shutdown" ;;
  lib "ecore_con_shutdown" ;;
  lib "emile_shutdown" ;;
  modify (set_m_config_set false).

(** The command line: what the parser stores, the options that act at
    once, and the command. *)
Definition read_command_line : prog mstate unit :=
  parse_command_line ;;
  apply_options ;;
  command.

(** The instance is made ready for its window. *)
Definition setup_instance : prog mstate unit :=
  check_multisense ;;
  configure_instance ;;
  prepare_instance.

(** The window: the instance is made ready, the window is started and
    the main loop runs. *)
Definition run_window : prog mstate unit :=
  setup_instance ;;
  start_window ;;
  main_loop.

(** The body of [elm_main] from the configuration on. *)
Definition elm_main_body : prog mstate unit :=
  load_config ;;
  init_ipc ;;
  read_command_line ;;
  run_window.

(** The label [end]: the shutdown. *)
Definition elm_main_end : prog mstate unit :=
  set <- gets m_config_set ;;
  when set (lift (emit EConfigDel) ;; modify (set_m_config_set false)) ;;
  lib "ipc_shutdown" ;;
  lib "termpty_shutdown" ;;
  lib "miniview_shutdown" ;;
  lib "gravatar_shutdown" ;;
  lib "windows_free" ;;
  lib "config_del(_main_config)" ;;
  lib "key_bindings_shutdown" ;;
  lib "colors_shutdown" ;;
  lib "config_shutdown" ;;
  lib "controls_shutdown" ;;
  lib "eina_log_domain_unregister" ;;
  modify (set_m_log_domain (-1)) ;;
  when enable_nls (lib "eina_stringshare_del") ;;
  lib "elm_shutdown".

(** The start of [elm_main], up to the logging domain. *)
Definition elm_main_start : prog mstate unit :=
  modify (set_m_world (set_w_starting_up true)) ;;
  elm_setup ;;
  translate ;;
  lib "eina_log_domain_register" ;;
  modify (set_m_log_domain eina_log_domain_register).

(** [elm_main]: the value it returns. *)
Definition elm_main : prog mstate Z :=
  elm_main_start ;;
  if eina_log_domain_register <? 0 then
    critical "Could not create logging domain 'terminology'" ;;
    lib "elm_shutdown" ;;
    prog_ret EXIT_FAILURE
  else
    call tt elm_main_body ;;
    elm_main_end ;;
    gets m_retval.

End Main.

(** ** The calls of each part *)

(** Library calls known by their names. *)
Definition called (fs : list string) : list event := ECall <$> fs.

(** The calls of [elm_main] up to the logging domain. *)
Definition start_events (enable_nls : bool) : list event :=
  called
    (["elm_config_item_select_on_focus_disabled_set"; "elm_language_set";
      "elm_policy_set"; "elm_app_compile_bin_dir_set";
      "elm_app_compile_lib_dir_set"; "elm_app_compile_data_dir_set"]
     ++ (if enable_nls then ["elm_app_compile_locale_set"] else [])
     ++ ["elm_app_info_set"]
     ++ (if enable_nls then ["bindtextdomain"; "textdomain"] else [])
     ++ ["eina_log_domain_register"]).

Definition load_events : list event :=
  called ["config_init"; "colors_init"; "config_load"; "key_bindings_load"].

Definition init_events : list event :=
  called ["emile_init"; "ecore_con_init"; "ecore_con_url_init"; "ipc_init";
          "config_fork"].

Definition scale_events (scale : Q) : list event :=
  if Qlt_le_dec 0 scale
  then called ["elm_config_scale_set"; "elm_config_all_flush"]
  else [].

(** The two messages for [-e] without a command after it. *)
Definition missing_events (argv : list string) : list event :=
  [ECritical ("option " +:+ default "" (last argv) +:+ " requires an argument!");
   ECritical "invalid options found. See --help"].

(** The calls that make the instance ready. *)
Definition setup_events (font_missing : bool) : list event :=
  (if font_missing then [EErr "font not found"] else [])
  ++ called ["elm_theme_extension_add"; "elm_theme_extension_add"].

Definition loop_events : list event :=
  called ["elm_run"; "ecore_con_url_shutdown"; "ecore_con_shutdown";
          "emile_shutdown"].

(** The calls after the label [end]. *)
Definition end_events (config_set enable_nls : bool) : list event :=
  (if config_set then [EConfigDel] else [])
  ++ called
       (["ipc_shutdown"; "termpty_shutdown"; "miniview_shutdown";
         "gravatar_shutdown"; "windows_free"; "config_del(_main_config)";
         "key_bindings_shutdown"; "colors_shutdown"; "config_shutdown";
         "controls_shutdown"; "eina_log_domain_unregister"]
        ++ (if enable_nls then ["eina_stringshare_del"] else [])
        ++ ["elm_shutdown"]).

(** ** The ways out of [elm_main] *)

(** [elm_main] returns where the logging domain is refused; it goes to
    the label [end] when the key bindings do not load, when the command
    line does not parse, after an option that only prints, when [-e] has
    no command after it, and when a running process took the window; or
    it runs the main loop to its end. *)
Inductive exit :=
| ByLog | ByKeys | ByParse | ByQuit | ByMissing | ByRemote | ByLoop.

#[global] Instance exit_eq_dec : EqDecision exit.
Proof. solve_decision. Defined.

(** The value [elm_main] returns on each way. *)
Definition exit_status (e : exit) : Z :=
  match e with
  | ByLog | ByKeys | ByParse => EXIT_FAILURE
  | _ => EXIT_SUCCESS
  end.

(** Whether [instance.config] is set at the label [end]. *)
Definition has_config (e : exit) : bool :=
  match e with
  | ByParse | ByQuit | ByMissing | ByRemote => true
  | _ => false
  end.

(** The calls up to the command, when the command line parsed. *)
Definition read_events (l : locals) : list event :=
  load_events ++ init_events ++ called ["ecore_getopt_parse"]
  ++ scale_events (scale l).

(** The calls of the body on each way out, for the locals [l] the
    parser left, [fm] saying that the font was not found and [W] the
    calls of the start of the window. *)
Definition body_events (argv : list string) (l : locals) (fm : bool)
    (W : list event) (e : exit) : list event :=
  match e with
  | ByLog => []
  | ByKeys => load_events ++ [ECritical "Could not initialize key bindings"]
  | ByParse =>
    load_events ++ init_events ++ called ["ecore_getopt_parse"]
    ++ [ECritical "Could not parse command line options"]
  | ByQuit => read_events l
  | ByMissing => read_events l ++ missing_events argv
  | ByRemote => read_events l ++ setup_events fm ++ W
  | ByLoop => read_events l ++ setup_events fm ++ W ++ loop_events
  end.

(** All the calls of [elm_main] on each way out. *)
Definition exit_trace (enable_nls : bool) (argv : list string) (l : locals)
    (fm : bool) (W : list event) (e : exit) : list event :=
  start_events enable_nls
  ++ match e with
     | ByLog =>
       [ECritical "Could not create logging domain 'terminology'";
        ECall "elm_shutdown"]
     | _ => body_events argv l fm W e ++ end_events (has_config e) enable_nls
     end.

(** The calls of the start of the window: none is known by name; the
    configuration is deleted once when the window is started here; only
    attempts to reach a process when a process took the window. *)
Definition window_calls (e : exit) (W : list event) : Prop :=
  omap call_name W = [] /\
  count_occ event_eq_dec W EConfigDel = (if decide (e = ByLoop) then 1 else 0)%nat /\
  (e = ByRemote -> forallb remote_event W = true).

(** The conditions under which each way is taken, in the order the
    code tests them. *)
Definition taken (log key : Z) (argv : list string) (s : mstate) (e : exit)
    : Prop :=
  match e with
  | ByLog => log < 0
  | ByKeys => 0 <= log /\ key < 0
  | ByParse => 0 <= log /\ 0 <= key /\ m_args s < 0
  | ByQuit =>
    0 <= log /\ 0 <= key /\ 0 <= m_args s /\
    truthy (quit_option (m_locals s)) = true
  | ByMissing =>
    0 <= log /\ 0 <= key /\ 0 <= m_args s /\
    truthy (quit_option (m_locals s)) = false /\
    truthy (cmd_options (m_locals s)) = true /\ m_args s = argc argv
  | ByRemote | ByLoop =>
    0 <= log /\ 0 <= key /\ 0 <= m_args s /\
    truthy (quit_option (m_locals s)) = false /\
    ~ (truthy (cmd_options (m_locals s)) = true /\ m_args s = argc argv)
  end.

(** What the body of [elm_main], run from [s], has done when it is left
    by the way [e]. *)
Definition body_post (key : Z) (argv : list string) (s s' : mstate) (e : exit)
    : Prop :=
  taken 0 key argv s' e /\ m_retval s' = exit_status e /\
  m_config_set s' = has_config e /\
  exists fm W,
    window_calls e W /\
    m_trace s' = m_trace s ++ body_events argv (m_locals s') fm W e.

(** Where [elm_main] reads outside [argv]: [-e] was parsed and there
    is no argument, or the command cannot be assembled from the index
    on. *)
Definition reads_outside (argv : list string) (s : mstate) : Prop :=
  truthy (cmd_options (m_locals s)) = true /\
  (argv = [] \/
   m_args s <> argc argv /\ exists inst, assemble argv (m_args s) inst = None).

(** The locals, the index, the status and whether the instance has a
    configuration. *)
Definition kept (s : mstate) : locals * Z * Z * bool :=
  (m_locals s, m_args s, m_retval s, m_config_set s).

(** What the parser left in the locals and the index it returned. *)
Definition parsed_view (s : mstate) : locals * Z := (m_locals s, m_args s).

(** ** A process for the examples *)

(** A parser that returns the index [args] and makes the stores
    [stores]. *)
Definition demo_parse (args : Z) (stores : list (var * stored))
    : Getopt -> list string -> Z * list (var * stored) :=
  fun _ _ => (args, stores).

(** [elm_main] without translations, with libraries that succeed, no
    running process to take the window, and an audio library without
    multisense. *)
Definition demo_main (argv : list string) (args : Z)
    (stores : list (var * stored)) : prog mstate Z :=
  elm_main false id 0 Cfg.demo_config 0 argv (demo_parse args stores) tt None
    true true 0 1920 1080 S id id [] (fun _ => Some false) (fun _ => true).

Definition demo_init : mstate :=
  initial_mstate (fun _ => None) "terminology" "1.13.0" None 0 Cfg.demo_config.


(** ** Programs on the state of [elm_main] *)

Lemma wp_lift {A} (m : prog world A) (Q : A -> mstate -> Prop) R H s :
  wp m (fun a w => Q a (set_m_world (fun _ => w) s))
    (fun w => R (set_m_world (fun _ => w) s))
    (fun w => H (set_m_world (fun _ => w) s)) (m_world s) ->
  wp (lift m) Q R H s.
Proof. unfold wp, lift. simpl. by destruct (m (m_world s)) as [w [a| |]]. Qed.

(** A statement that records a call. *)
Lemma wp_record e (Q : unit -> mstate -> Prop) R H s :
  Q tt (record e s) -> wp (lift (emit e)) Q R H s.
Proof. done. Qed.

(** A program of [Start] changes the world only. *)
Lemma unchanged_lift {A B} (p : mstate -> B) (m : prog world A) :
  (forall f s, p (set_m_world f s) = p s) -> unchanged p (lift m).
Proof. intros Hp s. apply Hp. Qed.

Lemma unchanged_record {B} (p : mstate -> B) e :
  (forall s, p (record e s) = p s) -> unchanged p (lift (emit e)).
Proof. intros Hp s. apply Hp. Qed.

(** [main_step]: one statement of [elm_main]; the parts of [elm_main]
    that have a name are left for their lemmas. *)
Ltac main_atom :=
  lazymatch goal with
  | |- wp (lib _) _ _ _ _ => apply wp_record
  | |- wp (critical _) _ _ _ _ => apply wp_record
  | |- wp (lift (emit _)) _ _ _ _ => apply wp_record
  | _ => wp_atom
  end; cbv beta.
Ltac main_step :=
  lazymatch goal with
  | |- wp (prog_bind _ _) _ _ _ _ => first [ main_atom | apply wp_bind; main_atom ]
  | _ => main_atom
  end.
Ltac main_steps := repeat main_step.

(** [state_simpl]: the fields of a state the run has built. *)
Ltac state_simpl :=
  cbv beta iota delta
      [m_world m_locals m_config_set m_retval m_need_scale_wizard m_args
       m_log_domain m_multisense_available m_options m_main_config
       set_m_main_config set_m_world set_m_locals
       set_m_config_set set_m_retval set_m_need_scale_wizard set_m_args
       set_m_log_domain set_m_multisense_available set_m_options record m_inst
       set_m_inst m_trace w_inst w_trace w_starting_up set_w_inst
       set_w_starting_up] in *.

(** [conds]: the conditions decided on the way are known. *)
Ltac conds :=
  repeat match goal with
  | H : ?b = ?v |- _ =>
    lazymatch v with true => idtac | false => idtac end;
    lazymatch b with true => fail | false => fail | _ => rewrite H end
  end.

(** ** The calls made *)

Lemma count_del_called fs : count_occ event_eq_dec (called fs) EConfigDel = 0%nat.
Proof. by induction fs. Qed.

Lemma count_del_scale q : count_occ event_eq_dec (scale_events q) EConfigDel = 0%nat.
Proof. unfold scale_events. by destruct (Qlt_le_dec 0 q). Qed.

Lemma count_del_setup fm : count_occ event_eq_dec (setup_events fm) EConfigDel = 0%nat.
Proof. by destruct fm. Qed.

Lemma count_del_end c nls :
  count_occ event_eq_dec (end_events c nls) EConfigDel = if c then 1%nat else 0%nat.
Proof.
  unfold end_events. rewrite count_occ_app, count_del_called. by destruct c.
Qed.

Lemma count_del_read l : count_occ event_eq_dec (read_events l) EConfigDel = 0%nat.
Proof.
  unfold read_events, load_events, init_events.
  by rewrite !count_occ_app, !count_del_called, count_del_scale.
Qed.

Lemma calls_scale q :
  omap call_name (scale_events q) =
  if Qlt_le_dec 0 q then ["elm_config_scale_set"; "elm_config_all_flush"] else [].
Proof. unfold scale_events. by destruct (Qlt_le_dec 0 q). Qed.

Lemma calls_called fs : omap call_name (called fs) = fs.
Proof. induction fs as [|f fs IH]; [done|]. by rewrite <- IH at 2. Qed.

Lemma parsed_view_eq s s' :
  parsed_view s' = parsed_view s -> m_locals s' = m_locals s /\ m_args s' = m_args s.
Proof. by intros [= -> ->]. Qed.

(** [frame]: the program keeps a part of the state: one that is not of
    the world, or one the calls it makes do not change. *)
Ltac frame_side := first [ reflexivity | assumption ].
Ltac frame :=
  repeat lazymatch goal with
  | |- unchanged _ (lift (emit _)) => apply unchanged_record; intros; frame_side
  | |- unchanged _ (lift _) => apply unchanged_lift; intros; reflexivity
  | _ => frame_step frame_side
  end.

(** [trace_done]: the trace of a state the run has built. *)
Ltac trace_done :=
  unfold m_trace in *; state_simpl; conds; rewrite <- ?app_assoc; cbn [app];
  repeat split; first [done | congruence | lia].


(** ** The command *)

Section CommandFacts.

Context (argv : list string).
Context (Hargc : argc argv <= INT_MAX).

Lemma next_index i : 0 <= i < argc argv -> wrap_int (i + 1) = i + 1.
Proof. intros Hi. apply wrap_int_id. unfold in_int, INT_MIN, INT_MAX in *. lia. Qed.

Lemma argv_at_lookup i :
  0 <= i < argc argv -> exists a, argv_at argv i = Some a /\
    drop (Z.to_nat i) argv = a :: drop (Z.to_nat (i + 1)) argv.
Proof.
  intros Hi. unfold argv_at, argc in *. rewrite Zle_imp_le_bool by lia.
  destruct (lookup_lt_is_Some_2 argv (Z.to_nat i)) as [a Ha]; [lia|].
  exists a. split; [done|]. rewrite Z2Nat.inj_add by lia.
  rewrite Nat.add_1_r. by apply drop_S.
Qed.

(** The loop of [-S]: the arguments from [i] on are appended to the
    commands; as many turns as there are arguments are enough. *)
Lemma append_cmds_spec fuel i cs :
  0 <= i -> (Z.to_nat (argc argv - i) <= fuel)%nat ->
  append_cmds argv fuel i cs = Some (cs ++ drop (Z.to_nat i) argv).
Proof.
  revert i cs. induction fuel as [|fuel IH]; intros i cs Hi Hf; simpl.
  - rewrite drop_ge, app_nil_r; [done|]. unfold argc in *. lia.
  - destruct (i <? argc argv) eqn:Hlt.
    + apply Z.ltb_lt in Hlt. destruct (argv_at_lookup i) as (a & -> & ->); [lia|].
      simpl. rewrite next_index, IH by lia. by rewrite <- app_assoc.
    + apply Z.ltb_ge in Hlt. rewrite drop_ge, app_nil_r; [done|].
      unfold argc in *. lia.
Qed.

(** The loop of the string buffer. *)
Lemma append_args_spec fuel i strb :
  0 <= i -> (Z.to_nat (argc argv - i) <= fuel)%nat ->
  append_args argv fuel i strb =
  Some (foldl (fun b a => b +:+ " " +:+ a) strb (drop (Z.to_nat i) argv)).
Proof.
  revert i strb. induction fuel as [|fuel IH]; intros i strb Hi Hf; simpl.
  - rewrite drop_ge; [done|]. unfold argc in *. lia.
  - destruct (i <? argc argv) eqn:Hlt.
    + apply Z.ltb_lt in Hlt. destruct (argv_at_lookup i) as (a & -> & ->); [lia|].
      simpl. by rewrite next_index, IH by lia.
    + apply Z.ltb_ge in Hlt. rewrite drop_ge; [done|]. unfold argc in *. lia.
Qed.

(** Joining is appending each argument after a space. *)
Lemma join_foldl a l :
  foldl (fun b x => b +:+ " " +:+ x) a l = join (a :: l).
Proof.
  revert a. induction l as [|b l IH]; intros a; [done|].
  cbn [foldl]. rewrite IH. cbn [join].
  destruct l as [|c l]; by rewrite ?append_assoc.
Qed.

(** When the index the parser returned is one of an argument, the
    loops that assemble the command do what the functions on lists say:
    with [-S] the command is the argument at the index and the arguments
    after it are appended to the commands of the splits; without it the
    command is the arguments from the index on, joined by single spaces.
    As many turns of a loop as there are arguments are enough. *)
Theorem assemble_spec args inst :
  0 <= args < argc argv ->
  assemble argv args inst =
  Some (if bool_decide (is_Some (startup_split inst))
        then set_cmd (argv !! Z.to_nat args)
               (set_cmds (cmds inst ++ drop (Z.to_nat (args + 1)) argv) inst)
        else set_cmd (Some (join (drop (Z.to_nat args) argv))) inst).
Proof.
  intros Ha. unfold assemble.
  destruct (argv_at_lookup args) as (a & Hat & Hd); [done|].
  rewrite Hat, Hd, next_index by done. case_bool_decide; simpl.
  - rewrite append_cmds_spec by (unfold argc in *; lia). simpl.
    unfold argv_at in Hat. rewrite Zle_imp_le_bool in Hat by lia. by rewrite Hat.
  - rewrite append_args_spec by (unfold argc in *; lia). simpl.
    by rewrite join_foldl.
Qed.

End CommandFacts.

Section MainFacts.

Context (enable_nls : bool) (gettext : string -> string).
Context (macro_help : macro -> option string).
Context (PACKAGE_NAME PACKAGE_VERSION : string).
Context (getenv_startup_id : option string) (utils_need_scale_wizard : Z).
Context (eina_log_domain_register : Z).
Context (config_load : Cfg.Config) (key_bindings_load : Z).
Context (argv : list string).
Context (ecore_getopt_parse : Getopt -> list string -> Z * list (var * stored)).
Context {S : Type} `{Channel S} (chan : S).
Context (getcwd : option string).
Context (win_new_ok : bool) (term_new_ok : bool) (win_term_set_ret : Z).
Context (screen_w screen_h : Z).
Context (term_next_get : Term -> Term).
Context (theme_path_get : string -> string).
Context (config_compute_color_scheme : Cfg.Config -> Cfg.Config).
Context (font_files : list string).
Context (waiter_result : Z -> option bool) (ipc_serve_result : Z -> bool).

#[local] Abbreviation init' :=
  (initial_mstate macro_help PACKAGE_NAME PACKAGE_VERSION getenv_startup_id
     utils_need_scale_wizard config_load).
#[local] Abbreviation start' :=
  (_start win_new_ok term_new_ok win_term_set_ret screen_w screen_h
     term_next_get).
#[local] Abbreviation start_multi' :=
  (_start_multi win_new_ok term_new_ok win_term_set_ret screen_w screen_h
     term_next_get waiter_result ipc_serve_result).
#[local] Abbreviation start_window' :=
  (start_window getcwd win_new_ok term_new_ok win_term_set_ret screen_w
     screen_h term_next_get waiter_result ipc_serve_result).
#[local] Abbreviation setup_instance' :=
  (setup_instance chan theme_path_get config_compute_color_scheme font_files).
#[local] Abbreviation body' :=
  (elm_main_body config_load key_bindings_load argv ecore_getopt_parse chan
     getcwd win_new_ok term_new_ok win_term_set_ret screen_w screen_h
     term_next_get theme_path_get config_compute_color_scheme font_files
     waiter_result ipc_serve_result).
#[local] Abbreviation elm_main' :=
  (elm_main enable_nls gettext eina_log_domain_register config_load
     key_bindings_load argv ecore_getopt_parse chan getcwd win_new_ok
     term_new_ok win_term_set_ret screen_w screen_h term_next_get
     theme_path_get config_compute_color_scheme font_files waiter_result
     ipc_serve_result).
#[local] Abbreviation parsed g := (ecore_getopt_parse g argv).
#[local] Abbreviation remote_outcome' :=
  (remote_outcome waiter_result ipc_serve_result).

(** *** The parts of [elm_main], one after the other *)

(** The start: its calls; nothing is decided yet. *)
Lemma elm_main_start_spec s :
  is_Some (_translate_options gettext (m_options s)) ->
  wp (elm_main_start enable_nls gettext eina_log_domain_register)
    (fun _ s' =>
       m_trace s' = m_trace s ++ start_events enable_nls /\
       m_retval s' = m_retval s /\ m_config_set s' = m_config_set s)
    (fun _ => False) (fun _ => False) s.
Proof.
  intros [g Hg]. unfold elm_main_start, elm_setup, translate.
  main_steps; trace_done.
Qed.

Lemma load_config_spec s :
  wp (load_config config_load key_bindings_load)
    (fun _ s' =>
       (key_bindings_load <? 0) = false /\
       m_trace s' = m_trace s ++ load_events /\ m_retval s' = m_retval s)
    (fun s' =>
       (key_bindings_load <? 0) = true /\
       m_trace s' =
         m_trace s ++ load_events
         ++ [ECritical "Could not initialize key bindings"] /\
       m_retval s' = EXIT_FAILURE)
    (fun _ => False) s.
Proof. unfold load_config. main_steps; trace_done. Qed.

(** From the load on [main_config_get] gives the configuration
    loaded, also when the key bindings fail. *)
Lemma load_config_main_config s :
  main_config_get (exec (load_config config_load key_bindings_load) s) =
  Some config_load.
Proof.
  unfold load_config, exec, prog_bind, when, lib, critical, lift, modify; simpl.
  by destruct (key_bindings_load <? 0).
Qed.

Lemma init_ipc_spec s :
  wp (init_ipc config_load)
    (fun _ s' => m_trace s' = m_trace s ++ init_events /\ m_config_set s' = true)
    (fun _ => False) (fun _ => False) s.
Proof. unfold init_ipc. main_steps; trace_done. Qed.

Lemma parse_command_line_spec s :
  wp (parse_command_line argv ecore_getopt_parse)
    (fun _ s' =>
       (m_args s' <? 0) = false /\ m_args s' = (parsed (m_options s)).1 /\
       m_trace s' = m_trace s ++ called ["ecore_getopt_parse"] /\
       m_retval s' = m_retval s)
    (fun s' =>
       (m_args s' <? 0) = true /\ m_args s' = (parsed (m_options s)).1 /\
       m_trace s' =
         m_trace s ++ called ["ecore_getopt_parse"]
         ++ [ECritical "Could not parse command line options"] /\
       m_retval s' = EXIT_FAILURE)
    (fun _ => False) s.
Proof. unfold parse_command_line, parse. main_steps; trace_done. Qed.

Lemma apply_options_spec s :
  wp apply_options
    (fun _ s' =>
       truthy (quit_option (m_locals s)) = false /\
       m_trace s' = m_trace s ++ scale_events (scale (m_locals s)))
    (fun s' =>
       truthy (quit_option (m_locals s)) = true /\
       m_trace s' = m_trace s ++ scale_events (scale (m_locals s)))
    (fun _ => False) s.
Proof.
  unfold apply_options, scale_events. main_steps;
    destruct (Qlt_le_dec 0 _); try done; rewrite ?app_nil_r; trace_done.
Qed.



Lemma argv_at_last : argv_at argv (argc argv - 1) = last argv.
Proof.
  unfold argv_at, argc. rewrite last_lookup.
  destruct argv as [|a l]; [done|]. cbn [length].
  rewrite Zle_imp_le_bool by lia. f_equal. lia.
Qed.

(** [-e] as the last argument: two messages and [goto end]; an index
    outside the arguments is a read outside the array. *)
Lemma command_spec s :
  wp (command argv)
    (fun _ s' =>
       m_trace s' = m_trace s /\
       ~ (truthy (cmd_options (m_locals s)) = true /\ m_args s = argc argv))
    (fun s' =>
       truthy (cmd_options (m_locals s)) = true /\ m_args s = argc argv /\
       m_trace s' = m_trace s ++ missing_events argv)
    (fun _ =>
       truthy (cmd_options (m_locals s)) = true /\
       (argv = [] \/
        m_args s <> argc argv /\ assemble argv (m_args s) (m_inst s) = None))
    s.
Proof.
  unfold command, undefined, missing_events. main_steps;
    repeat case_bool_decide; try trace_done.
  all: repeat match goal with
       | H : m_args ?x = _, H' : argv_at _ (m_args ?x - 1) = _ |- _ =>
         rewrite H, argv_at_last in H'
       end.
  - match goal with H : last _ = Some _ |- _ => rewrite H end. trace_done.
  - split; [done|]. left. destruct argv using rev_ind; [done|].
    by rewrite last_snoc in *.
  - split; [done|]. by right.
Qed.

Lemma setup_instance_spec s :
  wp setup_instance'
    (fun _ s' =>
       m_trace s' =
       m_trace s
       ++ setup_events
            (_configure_instance theme_path_get config_compute_color_scheme
               font_files (m_inst s)).2)
    (fun _ => False) (fun _ => False) s.
Proof.
  unfold setup_instance, check_multisense, configure_instance,
    prepare_instance, setup_events.
  main_steps; trace_done.
Qed.

Lemma main_loop_spec s :
  wp main_loop
    (fun _ s' => m_trace s' = m_trace s ++ loop_events /\ m_config_set s' = false)
    (fun _ => False) (fun _ => False) s.
Proof. unfold main_loop. main_steps; trace_done. Qed.

Lemma elm_main_end_spec s :
  wp (elm_main_end enable_nls)
    (fun _ s' =>
       m_trace s' = m_trace s ++ end_events (m_config_set s) enable_nls /\
       m_retval s' = m_retval s)
    (fun _ => False) (fun _ => False) s.
Proof. unfold elm_main_end, end_events. main_steps; trace_done. Qed.


(** *** The start of the window *)

#[local] Abbreviation multi_events' :=
  (multi_events waiter_result ipc_serve_result).

(** A window started here: no call known by name, one deletion of the
    configuration. *)
Lemma start_here_spec n s :
  wp (lift (call tt (start' n)))
    (fun _ s' => exists W,
       m_trace s' = m_trace s ++ W /\ window_calls ByLoop W)
    (fun _ => False) (fun _ => False) s.
Proof.
  apply wp_lift. eapply wp_mono; [apply _start_call_events|cbv beta..]; try done.
  intros _ w (evs & Ht & [Hn Hc]%window_events_quiet).
  eexists. split; [exact Ht|]. unfold window_calls.
  rewrite omap_app, count_occ_app, Hn, Hc. by rewrite decide_True.
Qed.

(** A window offered to a running process. *)
Lemma start_multi_spec n s :
  wp (lift (start_multi' n))
    (fun r s' => exists W,
       m_trace s' = m_trace s ++ W /\
       (r = EINA_TRUE /\ window_calls ByRemote W \/
        r = EINA_FALSE /\ window_calls ByLoop W))
    (fun _ => False) (fun _ => remote_outcome' = None) s.
Proof.
  pose proof (multi_events_remote waiter_result ipc_serve_result) as Hr.
  destruct (remote_events_quiet _ Hr) as [Hrn Hrc].
  apply wp_lift. eapply wp_mono; [apply _start_multi_events|cbv beta..];
    [|done|by intros ? []].
  intros r w [[-> Ht] | [-> (evs & Ht & [Hn Hc]%window_events_quiet)]];
    (eexists; split; [exact Ht|]); [left|right]; (split; [done|]);
    unfold window_calls; rewrite ?omap_app, ?count_occ_app, Hrn, Hrc, ?Hn, ?Hc.
  - by rewrite decide_False.
  - by rewrite decide_True.
Qed.

Lemma start_window_spec s :
  wp start_window'
    (fun _ s' => exists W, m_trace s' = m_trace s ++ W /\ window_calls ByLoop W)
    (fun s' => exists W, m_trace s' = m_trace s ++ W /\ window_calls ByRemote W)
    (fun _ => remote_outcome' = None) s.
Proof.
  unfold start_window. main_steps; [| |by wp_use start_here_spec].
  all: wp_use start_multi_spec; [|done..].
  all: intros r s' (W & Ht & [[-> Hw]|[-> Hw]]); main_steps; try done.
  all: by exists W.
Qed.


(** *** The body *)

Lemma kept_eq s s' :
  kept s' = kept s ->
  m_locals s' = m_locals s /\ m_args s' = m_args s /\
  m_retval s' = m_retval s /\ m_config_set s' = m_config_set s.
Proof. by intros [= -> -> -> ->]. Qed.

(** [wp_part L p]: the next part has the postcondition of its lemma [L]
    and keeps the part [p] of the state. *)
Ltac wp_part L p :=
  lazymatch goal with
  | |- wp (prog_bind _ _) _ _ _ _ => apply wp_bind
  | _ => idtac
  end;
  eapply wp_mono; [apply (wp_frame p); [frame|apply L]|cbv beta..].

#[local] Abbreviation outside' s :=
  (reads_outside argv s /\ 0 <= m_args s /\ exists g, m_args s = (parsed g).1).

(** The command line: the three ways out of it, or on to the window. *)
Lemma read_command_line_spec s :
  wp (read_command_line argv ecore_getopt_parse)
    (fun _ s' =>
       m_retval s' = m_retval s /\ m_config_set s' = m_config_set s /\
       0 <= m_args s' /\ truthy (quit_option (m_locals s')) = false /\
       ~ (truthy (cmd_options (m_locals s')) = true /\ m_args s' = argc argv) /\
       m_trace s' =
         m_trace s ++ called ["ecore_getopt_parse"]
         ++ scale_events (scale (m_locals s')))
    (fun s' =>
       m_config_set s' = m_config_set s /\
       (m_args s' < 0 /\ m_retval s' = EXIT_FAILURE /\
        m_trace s' =
          m_trace s ++ called ["ecore_getopt_parse"]
          ++ [ECritical "Could not parse command line options"] \/
        0 <= m_args s' /\ m_retval s' = m_retval s /\
        (truthy (quit_option (m_locals s')) = true /\
         m_trace s' =
           m_trace s ++ called ["ecore_getopt_parse"]
           ++ scale_events (scale (m_locals s')) \/
         truthy (quit_option (m_locals s')) = false /\
         truthy (cmd_options (m_locals s')) = true /\ m_args s' = argc argv /\
         m_trace s' =
           m_trace s ++ called ["ecore_getopt_parse"]
           ++ scale_events (scale (m_locals s')) ++ missing_events argv)))
    (fun s' => outside' s') s.
Proof.
  unfold read_command_line.
  wp_part parse_command_line_spec m_config_set; [| |by intros ? [_ []]].
  2: { intros s1 (Hc & Ha%Z.ltb_lt & _ & Ht & Hr). split; [done|]. by left. }
  intros _ s1 (Hc & Ha%Z.ltb_ge & Hp & Ht & Hr).
  wp_part apply_options_spec kept; [| |by intros ? [_ []]].
  2: { intros s2 ((Hl & Ha2 & Hr2 & Hc2)%kept_eq & Hq & Ht2).
       split; [congruence|]. right. rewrite Ha2, Hr2, Hl, Ht2, Ht, <- app_assoc.
       repeat split; try done. by left. }
  intros _ s2 ((Hl & Ha2 & Hr2 & Hc2)%kept_eq & Hq & Ht2).
  rewrite <- Hl in Hq, Ht2. rewrite <- Ha2 in Ha.
  wp_part command_spec kept.
  - intros _ s3 ((Hl3 & Ha3 & Hr3 & Hc3)%kept_eq & Ht3 & Hm).
    rewrite Hl3, Ha3, Hr3, Hc3, Ht3, Hr2, Hc2, Ht2, Ht, <- app_assoc.
    repeat split; (done || congruence).
  - intros s3 ((Hl3 & Ha3 & Hr3 & Hc3)%kept_eq & Hcmd & Hargs & Ht3).
    split; [congruence|]. right.
    rewrite Hl3, Ha3, Hr3, Ht3, Hr2, Ht2, Ht, <- !app_assoc.
    repeat split; try done. right. repeat split; done.
  - intros s3 ((Hl3 & Ha3 & _)%kept_eq & Hcmd & Hu). unfold reads_outside.
    rewrite Hl3, Ha3, Ha2. rewrite Ha2 in Hu, Ha.
    repeat split; [done| |done|by eexists]. destruct Hu as [?|[? ?]]; eauto.
Qed.


(** The window: started here and run to the end of the main loop, or
    taken by a running process. *)
Lemma run_window_spec s :
  wp (run_window chan getcwd win_new_ok term_new_ok win_term_set_ret screen_w
        screen_h term_next_get theme_path_get config_compute_color_scheme
        font_files waiter_result ipc_serve_result)
    (fun _ s' =>
       parsed_view s' = parsed_view s /\ m_retval s' = m_retval s /\
       m_config_set s' = false /\
       exists fm W,
         window_calls ByLoop W /\
         m_trace s' = m_trace s ++ setup_events fm ++ W ++ loop_events)
    (fun s' =>
       kept s' = kept s /\
       exists fm W,
         window_calls ByRemote W /\
         m_trace s' = m_trace s ++ setup_events fm ++ W)
    (fun _ => remote_outcome' = None) s.
Proof.
  unfold run_window.
  wp_part setup_instance_spec kept; [|by intros ? [_ []]..].
  intros _ s1 (Hk1 & Ht1).
  wp_part start_window_spec kept; [| |by intros ? [_ ?]].
  2: { intros s2 (Hk2 & W & Ht2 & Hw). split; [congruence|].
       eexists _, W. split; [done|]. by rewrite Ht2, Ht1, <- app_assoc. }
  intros _ s2 (Hk2 & W & Ht2 & Hw).
  wp_part main_loop_spec (fun s => (parsed_view s, m_retval s)); [|by intros ? [_ []]..].
  intros _ s3 ([= Hp3 Hr3] & Ht3 & Hc3).
  apply kept_eq in Hk1 as (Hl1 & Ha1 & Hr1 & _), Hk2 as (Hl2 & Ha2 & Hr2 & _).
  unfold parsed_view in *. repeat split; [congruence..|].
  eexists _, W. split; [done|]. by rewrite Ht3, Ht2, Ht1, <- !app_assoc.
Qed.


Lemma no_window e : e <> ByLoop -> e <> ByRemote -> window_calls e [].
Proof. intros H1 H2. unfold window_calls. by rewrite decide_False. Qed.

(** The body of [elm_main]: each way out of it, with its calls. *)
Lemma body_spec s :
  m_retval s = EXIT_SUCCESS -> m_config_set s = false ->
  wp body'
    (fun _ s' => body_post key_bindings_load argv s s' ByLoop)
    (fun s' => exists e,
       e <> ByLog /\ e <> ByLoop /\ body_post key_bindings_load argv s s' e)
    (fun s' => remote_outcome' = None \/ outside' s') s.
Proof.
  intros Hr Hc. unfold elm_main_body, body_post, taken.
  wp_part load_config_spec m_config_set; [| |by intros ? [_ []]].
  2: { intros s1 (Hc1 & Hk%Z.ltb_lt & Ht & Hr1). exists ByKeys.
       cbn [has_config exit_status]. repeat split; try done; [congruence|].
       exists false, []. by split; [apply no_window|]. }
  intros _ s1 (Hc1 & Hk%Z.ltb_ge & Ht1 & Hr1).
  wp_part init_ipc_spec m_retval; [|by intros ? [_ []]..].
  intros _ s2 (Hr2 & Ht2 & Hc2).
  wp_use read_command_line_spec; [| |by right].
  2: { intros s3 (Hc3 & [(Ha & Hr3 & Ht3) |
         (Ha & Hr3 & [(Hq & Ht3) | (Hq & Hcmd & Hargs & Ht3)])]);
         [exists ByParse|exists ByQuit|exists ByMissing].
       all: cbn [has_config exit_status]; repeat split; try done; try congruence.
       all: exists false, []; split; [by apply no_window|].
       all: by rewrite Ht3, Ht2, Ht1, <- !app_assoc. }
  intros _ s3 (Hr3 & Hc3 & Ha & Hq & Hm & Ht3).
  wp_use run_window_spec; [| |by left].
  - intros _ s4 ([Hl4 Ha4]%parsed_view_eq & Hr4 & Hc4 & fm & W & Hw & Ht4).
    rewrite Hl4, Ha4. cbn [has_config exit_status].
    repeat split; try done; try congruence.
    exists fm, W. split; [done|]. by rewrite Ht4, Ht3, Ht2, Ht1, <- !app_assoc.
  - intros s4 ((Hl4 & Ha4 & Hr4 & Hc4)%kept_eq & fm & W & Hw & Ht4).
    exists ByRemote. rewrite Hl4, Ha4. cbn [has_config exit_status].
    repeat split; try done; try congruence.
    exists fm, W. split; [done|]. by rewrite Ht4, Ht3, Ht2, Ht1, <- !app_assoc.
Qed.


(** *** [elm_main] *)

(** The shutdown after the body was left by the way [e]. *)
Lemma elm_main_end_paths s s' e :
  0 <= eina_log_domain_register -> e <> ByLog ->
  m_trace s = start_events enable_nls ->
  body_post key_bindings_load argv s s' e ->
  wp (elm_main_end enable_nls ;; gets m_retval)
    (fun r s'' => exists e fm W,
       taken eina_log_domain_register key_bindings_load argv s'' e /\
       r = exit_status e /\ window_calls e W /\
       m_trace s'' = exit_trace enable_nls argv (m_locals s'') fm W e)
    (fun _ => False)
    (fun s'' => remote_outcome' = None \/ outside' s'') s'.
Proof.
  intros Hlog He Hs (Ht & Hr & Hc & fm & W & Hw & Htr).
  wp_part elm_main_end_spec parsed_view; [|by intros ? [_ []]..].
  intros _ s2 ([Hl Ha]%parsed_view_eq & Ht2 & Hr2). main_steps.
  exists e, fm, W. rewrite Hl, Hr2, Ht2, Htr, Hs, Hc.
  split; [|split; [done|split; [done|]]].
  - unfold taken in *. rewrite Hl, Ha. destruct e; try done; tauto.
  - unfold exit_trace. destruct e; try done; by rewrite <- !app_assoc.
Qed.

(** [elm_main] is left by one of the seven ways; the way decides the
    value returned and the calls made. *)
Lemma elm_main_paths :
  wp elm_main'
    (fun r s' => exists e fm W,
       taken eina_log_domain_register key_bindings_load argv s' e /\
       r = exit_status e /\ window_calls e W /\
       m_trace s' = exit_trace enable_nls argv (m_locals s') fm W e)
    (fun _ => False)
    (fun s' => remote_outcome' = None \/ outside' s') init'.
Proof.
  unfold elm_main.
  wp_use (elm_main_start_spec init'); [apply _translate_options_defined| |done..].
  intros _ s (Ht & Hr & Hc). change (m_trace init' ++ ?l) with l in Ht.
  main_steps.
  - exists ByLog, false, [].
    split; [by apply Z.ltb_lt|split; [done|split; [by apply no_window|]]].
    unfold exit_trace. trace_done.
  - apply Z.ltb_ge in Heqb.
    eapply wp_mono; [by apply body_spec|cbv beta..]; [| |done].
    + intros _ s'. by apply elm_main_end_paths.
    + intros s' (e & He & _ & Hp). by apply (elm_main_end_paths s s' e).
Qed.


(** What the postcondition says of a run that returns [r]. *)
Lemma elm_main_returned r :
  (elm_main' init').2 = Value r ->
  exists e fm W,
    taken eina_log_domain_register key_bindings_load argv
      (exec elm_main' init') e /\
    r = exit_status e /\ window_calls e W /\
    m_trace (exec elm_main' init') =
      exit_trace enable_nls argv (m_locals (exec elm_main' init')) fm W e.
Proof. intros Hr. by apply (wp_value _ _ _ _ _ _ elm_main_paths Hr). Qed.

(** How often the configuration of the instance is deleted on each
    way. *)
Lemma exit_trace_dels l fm W e :
  window_calls e W ->
  count_occ event_eq_dec (exit_trace enable_nls argv l fm W e) EConfigDel =
  match e with ByLog | ByKeys => 0%nat | _ => 1%nat end.
Proof.
  intros (_ & Hc & _). unfold exit_trace, start_events.
  rewrite count_occ_app, count_del_called.
  destruct e; unfold body_events, loop_events, load_events, init_events;
    rewrite ?count_occ_app, ?count_del_end, ?count_del_read, ?count_del_setup,
      ?count_del_called, ?Hc;
    done.
Qed.

(** C2: [elm_main] returns [EXIT_FAILURE] exactly when the logging
    domain is refused, the key bindings do not load or the command line
    does not parse; on every other way out, also after the messages for
    [-e] without a command and when the window cannot be created, it
    returns [EXIT_SUCCESS]. *)
Theorem elm_main_exit_status r :
  (elm_main' init').2 = Value r ->
  r = EXIT_FAILURE <->
  eina_log_domain_register < 0 \/ key_bindings_load < 0 \/
  m_args (exec elm_main' init') < 0.
Proof.
  intros (e & _ & _ & Ht & -> & _)%elm_main_returned.
  unfold taken in Ht. destruct e; cbn [exit_status]; unfold EXIT_FAILURE, EXIT_SUCCESS;
    (split; [try done|]); lia.
Qed.

(** C9: on every way out of [elm_main] that returns, the configuration
    of the instance, a copy made after the key bindings were loaded, is
    deleted exactly once, by [_start] or at the label [end]; none is
    deleted when [elm_main] leaves before the copy is made. *)
Theorem elm_main_config_del_once r :
  (elm_main' init').2 = Value r ->
  config_dels (exec elm_main' init') =
  if (eina_log_domain_register <? 0) || (key_bindings_load <? 0)
  then 0%nat else 1%nat.
Proof.
  intros (e & fm & W & Ht & _ & Hw & Htr)%elm_main_returned.
  unfold config_dels. rewrite Htr, exit_trace_dels by done.
  unfold taken in Ht. destruct e;
    destruct (Z.ltb_spec eina_log_domain_register 0),
      (Z.ltb_spec key_bindings_load 0); try done; lia.
Qed.

(** C23: when [-e] is the last argument (the parser stored into
    [cmd_options] and returned [argc]), [elm_main] prints two messages
    and shuts down without asking for a window: its calls are those of
    the start, of the command line, the two messages and the shutdown,
    and the value it returns is [EXIT_SUCCESS]. *)
Theorem elm_main_missing_argument r :
  (elm_main' init').2 = Value r ->
  0 <= eina_log_domain_register -> 0 <= key_bindings_load ->
  truthy (quit_option (m_locals (exec elm_main' init'))) = false ->
  truthy (cmd_options (m_locals (exec elm_main' init'))) = true ->
  m_args (exec elm_main' init') = argc argv ->
  r = EXIT_SUCCESS /\
  m_trace (exec elm_main' init') =
    start_events enable_nls
    ++ read_events (m_locals (exec elm_main' init'))
    ++ missing_events argv ++ end_events true enable_nls.
Proof.
  intros (e & fm & W & Ht & -> & Hw & ->)%elm_main_returned Hl Hk Hq Hc Ha.
  unfold taken in Ht. pose proof (Zle_0_nat (length argv)). unfold argc in *.
  destruct e; try (exfalso; by (lia || intuition congruence)).
  split; [done|]. unfold exit_trace, body_events. by rewrite <- !app_assoc.
Qed.

(** C24: after an option that only prints (the version, the copyright,
    the license or the help) [elm_main] goes to the label [end]: its
    calls are those of the start, of the command line and of the
    shutdown, with the configuration of the instance deleted there, and
    the value it returns is [EXIT_SUCCESS]. *)
Theorem elm_main_quit_option r :
  (elm_main' init').2 = Value r ->
  0 <= eina_log_domain_register -> 0 <= key_bindings_load ->
  0 <= m_args (exec elm_main' init') ->
  truthy (quit_option (m_locals (exec elm_main' init'))) = true ->
  r = EXIT_SUCCESS /\
  m_trace (exec elm_main' init') =
    start_events enable_nls
    ++ read_events (m_locals (exec elm_main' init'))
    ++ end_events true enable_nls.
Proof.
  intros (e & fm & W & Ht & -> & Hw & ->)%elm_main_returned Hl Hk Ha Hq.
  unfold taken in Ht.
  destruct e; try (exfalso; by (lia || intuition congruence)).
  split; [done|]. unfold exit_trace, body_events. by rewrite <- ?app_assoc.
Qed.


(** C21: [elm_main] returns a value whenever the watchdog does not
    replace the process, there is at least one argument, their number
    fits an [int], and the index the parser returns is at most [argc]:
    no loop of it runs out of fuel and no read is outside [argv]. *)
Theorem elm_main_returns :
  remote_outcome' <> None -> argv <> [] -> argc argv <= INT_MAX ->
  (forall g, (parsed g).1 <= argc argv) ->
  exists r, (elm_main' init').2 = Value r.
Proof.
  intros Hremote Hargv Hmax Hin. pose proof elm_main_paths as Hp.
  unfold wp in Hp. destruct (elm_main' init') as [s [r| |]]; simpl in *;
    [by eexists|done|exfalso].
  destruct Hp as [?|((_ & [?|[Hne (inst & Hn)]]) & Ha & g & Hg)]; try done.
  specialize (Hin g). rewrite assemble_spec in Hn by (done || lia). done.
Qed.

(** The calls known by name on each way. *)
Lemma exit_trace_calls l fm W e :
  window_calls e W ->
  omap call_name (exit_trace enable_nls argv l fm W e) =
  omap call_name (exit_trace enable_nls argv l false [] e).
Proof.
  intros (Hn & _). unfold exit_trace, body_events, setup_events.
  destruct e, fm; by rewrite ?omap_app, ?Hn.
Qed.

(** C22: once the key bindings are loaded the connection library is
    initialised on every way out, and it is shut down exactly on the way
    on which the main loop ran: every [goto end] after [ecore_con_init]
    skips [ecore_con_shutdown]. *)
Theorem elm_main_shutdown_skipped r :
  (elm_main' init').2 = Value r ->
  0 <= eina_log_domain_register -> 0 <= key_bindings_load ->
  "ecore_con_init" ∈ calls (exec elm_main' init') /\
  ("ecore_con_shutdown" ∈ calls (exec elm_main' init') <->
   "elm_run" ∈ calls (exec elm_main' init')).
Proof.
  intros (e & fm & W & Ht & _ & Hw & Htr)%elm_main_returned Hl Hk.
  unfold calls. rewrite Htr, exit_trace_calls by done.
  unfold taken in Ht. destruct e; try lia.
  all: unfold exit_trace, body_events, read_events; rewrite ?omap_app, ?calls_scale.
  all: clear; destruct enable_nls;
    repeat match goal with
           | |- context [Qlt_le_dec ?a ?b] => destruct (Qlt_le_dec a b)
           end.
  all: apply (bool_decide_unpack _); by vm_compute.
Qed.

End MainFacts.

(** ** Examples *)

Lemma assemble_spec_witness :
  assemble ["terminology"; "-e"; "ls"; "-l"] 2
    (initial_instance None Cfg.demo_config) =
  Some (if bool_decide
             (is_Some (startup_split (initial_instance None Cfg.demo_config)))
        then set_cmd (["terminology"; "-e"; "ls"; "-l"] !! Z.to_nat 2)
               (set_cmds
                  (cmds (initial_instance None Cfg.demo_config)
                   ++ drop (Z.to_nat (2 + 1)) ["terminology"; "-e"; "ls"; "-l"])
                  (initial_instance None Cfg.demo_config))
        else set_cmd
               (Some (join (drop (Z.to_nat 2) ["terminology"; "-e"; "ls"; "-l"])))
               (initial_instance None Cfg.demo_config)).
Proof. apply assemble_spec; by vm_compute. Defined.

Lemma elm_main_exit_status_witness :
  EXIT_SUCCESS = EXIT_FAILURE <->
  0 < 0 \/ 0 < 0 \/ m_args (exec (demo_main ["terminology"] 1 []) demo_init) < 0.
Proof.
  apply (@elm_main_exit_status false id (fun _ => None) "terminology" "1.13.0"
    None 0 0 Cfg.demo_config 0 ["terminology"] (demo_parse 1 []) unit
    stub_channel tt None true true 0 1920 1080 S id id []
    (fun _ => Some false) (fun _ => true) EXIT_SUCCESS).
  by vm_compute.
Defined.

Lemma elm_main_config_del_once_witness :
  config_dels (exec (demo_main ["terminology"] 1 []) demo_init) =
  if (0 <? 0) || (0 <? 0) then 0%nat else 1%nat.
Proof.
  apply (@elm_main_config_del_once false id (fun _ => None) "terminology"
    "1.13.0" None 0 0 Cfg.demo_config 0 ["terminology"] (demo_parse 1 []) unit
    stub_channel tt None true true 0 1920 1080 S id id []
    (fun _ => Some false) (fun _ => true) EXIT_SUCCESS).
  by vm_compute.
Defined.

Lemma elm_main_missing_argument_witness :
  EXIT_SUCCESS = EXIT_SUCCESS /\
  m_trace
    (exec (demo_main ["terminology"; "-e"] 2 [(v_cmd_options, SBool EINA_TRUE)])
       demo_init) =
  start_events false
  ++ read_events
       (m_locals
          (exec
             (demo_main ["terminology"; "-e"] 2
                [(v_cmd_options, SBool EINA_TRUE)])
             demo_init))
  ++ missing_events ["terminology"; "-e"] ++ end_events true false.
Proof.
  apply (@elm_main_missing_argument false id (fun _ => None) "terminology"
    "1.13.0" None 0 0 Cfg.demo_config 0 ["terminology"; "-e"]
    (demo_parse 2 [(v_cmd_options, SBool EINA_TRUE)]) unit stub_channel tt None
    true true 0 1920 1080 S id id [] (fun _ => Some false) (fun _ => true)
    EXIT_SUCCESS); by vm_compute.
Defined.

Lemma elm_main_quit_option_witness :
  EXIT_SUCCESS = EXIT_SUCCESS /\
  m_trace
    (exec
       (demo_main ["terminology"; "--help"] 2 [(v_quit_option, SBool EINA_TRUE)])
       demo_init) =
  start_events false
  ++ read_events
       (m_locals
          (exec
             (demo_main ["terminology"; "--help"] 2
                [(v_quit_option, SBool EINA_TRUE)])
             demo_init))
  ++ end_events true false.
Proof.
  apply (@elm_main_quit_option false id (fun _ => None) "terminology" "1.13.0"
    None 0 0 Cfg.demo_config 0 ["terminology"; "--help"]
    (demo_parse 2 [(v_quit_option, SBool EINA_TRUE)]) unit stub_channel tt None
    true true 0 1920 1080 S id id [] (fun _ => Some false) (fun _ => true)
    EXIT_SUCCESS); by vm_compute.
Defined.

Lemma elm_main_returns_witness :
  exists r, (demo_main ["terminology"] 1 [] demo_init).2 = Value r.
Proof.
  apply (@elm_main_returns false id (fun _ => None) "terminology" "1.13.0"
    None 0 0 Cfg.demo_config 0 ["terminology"] (demo_parse 1 []) unit
    stub_channel tt None true true 0 1920 1080 S id id []
    (fun _ => Some false) (fun _ => true)); try done; by vm_compute.
Defined.

Lemma elm_main_shutdown_skipped_witness :
  "ecore_con_init"
    ∈ calls
        (exec
           (demo_main ["terminology"; "--help"] 2
              [(v_quit_option, SBool EINA_TRUE)])
           demo_init) /\
  ("ecore_con_shutdown"
     ∈ calls
         (exec
            (demo_main ["terminology"; "--help"] 2
               [(v_quit_option, SBool EINA_TRUE)])
            demo_init) <->
   "elm_run"
     ∈ calls
         (exec
            (demo_main ["terminology"; "--help"] 2
               [(v_quit_option, SBool EINA_TRUE)])
            demo_init)).
Proof.
  apply (@elm_main_shutdown_skipped false id (fun _ => None) "terminology"
    "1.13.0" None 0 0 Cfg.demo_config 0 ["terminology"; "--help"]
    (demo_parse 2 [(v_quit_option, SBool EINA_TRUE)]) unit stub_channel tt None
    true true 0 1920 1080 S id id [] (fun _ => Some false) (fun _ => true)
    EXIT_SUCCESS); by vm_compute.
Defined.
